(* ===== verification/_CoqProject ===== *)
-Q . S2P
Prelude.v
GoUnicode.v
GoStrings.v
GoLib.v
MonitorTypes.v
Monitor.v
Queue.v
QueueExec.v
Interrupt.v
TestCase.v
Junit.v
JunitXml.v
Status.v
KubeTypes.v
MonitorApi.v
RunSuite.v
RunExec.v
RunPhases.v
MonitorHandlers.v
MonitorStart.v
Upgrade.v
Suites.v
Annotate.v
Disruption.v
UpgradeSpec.v
Builds.v
Waits.v
Streams.v
Deployments.v
GoNet.v
TokenHandlers.v
TokenCmd.v
TokenProofs.v
TokenExamples.v
GoSlice.v
Cli.v
GoSha256.v
CliUser.v
CliCleanup.v
OcHelpers.v
Csi.v
FrameworkHelpers.v
TestSetup.v
UrlTester.v
Jenkins.v
PodMetrics.v
Databases.v
ServiceHelpers.v
OAuthServer.v
AzureConfig.v
Commands.v
Programs.v
