(* ===== verification/Prelude.v ===== *)
(** * Verification of the openshift-tests extended-platform-tests driver

    The program (src/cmd/extended-platform-tests, src/pkg, src/test/e2e/upgrade,
    src/test/extended/util) selects a suite among the ginkgo specs compiled into
    the binary, runs every test of the suite in a child process of its own,
    several at a time, watches the cluster meanwhile and reports verdicts, a
    timeline and JUnit files.  This library is a shallow embedding of that
    driver, with the theorems that make its parts correct.

    ** How the parts interact

    - At start-up the labels of the tests are computed once and appended to the
      names (Annotate); the static suites (Suites) are predicates over these
      names; a command chooses a suite, filters its tests (TestCase) and hands
      them to the run command (RunSuite).
    - The run command gives the tests to the parallel queue (Queue, QueueExec);
      the function the queue calls runs the child, classifies its exit status
      and prints it (Status); the child finds the test by its name and runs its
      spec.  RunSuite takes these calls one after the other; RunExec puts them
      inside the workers of the queue, step by step, and RunPhases shows that the
      run of RunSuite is what every interleaving comes to.  Signals cancel the
      context of the run or end the process (Interrupt).
    - During the run the monitor (MonitorTypes, Monitor) collects events, from
      the availability pollers (MonitorApi) and from the watchers of pods,
      nodes, operators and events (MonitorHandlers), and answers the queries of
      the run command for the events of a window.
    - After the run the verdict, the retry of flakes, the report (Junit) and the
      file it is written to (JunitXml).
    - The tests themselves call the cluster through a client of the oc binary
      and of the API (Cli, CliUser), which their set-up and teardown share.
    - The upgrade suites run the cluster upgrade (Upgrade) as one of their specs
      (UpgradeSpec), while the invariant tests watch it (Disruption).

    ** Files

    - Prelude: tactics, the hint database, the outcome/state monad [go] of the
      Go code ([Ret], [Fail] for a returned error, [Panic]), lemmas on lists.
    - GoUnicode: the printable runes of Go 1.13 (Unicode 11), a table.
    - GoStrings, GoLib: the functions of Go's strings, strconv, fmt, time, sort
      (with the insertion sort that sort.Sort runs on short slices) and of the
      polling helpers of Kubernetes that the program uses.  [Quote] and
      [Unquote] work on bytes and on the runes they encode, as %q and
      strconv.Unquote do.
    - KubeTypes: the fields the program reads of the API types.
    - MonitorTypes, Monitor: pkg/monitor/types.go, monitor.go.
    - MonitorApi: pkg/monitor/sampler.go, api.go, cmd.go.
    - MonitorHandlers: pkg/monitor/pod.go, node.go, operator.go, event.go;
      MonitorStart: [Start] of api.go and the informers it sets up.
    - Queue: the ring and [pop] of pkg/test/ginkgo/queue.go; QueueExec: [Take]
      and [Execute] as a transition system, one step per critical section;
      Interrupt: the abort goroutine of cmd_runsuite.go and cmd.go beside it.
    - TestCase: test.go and the suites of ginkgo.go (pkg/test/ginkgo); Status:
      status.go, cmd_runtest.go; Junit: junit.go, JunitXml: its XML encoding and
      a reader of it; RunSuite: cmd_runsuite.go.
    - RunExec: [Execute] with [status.Run] as its function, the workers, the
      caller and the calls interleaving; RunPhases: the two phases of a run over
      it, related to RunSuite.
    - Upgrade: test/e2e/upgrade.  Suites: cmd/extended-platform-tests and
      test/extended/util/cloud.  Annotate: test/extended/util/test.go.
    - Disruption: test/extended/util/disruption and the chaos monkey of Kubernetes
      it runs on, as a step relation; UpgradeSpec: the spec of upgrade.go.
    - Deployments: test/extended/deployments/util.go, the helpers of the
      deployment tests (independent of the driver).
    - GoNet: what the token requests use of Go's net/http (headers),
      encoding/base64 and net/url.  TokenHandlers: basicauth.go, negotiate.go,
      multi.go of test/extended/util/oauthserver/tokencmd, one Module each;
      TokenCmd: request_token.go; TokenProofs: its theorems, against the class
      [Bounded] of handlers; TokenExamples: the cases of the unit tests.
    - Builds, Waits: the helpers of test/extended/util/framework.go and its
      neighbours that start builds and poll the API; Streams: those of image
      streams, deployment configs, endpoints and images (independent of the
      driver).
    - GoSlice: slices of Go with the arrays they share.  Cli: the client of
      test/extended/util/client.go as an object on a heap, its copies, the
      command lines and their execution.  GoSha256: SHA-256 and URL base64.
      CliUser: the users, tokens, kubeconfigs and projects of client.go, sar.go
      and oc_copy.go; CliCleanup: what is left when a test ends; OcHelpers: the
      typed clients, the commands in the background, the logs of builds and the
      executor of commands in a pod.
      Csi: test/extended/csi/install.go and the fixtures it unpacks.
    - The helpers of the tests beside the client: FrameworkHelpers: templates,
      git repositories, pods and URLs of framework.go; ServiceHelpers: router.go,
      endpoints.go, docker.go, volumes.go, assert.go; UrlTester: url/url.go;
      Jenkins: the client of util/jenkins, over UrlTester; PodMetrics:
      metrics.go; Databases: db and db_image_helpers.go; OAuthServer:
      util/oauthserver, whose options TokenCmd takes; AzureConfig: util/azure,
      the file that Suites takes as a parameter.
    - TestSetup: the set-up and the run of the specs in test.go, reporter.go.
    - Commands: the flags and the command table of openshift-tests.go.
      Programs: src/examples and pkg/version.

    A definition that translates code is preceded by a comment with the file and
    the lines; it keeps the name of the code where Rocq allows it ([Record_] and
    [Check_] stand for [Record] and [Check]).

    ** What the theorems show

    - Queue and scheduler: [pop] returns the first test that is not excluded;
      tests with the same exclusion never overlap; every test is run as often
      as it was queued when [Execute] returns uncancelled; serial tests run alone, after the
      others; every execution ends; the only way to stop before the return is
      the lost wake-up, of which an execution is given, and it cannot happen
      with one worker or without exclusions.
    - Run: the verdict of the parent is the state of the child's spec; the
      verdict of a run; a run that reads the listing of a dry run chooses the
      tests the dry run chose, whatever bytes their names hold;
      the counters of the JUnit report and of the summary; the trimming of the
      output of skipped tests; the report file is well formed and is read back
      as the report, up to the bytes XML cannot hold.
    - Interleaving: of an uncancelled run, every queued test is called, each
      call writes its two reports, neither lost nor reordered, and the calls
      never block the queue.  When no test is queued twice ([count] at most 1)
      the calls refine the sequential order in which they began, and the flags
      of each test are those of its own child; repetitions share one test, and
      what becomes of it is shown by [repeated_test_passes] and
      [count_masks_failures].  The verdict does not depend on the schedule.
      After an interruption only the tests already taken are started, and the
      process ends at the second signal it receives, with code 130 for an
      interrupt and 0 for another signal.
    - Monitor: in every reachable state the stored events are in time order, so
      the queries return exactly the events of the window; the sampled
      conditions are the maximal runs of samples; each change of availability
      is recorded once; resynchronisations are silent.
    - Upgrade: a successful upgrade was a dry run, or has read the version it
      asked for (or, after it was told to abort, the one it began with) and
      then each pool updated; the refusals of an unhealthy cluster; the
      conditions of [Reached]; the termination of the reboot requests.
    - Disruption: the disruption runs between the readiness and the end of every
      invariant test; every run ends; when the spec passes; what the report
      says (never a failure of an invariant test); what a passed upgrade spec
      has done.
    - Labels and suites: the labelling terminates in a fixed point; the split
      into literals and expressions is equivalent to the alternation; the marker
      puts a test in exactly the suites it should be in.
    - Deployments: what the checks of deployer pods and of rollouts accept, as
      predicates on the pods and the controllers; the checker that follows a
      watch agrees with the pods alive at each event; a wait for a rollout that
      succeeds has read a complete one; the creation has one try at reading the
      object back.
    - Token requests: against a handler that answers boundedly many challenges
      and a server with finitely many URLs a request ends; a token returned was
      granted by the flow for the last redirect; with the negotiating handler
      the negotiation was then complete; the basic credentials are sent only in
      answer to a basic challenge; the handler the multi-handler selects; an
      error parameter precedes a token; the negotiate token round trip.
    - Builds and waits: the flags of a build that was waited for are those of its
      last phase; what a published registry hostname was checked against; the
      usage a quota wait returns; the output of a command's pod; what was read
      last when the samples were waited for, on a cluster that may change with
      every read; what holds when an image stream or a deployment config was.
    - Clients: the command line a test runs, and that clients that share arrays
      do not interfere in it; every user, OAuth client and token a test creates
      with its own client is one its teardown deletes, unless the API answers
      that deletion with an error; the user and the token a project that was set
      up is used with; and where this ends: copies that lose resources
      ([copies_lose_resources]), kubeconfigs left behind.  However the
      installation of a CSI driver ends, it leaves nothing but fixtures.
    - Helpers: what a round of URL tests that passes has run, one script with the
      tests in order, and seen, a response for each; the
      build a Jenkins job was awaited for; when the request rates of the
      operator pods are accepted, in IEEE doubles; which databases can be waited
      for; what the deployment of an OAuth server leaves to its clean-up; what
      the substitution of variables in a template means.
    - Commands: the options field by field, each with the name of its flag; the
      copy of the output to a file; what the monitor that [Start] leaves running
      reports of a cluster.

    ** Fuel and bounds

    The loops of the code that are not structural take fuel: [label_loop] one
    more pass than there are labels ([maybeRenameTest_labels] shows it is
    enough), [triggerReboot] one more attempt than there are pods, [Search] the
    length searched.  Polling helpers take the number of ticks before the
    timeout; the wait for the pod of an OAuth server, which has none, the number
    before the process of the test is killed.  Executions of the scheduler are relations without a bound;
    [Execute_terminates] bounds them, as [disruption_ends] those of the
    disruption runner.  The loop of [RequestToken] takes as many
    rounds as its fuel: (number of answers of the handler + 1) * (number of URLs
    + 1) are enough ([RequestToken_terminates]); without a bound on the URLs no
    number is ([endless_redirects]).  [int] values are [Z]: they count tests,
    operators and lines; durations saturate as [time.Sub] does.  The reader of
    the report takes the length of the file as fuel, of which every token uses
    one byte at least.

    ** Parameters

    The API server is a record of operations ([client] in KubeTypes and Upgrade);
    the child process, the clock, signals, the JSON decoder, [sort.Sort] (by its
    documentation, [GoSort]) and the order in which Go ranges over a map are
    parameters.  So are, for the helpers, the shell and the pods commands run
    in, JSON, YAML and HTTP decoders, and general regular expressions.  So are,
    for the token requests, the transport, the verdict of [url.Parse], the osin
    client, the negotiator and the JSON decoder; for the
    commands, what pflag parsed; for the clients, the API ([oc_api], with the
    class [Accounted] for what it creates), the process of oc, random names, the
    loading of a kubeconfig and the capacity Go gives to a new array
    ([spare]); for the report, the text of a float.  The regular expressions of Annotate are the subset its tables
    use, translated in full.

    ** Not modelled

    Help texts, the internals of the informers and of HTTP, logging of the
    tests and the dumps after a failure, which only print; the set-up of
    snapshot images and the memory tracking of the Jenkins tests; the helpers
    ldap.go, nfs.go, manifest.go and auth_rule_resolver.go, which chain calls of
    the API; the bodies of the tests under test/extended, the generated test
    data, vendored code (but for the functions whose lines are given).  What is
    left of the files that are modelled is imports, comments, empty methods and
    types without a use (the lock of the queue, which does nothing, among them).
    A negative --max-parallel-tests, with which wg.Add panics, is not modelled.
    The sequential RunSuite and RunPhases are of runs that are not cancelled;
    cancelled ones are the subject of QueueExec, RunExec and Interrupt.
    Suites takes the installation of a CSI driver as a parameter, since its only
    effect there is the path or the error; Csi models it. *)

From stdpp Require Export base tactics list strings gmap sorting relations.
From Stdlib Require Export ZArith Lia.

(** ** Tactics of the development *)

(** Split every conjunction, existential and pair of the context. *)
Ltac break :=
  repeat match goal with
  | H : _ ∧ _ |- _ => destruct H
  | H : ∃ _, _ |- _ => destruct H
  | p : (_ * _)%type |- _ => destruct p
  end.

(** Case analysis on the scrutinee of a [match] or an [if], keeping the
    equation. *)
Ltac destr_match :=
  match goal with
  | |- context [match ?x with _ => _ end] => destruct x eqn:?
  | H : context [match ?x with _ => _ end] |- _ => destruct x eqn:?
  end.

(** Turn boolean tests of the context and the goal into propositions. *)
Ltac propify :=
  repeat match goal with
  | H : andb _ _ = true |- _ => apply andb_true_iff in H; destruct H
  | H : orb _ _ = false |- _ => apply orb_false_iff in H; destruct H
  | H : negb _ = true |- _ => apply negb_true_iff in H
  | H : negb _ = false |- _ => apply negb_false_iff in H
  | H : Z.ltb _ _ = true |- _ => apply Z.ltb_lt in H
  | H : Z.ltb _ _ = false |- _ => apply Z.ltb_ge in H
  | H : Z.leb _ _ = true |- _ => apply Z.leb_le in H
  | H : Z.leb _ _ = false |- _ => apply Z.leb_gt in H
  | H : Z.eqb _ _ = true |- _ => apply Z.eqb_eq in H
  | H : Z.eqb _ _ = false |- _ => apply Z.eqb_neq in H
  | H : Nat.ltb _ _ = true |- _ => apply Nat.ltb_lt in H
  | H : Nat.ltb _ _ = false |- _ => apply Nat.ltb_ge in H
  | H : Nat.leb _ _ = true |- _ => apply Nat.leb_le in H
  | H : Nat.leb _ _ = false |- _ => apply Nat.leb_gt in H
  | H : Nat.eqb _ _ = true |- _ => apply Nat.eqb_eq in H
  | H : Nat.eqb _ _ = false |- _ => apply Nat.eqb_neq in H
  | H : String.eqb _ _ = true |- _ => apply String.eqb_eq in H
  | H : String.eqb _ _ = false |- _ => apply String.eqb_neq in H
  | H : bool_decide _ = true |- _ => apply bool_decide_eq_true in H
  | H : bool_decide _ = false |- _ => apply bool_decide_eq_false in H
  end.

(** The hint database of the development: the lemmas that automate the common
    cases of list, order and well-formedness goals. *)
Create HintDb ott discriminated.

(** ** Errors, outcomes and the state monad of the Go code

    A Go function that returns [(T, error)] becomes a computation of
    [outcome T]; [panic] (and the Gomega assertions that abort a test) is the
    third outcome.  A Go [error] keeps the message the code formats and the
    kind the code dispatches on ([errors.IsNotFound], [wait.ErrWaitTimeout],
    type switches). *)

Inductive err_kind :=
| KGeneric            (* fmt.Errorf, errors.New *)
| KNotFound           (* apierrors.IsNotFound *)
| KAlreadyExists      (* apierrors.IsAlreadyExists *)
| KConflict           (* apierrors.IsConflict *)
| KExpired            (* apierrors.IsResourceExpired *)
| KForbidden          (* apierrors.IsForbidden *)
| KUnexpectedServer   (* apierrors.IsUnexpectedServerError *)
| KUnauthorized       (* apierrors.NewUnauthorized *)
| KInternal           (* apierrors.NewInternalError *)
| KWaitTimeout        (* wait.ErrWaitTimeout *)
| KExit (code : Z).   (* *exec.ExitError, ginkgo.ExitError *)

Record error := Err { err_kind_of : err_kind; err_msg : string }.

#[export] Instance err_kind_eq_dec : EqDecision err_kind.
Proof. solve_decision. Defined.
#[export] Instance error_eq_dec : EqDecision error.
Proof. solve_decision. Defined.

Definition Errorf (msg : string) : error := Err KGeneric msg.
Definition is_kind (k : err_kind) (e : error) : bool := bool_decide (err_kind_of e = k).

Inductive outcome (A : Type) :=
| Ret (a : A)
| Fail (e : error)
| Panic (msg : string).
Arguments Ret {A} a.
Arguments Fail {A} e.
Arguments Panic {A} msg.

(** [go W A]: a computation over the state [W]. *)
Definition go (W A : Type) : Type := W → outcome A * W.

Section Monad.
Context {W : Type}.

Definition ret {A} (a : A) : go W A := λ w, (Ret a, w).
Definition fail {A} (e : error) : go W A := λ w, (Fail e, w).
Definition gopanic {A} (m : string) : go W A := λ w, (Panic m, w).
Definition getw : go W W := λ w, (Ret w, w).
Definition modw (f : W → W) : go W unit := λ w, (Ret tt, f w).

Definition gobind {A B} (c : go W A) (k : A → go W B) : go W B := λ w,
  match c w with
  | (Ret a, w') => k a w'
  | (Fail e, w') => (Fail e, w')
  | (Panic m, w') => (Panic m, w')
  end.

(** The [v, err := f()] form: the error is a value the caller inspects. *)
Definition try {A} (c : go W A) : go W (A + error) := λ w,
  match c w with
  | (Ret a, w') => (Ret (inl a), w')
  | (Fail e, w') => (Ret (inr e), w')
  | (Panic m, w') => (Panic m, w')
  end.

(** A value returned together with an error. *)
Definition of_sum {A} (r : A + error) : go W A :=
  match r with inl a => ret a | inr e => fail e end.

Fixpoint for_each {A} (l : list A) (f : A → go W unit) : go W unit :=
  match l with
  | [] => ret tt
  | x :: l' => gobind (f x) (λ _, for_each l' f)
  end.
End Monad.

Declare Scope go_scope.
Delimit Scope go_scope with go.
Notation "x <-! c ;; k" := (gobind c (λ x, k))
  (at level 100, c at next level, right associativity) : go_scope.
Notation "c ;;! k" := (gobind c (λ _, k))
  (at level 100, right associativity) : go_scope.

Lemma gobind_ret {W A B} (a : A) (k : A → go W B) w : gobind (ret a) k w = k a w.
Proof. done. Qed.

Lemma gobind_Ret {W A B} (m : go W A) (k : A → go W B) w a w' :
  m w = (Ret a, w') → gobind m k w = k a w'.
Proof. unfold gobind. by intros ->. Qed.

Lemma gobind_Ret_inv {W A B} (c : go W A) (k : A → go W B) w b w' :
  gobind c k w = (Ret b, w') → ∃ a w1, c w = (Ret a, w1) ∧ k a w1 = (Ret b, w').
Proof. unfold gobind. destruct (c w) as [[a|e|m] w1]; intros; simplify_eq; eauto. Qed.

(** ** Lists *)

(** [for i := range l { if p(l[i]) { return &l[i] } }; return nil] *)
Fixpoint find_first {A} (p : A → bool) (l : list A) : option A :=
  match l with
  | [] => None
  | x :: l' => if p x then Some x else find_first p l'
  end.

Section FindFirst.
Context {A : Type} (p : A → bool).

Lemma find_first_Some l x : find_first p l = Some x → x ∈ l ∧ p x = true.
Proof.
  induction l as [|y l IH]; simpl; [done|]. destruct (p y) eqn:E.
  - intros [= ->]. split; [left|done].
  - intros [? ?]%IH. split; [by right|done].
Qed.

Lemma find_first_None l : find_first p l = None ↔ ∀ x, x ∈ l → p x = false.
Proof.
  induction l as [|y l IH]; simpl.
  - split; [|done]. intros _ x Hx. by apply elem_of_nil in Hx.
  - destruct (p y) eqn:E.
    + split; [done|]. intros H. specialize (H y). rewrite E in H.
      discriminate H. left.
    + rewrite IH. split.
      * intros H x [->|Hx]%elem_of_cons; auto.
      * intros H x Hx. apply H. by right.
Qed.

Lemma find_first_split l x :
  find_first p l = Some x ↔
  ∃ l1 l2, l = l1 ++ x :: l2 ∧ p x = true ∧ Forall (λ y, p y = false) l1.
Proof.
  split.
  - induction l as [|y l IH]; simpl; [done|]. destruct (p y) eqn:E.
    + intros [= ->]. by exists [], l.
    + intros (l1 & l2 & -> & ? & ?)%IH. exists (y :: l1), l2. auto.
  - intros (l1 & l2 & -> & Hx & Hl). induction Hl as [|y l1 Hy _ IH]; simpl.
    + by rewrite Hx.
    + by rewrite Hy.
Qed.
End FindFirst.

(** Drop the longest prefix that satisfies [p]; keep it. *)
Fixpoint take_while {A} (p : A → bool) (l : list A) : list A :=
  match l with
  | [] => []
  | x :: l' => if p x then x :: take_while p l' else []
  end.

Lemma take_while_Forall {A} (p : A → bool) l : Forall (λ x, p x = true) (take_while p l).
Proof. induction l; simpl; [constructor|]. destr_match; by constructor. Qed.

(** [filter] over a boolean test, the shape of the Go loops. *)
Fixpoint bfilter {A} (p : A → bool) (l : list A) : list A :=
  match l with
  | [] => []
  | x :: l' => if p x then x :: bfilter p l' else bfilter p l'
  end.

Section BFilter.
Context {A : Type} (p : A → bool).

Lemma elem_of_bfilter x l : x ∈ bfilter p l ↔ x ∈ l ∧ p x = true.
Proof.
  induction l as [|y l IH]; simpl.
  - rewrite elem_of_nil. tauto.
  - destruct (p y) eqn:E; rewrite !elem_of_cons, ?IH; intuition congruence.
Qed.

Lemma bfilter_app l1 l2 : bfilter p (l1 ++ l2) = bfilter p l1 ++ bfilter p l2.
Proof. induction l1; simpl; [done|]. destr_match; by rewrite IHl1. Qed.

Lemma bfilter_perm_split l : bfilter p l ++ bfilter (λ x, negb (p x)) l ≡ₚ l.
Proof.
  induction l as [|x l IH]; simpl; [done|]. destruct (p x); simpl.
  - by rewrite IH.
  - by rewrite <- Permutation_middle, IH.
Qed.

Lemma bfilter_all l : Forall (λ x, p x = true) l → bfilter p l = l.
Proof. induction 1 as [|x l Hx _ IH]; simpl; [done|]. by rewrite Hx, IH. Qed.

Lemma bfilter_none l : Forall (λ x, p x = false) l → bfilter p l = [].
Proof. induction 1 as [|x l Hx _ IH]; simpl; [done|]. by rewrite Hx, IH. Qed.

Lemma bfilter_length l : length (bfilter p l) ≤ length l.
Proof. induction l; simpl; [lia|]. destr_match; simpl; lia. Qed.

Lemma bfilter_sublist l : bfilter p l `sublist_of` l.
Proof. induction l; simpl; [done|]. destr_match; by constructor. Qed.
End BFilter.

Lemma bfilter_bfilter {A} (p q : A → bool) l :
  bfilter p (bfilter q l) = bfilter (λ x, q x && p x) l.
Proof. induction l as [|x l IH]; cbn; [done|]. destruct (q x); cbn; by rewrite IH. Qed.

Lemma bfilter_ext {A} (p q : A → bool) l : (∀ x, x ∈ l → p x = q x) → bfilter p l = bfilter q l.
Proof.
  induction l as [|x l IH]; cbn; intros H; [done|].
  rewrite (H x) by left. rewrite IH; [done|]. intros y Hy. apply H. by right.
Qed.

Lemma existsb_elem_of {A} (p : A → bool) l : existsb p l = true ↔ ∃ x, x ∈ l ∧ p x = true.
Proof. rewrite existsb_exists. by setoid_rewrite list_elem_of_In. Qed.

Lemma forallb_elem_of {A} (p : A → bool) l : forallb p l = true ↔ ∀ x, x ∈ l → p x = true.
Proof. rewrite forallb_forall. by setoid_rewrite list_elem_of_In. Qed.

Lemma bfilter_perm {A} (p : A → bool) l l' : l ≡ₚ l' → bfilter p l ≡ₚ bfilter p l'.
Proof.
  induction 1 as [|x l l' _ IH|x y l|l l' l'' _ IH1 _ IH2]; cbn; [done| | |by rewrite IH1].
  - destruct (p x); by rewrite IH.
  - destruct (p x), (p y); try done. apply Permutation_swap.
Qed.

#[export] Hint Resolve take_while_Forall bfilter_sublist bfilter_length : ott.

(** ** Relations *)

(** An invariant of the steps is an invariant of the reachable states. *)
Lemma rtc_preserve {A} (R : relation A) (P : A → Prop) x y :
  (∀ a b, R a b → P a → P b) → rtc R x y → P x → P y.
Proof. intros HP. induction 1; eauto. Qed.

Lemma list_last_cons {A} (x d : A) l : List.last (x :: l) d = List.last l x.
Proof.
  revert x. induction l as [|y l IH]; intros x; [done|].
  change (List.last (y :: l) d = List.last (y :: l) x). rewrite IH.
  symmetry. destruct l as [|z l]; [done|]. cbn. induction l in z |- *; cbn; [done|].
  destruct l; eauto.
Qed.

(** A change of one element of a sum. *)
Lemma sum_list_insert {A} (f : A → nat) l (i : nat) x y :
  l !! i = Some x → f x + sum_list_with f (<[i := y]> l) = f y + sum_list_with f l.
Proof.
  revert i. induction l as [|z l IH]; intros [|i] Hi; simplify_eq/=; [lia|].
  specialize (IH _ Hi). lia.
Qed.
