(* ===== verification/GoStrings.v ===== *)
(** * The part of Go's [strings], [strconv] and [fmt] the driver uses

    A Go [string] is a sequence of bytes: Rocq's [string] of 8-bit [ascii].
    [TrimSpace] and [ToLower] treat the ASCII range (the names, namespaces and
    log lines of the driver); [Quote] and [Unquote] are those of Go 1.13 on any
    bytes. *)

From S2P Require Import Prelude.
From S2P Require Import GoUnicode.
From stdpp Require Export pretty.


(** ** Prefixes, suffixes, substrings *)

(** [strings.HasPrefix(s, p)] *)
Fixpoint HasPrefix (s p : string) : bool :=
  match p, s with
  | EmptyString, _ => true
  | String a p', String b s' => Ascii.eqb a b && HasPrefix s' p'
  | String _ _, EmptyString => false
  end.

(** [strings.HasSuffix(s, p)] *)
Fixpoint HasSuffix (s p : string) : bool :=
  String.eqb s p || match s with EmptyString => false | String _ s' => HasSuffix s' p end.

(** [strings.Contains(s, sub)] *)
Fixpoint Contains (s sub : string) : bool :=
  HasPrefix s sub || match s with EmptyString => false | String _ s' => Contains s' sub end.

Fixpoint drop_str (n : nat) (s : string) : string :=
  match n, s with
  | O, _ => s
  | S n', String _ s' => drop_str n' s'
  | S _, EmptyString => EmptyString
  end.

(** [s[:n]] and [s[n:]] for [n] in range. *)
Fixpoint take_str (n : nat) (s : string) : string :=
  match n, s with
  | O, _ => EmptyString
  | S n', String a s' => String a (take_str n' s')
  | S _, EmptyString => EmptyString
  end.

(** [strings.TrimPrefix(s, p)] *)
Definition TrimPrefix (s p : string) : string :=
  if HasPrefix s p then drop_str (String.length p) s else s.

(** [strings.TrimSuffix(s, p)] *)
Definition TrimSuffix (s p : string) : string :=
  if HasSuffix s p then take_str (String.length s - String.length p) s else s.

(** ** White space *)

Definition is_space (c : Ascii.ascii) : bool :=
  let n := Ascii.nat_of_ascii c in (Nat.leb 9 n && Nat.leb n 13) || Nat.eqb n 32.

Fixpoint TrimLeft (s : string) : string :=
  match s with
  | String c s' => if is_space c then TrimLeft s' else s
  | EmptyString => EmptyString
  end.

Fixpoint TrimRight (s : string) : string :=
  match s with
  | EmptyString => EmptyString
  | String c s' =>
      match TrimRight s' with
      | EmptyString => if is_space c then EmptyString else String c EmptyString
      | t => String c t
      end
  end.

(** [strings.TrimSpace(s)] *)
Definition TrimSpace (s : string) : string := TrimRight (TrimLeft s).

(** [strings.Trim(s, cutset)] for a set of one character. *)
Fixpoint TrimLeftChar (x : Ascii.ascii) (s : string) : string :=
  match s with
  | String c s' => if Ascii.eqb c x then TrimLeftChar x s' else s
  | EmptyString => ""
  end.
Fixpoint TrimRightChar (x : Ascii.ascii) (s : string) : string :=
  match s with
  | String c s' =>
      match TrimRightChar x s' with
      | EmptyString => if Ascii.eqb c x then "" else String c ""
      | t => String c t
      end
  | EmptyString => ""
  end.
Definition TrimChar (x : Ascii.ascii) (s : string) : string := TrimRightChar x (TrimLeftChar x s).

(** ** Splitting and joining *)

(** [strings.Split(s, sep)] for a one-byte separator. *)
Fixpoint SplitChar (sep : Ascii.ascii) (s : string) : list string :=
  match s with
  | EmptyString => [EmptyString]
  | String c s' =>
      if Ascii.eqb c sep then EmptyString :: SplitChar sep s'
      else match SplitChar sep s' with
           | w :: ws => String c w :: ws
           | [] => [String c EmptyString]
           end
  end.

(** [strings.Split(s, sep)] for a non-empty separator: [skip] counts the bytes
    of a separator still to be consumed. *)
Fixpoint split_aux (sep : string) (skip : nat) (s : string) : list string :=
  match s with
  | EmptyString => [EmptyString]
  | String c s' =>
      match skip with
      | S k => split_aux sep k s'
      | O =>
          if HasPrefix s sep
          then EmptyString :: split_aux sep (String.length sep - 1) s'
          else match split_aux sep 0 s' with
               | w :: ws => String c w :: ws
               | [] => [String c EmptyString]
               end
      end
  end.
Definition Split (s sep : string) : list string := split_aux sep 0 s.

(** [strings.SplitN(s, sep, 2)] for a one-byte separator. *)
Fixpoint SplitN2 (sep : Ascii.ascii) (s : string) : list string :=
  match s with
  | EmptyString => [EmptyString]
  | String c s' =>
      if Ascii.eqb c sep then [EmptyString; s']
      else match SplitN2 sep s' with
           | w :: ws => String c w :: ws
           | [] => [String c EmptyString]
           end
  end.

(** [strings.Join(l, sep)] *)
Fixpoint Join (l : list string) (sep : string) : string :=
  match l with
  | [] => ""
  | [x] => x
  | x :: l' => x +:+ sep +:+ Join l' sep
  end.

(** [strings.Replace(s, old, new, -1)] for a non-empty [old]. *)
Definition Replace (s old new : string) : string := Join (Split s old) new.

(** [strings.ToLower(s)] on the ASCII range. *)
Fixpoint ToLower (s : string) : string :=
  match s with
  | EmptyString => EmptyString
  | String c s' =>
      let n := Ascii.nat_of_ascii c in
      String (if Nat.leb 65 n && Nat.leb n 90 then Ascii.ascii_of_nat (n + 32) else c)
             (ToLower s')
  end.

(** [strings.LastIndex(s, "c")] for one byte [c]; [None] is Go's [-1]. *)
Fixpoint LastIndexChar (s : string) (c : Ascii.ascii) : option nat :=
  match s with
  | EmptyString => None
  | String a s' =>
      match LastIndexChar s' c with
      | Some i => Some (S i)
      | None => if Ascii.eqb a c then Some 0 else None
      end
  end.

(** Go's [<] on strings: byte-wise lexicographic. *)
Definition str_lt (s t : string) : bool := String.ltb s t.

(** ** Formatting *)

Definition nl_char : Ascii.ascii := Ascii.ascii_of_nat 10.
Definition quote_char : Ascii.ascii := Ascii.ascii_of_nat 34.
Definition backslash_char : Ascii.ascii := Ascii.ascii_of_nat 92.
Definition nl : string := String nl_char "".
Definition dquote : string := String quote_char "".
Definition backslash : string := String backslash_char "".

(** [%d] and [strconv.Itoa] *)
Definition itoa (z : Z) : string := pretty z.

Fixpoint repeat_str (n : nat) (c : string) : string :=
  match n with O => "" | S n' => c +:+ repeat_str n' c end.

(** [%0wd] for a non-negative number. *)
Definition zero_pad (w : nat) (z : Z) : string :=
  let s := itoa z in repeat_str (w - String.length s) "0" +:+ s.

(** [%-ws]: left-justified in [w] columns. *)
Definition pad_right (w : nat) (s : string) : string :=
  s +:+ repeat_str (w - String.length s) " ".

(** [%t], [%v] of a bool *)
Definition btoa (b : bool) : string := if b then "true" else "false".

Definition hex_digit (n : nat) : Ascii.ascii :=
  if Nat.ltb n 10 then Ascii.ascii_of_nat (48 + n) else Ascii.ascii_of_nat (87 + n).

(** *** Runes *)

Definition byte_of (z : Z) : Ascii.ascii := Ascii.ascii_of_nat (Z.to_nat z).
Definition byte_val (c : Ascii.ascii) : Z := Z.of_nat (Ascii.nat_of_ascii c).
Definition between (lo hi : Z) (c : Ascii.ascii) : bool := (lo <=? byte_val c)%Z && (byte_val c <=? hi)%Z.

(** [utf8.DecodeRuneInString] of [String c s]: the rune and its width, or
    [None] for a byte that begins none. *)
Definition DecodeRune (c : Ascii.ascii) (s : string) : option (Z * nat) :=
  let b := byte_val c in
  let low c := (byte_val c - 128)%Z in
  if (b <? 128)%Z then Some (b, 1)
  else if between 194 223 c then
    match s with
    | String c1 _ => if between 128 191 c1 then Some (((b - 192) * 64 + low c1)%Z, 2) else None
    | _ => None
    end
  else if between 224 239 c then
    match s with
    | String c1 (String c2 _) =>
        if between (if (b =? 224)%Z then 160 else 128) (if (b =? 237)%Z then 159 else 191) c1 &&
           between 128 191 c2
        then Some (((b - 224) * 4096 + low c1 * 64 + low c2)%Z, 3) else None
    | _ => None
    end
  else if between 240 244 c then
    match s with
    | String c1 (String c2 (String c3 _)) =>
        if between (if (b =? 240)%Z then 144 else 128) (if (b =? 244)%Z then 143 else 191) c1 &&
           between 128 191 c2 && between 128 191 c3
        then Some (((b - 240) * 262144 + low c1 * 4096 + low c2 * 64 + low c3)%Z, 4) else None
    | _ => None
    end
  else None.

(** [utf8.EncodeRune]; surrogates become U+FFFD. *)
Definition EncodeRune (r : Z) : string :=
  if (r <? 128)%Z then String (byte_of r) ""
  else if (r <? 2048)%Z then
    String (byte_of (192 + r / 64)) (String (byte_of (128 + r mod 64)) "")
  else
    let r := if (55296 <=? r)%Z && (r <=? 57343)%Z then 65533%Z else r in
    if (r <? 65536)%Z then
      String (byte_of (224 + r / 4096))
        (String (byte_of (128 + (r / 64) mod 64)) (String (byte_of (128 + r mod 64)) ""))
    else
      String (byte_of (240 + r / 262144))
        (String (byte_of (128 + (r / 4096) mod 64))
          (String (byte_of (128 + (r / 64) mod 64)) (String (byte_of (128 + r mod 64)) ""))).

(** *** [strconv.Quote] *)

(** The last [k] digits of a number in base 16. *)
Fixpoint hex_str (k : nat) (r : Z) : string :=
  match k with
  | O => ""
  | S k' => String (hex_digit (Z.to_nat ((r / 16 ^ Z.of_nat k') mod 16))) (hex_str k' r)
  end.

(** A rune that is copied, and the escape of one that is not. *)
Definition verbatim (r : Z) : bool := IsPrint r && negb (r =? 34)%Z && negb (r =? 92)%Z.
Definition escape_rune (r : Z) : string :=
  backslash +:+
  (if (r =? 34)%Z || (r =? 92)%Z then String (byte_of r) ""
   else if (r =? 7)%Z then "a"
   else if (r =? 8)%Z then "b"
   else if (r =? 12)%Z then "f"
   else if (r =? 10)%Z then "n"
   else if (r =? 13)%Z then "r"
   else if (r =? 9)%Z then "t"
   else if (r =? 11)%Z then "v"
   else if (r <? 32)%Z then "x" +:+ hex_str 2 r
   else if (r <? 65536)%Z then "u" +:+ hex_str 4 r
   else "U" +:+ hex_str 8 r).

(** What is to be done with the bytes of a rune after its first. *)
Inductive rest_bytes := KeepNext (n : nat) | SkipNext (n : nat).

(** A byte that begins no rune is escaped by itself. *)
Fixpoint quote_from (st : rest_bytes) (s : string) : string :=
  match s with
  | EmptyString => ""
  | String c s' =>
      match st with
      | KeepNext (S n) => String c (quote_from (KeepNext n) s')
      | SkipNext (S n) => quote_from (SkipNext n) s'
      | _ =>
          match DecodeRune c s' with
          | Some (r, w) =>
              if verbatim r then String c (quote_from (KeepNext (w - 1)) s')
              else escape_rune r +:+ quote_from (SkipNext (w - 1)) s'
          | None => (backslash +:+ "x" +:+ hex_str 2 (byte_val c)) +:+ quote_from (KeepNext 0) s'
          end
      end
  end.
Definition quote_bytes (s : string) : string := quote_from (KeepNext 0) s.

(** [%q], [strconv.Quote(s)] *)
Definition Quote (s : string) : string := dquote +:+ quote_bytes s +:+ dquote.

(** ** [strconv.Unquote] of a double-quoted literal *)

Definition hex_val (c : Ascii.ascii) : option Z :=
  let n := Z.of_nat (Ascii.nat_of_ascii c) in
  if (48 <=? n)%Z && (n <=? 57)%Z then Some (n - 48)%Z
  else if (97 <=? n)%Z && (n <=? 102)%Z then Some (n - 87)%Z
  else if (65 <=? n)%Z && (n <=? 70)%Z then Some (n - 55)%Z
  else None.

Definition oct_val (c : Ascii.ascii) : option Z :=
  let n := Z.of_nat (Ascii.nat_of_ascii c) in
  if (48 <=? n)%Z && (n <=? 55)%Z then Some (n - 48)%Z else None.

(** [n] digits in base [b], and the rest of the input. *)
Fixpoint digits (val : Ascii.ascii → option Z) (b : Z) (n : nat) (acc : Z) (s : string)
  : option (Z * string) :=
  match n, s with
  | O, _ => Some (acc, s)
  | S n', String c s' =>
      match val c with
      | Some v => digits val b n' (acc * b + v)%Z s'
      | None => None
      end
  | S _, EmptyString => None
  end.

(** An escape sequence after the backslash: the bytes it stands for and the
    rest.  [\'] is an error inside double quotes. *)
Definition unquote_escape (c : Ascii.ascii) (s : string) : option (string * string) :=
  let n := Ascii.nat_of_ascii c in
  let one k := Some (String (Ascii.ascii_of_nat k) "", s) in
  if Nat.eqb n 97 then one 7
  else if Nat.eqb n 98 then one 8
  else if Nat.eqb n 102 then one 12
  else if Nat.eqb n 110 then one 10
  else if Nat.eqb n 114 then one 13
  else if Nat.eqb n 116 then one 9
  else if Nat.eqb n 118 then one 11
  else if Nat.eqb n 92 || Nat.eqb n 34 then one n
  else if Nat.eqb n 120 then
    match digits hex_val 16 2 0 s with
    | Some (v, s') => Some (String (byte_of v) "", s')
    | None => None
    end
  else if Nat.eqb n 117 || Nat.eqb n 85 then
    match digits hex_val 16 (if Nat.eqb n 117 then 4 else 8) 0 s with
    | Some (v, s') => if (v <=? 1114111)%Z then Some (EncodeRune v, s') else None
    | None => None
    end
  else match digits oct_val 8 3 0 (String c s) with
       | Some (v, s') => if (v <=? 255)%Z then Some (String (byte_of v) "", s') else None
       | None => None
       end.

(** The body between the quotes; bytes that begin no rune become U+FFFD.
    [fuel] bounds the number of characters: the length of the body is enough,
    every step consumes a byte. *)
Fixpoint unquote_body (fuel : nat) (s : string) : option string :=
  match s with
  | EmptyString => Some ""
  | String c s' =>
      match fuel with
      | O => None
      | S f =>
          if Ascii.eqb c quote_char || Ascii.eqb c nl_char then None
          else if Ascii.eqb c backslash_char then
            match s' with
            | EmptyString => None
            | String e s'' =>
                match unquote_escape e s'' with
                | Some (b, rest) => (String.append b) <$> unquote_body f rest
                | None => None
                end
            end
          else
            match DecodeRune c s' with
            | Some (r, w) => String.append (EncodeRune r) <$> unquote_body f (drop_str (w - 1) s')
            | None => String.append (EncodeRune 65533) <$> unquote_body f s'
            end
      end
  end.

(** [strconv.Unquote(s)] for an [s] that starts with a double quote. *)
Definition Unquote (s : string) : option string :=
  match s with
  | String q s' =>
      if Ascii.eqb q quote_char && HasSuffix s' dquote
      then let body := TrimSuffix s' dquote in unquote_body (String.length body) body
      else None
  | EmptyString => None
  end.

(** ** Laws *)

Lemma str_app_cons c s t : String c s +:+ t = String c (s +:+ t).
Proof. done. Qed.
Lemma str_app_nil_l s : "" +:+ s = s.
Proof. done. Qed.
Lemma str_app_nil_r s : s +:+ "" = s.
Proof. induction s as [|c s IH]; [done|]. by rewrite str_app_cons, IH. Qed.
Lemma str_app_assoc s t u : (s +:+ t) +:+ u = s +:+ t +:+ u.
Proof. induction s as [|c s IH]; [done|]. by rewrite !str_app_cons, IH. Qed.
Lemma str_length_app s t : String.length (s +:+ t) = String.length s + String.length t.
Proof. induction s as [|c s IH]; [done|]. rewrite str_app_cons. simpl. by rewrite IH. Qed.
Lemma take_str_app s t : take_str (String.length s) (s +:+ t) = s.
Proof.
  induction s as [|c s IH]; [by destruct t|]. rewrite str_app_cons. simpl. by rewrite IH.
Qed.
Lemma drop_str_app s t : drop_str (String.length s) (s +:+ t) = t.
Proof. induction s as [|c s IH]; [done|]. rewrite str_app_cons. simpl. done. Qed.
Lemma take_drop_str n s : take_str n s +:+ drop_str n s = s.
Proof.
  revert s. induction n as [|n IH]; intros [|c s]; try done.
  simpl. by rewrite str_app_cons, IH.
Qed.

Create Rewrite HintDb str.
#[export] Hint Rewrite str_app_cons str_app_nil_l str_app_nil_r str_app_assoc
  str_length_app take_str_app drop_str_app : str.

Lemma HasPrefix_spec s p : HasPrefix s p = true ↔ ∃ r, s = p +:+ r.
Proof.
  revert s. induction p as [|a p IH]; intros s.
  - simpl. destruct s; naive_solver.
  - destruct s as [|b s]; simpl.
    + split; [done|]. intros [r Hr]. by rewrite str_app_cons in Hr.
    + rewrite andb_true_iff, IH, Ascii.eqb_eq. setoid_rewrite str_app_cons.
      split; [intros [-> [r ->]]; eauto|]. intros [r [= -> ->]]. eauto.
Qed.

Lemma HasPrefix_app p r : HasPrefix (p +:+ r) p = true.
Proof. apply HasPrefix_spec. eauto. Qed.

Lemma Contains_spec s sub : Contains s sub = true ↔ ∃ a b, s = a +:+ sub +:+ b.
Proof.
  induction s as [|c s IH].
  - cbn [Contains]. rewrite orb_false_r, HasPrefix_spec. split.
    + intros [r Hr]. by exists "", r.
    + intros ([|] & b & Hb); [by exists b|done].
  - cbn [Contains]. rewrite orb_true_iff, HasPrefix_spec, IH. split.
    + intros [[r Hr]|(a & b & ->)]; [by exists "", r|]. by exists (String c a), b.
    + intros ([|c' a] & b & Hb); [left; by exists b|].
      rewrite str_app_cons in Hb. injection Hb as -> ->. right. eauto.
Qed.

Lemma Contains_app_l s t sub : Contains s sub = true → Contains (s +:+ t) sub = true.
Proof.
  rewrite !Contains_spec. intros (a & b & ->). exists a, (b +:+ t).
  by rewrite !str_app_assoc.
Qed.
Lemma Contains_app_r s t sub : Contains t sub = true → Contains (s +:+ t) sub = true.
Proof.
  rewrite !Contains_spec. intros (a & b & ->). exists (s +:+ a), b.
  by rewrite !str_app_assoc.
Qed.
Lemma Contains_self s : Contains s s = true.
Proof. apply Contains_spec. exists "", "". by autorewrite with str. Qed.
Lemma Contains_trans s t u : Contains s t = true → Contains t u = true → Contains s u = true.
Proof. intros (a & b & ->)%Contains_spec H. by apply Contains_app_r, Contains_app_l. Qed.

Lemma HasSuffix_spec s p : HasSuffix s p = true ↔ ∃ r, s = r +:+ p.
Proof.
  induction s as [|c s IH]; cbn [HasSuffix].
  - rewrite orb_false_r, String.eqb_eq. split.
    + intros <-. by exists "".
    + intros ([|] & Hr); done.
  - rewrite orb_true_iff, IH, String.eqb_eq. split.
    + intros [<-|[r ->]]; [by exists ""|]. by exists (String c r).
    + intros ([|c' r] & Hr); [by left|]. rewrite str_app_cons in Hr.
      injection Hr as -> ->. right. eauto.
Qed.

Lemma HasSuffix_app r p : HasSuffix (r +:+ p) p = true.
Proof. apply HasSuffix_spec. eauto. Qed.

Lemma TrimSuffix_app r p : TrimSuffix (r +:+ p) p = r.
Proof.
  unfold TrimSuffix. rewrite HasSuffix_app, str_length_app.
  replace (_ + _ - _) with (String.length r) by lia. apply take_str_app.
Qed.

#[export] Hint Resolve HasPrefix_app HasSuffix_app Contains_self Contains_app_l
  Contains_app_r : ott.

(** [Unquote] inverts [Quote]. *)

Lemma byte_val_byte c : byte_of (byte_val c) = c.
Proof. unfold byte_of, byte_val. by rewrite Nat2Z.id, Ascii.ascii_nat_embedding. Qed.

Lemma byte_val_range c : (0 ≤ byte_val c < 256)%Z.
Proof. unfold byte_val. pose proof (Ascii.nat_ascii_bounded c). lia. Qed.

Lemma between_spec lo hi c : between lo hi c = true ↔ (lo ≤ byte_val c ≤ hi)%Z.
Proof. unfold between. rewrite andb_true_iff, !Z.leb_le. done. Qed.

(** All the bytes of [t] are above 127. *)
Fixpoint high (t : string) : Prop :=
  match t with EmptyString => True | String c t' => (128 ≤ byte_val c)%Z ∧ high t' end.

Lemma byte_of_eq z c : z = byte_val c → byte_of z = c.
Proof. intros ->. apply byte_val_byte. Qed.

Ltac encode_bytes :=
  try match goal with
  | |- context [((55296 <=? ?r) && (?r <=? 57343))%Z] =>
      assert ((55296 <=? r) && (r <=? 57343) = false)%Z as -> by (apply andb_false_iff; rewrite !Z.leb_gt; lia)
  end;
  repeat match goal with
  | |- context [(?x <? ?y)%Z] => destruct (Z.ltb_spec x y); try lia
  end;
  repeat (f_equal; try (apply byte_of_eq; Z.to_euclidean_division_equations; lia)).

Lemma EncodeRune_2 c c1 :
  (194 ≤ byte_val c ≤ 223)%Z → (128 ≤ byte_val c1 ≤ 191)%Z →
  EncodeRune ((byte_val c - 192) * 64 + (byte_val c1 - 128)) = String c (String c1 "").
Proof.
  intros H1 H2. unfold EncodeRune. cbv zeta.
  destruct (Z.ltb_spec ((byte_val c - 192) * 64 + (byte_val c1 - 128)) 2048); [|lia]. encode_bytes.
Qed.

Lemma EncodeRune_3 c c1 c2 (r := ((byte_val c - 224) * 4096 + (byte_val c1 - 128) * 64 + (byte_val c2 - 128))%Z) :
  (224 ≤ byte_val c ≤ 239)%Z → (128 ≤ byte_val c1 ≤ 191)%Z → (128 ≤ byte_val c2 ≤ 191)%Z →
  (2048 ≤ r)%Z → ¬ (55296 ≤ r ≤ 57343)%Z → EncodeRune r = String c (String c1 (String c2 "")).
Proof. subst r. intros H1 H2 H3 H4 H5. unfold EncodeRune. cbv zeta. encode_bytes. Qed.

Lemma EncodeRune_4 c c1 c2 c3
    (r := ((byte_val c - 240) * 262144 + (byte_val c1 - 128) * 4096 + (byte_val c2 - 128) * 64 + (byte_val c3 - 128))%Z) :
  (240 ≤ byte_val c ≤ 244)%Z → (128 ≤ byte_val c1 ≤ 191)%Z → (128 ≤ byte_val c2 ≤ 191)%Z →
  (128 ≤ byte_val c3 ≤ 191)%Z → (65536 ≤ r)%Z → EncodeRune r = String c (String c1 (String c2 (String c3 ""))).
Proof. subst r. intros H1 H2 H3 H4 H5. unfold EncodeRune. cbv zeta. encode_bytes. Qed.

(** A rune that is decoded: its bytes are those it is encoded to, and nothing
    after them matters. *)
Lemma DecodeRune_spec c s r w :
  DecodeRune c s = Some (r, w) →
  ∃ t u, s = t +:+ u ∧ w = S (String.length t) ∧ high t ∧ EncodeRune r = String c t ∧
    (∀ u', DecodeRune c (t +:+ u') = Some (r, w)) ∧ (0 ≤ r ≤ 1114111)%Z ∧
    ((byte_val c < 128 ∧ r = byte_val c)%Z ∧ t = "" ∨ (128 ≤ byte_val c ∧ 128 ≤ r)%Z).
Proof.
  pose proof (byte_val_range c) as Hb. unfold DecodeRune.
  destruct (Z.ltb_spec (byte_val c) 128) as [Hc|Hc].
  { intros [= <- <-]. exists "", s. do 3 (split; [done|]). split.
    - unfold EncodeRune. by rewrite (proj2 (Z.ltb_lt _ _) Hc), byte_val_byte.
    - split; [done|]. split; [lia|by left]. }
  destruct (between 194 223 c) eqn:H2; [apply between_spec in H2|
    destruct (between 224 239 c) eqn:H3; [apply between_spec in H3|
      destruct (between 240 244 c) eqn:H4; [apply between_spec in H4|done]]].
  - destruct s as [|c1 s]; [done|]. destruct (between 128 191 c1) eqn:H1; [|done].
    pose proof H1 as H1'. apply between_spec in H1. intros [= <- <-]. exists (String c1 ""), s.
    do 2 (split; [done|]). split; [cbn; lia|]. split; [by apply EncodeRune_2|].
    split; [intros u'; rewrite !str_app_cons, ?str_app_nil_l; by rewrite H1'|]. lia.
  - destruct s as [|c1 [|c2 s]]; [done..|]. destruct (_ && _) eqn:H1; [|done].
    pose proof H1 as H1'. apply andb_true_iff in H1 as [H1 Hc2]. apply between_spec in H1, Hc2.
    intros [= <- <-]. exists (String c1 (String c2 "")), s.
    assert (128 ≤ byte_val c1 ≤ 191 ∧ (byte_val c = 224 → 160 ≤ byte_val c1) ∧
            (byte_val c = 237 → byte_val c1 ≤ 159))%Z as (Hc1 & Hlo & Hhi).
    { destruct (Z.eqb_spec (byte_val c) 224), (Z.eqb_spec (byte_val c) 237); lia. }
    do 2 (split; [done|]). split; [cbn; lia|]. split; [apply EncodeRune_3; lia|].
    split; [intros u'; rewrite !str_app_cons, ?str_app_nil_l; by rewrite H1'|]. lia.
  - destruct s as [|c1 [|c2 [|c3 s]]]; [done..|]. destruct (_ && _ && _) eqn:H1; [|done].
    pose proof H1 as H1'. rewrite !andb_true_iff, !between_spec in H1. destruct H1 as [[H1 Hc2] Hc3].
    intros [= <- <-]. exists (String c1 (String c2 (String c3 ""))), s.
    assert (128 ≤ byte_val c1 ≤ 191 ∧ (byte_val c = 240 → 144 ≤ byte_val c1) ∧
            (byte_val c = 244 → byte_val c1 ≤ 143))%Z as (Hc1 & Hlo & Hhi).
    { destruct (Z.eqb_spec (byte_val c) 240), (Z.eqb_spec (byte_val c) 244); lia. }
    do 2 (split; [done|]). split; [cbn; lia|]. split; [apply EncodeRune_4; lia|].
    split; [intros u'; rewrite !str_app_cons, ?str_app_nil_l; by rewrite H1'|]. lia.
Qed.

Lemma hex_val_digit n : n < 16 → hex_val (hex_digit n) = Some (Z.of_nat n).
Proof. intros Hn. do 16 (destruct n as [|n]; [reflexivity|]). lia. Qed.

Lemma digits_hex k acc r t :
  (0 ≤ r)%Z →
  digits hex_val 16 k acc (hex_str k r +:+ t) = Some ((acc * 16 ^ Z.of_nat k + r mod 16 ^ Z.of_nat k)%Z, t).
Proof.
  intros Hr. revert acc. induction k as [|k IH]; intros acc.
  { rewrite str_app_nil_l. cbn [digits]. rewrite Z.pow_0_r, Z.mod_1_r. do 2 f_equal. lia. }
  cbn [hex_str]. rewrite str_app_cons. cbn [digits].
  pose proof (Z.mod_pos_bound (r / 16 ^ Z.of_nat k) 16 ltac:(lia)).
  rewrite hex_val_digit by lia. rewrite Z2Nat.id by lia. rewrite IH.
  rewrite Nat2Z.inj_succ, Z.pow_succ_r by lia. do 2 f_equal.
  rewrite (Z.mul_comm 16 (16 ^ _)), (Z.rem_mul_r r (16 ^ Z.of_nat k) 16) by lia. lia.
Qed.

Lemma quote_from_keep t u : quote_from (KeepNext (String.length t)) (t +:+ u) = t +:+ quote_bytes u.
Proof. induction t as [|c t IH]; [done|]. rewrite !str_app_cons. cbn. by rewrite IH. Qed.

Lemma quote_from_skip t u : quote_from (SkipNext (String.length t)) (t +:+ u) = quote_bytes u.
Proof. induction t as [|c t IH]; [by destruct u|]. rewrite str_app_cons. cbn. by rewrite IH. Qed.

Lemma EncodeRune_ascii r : (r < 128)%Z → EncodeRune r = String (byte_of r) "".
Proof. intros H. unfold EncodeRune. by rewrite (proj2 (Z.ltb_lt _ _) H). Qed.

Lemma unquote_x s :
  unquote_escape (Ascii.ascii_of_nat 120) s =
  match digits hex_val 16 2 0 s with Some (v, t) => Some (String (byte_of v) "", t) | None => None end.
Proof. reflexivity. Qed.
Lemma unquote_u s :
  unquote_escape (Ascii.ascii_of_nat 117) s =
  match digits hex_val 16 4 0 s with
  | Some (v, t) => if (v <=? 1114111)%Z then Some (EncodeRune v, t) else None | None => None end.
Proof. reflexivity. Qed.
Lemma unquote_U s :
  unquote_escape (Ascii.ascii_of_nat 85) s =
  match digits hex_val 16 8 0 s with
  | Some (v, t) => if (v <=? 1114111)%Z then Some (EncodeRune v, t) else None | None => None end.
Proof. reflexivity. Qed.

(** An escape sequence stands for its rune. *)
Lemma escape_rune_unquoted r :
  (0 ≤ r ≤ 1114111)%Z →
  ∃ e x, escape_rune r = String backslash_char (String e x) ∧
    ∀ t, unquote_escape e (x +:+ t) = Some (EncodeRune r, t).
Proof.
  intros Hr. unfold escape_rune, backslash. rewrite str_app_cons, str_app_nil_l.
  repeat match goal with
  | |- context [(r =? ?k)%Z] => destruct (Z.eqb_spec r k) as [->|]; [do 2 eexists; split; reflexivity|]
  end. cbn [orb].
  destruct (Z.ltb_spec r 32); [|destruct (Z.ltb_spec r 65536)]; rewrite str_app_cons, str_app_nil_l;
    do 2 eexists; (split; [reflexivity|]); intros t.
  - rewrite unquote_x, digits_hex, EncodeRune_ascii, Z.mod_small by lia. done.
  - rewrite unquote_u, digits_hex, Z.mod_small by lia. cbn [Z.mul]. by rewrite Z.add_0_l, (proj2 (Z.leb_le _ _)) by lia.
  - rewrite unquote_U, digits_hex, Z.mod_small by lia. cbn [Z.mul]. by rewrite Z.add_0_l, (proj2 (Z.leb_le _ _)) by lia.
Qed.

(** The first byte of a rune that is copied is no delimiter. *)
Lemma verbatim_first c r k :
  (byte_val c < 128 ∧ r = byte_val c ∨ 128 ≤ byte_val c)%Z → verbatim r = true →
  (k < 128)%nat → verbatim (Z.of_nat k) = false → Ascii.eqb c (Ascii.ascii_of_nat k) = false.
Proof.
  intros Hc Hv Hk Hn. apply Ascii.eqb_neq. intros ->. unfold byte_val in Hc.
  rewrite Ascii.nat_ascii_embedding in Hc by lia. destruct Hc as [[_ ->]|?]; [congruence|lia].
Qed.

Lemma unquote_body_escape fuel e s :
  unquote_body (S fuel) (String backslash_char (String e s)) =
  match unquote_escape e s with Some (b, t) => String.append b <$> unquote_body fuel t | None => None end.
Proof. reflexivity. Qed.

Lemma unquote_body_quote n s fuel :
  String.length s ≤ n → String.length (quote_bytes s) ≤ fuel → unquote_body fuel (quote_bytes s) = Some s.
Proof.
  revert s fuel. induction n as [|n IH]; intros [|c s] fuel Hn Hf; try (by destruct fuel); [cbn in Hn; lia|].
  cbn [String.length] in Hn. unfold quote_bytes in Hf |- *. cbn [quote_from] in Hf |- *.
  destruct (DecodeRune c s) as [[r w]|] eqn:Hd.
  - destruct (DecodeRune_spec _ _ _ _ Hd) as (t & u & -> & -> & _ & He & Ht & Hr & Hc).
    rewrite str_length_app in Hn. destruct (verbatim r) eqn:Hv; cbn [Nat.sub] in Hf |- *.
    + rewrite Nat.sub_0_r in Hf |- *. rewrite quote_from_keep in Hf |- *.
      destruct fuel as [|fuel]; [cbn in Hf; lia|]. cbn [String.length] in Hf. rewrite str_length_app in Hf.
      cbn [unquote_body].
      assert (byte_val c < 128 ∧ r = byte_val c ∨ 128 ≤ byte_val c)%Z as Hc' by naive_solver.
      assert (Ascii.eqb c quote_char = false) as ->
        by (apply (verbatim_first c r 34 Hc' Hv); [lia|vm_compute; reflexivity]).
      assert (Ascii.eqb c nl_char = false) as ->
        by (apply (verbatim_first c r 10 Hc' Hv); [lia|vm_compute; reflexivity]).
      assert (Ascii.eqb c backslash_char = false) as ->
        by (apply (verbatim_first c r 92 Hc' Hv); [lia|vm_compute; reflexivity]).
      cbn [orb]. rewrite Ht. cbn [Nat.sub]. rewrite Nat.sub_0_r, drop_str_app, IH by lia. by rewrite He.
    + rewrite Nat.sub_0_r in Hf |- *. rewrite quote_from_skip in Hf |- *.
      destruct (escape_rune_unquoted r Hr) as (e & x & Hx & Hu). rewrite Hx, str_app_cons in Hf |- *.
      destruct fuel as [|fuel]; [cbn in Hf; lia|]. cbn [String.length] in Hf.
      rewrite str_app_cons in Hf |- *. cbn [String.length] in Hf. rewrite str_length_app in Hf.
      rewrite unquote_body_escape, Hu, IH by lia. by rewrite He.
  - pose proof (byte_val_range c). rewrite !str_app_assoc in Hf |- *. unfold backslash in Hf |- *.
    rewrite !str_app_cons, !str_app_nil_l in Hf |- *. cbn [String.length] in Hf. rewrite str_length_app in Hf.
    destruct fuel as [|fuel]; [lia|].
    rewrite unquote_body_escape, (unquote_x (hex_str 2 (byte_val c) +:+ _)), digits_hex, Z.mod_small by lia. cbn [Z.mul]. rewrite Z.add_0_l, byte_val_byte.
    unfold quote_bytes in IH. by rewrite IH by lia.
Qed.

Lemma Unquote_Quote s : Unquote (Quote s) = Some s.
Proof.
  unfold Quote, dquote at 1. rewrite str_app_cons, str_app_nil_l. cbn [Unquote].
  rewrite Ascii.eqb_refl, HasSuffix_app, TrimSuffix_app. by apply (unquote_body_quote (String.length s)).
Qed.

(** A rune that is printable, one that is not, and a byte that is none. *)
Example Quote_bytes :
  Quote (String (byte_of 195) (String (byte_of 169) "")) =
    dquote +:+ String (byte_of 195) (String (byte_of 169) dquote) ∧
  Quote (String (byte_of 194) (String (byte_of 160) "")) = dquote +:+ backslash +:+ "u00a0" +:+ dquote ∧
  Quote (String (byte_of 169) "") = dquote +:+ backslash +:+ "xa9" +:+ dquote ∧
  Unquote (dquote +:+ String (byte_of 169) dquote) = Some (EncodeRune 65533).
Proof. repeat split. Qed.

(** A quoted string survives [TrimSpace] and contains no newline. *)

Lemma TrimRight_app_char s c :
  is_space c = false → TrimRight (s +:+ String c "") = s +:+ String c "".
Proof.
  intros Hc. induction s as [|a s IH].
  - rewrite str_app_nil_l. unfold TrimRight. by rewrite Hc.
  - rewrite str_app_cons. cbn [TrimRight]. rewrite IH. by destruct s.
Qed.

Lemma TrimSpace_Quote s : TrimSpace (Quote s) = Quote s.
Proof.
  unfold TrimSpace, Quote, dquote. rewrite str_app_cons, str_app_nil_l. cbn [TrimLeft].
  change (is_space quote_char) with false. cbn iota. rewrite <- str_app_cons.
  by apply TrimRight_app_char.
Qed.

(** No byte of [s] is [c]. *)
Fixpoint str_free (c : Ascii.ascii) (s : string) : bool :=
  match s with
  | EmptyString => true
  | String a s' => negb (Ascii.eqb a c) && str_free c s'
  end.

Lemma str_free_app c s t : str_free c (s +:+ t) = str_free c s && str_free c t.
Proof.
  induction s as [|a s IH]; [done|]. rewrite str_app_cons. cbn. rewrite IH.
  by rewrite andb_assoc.
Qed.

Lemma hex_str_no_nl k r : str_free nl_char (hex_str k r) = true.
Proof.
  induction k as [|k IH]; [done|]. cbn [hex_str str_free]. rewrite IH, andb_true_r.
  pose proof (Z.mod_pos_bound (r / 16 ^ Z.of_nat k) 16 ltac:(lia)) as H.
  assert (Z.to_nat ((r / 16 ^ Z.of_nat k) mod 16) < 16) as H' by lia.
  revert H'. generalize (Z.to_nat ((r / 16 ^ Z.of_nat k) mod 16)). intros n Hn.
  do 16 (destruct n as [|n]; [reflexivity|]). lia.
Qed.

Lemma escape_rune_no_nl r : str_free nl_char (escape_rune r) = true.
Proof.
  unfold escape_rune. rewrite str_free_app.
  repeat match goal with
  | |- context [(r =? ?k)%Z] => destruct (Z.eqb_spec r k) as [->|]; [reflexivity|]
  end. cbn [orb].
  destruct (Z.ltb_spec r 32); [|destruct (Z.ltb_spec r 65536)]; by rewrite str_free_app, hex_str_no_nl.
Qed.

Lemma high_no_nl t : high t → str_free nl_char t = true.
Proof.
  induction t as [|c t IH]; [done|]. intros [Hc Ht]. cbn [str_free]. rewrite IH, andb_true_r by done.
  apply negb_true_iff, Ascii.eqb_neq. intros ->. by vm_compute in Hc.
Qed.

Lemma quote_bytes_no_nl n s : String.length s ≤ n → str_free nl_char (quote_bytes s) = true.
Proof.
  revert s. induction n as [|n IH]; intros [|c s] Hn; try done; [cbn in Hn; lia|].
  cbn [String.length] in Hn. unfold quote_bytes in IH |- *. cbn [quote_from].
  destruct (DecodeRune c s) as [[r w]|] eqn:Hd.
  - destruct (DecodeRune_spec _ _ _ _ Hd) as (t & u & -> & -> & Hh & _ & _ & _ & Hc).
    rewrite str_length_app in Hn. cbn [Nat.sub]. rewrite Nat.sub_0_r.
    destruct (verbatim r) eqn:Hv.
    + rewrite quote_from_keep. cbn [str_free]. rewrite str_free_app, high_no_nl by done.
      unfold quote_bytes. rewrite IH, !andb_true_r by lia. apply negb_true_iff.
      apply (verbatim_first c r 10); [naive_solver|done|lia|vm_compute; reflexivity].
    + rewrite quote_from_skip, str_free_app, escape_rune_no_nl. apply IH. lia.
  - rewrite !str_free_app, hex_str_no_nl. apply IH. lia.
Qed.

Lemma Quote_no_nl s : str_free nl_char (Quote s) = true.
Proof. unfold Quote. by rewrite !str_free_app, (quote_bytes_no_nl (String.length s)). Qed.

Lemma SplitChar_free c s : str_free c s = true → SplitChar c s = [s].
Proof.
  induction s as [|a s IH]; [done|]. cbn. intros [H1 H2]%andb_true_iff.
  apply negb_true_iff in H1. by rewrite H1, IH.
Qed.

Lemma SplitChar_app c s t :
  str_free c s = true → SplitChar c (s +:+ String c t) = s :: SplitChar c t.
Proof.
  induction s as [|a s IH]; cbn [str_free]; intros H.
  - rewrite str_app_nil_l. cbn [SplitChar]. by rewrite Ascii.eqb_refl.
  - apply andb_true_iff in H as [H1 H2]. apply negb_true_iff in H1.
    rewrite str_app_cons. cbn [SplitChar]. by rewrite H1, IH.
Qed.

Lemma SplitChar_ne c s : SplitChar c s ≠ [].
Proof. destruct s; cbn; repeat destr_match; done. Qed.

Lemma TrimRight_fixed s : TrimRight (TrimRight s) = TrimRight s.
Proof.
  induction s as [|c s IH]; [done|]. cbn [TrimRight].
  destruct (TrimRight s) as [|a t] eqn:E.
  - destruct (is_space c) eqn:Ec; [done|]. cbn. by rewrite Ec.
  - cbn [TrimRight] in *. by rewrite IH.
Qed.

(** ** [strconv.Atoi] *)

Definition dec_val (c : Ascii.ascii) : option Z :=
  let n := Z.of_nat (Ascii.nat_of_ascii c) in
  if (48 <=? n)%Z && (n <=? 57)%Z then Some (n - 48)%Z else None.

Fixpoint dec_digits (acc : Z) (s : string) : option Z :=
  match s with
  | EmptyString => Some acc
  | String c s' => match dec_val c with Some v => dec_digits (acc * 10 + v)%Z s' | None => None end
  end.

(** [None] is a syntax or a range error of the 64-bit [int]. *)
Definition Atoi (s : string) : option Z :=
  let '(neg, body) :=
    match s with
    | String c s' =>
        if Nat.eqb (Ascii.nat_of_ascii c) 45 then (true, s')
        else if Nat.eqb (Ascii.nat_of_ascii c) 43 then (false, s') else (false, s)
    | EmptyString => (false, s)
    end in
  match body with
  | EmptyString => None
  | _ =>
      match dec_digits 0 body with
      | Some v =>
          let v := (if neg then - v else v)%Z in
          if (- 9223372036854775808 <=? v)%Z && (v <=? 9223372036854775807)%Z then Some v else None
      | None => None
      end
  end.

Lemma SplitN2_free c s : str_free c s = true → SplitN2 c s = [s].
Proof.
  induction s as [|a s IH]; [done|]. cbn. intros [H1 H2]%andb_true_iff.
  apply negb_true_iff in H1. by rewrite H1, IH.
Qed.

Lemma SplitN2_app c k v : str_free c k = true → SplitN2 c (k +:+ String c v) = [k; v].
Proof.
  induction k as [|a k IH]; cbn [str_free]; intros H.
  - rewrite str_app_nil_l. cbn [SplitN2]. by rewrite Ascii.eqb_refl.
  - apply andb_true_iff in H as [H1 H2]. apply negb_true_iff in H1.
    rewrite str_app_cons. cbn [SplitN2]. by rewrite H1, IH.
Qed.

(** A split into two gives the parts around the first separator. *)
Lemma SplitN2_inv c s :
  (SplitN2 c s = [s] ∧ str_free c s = true) ∨
  ∃ k v, SplitN2 c s = [k; v] ∧ s = k +:+ String c v ∧ str_free c k = true.
Proof.
  induction s as [|a s IH]; [by left|]. cbn.
  destruct (Ascii.eqb_spec a c) as [->|Ha].
  - right. by exists "", s.
  - destruct IH as [[-> ->]|(k & v & -> & -> & Hf)].
    + by left.
    + right. exists (String a k), v. split; [done|]. split; [by rewrite str_app_cons|]. cbn.
      rewrite Hf, andb_true_r. by apply negb_true_iff, Ascii.eqb_neq.
Qed.

(** A pattern without the byte [c] does not straddle a [c]. *)
Lemma HasPrefix_straddle c a b p :
  str_free c p = true → p ≠ "" → HasPrefix (a +:+ String c b) p = HasPrefix a p.
Proof.
  revert p. induction a as [|x a IH]; intros [|y p] Hf Hne; try done; cbn [str_free] in Hf;
    apply andb_true_iff in Hf as [Hy Hf].
  - apply negb_true_iff in Hy. rewrite str_app_nil_l. cbn. by rewrite Hy.
  - rewrite str_app_cons. cbn [HasPrefix]. destruct p as [|z p]; [by destruct a|].
    by rewrite IH.
Qed.

Lemma Contains_straddle c a b p :
  str_free c p = true → p ≠ "" →
  Contains (a +:+ String c b) p = Contains a p || Contains b p.
Proof.
  intros Hf Hne. induction a as [|x a IH].
  - rewrite str_app_nil_l. cbn [Contains].
    rewrite <- (str_app_nil_l (String c b)), HasPrefix_straddle by done. by destruct p.
  - rewrite str_app_cons. cbn [Contains]. rewrite IH.
    rewrite <- str_app_cons, HasPrefix_straddle by done. by rewrite orb_assoc.
Qed.
