(* ===== verification/GoLib.v ===== *)
(** * Go's [time], [sort], [regexp] and the Kubernetes polling helpers

    - an instant is a [Z]: nanoseconds since Go's zero time (1 January of year
      1, UTC); monotonic readings and locations are not modelled;
    - a [time.Duration] is a [Z] kept in the range of [int64] by the
      operations that saturate ([Sub]);
    - [sort.Search] is the binary search of the Go library, with its fuel;
    - [sort.Sort] is a function constrained by its documentation ([GoSort]);
    - [wait.Poll] and [wait.PollImmediate] are the loops of
      vendor/k8s.io/apimachinery/pkg/util/wait/wait.go, the number of ticks
      before the timeout being a parameter. *)

From S2P Require Import Prelude.
From S2P Require Import GoStrings.

(** ** time *)

Notation time := Z (only parsing).
Notation duration := Z (only parsing).

Definition Nanosecond : duration := 1%Z.
Definition Microsecond : duration := 1000%Z.
Definition Millisecond : duration := 1000000%Z.
Definition Second : duration := 1000000000%Z.
Definition Minute : duration := (60 * 1000000000)%Z.
Definition Hour : duration := (3600 * 1000000000)%Z.

Definition time_zero : time := 0%Z.
Definition IsZero (t : time) : bool := (t =? 0)%Z.
Definition After (t u : time) : bool := (u <? t)%Z.
Definition Before (t u : time) : bool := (t <? u)%Z.
Definition Equal (t u : time) : bool := (t =? u)%Z.

Definition min_duration : Z := (- 9223372036854775808)%Z.
Definition max_duration : Z := 9223372036854775807%Z.

(** [t.Sub(u)] saturates at the bounds of [int64]. *)
Definition Sub (t u : time) : duration := Z.max min_duration (Z.min max_duration (t - u))%Z.

Lemma Sub_neg t u : (Sub t u <? 0)%Z = (t <? u)%Z.
Proof.
  unfold Sub, min_duration, max_duration.
  destruct (Z.ltb_spec t u); [apply Z.ltb_lt|apply Z.ltb_ge]; lia.
Qed.
Lemma Sub_pos t u : (0 <? Sub t u)%Z = (u <? t)%Z.
Proof.
  unfold Sub, min_duration, max_duration.
  destruct (Z.ltb_spec u t); [apply Z.ltb_lt|apply Z.ltb_ge]; lia.
Qed.

(** [d.Round(m)]: to the nearest multiple of [m], half away from zero; [m] is
    positive in the code.  The saturation at the int64 bounds is left out: the
    rounded durations are test run times. *)
Definition Round (d m : duration) : duration :=
  let r := Z.rem d m in
  if (d <? 0)%Z then
    let r := (- r)%Z in if (r + r <? m)%Z then (d + r)%Z else (d - m + r)%Z
  else if (r + r <? m)%Z then (d - r)%Z else (d + m - r)%Z.

(** *** [t.Format("Jan 02 15:04:05")] *)

Definition month_names : list string :=
  ["Jan"; "Feb"; "Mar"; "Apr"; "May"; "Jun"; "Jul"; "Aug"; "Sep"; "Oct"; "Nov"; "Dec"].

(** Year, month (1-12) and day of the proleptic Gregorian calendar, from the
    number of days since 1 January of year 1. *)
Definition civil (days : Z) : Z * Z * Z :=
  let z := (days + 306)%Z in
  let doe := (z mod 146097)%Z in
  let yoe := ((doe - doe / 1460 + doe / 36524 - doe / 146096) / 365)%Z in
  let doy := (doe - (365 * yoe + yoe / 4 - yoe / 100))%Z in
  let mp := ((5 * doy + 2) / 153)%Z in
  let d := (doy - (153 * mp + 2) / 5 + 1)%Z in
  let m := (if mp <? 10 then mp + 3 else mp - 9)%Z in
  let y := (yoe + z / 146097 * 400)%Z in
  ((if m <=? 2 then y + 1 else y)%Z, m, d).

(** [t.Format("2006" ys "01" ys "02" ts "15" hs "04" hs "05")] *)
Definition FormatDate (ys ts hs : string) (t : time) : string :=
  let secs := (t / Second)%Z in
  let '(y, m, d) := civil (secs / 86400)%Z in
  let s := (secs mod 86400)%Z in
  zero_pad 4 y +:+ ys +:+ zero_pad 2 m +:+ ys +:+ zero_pad 2 d +:+ ts +:+
  zero_pad 2 (s / 3600)%Z +:+ hs +:+ zero_pad 2 (s / 60 mod 60)%Z +:+ hs +:+
  zero_pad 2 (s mod 60)%Z.

(** [t.Format("2006-01-02T15:04:05")] and [t.Format("20060102-150405")] *)
Definition FormatISO : time → string := FormatDate "-" "T" ":".
Definition FormatFile : time → string := FormatDate "" "-" "".

Example civil_epoch : FormatISO (719162 * 24 * Hour + 61 * Second)%Z = "1970-01-01T00:01:01"%string.
Proof. reflexivity. Qed.

Definition FormatStamp (t : time) : string :=
  let secs := (t / Second)%Z in
  let '(_, m, d) := civil (secs / 86400)%Z in
  let s := (secs mod 86400)%Z in
  nth (Z.to_nat (m - 1)) month_names "" +:+ " " +:+ zero_pad 2 d +:+ " " +:+
  zero_pad 2 (s / 3600)%Z +:+ ":" +:+ zero_pad 2 (s / 60 mod 60)%Z +:+ ":" +:+
  zero_pad 2 (s mod 60)%Z.

(** [t.Nanosecond()] *)
Definition time_nsec (t : time) : Z := (t mod Second)%Z.

(** *** [d.String()] *)

(** [v] over 10^[prec], without trailing zeros in the fraction. *)
Fixpoint fmt_frac (prec : nat) (v : Z) (printed : bool) (acc : string) : Z * string :=
  match prec with
  | O => (v, if printed then "." +:+ acc else acc)
  | S n =>
      let digit := (v mod 10)%Z in
      let printed := printed || negb (digit =? 0)%Z in
      fmt_frac n (v / 10)%Z printed (if printed then itoa digit +:+ acc else acc)
  end.

Definition Duration_String (d : duration) : string :=
  let u := Z.abs d in
  let body :=
    if (u <? Second)%Z then
      if (u =? 0)%Z then "0s"
      else
        let '(prec, unit_) :=
          if (u <? Microsecond)%Z then (0, "ns")
          else if (u <? Millisecond)%Z then (3, EncodeRune 181 +:+ "s")
          else (6, "ms") in
        let '(v, frac) := fmt_frac prec u false "" in itoa v +:+ frac +:+ unit_
    else
      let '(secs, frac) := fmt_frac 9 u false "" in
      let mins := (secs / 60)%Z in
      (if (0 <? mins / 60)%Z then itoa (mins / 60) +:+ "h" else "") +:+
      (if (0 <? mins)%Z then itoa (mins mod 60) +:+ "m" else "") +:+
      itoa (secs mod 60) +:+ frac +:+ "s" in
  if (d <? 0)%Z then "-" +:+ body else body.

Example Duration_String_ex :
  map Duration_String [0; 1500000; 2 * Second; 12 * Second + 300000000; Hour + Second]%Z =
  ["0s"; "1.5ms"; "2s"; "12.3s"; "1h0m1s"]%string.
Proof. reflexivity. Qed.

(** [fmt.Sprintf(format, args...)] for integer arguments and the verbs [%d] and
    [%%]; any other verb is reported as Go reports a verb that does not apply
    to an [int], and a superfluous argument as [%!(EXTRA ...)]. *)
Fixpoint Sprintf_ints (format : string) (args : list Z) : string :=
  match format with
  | EmptyString =>
      match args with
      | [] => ""
      | _ => "%!(EXTRA " +:+ Join (map (λ z, "int=" +:+ itoa z) args) ", " +:+ ")"
      end
  | String c rest =>
      if Ascii.eqb c (Ascii.ascii_of_nat 37) then
        match rest with
        | EmptyString => "%!(NOVERB)" +:+ Sprintf_ints rest args
        | String v rest' =>
            if Ascii.eqb v (Ascii.ascii_of_nat 37) then "%" +:+ Sprintf_ints rest' args
            else match args with
                 | [] => "%!" +:+ String v "(MISSING)" +:+ Sprintf_ints rest' []
                 | z :: args' =>
                     (if Ascii.eqb v (Ascii.ascii_of_nat 100) then itoa z
                      else "%!" +:+ String v ("(int=" +:+ itoa z +:+ ")")) +:+
                     Sprintf_ints rest' args'
                 end
        end
      else String c (Sprintf_ints rest args)
  end.

(** ** sort *)

(** The loop of [sort.Search] on [i, j); [fuel] bounds the halvings. *)
Fixpoint search_loop (fuel : nat) (f : nat → bool) (i j : nat) : nat :=
  match fuel with
  | O => i
  | S k =>
      if Nat.ltb i j then
        let h := Nat.div2 (i + j) in
        if f h then search_loop k f i h else search_loop k f (S h) j
      else i
  end.
Definition Search (n : nat) (f : nat → bool) : nat := search_loop n f 0 n.

Lemma search_loop_spec f fuel i j :
  j - i ≤ fuel → i ≤ j →
  (∀ a b, a ≤ b → f a = true → f b = true) →
  let r := search_loop fuel f i j in
  i ≤ r ≤ j ∧ (∀ k, i ≤ k < r → f k = false) ∧ (∀ k, r ≤ k < j → f k = true).
Proof.
  revert i j. induction fuel as [|fuel IH]; intros i j Hf Hij Hmono; cbn [search_loop].
  { repeat split; intros; lia. }
  destruct (Nat.ltb_spec i j) as [Hlt|Hge]; [|repeat split; intros; lia].
  rewrite Nat.div2_div. set (h := (i + j) / 2).
  assert (i ≤ h < j) as Hh.
  { subst h. pose proof (Nat.div_mod_eq (i + j) 2).
    pose proof (Nat.mod_upper_bound (i + j) 2). lia. }
  destruct (f h) eqn:E.
  - destruct (IH i h) as (H1 & H2 & H3); [lia..|done|].
    repeat split; try lia; auto. intros k Hk.
    destruct (decide (k < h)); [apply H3; lia|]. apply (Hmono h); [lia|done].
  - destruct (IH (S h) j) as (H1 & H2 & H3); [lia..|done|].
    repeat split; try lia; auto. intros k Hk.
    destruct (decide (S h ≤ k)); [apply H2; lia|].
    destruct (f k) eqn:E'; [|done]. rewrite <- E. symmetry. apply (Hmono k); [lia|done].
Qed.

(** [Search] finds the smallest index from which a monotone predicate holds. *)
Lemma Search_spec n f :
  (∀ a b, a ≤ b → f a = true → f b = true) →
  Search n f ≤ n ∧ (∀ k, k < Search n f → f k = false) ∧
  (∀ k, Search n f ≤ k < n → f k = true).
Proof.
  intros Hm. destruct (search_loop_spec f n 0 n) as (H1 & H2 & H3); [lia..|done|].
  unfold Search. repeat split; [lia| |done]. intros k Hk. apply H2. lia.
Qed.

(** [sort.Sort(data)] for the order [less]: the documentation promises a
    permutation in which no element is less than an earlier one; the order of
    equal elements is not specified. *)
Class GoSort {A} (less : A → A → bool) (srt : list A → list A) : Prop := {
  sort_perm : ∀ l, srt l ≡ₚ l;
  sort_sorted : ∀ l, StronglySorted (λ x y, less y x = false) (srt l)
}.

(** Insertion sort: one implementation, used by the witnesses, and the result
    of [sort.Strings] (whose order is total). *)
Section InsertionSort.
Context {A : Type} (less : A → A → bool).

Fixpoint sorted_insert (x : A) (l : list A) : list A :=
  match l with
  | [] => [x]
  | y :: l' => if less y x then y :: sorted_insert x l' else x :: l
  end.

Fixpoint insertion_sort (l : list A) : list A :=
  match l with
  | [] => []
  | x :: l' => sorted_insert x (insertion_sort l')
  end.

Lemma sorted_insert_perm x l : sorted_insert x l ≡ₚ x :: l.
Proof.
  induction l as [|y l IH]; simpl; [done|]. destruct (less y x); [|done].
  rewrite IH. apply Permutation_swap.
Qed.

Lemma insertion_sort_perm l : insertion_sort l ≡ₚ l.
Proof. induction l; simpl; [done|]. rewrite sorted_insert_perm. by constructor. Qed.

Hypothesis less_asym : ∀ x y, less x y = true → less y x = false.
Hypothesis less_negtrans : ∀ x y z, less x y = false → less y z = false → less x z = false.

Lemma sorted_insert_sorted x l :
  StronglySorted (λ x y, less y x = false) l →
  StronglySorted (λ x y, less y x = false) (sorted_insert x l).
Proof.
  induction 1 as [|y l Hs IH Hall]; cbn [sorted_insert]; [by repeat constructor|].
  destruct (less y x) eqn:E.
  - constructor; [done|]. rewrite sorted_insert_perm. constructor; auto.
  - constructor; [by constructor|]. constructor; [done|].
    eapply Forall_impl; [apply Hall|]. simpl. eauto.
Qed.

Lemma insertion_sort_GoSort : GoSort less insertion_sort.
Proof.
  split; [apply insertion_sort_perm|]. intros l.
  induction l; simpl; [constructor|by apply sorted_insert_sorted].
Qed.
End InsertionSort.

(** [sort.Interface]: the methods read and change the data they sort, and an
    index out of range panics. *)
Record sort_Interface (D : Type) := mkSortInterface {
  sort_Len : go D nat;
  sort_Less : nat → nat → go D bool;
  sort_Swap : nat → nat → go D unit
}.
Arguments mkSortInterface {D}. Arguments sort_Len {D}. Arguments sort_Less {D}.
Arguments sort_Swap {D}.

(** [insertionSort] of Go's sort package, which [sort.Sort] runs on short data:
    the element at [j] moves down while it is less than the one before it. *)
Fixpoint sift_down {D} (i : sort_Interface D) (j : nat) : go D unit :=
  match j with
  | O => ret tt
  | S j' =>
      (b <-! sort_Less i j j' ;;
       if (b : bool) then sort_Swap i j j' ;;! sift_down i j' else ret tt)%go
  end.

Definition insertionSort {D} (i : sort_Interface D) : go D unit :=
  (n <-! sort_Len i ;; for_each (seq 1 (n - 1)) (sift_down i))%go.

(** The methods of a slice: [len(l)], a comparison of [l[i]] and [l[j]], and
    [l[i], l[j] = l[j], l[i]]. *)
Section SliceSort.
Context {A : Type} (less : A → A → bool).

Definition slice_len : go (list A) nat := λ l, (Ret (length l), l).
Definition slice_less (i j : nat) : go (list A) bool := λ l,
  match l !! i, l !! j with
  | Some x, Some y => (Ret (less x y), l)
  | _, _ => (Panic "index out of range", l)
  end.
Definition slice_swap (i j : nat) : go (list A) unit := λ l,
  match l !! i, l !! j with
  | Some x, Some y => (Ret tt, <[j := x]> (<[i := y]> l))
  | _, _ => (Panic "index out of range", l)
  end.
Definition slice_interface : sort_Interface (list A) :=
  mkSortInterface slice_len slice_less slice_swap.

(** The element [x] after [p] goes down past a part of [p] whose elements it is
    less than, and stops at one it is not less than. *)
Lemma sift_down_spec p x q : ∃ p1 p2,
  sift_down slice_interface (length p) (p ++ x :: q) = (Ret tt, p1 ++ x :: p2 ++ q) ∧
  p = p1 ++ p2 ∧ Forall (λ y, less x y = true) p2 ∧
  (∀ y, last p1 = Some y → less x y = false).
Proof.
  revert q. induction p as [|y p IH] using rev_ind; intros q.
  { exists [], []. repeat split; [constructor|done]. }
  rewrite length_app, Nat.add_1_r, <- app_assoc. cbn [sift_down app].
  assert (Hx : (p ++ y :: x :: q) !! S (length p) = Some x).
  { rewrite lookup_app_r by lia. by rewrite Nat.sub_succ_l, Nat.sub_diag by lia. }
  assert (Hy : (p ++ y :: x :: q) !! length p = Some y) by by apply list_lookup_middle.
  assert (Hl : sort_Less slice_interface (S (length p)) (length p) (p ++ y :: x :: q) =
               (Ret (less x y), p ++ y :: x :: q)).
  { cbn. unfold slice_less. by rewrite Hx, Hy. }
  erewrite gobind_Ret by apply Hl. destruct (less x y) eqn:E.
  - assert (Hs : sort_Swap slice_interface (S (length p)) (length p) (p ++ y :: x :: q) =
                 (Ret tt, p ++ x :: y :: q)).
    { cbn. unfold slice_swap. rewrite Hx, Hy. do 2 f_equal.
      rewrite insert_app_r_alt by lia. rewrite Nat.sub_succ_l, Nat.sub_diag by lia.
      rewrite insert_app_r_alt by lia. by rewrite Nat.sub_diag. }
    erewrite gobind_Ret by apply Hs.
    destruct (IH (y :: q)) as (p1 & p2 & Hrun & -> & Hp2 & Hlast).
    exists p1, (p2 ++ [y]). rewrite Hrun, <- !app_assoc. split_and!; auto.
    apply Forall_app. auto.
  - exists (p ++ [y]), []. rewrite <- !app_assoc. split_and!; [done|done|constructor|].
    intros z. rewrite last_snoc. by intros [= <-].
Qed.

Hypothesis less_asym : ∀ x y, less x y = true → less y x = false.
Hypothesis less_negtrans : ∀ x y z, less x y = false → less y z = false → less x z = false.

Notation sorted := (StronglySorted (λ x y, less y x = false)).

Lemma sorted_app_inv l1 l2 : sorted (l1 ++ l2) →
  sorted l1 ∧ sorted l2 ∧ ∀ x y, x ∈ l1 → y ∈ l2 → less y x = false.
Proof.
  induction l1 as [|z l1 IH]; cbn.
  { intros H. split; [constructor|]. split; [done|]. intros x y []%not_elem_of_nil. }
  intros H. apply StronglySorted_inv in H as [HH Hz].
  destruct (IH HH) as (H1 & H2 & H3).
  rewrite Forall_app, !Forall_forall in Hz. destruct Hz as [Hz1 Hz2].
  split_and!; [constructor; [done|by apply Forall_forall]|done|].
  intros x y [->|Hx]%elem_of_cons Hy; eauto.
Qed.

Lemma sorted_app l1 l2 : sorted l1 → sorted l2 →
  (∀ x y, x ∈ l1 → y ∈ l2 → less y x = false) → sorted (l1 ++ l2).
Proof.
  induction 1 as [|z l1 Hs IH Hz]; cbn; [done|]. intros H2 H. constructor.
  - apply IH; [done|]. intros. apply H; [by right|done].
  - apply Forall_app. split; [done|]. apply Forall_forall. intros y Hy. apply H; [by left|done].
Qed.

(** Where the element stops, the part before it is sorted again. *)
Lemma sift_down_sorted p x p1 p2 :
  sorted p → p = p1 ++ p2 → Forall (λ y, less x y = true) p2 →
  (∀ y, last p1 = Some y → less x y = false) → sorted (p1 ++ x :: p2).
Proof.
  intros Hp -> Hp2 Hlast. destruct (sorted_app_inv _ _ Hp) as (H1 & H2 & H12).
  assert (Hx : ∀ y, y ∈ p1 → less x y = false).
  { intros y Hy. destruct (last p1) as [z|] eqn:Ez; [|by apply last_None in Ez; subst; inversion Hy].
    apply last_Some in Ez as [p0 Ep]. subst p1. specialize (Hlast z eq_refl).
    rewrite elem_of_app, list_elem_of_singleton in Hy. destruct Hy as [Hy| ->]; [|done].
    apply sorted_app_inv in H1 as (_ & _ & H). eapply less_negtrans; [apply Hlast|].
    apply H; [done|by left]. }
  rewrite Forall_forall in Hp2. apply sorted_app; [done| |].
  - constructor; [done|]. apply Forall_forall. auto.
  - intros a b Ha [->|Hb]%elem_of_cons; auto.
Qed.

(** The loop over the positions from the length of a sorted prefix on. *)
Lemma insertionSort_loop q p : sorted p →
  ∃ l, for_each (seq (length p) (length q)) (sift_down slice_interface) (p ++ q) = (Ret tt, l) ∧
    l ≡ₚ p ++ q ∧ sorted l.
Proof.
  revert p. induction q as [|x q IH]; intros p Hp.
  { exists p. by rewrite app_nil_r. }
  cbn [length seq for_each]. destruct (sift_down_spec p x q) as (p1 & p2 & Hrun & Hpp & Hp2 & Hl).
  erewrite gobind_Ret by apply Hrun.
  destruct (IH (p1 ++ x :: p2)) as (l & Hloop & Hperm & Hs); [by eapply sift_down_sorted|].
  exists l. replace (length (p1 ++ x :: p2)) with (S (length p)) in Hloop
    by (subst p; rewrite !length_app; cbn; lia).
  rewrite <- app_assoc in Hloop, Hperm. split; [done|]. split; [|done].
  rewrite Hperm. subst p. rewrite <- !app_assoc. by rewrite <- Permutation_middle.
Qed.

(** The sort ends without a panic, whatever the data. *)
Lemma insertionSort_slice l : ∃ l',
  insertionSort slice_interface l = (Ret tt, l') ∧ l' ≡ₚ l ∧ sorted l'.
Proof.
  unfold insertionSort. erewrite gobind_Ret by done. destruct l as [|x l]; cbn [length].
  { exists []. repeat split; auto. constructor. }
  rewrite Nat.sub_succ, Nat.sub_0_r. apply (insertionSort_loop l [x]). by repeat constructor.
Qed.

(** [sort.Sort] of the data with these methods. *)
Definition Sort_slice (l : list A) : list A := (insertionSort slice_interface l).2.

Lemma Sort_slice_GoSort : GoSort less Sort_slice.
Proof.
  split; intros l; destruct (insertionSort_slice l) as (l' & Hr & Hp & Hs);
    unfold Sort_slice; by rewrite Hr.
Qed.
End SliceSort.

(** [sort.Strings] *)
Definition sort_Strings : list string → list string := insertion_sort str_lt.

Lemma str_lt_leb s t : str_lt s t = negb (String.leb t s).
Proof.
  unfold str_lt, String.ltb, String.leb. rewrite (String.compare_antisym t s).
  by destruct (String.compare s t).
Qed.

Lemma str_lt_negtrans x y z : str_lt x y = false → str_lt y z = false → str_lt x z = false.
Proof.
  rewrite !str_lt_leb, !negb_false_iff. intros H1 H2.
  apply Is_true_true. change (String.le z x). etransitivity; by apply Is_true_true.
Qed.

Lemma str_lt_asym x y : str_lt x y = true → str_lt y x = false.
Proof.
  rewrite !str_lt_leb, negb_true_iff, negb_false_iff.
  destruct (String.leb_total x y); congruence.
Qed.

#[export] Instance sort_Strings_spec : GoSort str_lt sort_Strings.
Proof. apply insertion_sort_GoSort; [apply str_lt_asym|apply str_lt_negtrans]. Qed.

(** ** wait *)

Definition ErrWaitTimeout : error := Err KWaitTimeout "timed out waiting for the condition".

Section Wait.
Context {W : Type}.

(** [wait.WaitFor]: [ticks] ticks are received, then the channel is closed;
    the condition is tried once more before the timeout is reported. *)
Fixpoint WaitFor (ticks : nat) (cond : go W bool) : go W unit :=
  (ok <-! cond ;;
   if ok : bool then ret tt
   else match ticks with
        | O => fail ErrWaitTimeout
        | S n => WaitFor n cond
        end)%go.

(** The ticks of an interval before a timeout. *)
Definition ticks_of (interval timeout : duration) : nat := Z.to_nat (timeout / interval).

(** [wait.Poll(interval, timeout, cond)] *)
Definition Poll (ticks : nat) (cond : go W bool) : go W unit := WaitFor ticks cond.

(** [wait.PollImmediate(interval, timeout, cond)] *)
Definition PollImmediate (ticks : nat) (cond : go W bool) : go W unit :=
  (ok <-! cond ;; if ok : bool then ret tt else WaitFor ticks cond)%go.

(** [retry.RetryOnConflict(backoff, fn)] of vendor/k8s.io/client-go/util/retry:
    at most [steps] attempts, only a conflict is retried, and the last
    conflict is returned when the steps run out. *)
Fixpoint retry_conflict (steps : nat) (last : option error) (fn : go W unit) : go W unit :=
  let exhausted := match last with Some e => fail e | None => ret tt end in
  match steps with
  | O => exhausted
  | S n =>
      (r <-! try fn ;;
       match r with
       | inl _ => ret tt
       | inr e =>
           if is_kind KConflict e then retry_conflict n (Some e) fn
           else if bool_decide (e = ErrWaitTimeout) then exhausted
           else fail e
       end)%go
  end.
Definition RetryOnConflict (steps : nat) (fn : go W unit) : go W unit :=
  retry_conflict steps None fn.

(** When a wait succeeds, the condition returned [true] in its last call. *)
Lemma WaitFor_Ret n cond w w' :
  WaitFor n cond w = (Ret tt, w') → ∃ w0, cond w0 = (Ret true, w').
Proof.
  revert w. induction n as [|n IH]; intros w; cbn; unfold gobind, ret, fail;
    destruct (cond w) as [[[|]|e|m] w1] eqn:E; intros H; simplify_eq/=; eauto.
Qed.

Lemma PollImmediate_Ret n cond w w' :
  PollImmediate n cond w = (Ret tt, w') → ∃ w0, cond w0 = (Ret true, w').
Proof.
  unfold PollImmediate, gobind, ret.
  destruct (cond w) as [[[|]|e|m] w1] eqn:E; intros H; simplify_eq/=; eauto.
  by eapply WaitFor_Ret.
Qed.

(** An error of the condition ends the wait at once. *)
Lemma WaitFor_Fail_now n cond w e w' :
  cond w = (Fail e, w') → WaitFor n cond w = (Fail e, w').
Proof. intros H. destruct n; cbn; unfold gobind; by rewrite H. Qed.

(** [P] holds as long as the wait goes on, [Q] when it ends. *)
Lemma WaitFor_post (P Q : W → Prop) n cond :
  (∀ w, P w → match cond w with (Ret false, w') => P w' | (_, w') => Q w' end) →
  (∀ w, P w → Q w) → ∀ w, P w → Q (snd (WaitFor n cond w)).
Proof.
  intros Hc HPQ. induction n as [|n IH]; intros w Hw; cbn; unfold gobind;
    specialize (Hc w Hw); destruct (cond w) as [[[|]|e|m] w1]; cbn; auto.
Qed.

(** An invariant of the condition is an invariant of the wait. *)
Lemma WaitFor_inv (I : W → Prop) n cond :
  (∀ w, I w → I (snd (cond w))) → ∀ w, I w → I (snd (WaitFor n cond w)).
Proof.
  intros Hc. induction n as [|n IH]; intros w Hw; cbn; unfold gobind;
    specialize (Hc w Hw); destruct (cond w) as [[[|]|e|m] w1]; simpl in *; auto.
Qed.
End Wait.

(** ** Invariants of computations *)

(** [m] leaves [P] true of the state, whatever its outcome. *)
Definition keeps {W A} (P : W → Prop) (m : go W A) : Prop := ∀ w, P w → P (snd (m w)).

Section Keeps.
Context {W : Type} (P : W → Prop).

Lemma keeps_ret {A} (a : A) : keeps P (ret a).
Proof. by intros w. Qed.
Lemma keeps_fail {A} e : keeps P (A := A) (fail e).
Proof. by intros w. Qed.
Lemma keeps_getw : keeps P getw.
Proof. by intros w. Qed.
Lemma keeps_modw f : (∀ w, P w → P (f w)) → keeps P (modw f).
Proof. intros H w. apply H. Qed.
Lemma keeps_of_sum {A} (r : A + error) : keeps P (of_sum r).
Proof. destruct r; by intros w. Qed.
Lemma keeps_bind {A B} (m : go W A) (k : A → go W B) :
  keeps P m → (∀ a, keeps P (k a)) → keeps P (gobind m k).
Proof.
  intros Hm Hk w Hw. unfold gobind. specialize (Hm w Hw).
  destruct (m w) as [[a|e|p] w']; cbn in *; [by apply Hk|done..].
Qed.
Lemma keeps_try {A} (m : go W A) : keeps P m → keeps P (try m).
Proof.
  intros Hm w Hw. unfold try. specialize (Hm w Hw). by destruct (m w) as [[a|e|p] w'].
Qed.
Lemma keeps_for_each {A} (l : list A) (f : A → go W unit) :
  (∀ a, keeps P (f a)) → keeps P (for_each l f).
Proof. intros H. induction l as [|a l IH]; cbn; [apply keeps_ret|]. by apply keeps_bind. Qed.
Lemma keeps_retry n last fn : keeps P fn → keeps P (retry_conflict n last fn).
Proof.
  intros Hf. revert last. induction n as [|n IH]; intros last; cbn [retry_conflict].
  - destruct last; [apply keeps_fail|apply keeps_ret].
  - apply keeps_bind; [by apply keeps_try|]. intros [[]|e]; [apply keeps_ret|].
    destruct (is_kind KConflict e); [apply IH|].
    destruct (bool_decide _); [|apply keeps_fail].
    destruct last; [apply keeps_fail|apply keeps_ret].
Qed.

(** A wait that succeeds ended on a call of the condition that said true, in a
    state where the invariant of the condition holds. *)
Lemma WaitFor_Ret_inv n cond w w' :
  keeps P cond → P w → WaitFor n cond w = (Ret tt, w') →
  ∃ w0, P w0 ∧ cond w0 = (Ret true, w').
Proof.
  intros Hc. revert w. induction n as [|n IH]; intros w Hw; cbn; unfold gobind, ret, fail;
    pose proof (Hc w Hw) as Hc'; destruct (cond w) as [[[|]|e|m] w1] eqn:E;
    intros H; simplify_eq/=; eauto.
Qed.
Lemma PollImmediate_Ret_inv n cond w w' :
  keeps P cond → P w → PollImmediate n cond w = (Ret tt, w') →
  ∃ w0, P w0 ∧ cond w0 = (Ret true, w').
Proof.
  intros Hc Hw. unfold PollImmediate, gobind, ret. pose proof (Hc w Hw) as Hc'.
  destruct (cond w) as [[[|]|e|m] w1] eqn:E; intros H; simplify_eq/=; eauto.
  by eapply WaitFor_Ret_inv.
Qed.
Lemma keeps_WaitFor n cond : keeps P cond → keeps P (WaitFor n cond).
Proof. intros Hc w Hw. by apply WaitFor_inv. Qed.
Lemma keeps_PollImmediate n cond : keeps P cond → keeps P (PollImmediate n cond).
Proof.
  intros Hc. apply keeps_bind; [done|]. intros [|]; [apply keeps_ret|by apply keeps_WaitFor].
Qed.
End Keeps.

#[export] Hint Resolve keeps_ret keeps_fail keeps_getw keeps_of_sum keeps_bind keeps_try
  keeps_retry keeps_WaitFor keeps_PollImmediate : ott.
