(* ===== verification/MonitorTypes.v ===== *)
(** * pkg/monitor/types.go: conditions, events, intervals and their order

    Pointers to [Condition]s are never written through once a condition has
    been recorded, so a condition is a value here; the intervals are shared and
    updated, which [Monitor.filterSamples] models with indices into the list of
    intervals. *)

From S2P Require Import Prelude.
From S2P Require Import GoStrings.
From S2P Require Import GoLib.

(* src: pkg/monitor/types.go 23-29 EventLevel *)
Inductive EventLevel := Info | Warning | Error.

(* src: pkg/monitor/types.go 52-57 Condition *)
Record Condition := mkCondition {
  Level : EventLevel;
  Locator : string;
  Message : string
}.

(* src: pkg/monitor/types.go 37-41 Event *)
Record Event := mkEvent { EvCondition : Condition; At : time }.

(* src: pkg/monitor/types.go 47-50 sample *)
Record sample := mkSample { at_ : time; conditions : list Condition }.

(* src: pkg/monitor/types.go 59-64 EventInterval *)
Record EventInterval := mkInterval { IvCondition : Condition; From : time; To : time }.

(* src: pkg/monitor/types.go 11-11 SamplerFunc *)
Definition SamplerFunc : Type := time → list Condition.

#[export] Instance EventLevel_eq_dec : EqDecision EventLevel.
Proof. solve_decision. Defined.
#[export] Instance Condition_eq_dec : EqDecision Condition.
Proof. solve_decision. Defined.
#[export] Instance EventInterval_eq_dec : EqDecision EventInterval.
Proof. solve_decision. Defined.

(* src: pkg/monitor/types.go 31-35 eventString *)
Definition eventString (l : EventLevel) : string :=
  match l with Info => "I" | Warning => "W" | Error => "E" end.

Definition level_of (s : nat) : EventLevel :=
  match s with 0 => Info | 1 => Warning | _ => Error end.
Definition level_num (l : EventLevel) : nat :=
  match l with Info => 0 | Warning => 1 | Error => 2 end.

#[export] Instance Condition_countable : Countable Condition.
Proof.
  refine (inj_countable' (λ c, (level_num (Level c), Locator c, Message c))
            (λ '(l, a, b), mkCondition (level_of l) a b) _).
  by intros [[] ? ?].
Defined.

(** ** What a watcher is given *)

(** The interface through which the watchers and the pollers reach the monitor;
    the time is that of the call. *)
(* src: pkg/monitor/types.go 18-21 Recorder *)
Class Recorder (M : Type) := {
  recorder_Record : time → list Condition → M → M;
  recorder_AddSampler : SamplerFunc → M → M
}.

(** What they rely on: a call without conditions does nothing, and the
    conditions of one call are recorded in their order. *)
Class RecorderLaws (M : Type) `{Recorder M} : Prop := {
  recorder_Record_nil t (m : M) : recorder_Record t [] m = m;
  recorder_Record_app t cs cs' (m : M) :
    recorder_Record t (cs ++ cs') m = recorder_Record t cs' (recorder_Record t cs m)
}.

Section Recorders.
Context `{L : RecorderLaws M}.

(** The calls of [Record] of one delivery. *)
Definition record_calls (t : time) (calls : list (list Condition)) (m : M) : M :=
  fold_left (λ m cs, recorder_Record t cs m) calls m.

(** Several calls at one time are one call. *)
Lemma record_calls_concat t calls m : record_calls t calls m = recorder_Record t (concat calls) m.
Proof.
  unfold record_calls. revert m. induction calls as [|cs calls IH]; intros m; cbn.
  - by rewrite recorder_Record_nil.
  - by rewrite IH, recorder_Record_app.
Qed.
End Recorders.

(** What can be asked of the monitor. *)
(* src: pkg/monitor/types.go 13-16 Interface *)
Class Interface (M : Type) := {
  interface_Events : M → time → time → list EventInterval;
  interface_Conditions : M → time → time → list EventInterval
}.

(** ** Printing *)

Definition escape_newlines (s : string) : string := Replace s nl (backslash +:+ "n").

(* src: pkg/monitor/types.go 43-45 Event.String *)
Definition Event_String (e : Event) : string :=
  FormatStamp (At e) +:+ "." +:+ zero_pad 3 (time_nsec (At e) / 1000000)%Z +:+ " " +:+
  eventString (Level (EvCondition e)) +:+ " " +:+ Locator (EvCondition e) +:+ " " +:+
  escape_newlines (Message (EvCondition e)).

(* src: pkg/monitor/types.go 66-71 EventInterval.String *)
Definition EventInterval_String (i : EventInterval) : string :=
  let c := IvCondition i in
  let stamp := FormatStamp (From i) +:+ "." +:+ zero_pad 3 (Z.quot (time_nsec (From i)) Millisecond) in
  if Equal (From i) (To i) then
    stamp +:+ " " +:+ eventString (Level c) +:+ " " +:+ Locator c +:+ " " +:+
    escape_newlines (Message c)
  else
    stamp +:+ " - " +:+
    pad_right 5 (itoa (Z.quot (Sub (To i) (From i)) Second) +:+ "s") +:+ " " +:+
    eventString (Level c) +:+ " " +:+ Locator c +:+ " " +:+ escape_newlines (Message c).

(** ** The order of [EventIntervals] *)

(* src: pkg/monitor/types.go 77-91 EventIntervals.Less *)
Definition Less (a b : EventInterval) : bool :=
  let d := Sub (From a) (From b) in
  if (d <? 0)%Z then true
  else if (0 <? d)%Z then false
  else
    let d := Sub (To a) (To b) in
    if (d <? 0)%Z then true
    else if (0 <? d)%Z then false
    else str_lt (Message (IvCondition a)) (Message (IvCondition b)).

(** [Less] is the lexicographic order of (From, To, Message). *)
Lemma Less_spec a b :
  Less a b = true ↔
  (From a < From b)%Z ∨
  From a = From b ∧ ((To a < To b)%Z ∨
    To a = To b ∧ str_lt (Message (IvCondition a)) (Message (IvCondition b)) = true).
Proof.
  unfold Less. rewrite !Sub_neg, !Sub_pos.
  destruct (Z.ltb_spec (From a) (From b)); [intuition lia|].
  destruct (Z.ltb_spec (From b) (From a)); [split; [done|intuition lia]|].
  destruct (Z.ltb_spec (To a) (To b)); [intuition lia|].
  destruct (Z.ltb_spec (To b) (To a)); [split; [done|intuition lia]|].
  intuition lia.
Qed.

Lemma Less_false a b :
  Less a b = false ↔
  (From b < From a)%Z ∨
  From a = From b ∧ ((To b < To a)%Z ∨
    To a = To b ∧ str_lt (Message (IvCondition a)) (Message (IvCondition b)) = false).
Proof.
  unfold Less. rewrite !Sub_neg, !Sub_pos.
  destruct (Z.ltb_spec (From a) (From b)); [split; [done|intuition lia]|].
  destruct (Z.ltb_spec (From b) (From a)); [intuition lia|].
  destruct (Z.ltb_spec (To a) (To b)); [split; [done|intuition lia]|].
  destruct (Z.ltb_spec (To b) (To a)); [intuition lia|].
  intuition lia.
Qed.

Lemma Less_asym a b : Less a b = true → Less b a = false.
Proof.
  rewrite Less_spec, Less_false. intros [|[? [|[? H%str_lt_asym]]]]; intuition lia.
Qed.

Lemma Less_negtrans a b c : Less a b = false → Less b c = false → Less a c = false.
Proof.
  rewrite !Less_false. intros [|[? [|[? H1]]]] [|[? [|[? H2]]]]; try (intuition lia).
  right. split; [lia|]. right. split; [lia|]. by eapply str_lt_negtrans.
Qed.

#[export] Instance sort_intervals_GoSort : GoSort Less (insertion_sort Less).
Proof. apply insertion_sort_GoSort; [apply Less_asym|apply Less_negtrans]. Qed.

(** ** [EventIntervals] as a [sort.Interface] *)

(* src: pkg/monitor/types.go 73-75 EventIntervals *)
Definition EventIntervals : Type := list EventInterval.

(* src: pkg/monitor/types.go 92-92 EventIntervals.Len *)
Definition Len : go EventIntervals nat := slice_len.
Definition Less_at (i j : nat) : go EventIntervals bool := slice_less Less i j.
(* src: pkg/monitor/types.go 93-95 EventIntervals.Swap *)
Definition Swap (i j : nat) : go EventIntervals unit := λ l,
  match l !! i, l !! j with
  | Some x, Some y => (Ret tt, <[j := x]> (<[i := y]> l))
  | _, _ => (Panic "index out of range", l)
  end.

Definition EventIntervals_Interface : sort_Interface EventIntervals :=
  mkSortInterface Len Less_at Swap.

(** [sort.Sort(intervals)]: the methods never index out of the range, and sort. *)
Definition Sort_intervals (l : EventIntervals) : EventIntervals :=
  (insertionSort EventIntervals_Interface l).2.

Lemma Sort_intervals_Ret l : insertionSort EventIntervals_Interface l = (Ret tt, Sort_intervals l).
Proof.
  destruct (insertionSort_slice Less Less_asym Less_negtrans l) as (l' & Hr & _).
  change (insertionSort EventIntervals_Interface l = (Ret tt, l')) in Hr.
  unfold Sort_intervals. by rewrite Hr.
Qed.

#[export] Instance Sort_intervals_GoSort : GoSort Less Sort_intervals.
Proof. apply Sort_slice_GoSort; [apply Less_asym|apply Less_negtrans]. Qed.
