(* ===== verification/Monitor.v ===== *)
(** * pkg/monitor/monitor.go: the monitor's store and its queries

    [Monitor] is the mutable state behind the lock; every method is one atomic
    step on it (the lock is held for the whole critical section), except
    [sample], which reads the samplers in one section and appends the sample
    in another. *)

From S2P Require Import Prelude.
From S2P Require Import GoStrings.
From S2P Require Import GoLib.
From S2P Require Import MonitorTypes.

(* src: pkg/monitor/monitor.go 13-20 Monitor *)
Record Monitor := mkMonitor {
  interval : duration;
  samplers : list SamplerFunc;
  events : list Event;
  samples : list sample
}.

(* src: pkg/monitor/monitor.go 23-27 NewMonitor *)
Definition NewMonitor : Monitor := mkMonitor (15 * Second)%Z [] [] [].

(* src: pkg/monitor/monitor.go 55-59 Monitor.AddSampler *)
Definition AddSampler (fn : SamplerFunc) (m : Monitor) : Monitor :=
  mkMonitor (interval m) (samplers m ++ [fn]) (events m) (samples m).

(** [now] is the value of [time.Now().UTC()] read under the lock. *)
(* src: pkg/monitor/monitor.go 63-76 Monitor.Record *)
Definition Record_ (now : time) (cs : list Condition) (m : Monitor) : Monitor :=
  match cs with
  | [] => m
  | _ => mkMonitor (interval m) (samplers m)
           (events m ++ map (λ c, mkEvent c now) cs) (samples m)
  end.

#[export] Instance Monitor_Recorder : Recorder Monitor :=
  {| recorder_Record := Record_; recorder_AddSampler := AddSampler |}.

#[export] Instance Monitor_RecorderLaws : RecorderLaws Monitor.
Proof.
  split; [done|]. intros t [|c cs] [|c' cs'] m; cbn; try done.
  - by rewrite app_nil_r.
  - by rewrite map_app, <- app_assoc.
Qed.

(** [sample] runs the samplers it read at [now] outside the lock and appends
    what they returned, if anything, at the later instant [t]. *)
Definition collect (now : time) (fns : list SamplerFunc) : list Condition :=
  concat (map (λ fn : SamplerFunc, fn now) fns).

Definition append_sample (t : time) (cs : list Condition) (m : Monitor) : Monitor :=
  match cs with
  | [] => m
  | _ => mkMonitor (interval m) (samplers m) (events m) (samples m ++ [mkSample t cs])
  end.

(* src: pkg/monitor/monitor.go 78-99 Monitor.sample *)
Definition sample_ (now t : time) (m : Monitor) : Monitor :=
  append_sample t (collect now (samplers m)) m.

(** The goroutine of [StartSampling]: one [sample] per tick and a last one when
    the context is done.  [ticks] are the (now, t) pairs of the ticks. *)
(* src: pkg/monitor/monitor.go 33-50 Monitor.StartSampling *)
Fixpoint StartSampling (ticks : list (time * time)) (fin : time * time) (m : Monitor) : Monitor :=
  if (interval m =? 0)%Z then m
  else match ticks with
       | [] => sample_ (fst fin) (snd fin) m
       | (now, t) :: rest => StartSampling rest fin (sample_ now t m)
       end.

(* src: pkg/monitor/monitor.go 101-105 Monitor.snapshot *)
Definition snapshot (m : Monitor) : list sample * list Event := (samples m, events m).

(** ** Windows *)

(** [for i := range l { if l[i].at.After(to) { return l[:i] } }] *)
Definition until {A} (stamp : A → time) (to : time) (l : list A) : list A :=
  take_while (λ x, negb (After (stamp x) to)) l.

(** [l[sort.Search(len(l), l[i].at.After(from)):]] *)
Definition from_search {A} (stamp : A → time) (from : time) (l : list A) : list A :=
  drop (Search (length l)
          (λ i, match l !! i with Some x => After (stamp x) from | None => true end)) l.

(* src: pkg/monitor/monitor.go 199-219 filterEvents *)
Definition filterEvents (evs : list Event) (from to : time) : list Event :=
  if IsZero from && IsZero to then evs
  else
    let rest := from_search At from evs in
    if IsZero to then rest else until At to rest.

(** ** Sampled conditions *)

(** The loop of [filterSamples]: the intervals built so far, and the two maps
    from a condition to its interval (an index into [ivs], since the map and
    the slice share the interval). *)
Record fs_state := mkFs {
  ivs : list EventInterval;
  lastm : gmap Condition nat;
  nextm : gmap Condition nat
}.

Definition set_To (t : time) (i : EventInterval) : EventInterval :=
  mkInterval (IvCondition i) (From i) t.

(* src: pkg/monitor/monitor.go 177-190 filterSamples.condition *)
Definition fs_condition (t : time) (st : fs_state) (c : Condition) : fs_state :=
  match lastm st !! c with
  | Some i => mkFs (alter (set_To t) i (ivs st)) (lastm st) (<[c := i]> (nextm st))
  | None =>
      mkFs (ivs st ++ [mkInterval c t t]) (lastm st) (<[c := length (ivs st)]> (nextm st))
  end.

(** After the conditions of a sample: [last] is emptied and swapped with
    [next]. *)
Definition fs_sample (st : fs_state) (s : sample) : fs_state :=
  let st' := fold_left (fs_condition (at_ s)) (conditions s) st in
  mkFs (ivs st') (nextm st') ∅.

(* src: pkg/monitor/monitor.go 146-197 filterSamples *)
Definition filterSamples (l : list sample) (from to : time) : list EventInterval :=
  let l := if IsZero from then l else from_search at_ from l in
  let l := if IsZero to then l else until at_ to l in
  ivs (fold_left fs_sample l (mkFs [] ∅ ∅)).

(* src: pkg/monitor/monitor.go 113-116 Monitor.Conditions *)
Definition Conditions (m : Monitor) (from to : time) : list EventInterval :=
  filterSamples (fst (snapshot m)) from to.

Definition event_interval (e : Event) : EventInterval :=
  mkInterval (EvCondition e) (At e) (At e).

(** The merge of [Events], over any implementation [srt] of [sort.Sort]. *)
(* src: pkg/monitor/monitor.go 121-144 Monitor.Events *)
Definition Events (srt : list EventInterval → list EventInterval)
    (m : Monitor) (from to : time) : list EventInterval :=
  let '(ss, es) := snapshot m in
  let intervals := filterSamples ss from to in
  let mustSort := negb (Nat.eqb (length intervals) 0) in
  let merged :=
    intervals ++ map event_interval (filterEvents es from to) in
  if mustSort then srt merged else merged.

(* src: pkg/monitor/monitor.go 29-29 Interface *)
#[export] Instance Monitor_Interface : Interface Monitor :=
  {| interface_Events := Events Sort_intervals; interface_Conditions := Conditions |}.

(** ** Specification of the windows

    On a list sorted by time both filters select the elements of the
    half-open window (from, to]; a zero bound is no bound. *)

Definition in_window (from to t : time) : bool :=
  (IsZero from || After t from) && (IsZero to || negb (After t to)).

Definition sorted_by {A} (stamp : A → time) (l : list A) : Prop :=
  StronglySorted (λ x y, stamp x ≤ stamp y)%Z l.

Section Windows.
Context {A : Type} (stamp : A → time).

Lemma until_sorted to l :
  sorted_by stamp l → until stamp to l = bfilter (λ x, negb (After (stamp x) to)) l.
Proof.
  unfold until. induction 1 as [|x l Hs IH Hall]; cbn; [done|].
  destruct (After (stamp x) to) eqn:E; cbn; [|by rewrite IH].
  symmetry. apply bfilter_none. eapply Forall_impl; [apply Hall|]. cbn.
  intros y Hy. unfold After in *. propify. apply negb_false_iff, Z.ltb_lt. lia.
Qed.

Lemma drop_first_true (p : A → bool) n l :
  n ≤ length l →
  (∀ k x, l !! k = Some x → k < n → p x = false) →
  (∀ k x, l !! k = Some x → n ≤ k → p x = true) →
  drop n l = bfilter p l.
Proof.
  intros Hn H1 H2. rewrite <- (take_drop n l) at 2.
  rewrite bfilter_app, bfilter_none, bfilter_all; [done| |].
  - apply Forall_lookup. intros i x Hi. rewrite lookup_drop in Hi.
    eapply H2; [done|lia].
  - apply Forall_lookup. intros i x Hi. pose proof (lookup_lt_Some _ _ _ Hi) as Hlt.
    rewrite length_take in Hlt. rewrite lookup_take_lt in Hi by lia.
    eapply H1; [done|lia].
Qed.

Lemma sorted_by_lookup l i j x y :
  sorted_by stamp l → i ≤ j → l !! i = Some x → l !! j = Some y → (stamp x ≤ stamp y)%Z.
Proof.
  intros Hs Hij Hi Hj. destruct (decide (i = j)) as [->|]; [simplify_eq; lia|].
  revert i j Hij Hi Hj n. induction Hs as [|z l Hs IH Hall]; intros i j ???; [done|].
  intros. destruct i as [|i], j as [|j]; simplify_eq/=; try lia.
  - rewrite Forall_lookup in Hall. eauto.
  - eapply (IH i j); eauto; lia.
Qed.

Lemma from_search_sorted from l :
  sorted_by stamp l → from_search stamp from l = bfilter (λ x, After (stamp x) from) l.
Proof.
  intros Hs. unfold from_search.
  edestruct Search_spec as (H1 & H2 & H3); [|apply drop_first_true; [apply H1|..]].
  - cbn beta. intros a b Hab. destruct (l !! a) eqn:Ea, (l !! b) eqn:Eb; try done.
    + intros Ha. pose proof (sorted_by_lookup l a b _ _ Hs Hab Ea Eb).
      unfold After in *. propify. apply Z.ltb_lt. lia.
    + intros _. apply lookup_lt_Some in Eb. apply lookup_ge_None in Ea. lia.
  - intros k x Hk Hlt. specialize (H2 k Hlt). cbn beta in H2. by rewrite Hk in H2.
  - intros k x Hk Hle. pose proof (lookup_lt_Some _ _ _ Hk).
    specialize (H3 k (conj Hle H)). cbn beta in H3. by rewrite Hk in H3.
Qed.

Lemma sorted_by_bfilter (p : A → bool) l : sorted_by stamp l → sorted_by stamp (bfilter p l).
Proof.
  induction 1 as [|x l Hs IH Hall]; cbn; [constructor|]. destr_match; [|done].
  constructor; [done|]. apply Forall_forall. intros y [Hy _]%elem_of_bfilter.
  rewrite Forall_forall in Hall. auto.
Qed.

End Windows.

#[export] Hint Resolve sorted_by_bfilter : ott.

(** ** Specification of the sampled intervals: maximal runs

    Condition [c], seen at [t], persists through the samples [l] while
    consecutive samples report it; [run_end] is the time of the last of them. *)

Fixpoint run_end (c : Condition) (t : time) (l : list sample) : time :=
  match l with
  | [] => t
  | s :: l' => if bool_decide (c ∈ conditions s) then run_end c (at_ s) l' else t
  end.

(** One interval per maximal run, in the order of first sampling; [prev] are
    the conditions of the sample before [l]. *)
Fixpoint runs (prev : list Condition) (l : list sample) : list EventInterval :=
  match l with
  | [] => []
  | s :: l' =>
      map (λ c, mkInterval c (at_ s) (run_end c (at_ s) l'))
        (bfilter (λ c, bool_decide (c ∉ prev)) (conditions s))
      ++ runs (conditions s) l'
  end.

Section Runs.
(** The map [m] points at intervals of its own conditions. *)
Definition points (m : gmap Condition nat) (l : list EventInterval) : Prop :=
  ∀ c i, m !! c = Some i → IvCondition <$> l !! i = Some c.

(** The intervals once the rest [l] of the samples is processed, in the
    middle of a sample taken at [t] whose conditions [rest] remain. *)
Definition close (st : fs_state) (rest : list Condition) (t : time) (l : list sample) :=
  imap (λ i iv,
    let c := IvCondition iv in
    if bool_decide (nextm st !! c = Some i) then set_To (run_end c (To iv) l) iv
    else if bool_decide (c ∈ rest ∧ lastm st !! c = Some i) then set_To (run_end c t l) iv
    else iv) (ivs st).

Definition fresh (st : fs_state) (t : time) (cs : list Condition) (l : list sample) :=
  map (λ c, mkInterval c t (run_end c t l))
    (bfilter (λ c, bool_decide (lastm st !! c = None)) cs).

Lemma points_app m l l' : points m l → points m (l ++ l').
Proof.
  intros H c i Hi. specialize (H c i Hi).
  destruct (l !! i) eqn:E; [|done]. by rewrite (lookup_app_l_Some _ _ _ _ E).
Qed.

Lemma points_alter m l t i : points m l → points m (alter (set_To t) i l).
Proof.
  intros H c j Hj. specialize (H c j Hj).
  destruct (decide (i = j)) as [->|]; [|by rewrite list_lookup_alter_ne].
  rewrite list_lookup_alter_eq. by destruct (l !! j).
Qed.

Lemma points_insert m l c i :
  points m l → IvCondition <$> l !! i = Some c → points (<[c := i]> m) l.
Proof.
  intros H Hi d j. destruct (decide (c = d)) as [->|].
  - rewrite lookup_insert_eq. intros [= <-]. done.
  - rewrite lookup_insert_ne by done. apply H.
Qed.

Lemma fs_condition_points t st c :
  points (lastm st) (ivs st) → points (nextm st) (ivs st) →
  points (lastm st) (ivs (fs_condition t st c)) ∧
  points (nextm (fs_condition t st c)) (ivs (fs_condition t st c)).
Proof.
  intros Hl Hn. unfold fs_condition. destruct (lastm st !! c) as [i|] eqn:E; cbn.
  - split; [by apply points_alter|]. apply points_insert; [by apply points_alter|].
    rewrite list_lookup_alter_eq. specialize (Hl c i E). by destruct (ivs st !! i).
  - split; [by apply points_app|]. apply points_insert; [by apply points_app|].
    rewrite lookup_app_r, Nat.sub_diag by lia. done.
Qed.

Lemma fs_condition_last t st c : lastm (fs_condition t st c) = lastm st.
Proof. unfold fs_condition. by destruct (lastm st !! c). Qed.

(** One condition leaves the final result unchanged. *)
Lemma close_step t st c rest l :
  points (lastm st) (ivs st) → nextm st !! c = None → c ∉ rest →
  close st (c :: rest) t l ++ fresh st t (c :: rest) l =
  close (fs_condition t st c) rest t l ++ fresh (fs_condition t st c) t rest l.
Proof.
  intros Hp Hn Hr. unfold fresh. rewrite fs_condition_last. cbn [bfilter].
  unfold close. rewrite fs_condition_last. unfold fs_condition.
  destruct (lastm st !! c) as [i|] eqn:E; cbn [ivs nextm].
  - rewrite bool_decide_eq_false_2 by done. f_equal.
    apply list_eq. intros j. rewrite !list_lookup_imap.
    destruct (decide (i = j)) as [<-|Hij].
    + rewrite list_lookup_alter_eq. specialize (Hp c i E).
      destruct (ivs st !! i) as [iv|]; [|done]. injection Hp as Hp. cbn. f_equal.
      rewrite Hp, Hn, lookup_insert_eq, bool_decide_eq_false_2 by done.
      rewrite !bool_decide_eq_true_2; [done|done|split; [left|done]].
    + rewrite list_lookup_alter_ne by done. destruct (ivs st !! j) as [iv|]; [|done].
      cbn. f_equal. destruct (decide (c = IvCondition iv)) as [<-|Hd].
      * rewrite Hn, E, lookup_insert_eq. repeat rewrite bool_decide_eq_false_2; try done;
          intros ?; destruct_and?; simplify_eq.
      * rewrite lookup_insert_ne by done. repeat case_bool_decide; try done; set_solver.
  - rewrite bool_decide_eq_true_2 by done. cbn [map]. rewrite imap_app. cbn.
    rewrite <- app_assoc. f_equal.
    + apply imap_ext. intros j iv Hj. cbn.
      destruct (decide (c = IvCondition iv)) as [<-|Hd].
      * pose proof (lookup_lt_Some _ _ _ Hj).
        rewrite Hn, E, lookup_insert_eq. repeat rewrite bool_decide_eq_false_2; try done;
          intros ?; destruct_and?; simplify_eq; lia.
      * rewrite lookup_insert_ne by done. repeat case_bool_decide; try done; set_solver.
    + rewrite Nat.add_0_r, lookup_insert_eq, bool_decide_eq_true_2 by done. done.
Qed.

Lemma close_fold t cs st l :
  NoDup cs → points (lastm st) (ivs st) → points (nextm st) (ivs st) →
  (∀ c, c ∈ cs → nextm st !! c = None) →
  let st' := fold_left (fs_condition t) cs st in
  close st cs t l ++ fresh st t cs l = close st' [] t l ∧
  points (nextm st') (ivs st') ∧
  (∀ c, is_Some (nextm st' !! c) ↔ c ∈ cs ∨ is_Some (nextm st !! c)).
Proof.
  revert st. induction cs as [|c cs IH]; intros st Hnd Hl Hn Hf.
  - cbn. unfold fresh. cbn. rewrite app_nil_r. split; [done|]. split; [done|].
    intros c. rewrite elem_of_nil. tauto.
  - apply NoDup_cons in Hnd as [Hc Hnd]. cbn [fold_left].
    pose proof (fs_condition_points t st c Hl Hn) as [Hl' Hn'].
    assert (∀ d, nextm (fs_condition t st c) !! d =
                 if decide (d = c) then nextm (fs_condition t st c) !! c else nextm st !! d) as Hnx.
    { intros d. case_decide as Hd; [by subst|]. unfold fs_condition.
      destruct (lastm st !! c); cbn; by rewrite lookup_insert_ne. }
    assert (is_Some (nextm (fs_condition t st c) !! c)) as Hsome.
    { unfold fs_condition. destruct (lastm st !! c); cbn; rewrite lookup_insert_eq; eauto. }
    destruct (IH (fs_condition t st c)) as (H1 & H2 & H3); [done|by rewrite fs_condition_last|done| |].
    { intros d Hd. rewrite Hnx. case_decide; [set_solver|]. apply Hf. by right. }
    rewrite close_step, H1; [|done|apply Hf; left|done].
    split; [done|]. split; [done|]. intros d. rewrite H3, elem_of_cons, Hnx.
    case_decide; subst; tauto.
Qed.

(** The rest [l] of the samples, from a state between two samples. *)
Lemma fs_samples_runs l st prev :
  points (lastm st) (ivs st) → nextm st = ∅ →
  (∀ c, is_Some (lastm st !! c) ↔ c ∈ prev) →
  Forall (λ s, NoDup (conditions s)) l →
  ivs (fold_left fs_sample l st) =
  imap (λ i iv, let c := IvCondition iv in
          if bool_decide (lastm st !! c = Some i) then set_To (run_end c (To iv) l) iv else iv)
    (ivs st) ++ runs prev l.
Proof.
  revert st prev. induction l as [|s l IH]; intros st prev Hp Hn Hprev Hnd.
  - cbn. rewrite app_nil_r. symmetry. rewrite <- (list_fmap_id (ivs st)) at 2.
    rewrite <- imap_const. apply imap_ext. intros i [] ?. cbn. by case_bool_decide.
  - inv Hnd. cbn [fold_left runs].
    destruct (close_fold (at_ s) (conditions s) st l) as (H3 & H4 & H5);
      [done|done|by rewrite Hn|by intros; rewrite Hn|].
    rewrite (IH _ (conditions s)); unfold fs_sample; cbn [ivs lastm nextm]; [|done|done| |done].
    + rewrite app_assoc. f_equal. unfold close at 2 in H3.
      etrans; [|etrans; [symmetry; apply H3|]].
      * apply imap_ext. intros i iv _. cbn. repeat case_bool_decide; try done; set_solver.
      * unfold close, fresh. rewrite Hn. f_equal.
        -- apply imap_ext. intros i [c f t] _. cbn. rewrite lookup_empty.
           repeat case_bool_decide; try done; naive_solver.
        -- f_equal. apply bfilter_ext. intros c _. apply bool_decide_ext.
           rewrite <- Hprev, <- eq_None_not_Some. done.
    + intros c. rewrite H5, Hn, lookup_empty. unfold is_Some. naive_solver.
Qed.
End Runs.

Lemma fs_runs l :
  Forall (λ s, NoDup (conditions s)) l →
  ivs (fold_left fs_sample l (mkFs [] ∅ ∅)) = runs [] l.
Proof.
  intros H. rewrite (fs_samples_runs l _ []); cbn; try done.
  - intros c. rewrite lookup_empty, elem_of_nil. unfold is_Some. naive_solver.
Qed.

(** ** The queries *)

Definition at_pos {A} (stamp : A → time) (l : list A) : Prop := Forall (λ x, 0 < stamp x)%Z l.

Lemma in_window_true {A} (stamp : A → time) l from to :
  IsZero from = true → IsZero to = true → bfilter (λ x, in_window from to (stamp x)) l = l.
Proof.
  intros H1 H2. apply bfilter_all, Forall_forall. intros x _. unfold in_window.
  by rewrite H1, H2.
Qed.

(** On events in time order, the binary search and the scan of
    [filterEvents] select exactly the events of the window (from, to], a zero
    bound being no bound. *)
Lemma filterEvents_window evs from to :
  sorted_by At evs → at_pos At evs →
  filterEvents evs from to = bfilter (λ e, in_window from to (At e)) evs.
Proof.
  intros Hs Hp. unfold filterEvents.
  destruct (IsZero from) eqn:Ef, (IsZero to) eqn:Et; cbn [andb];
    rewrite ?in_window_true by done; try done.
  all: rewrite from_search_sorted by done.
  all: rewrite ?until_sorted, ?bfilter_bfilter by auto with ott.
  all: apply bfilter_ext; intros e He; unfold in_window; rewrite Ef, ?Et; cbn; try done.
  - unfold IsZero in Ef. propify. subst. unfold at_pos in Hp. rewrite Forall_forall in Hp.
    specialize (Hp e He). unfold After.
    by rewrite (proj2 (Z.ltb_lt 0 (At e)) Hp).
  - by rewrite andb_true_r.
Qed.

Definition one_two : list Event :=
  [mkEvent (mkCondition Info "" "1") (1 * Second)%Z; mkEvent (mkCondition Info "" "2") (2 * Second)%Z].

Lemma one_two_sorted : sorted_by At one_two.
Proof. repeat constructor; cbn; unfold Second; lia. Qed.

(** C20: on samples in time order, none of which repeats a condition,
    [filterSamples] returns one interval per maximal run of consecutive samples
    of the window (from, to] that report the condition, in the order of first
    sampling, from the first to the last sample of the run. *)
Theorem filterSamples_runs l from to :
  sorted_by at_ l → Forall (λ s, NoDup (conditions s)) l →
  filterSamples l from to = runs [] (bfilter (λ s, in_window from to (at_ s)) l).
Proof.
  intros Hs Hnd. unfold filterSamples.
  set (l1 := if IsZero from then l else from_search at_ from l).
  assert (l1 = bfilter (λ s, IsZero from || After (at_ s) from) l) as E1.
  { subst l1. destruct (IsZero from); cbn; [|by apply from_search_sorted].
    symmetry. by apply bfilter_all, Forall_forall. }
  assert ((if IsZero to then l1 else until at_ to l1)
          = bfilter (λ s, in_window from to (at_ s)) l) as ->.
  { rewrite E1. unfold in_window. destruct (IsZero to); cbn.
    - apply bfilter_ext. intros. by rewrite andb_true_r.
    - rewrite until_sorted by auto with ott. by rewrite bfilter_bfilter. }
  apply fs_runs. apply Forall_forall. intros s [Hin _]%elem_of_bfilter.
  rewrite Forall_forall in Hnd. auto.
Qed.

Definition cond_ (m : string) : Condition := mkCondition Info "" m.
Definition three_samples : list sample :=
  [mkSample (1 * Second) [cond_ "1"; cond_ "A"]; mkSample (2 * Second) [cond_ "2"];
   mkSample (3 * Second) [cond_ "2"; cond_ "A"]]%Z.

Example filterSamples_runs_witness :
  filterSamples three_samples (1 * Second)%Z 0%Z =
    [mkInterval (cond_ "2") (2 * Second)%Z (3 * Second)%Z;
     mkInterval (cond_ "A") (3 * Second)%Z (3 * Second)%Z].
Proof.
  rewrite (filterSamples_runs three_samples); [reflexivity| |].
  - repeat constructor; cbn; unfold Second; lia.
  - repeat constructor; set_solver.
Defined.

(** ** The store over time *)

(** The steps of a monitor and of the clock: the goroutines of the samplers and
    the handlers interleave at the granularity of the critical sections, and
    the clock does not run backwards. *)
Inductive monitor_step : time * Monitor → time * Monitor → Prop :=
| step_clock t t' m : (t ≤ t')%Z → monitor_step (t, m) (t', m)
| step_record t m cs : monitor_step (t, m) (t, Record_ t cs m)
| step_add t m fn : monitor_step (t, m) (t, AddSampler fn m)
| step_sample t m now fns : monitor_step (t, m) (t, append_sample t (collect now fns) m).

Definition in_order {A} (stamp : A → time) (now : time) (l : list A) : Prop :=
  sorted_by stamp l ∧ Forall (λ x, 0 < stamp x ≤ now)%Z l.

Lemma in_order_le {A} (stamp : A → time) t t' l :
  (t ≤ t')%Z → in_order stamp t l → in_order stamp t' l.
Proof.
  intros Ht [Hs Hl]. split; [done|]. eapply Forall_impl; [apply Hl|]. cbn. lia.
Qed.

Lemma in_order_app {A} (stamp : A → time) t l l' :
  (0 < t)%Z → Forall (λ x, stamp x = t) l' → in_order stamp t l → in_order stamp t (l ++ l').
Proof.
  intros Hpos Hl' [Hs Hl]. split.
  - unfold sorted_by in *. apply StronglySorted_app. split_and!; [|done|].
    + intros x y Hx Hy. rewrite Forall_forall in Hl, Hl'.
      specialize (Hl x Hx). rewrite (Hl' y Hy). lia.
    + clear Hl Hs. induction Hl' as [|x l' Hx Hl' IH]; constructor; [done|].
      eapply Forall_impl; [apply Hl'|]. cbn. lia.
  - apply Forall_app. split; [done|]. eapply Forall_impl; [apply Hl'|]. cbn. lia.
Qed.

Definition monitor_wf (s : time * Monitor) : Prop :=
  (0 < s.1)%Z ∧ in_order At s.1 (events s.2) ∧ in_order at_ s.1 (samples s.2).

Lemma monitor_step_wf s s' : monitor_step s s' → monitor_wf s → monitor_wf s'.
Proof.
  intros Hstep (Ht & He & Hs).
  destruct Hstep as [t t' m Hle|t m cs|t m fn|t m now fns]; unfold monitor_wf; cbn in *.
  - split_and!; [lia|by eapply in_order_le..].
  - destruct cs as [|c cs]; [done|]. split_and!; cbn; try done.
    apply in_order_app; [done| |done].
    constructor; [done|]. apply Forall_forall. intros e (d & -> & _)%list_elem_of_fmap. done.
  - done.
  - unfold append_sample. destruct (collect now fns); [done|]. split_and!; cbn; try done.
    apply in_order_app; [done|by repeat constructor|done].
Qed.

(** C19: whatever the interleaving of recordings, samplings and sampler
    registrations, the events and the samples a monitor has stored are in the
    order of their times, which is what its queries rely on; so a query for
    the events of a window without samples returns, in time order, exactly
    the events of the window. *)
Theorem monitor_reachable_events srt t0 t m from to :
  (0 < t0)%Z → rtc monitor_step (t0, NewMonitor) (t, m) →
  sorted_by At (events m) ∧ sorted_by at_ (samples m) ∧
  (Conditions m from to = [] →
   Events srt m from to =
     map event_interval (bfilter (λ e, in_window from to (At e)) (events m))).
Proof.
  intros Ht Hsteps.
  assert (monitor_wf (t, m)) as (_ & [H1 H2] & [H3 _]).
  { apply (rtc_preserve _ _ _ _ monitor_step_wf Hsteps). split_and!; repeat constructor; done. }
  split_and!; [done..|]. unfold Conditions, Events, snapshot. cbn. intros ->. cbn.
  rewrite filterEvents_window; [done|done|].
  eapply Forall_impl; [apply H2|]. cbn. lia.
Qed.

Example monitor_reachable_events_witness :
  Events (insertion_sort Less) (Record_ (2 * Second) [cond_ "x"] NewMonitor)%Z
    (1 * Second)%Z (2 * Second)%Z = [mkInterval (cond_ "x") (2 * Second)%Z (2 * Second)%Z].
Proof.
  edestruct (monitor_reachable_events (insertion_sort Less) (2 * Second)%Z (2 * Second)%Z)
    as (_ & _ & H); [done|apply rtc_once, (step_record _ _ [cond_ "x"])|].
  rewrite H; reflexivity.
Defined.

(** C21: [Events] returns the sampled intervals of the window and its events,
    each exactly once; when there are sampled intervals the result is sorted by
    start, then end, then message. *)
Theorem Events_spec srt m from to :
  GoSort Less srt → sorted_by At (events m) → at_pos At (events m) →
  let ivs := filterSamples (samples m) from to in
  Events srt m from to ≡ₚ
    ivs ++ map event_interval (bfilter (λ e, in_window from to (At e)) (events m)) ∧
  (ivs ≠ [] → StronglySorted (λ x y, Less y x = false) (Events srt m from to)).
Proof.
  intros Hsrt He Hp ivs. unfold Events, snapshot. fold ivs.
  rewrite filterEvents_window by done. destruct ivs; cbn [length Nat.eqb negb].
  - split; [done|]. intros; done.
  - split; [apply sort_perm|]. intros _. apply sort_sorted.
Qed.

Definition monitor_of (ss : list sample) (es : list Event) : Monitor :=
  mkMonitor (15 * Second)%Z [] es ss.

Example Events_spec_witness :
  length (Events Sort_intervals (monitor_of three_samples one_two) 0%Z 0%Z) = 6 ∧
  StronglySorted (λ x y, Less y x = false)
    (Events Sort_intervals (monitor_of three_samples one_two) 0%Z 0%Z).
Proof.
  destruct (Events_spec Sort_intervals (monitor_of three_samples one_two) 0%Z 0%Z)
    as [H1 H2]; [apply _|apply one_two_sorted|repeat constructor|].
  split; [by rewrite H1|by apply H2].
Defined.

(** ** The cases of monitor_test.go *)

Example TestMonitor_Newlines :
  Event_String (mkEvent (mkCondition Info "" ("a" +:+ nl +:+ "b" +:+ nl)) 0%Z) =
  "Jan 01 00:00:00.000 I  a\nb\n"%string.
Proof. reflexivity. Qed.

Example TestMonitor_Events :
  Events Sort_intervals (monitor_of [] one_two) (2 * Second)%Z 0%Z = [] ∧
  Events Sort_intervals (monitor_of three_samples []) 0%Z 0%Z =
    [mkInterval (cond_ "1") (1 * Second) (1 * Second);
     mkInterval (cond_ "A") (1 * Second) (1 * Second);
     mkInterval (cond_ "2") (2 * Second) (3 * Second);
     mkInterval (cond_ "A") (3 * Second) (3 * Second)]%Z.
Proof. vm_compute. done. Qed.
