(* ===== verification/Queue.v ===== *)
(** * pkg/test/ginkgo/queue.go: the parallel test queue

    Tests are pointers: the queue is polymorphic in the type [T] of references
    and reads a test's name and exclusion through it (neither changes while
    the queue runs; the same pointer may be queued several times).

    [Execute] is a transition system.  Every critical section of [q.lock] is
    one step; the call of [q.cond.Wait] after a failed [pop] is a step of its
    own, because the condition variable is built on [nopLock] and [q.lock] is
    not held between the two. *)

From S2P Require Import Prelude.
From S2P Require Import GoStrings.

(** ** container/ring

    A ring is the list of its values read forward from the element pointed at;
    the nil ring is the empty list. *)

Section Ring.
Context {A : Type}.

Definition ring_Next (r : list A) : list A :=
  match r with [] => [] | x :: r' => r' ++ [x] end.

Definition ring_Prev (r : list A) : list A :=
  match reverse r with [] => [] | x :: r' => x :: reverse r' end.

(** [r.Unlink(1)] for a ring of at least two elements: the element after [r]
    is removed. *)
Definition ring_Unlink1 (r : list A) : list A :=
  match r with x :: _ :: r' => x :: r' | _ => r end.

Lemma ring_Prev_snoc r x : ring_Prev (r ++ [x]) = x :: r.
Proof. unfold ring_Prev. by rewrite reverse_snoc, reverse_involutive. Qed.

Lemma ring_Next_iter r1 r2 : Nat.iter (length r1) ring_Next (r1 ++ r2) = r2 ++ r1.
Proof.
  revert r2. induction r1 as [|x r1 IH]; intros r2; cbn [length app].
  - by rewrite app_nil_r.
  - rewrite Nat.iter_succ_r. cbn [ring_Next]. rewrite <- app_assoc, IH.
    by rewrite <- app_assoc.
Qed.
End Ring.

Section Queue.
Context {T : Type} (name testExclusion : T → string).

(* src: pkg/test/ginkgo/queue.go 14-19 parallelByFileTestQueue *)
Record queue := mkQueue { q_ring : list T; q_active : gset string }.

(** The ring is filled by stepping over it once, which leaves the pointer on
    the first test. *)
Fixpoint fill (l : list T) (r : list (option T)) : list (option T) :=
  match l with
  | [] => r
  | t :: l' => fill l' (ring_Next (match r with _ :: r' => Some t :: r' | [] => [] end))
  end.

(* src: pkg/test/ginkgo/queue.go 28-40 newParallelTestQueue *)
Definition newParallelTestQueue (tests : list T) : queue :=
  mkQueue (omap id (fill tests (replicate (length tests) None))) ∅.

(** The three results of [pop]: (nil, true), (test, true) and (nil, false). *)
Inductive popped := PopNil | PopTest (t : T) | PopBusy.

(** The loop of [pop]; [i] counts down from the length of the ring. *)
Fixpoint pop_scan (l i : nat) (r : list T) (act : gset string) : popped * queue :=
  match i, r with
  | S i', t :: _ =>
      if bool_decide (testExclusion t ∈ act) then pop_scan l i' (ring_Next r) act
      else
        let act := if Nat.ltb 0 (String.length (testExclusion t))
                   then {[ testExclusion t ]} ∪ act else act in
        (PopTest t,
         if Nat.eqb l 1 then mkQueue [] act
         else mkQueue (ring_Unlink1 (ring_Prev r)) act)
  | _, _ => (PopBusy, mkQueue r act)
  end.

(** When every test is excluded the loop has gone round the ring, so the
    pointer, which the code does not assign, is where it was.  The boolean
    says whether the waiters are woken. *)
(* src: pkg/test/ginkgo/queue.go 42-69 parallelByFileTestQueue.pop *)
Definition pop (q : queue) : popped * bool * queue :=
  let l := length (q_ring q) in
  if Nat.eqb l 0 then (PopNil, true, q)
  else match pop_scan l l (q_ring q) (q_active q) with
       | (PopTest t, q') => (PopTest t, false, q')
       | (p, _) => (p, false, q)
       end.

(* src: pkg/test/ginkgo/queue.go 71-76 parallelByFileTestQueue.done *)
Definition q_done (t : T) (q : queue) : queue :=
  mkQueue (q_ring q) (q_active q ∖ {[ testExclusion t ]}).

(* src: pkg/test/ginkgo/queue.go 78-84 parallelByFileTestQueue.Close *)
Definition q_Close (q : queue) : queue := mkQueue [] ∅.

(** ** Specification of [pop] *)

Definition excluded (act : gset string) (t : T) : Prop := testExclusion t ∈ act.

Definition hold (t : T) (act : gset string) : gset string :=
  if Nat.ltb 0 (String.length (testExclusion t)) then {[ testExclusion t ]} ∪ act else act.

(** The ring after the test between [l1] and [l2] is taken: it is read from
    the test before it, if any. *)
Definition ring_after (l1 l2 : list T) : list T := ring_Prev (l2 ++ l1).

Lemma fill_spec l done_ :
  fill l (replicate (length l) None ++ map Some done_) = map Some (done_ ++ l).
Proof.
  revert done_. induction l as [|t l IH]; intros d; cbn; [by rewrite app_nil_r|].
  rewrite <- app_assoc. change [Some t] with (map Some [t]).
  rewrite <- map_app, IH, <- app_assoc. done.
Qed.

Lemma newParallelTestQueue_ring tests :
  newParallelTestQueue tests = mkQueue tests ∅.
Proof.
  unfold newParallelTestQueue. f_equal. pose proof (fill_spec tests []) as H.
  cbn in H. rewrite app_nil_r in H. rewrite H. clear H.
  induction tests as [|t tests IH]; cbn; [done|]. by rewrite IH.
Qed.

Lemma pop_scan_skip l i r1 r2 act :
  Forall (excluded act) r1 →
  pop_scan l (length r1 + i) (r1 ++ r2) act = pop_scan l i (r2 ++ r1) act.
Proof.
  intros H. revert r2. induction H as [|t r1 Ht H IH]; intros r2; cbn [length app Nat.add].
  - by rewrite app_nil_r.
  - cbn [pop_scan]. rewrite bool_decide_eq_true_2 by done. cbn [ring_Next].
    rewrite <- app_assoc, IH, <- app_assoc. done.
Qed.

Lemma ring_after_perm l1 l2 : ring_after l1 l2 ≡ₚ l1 ++ l2.
Proof.
  unfold ring_after. destruct (l2 ++ l1) as [|x r _] eqn:E using rev_ind.
  - apply app_eq_nil in E as [-> ->]. done.
  - rewrite ring_Prev_snoc, (Permutation_app_comm l1 l2), E.
    by rewrite Permutation_app_comm.
Qed.

(** [pop] on a non-empty ring. *)
Lemma pop_first q l1 t l2 :
  q_ring q = l1 ++ t :: l2 → Forall (excluded (q_active q)) l1 → ¬ excluded (q_active q) t →
  pop q = (PopTest t, false, mkQueue (ring_after l1 l2) (hold t (q_active q))).
Proof.
  intros Hr H1 Ht. unfold pop. rewrite Hr.
  destruct (Nat.eqb_spec (length (l1 ++ t :: l2)) 0) as [E|_].
  { rewrite length_app in E. cbn in E. lia. }
  replace (length (l1 ++ t :: l2)) with (length l1 + S (length l2)) at 2
    by (rewrite length_app; done).
  rewrite pop_scan_skip by done. cbn [app pop_scan].
  rewrite bool_decide_eq_false_2 by done. fold (hold t (q_active q)).
  unfold ring_after. destruct (Nat.eqb_spec (length (l1 ++ t :: l2)) 1) as [E|E].
  - rewrite length_app in E. cbn in E. destruct l1, l2; cbn in *; try lia. done.
  - rewrite length_app in E. cbn in E.
    destruct (l2 ++ l1) as [|x r _] eqn:E2 using rev_ind.
    + apply app_eq_nil in E2 as [-> ->]. cbn in E. lia.
    + rewrite app_comm_cons, ring_Prev_snoc. cbn [ring_Unlink1]. by rewrite ring_Prev_snoc.
Qed.

Lemma pop_busy q :
  q_ring q ≠ [] → Forall (excluded (q_active q)) (q_ring q) → pop q = (PopBusy, false, q).
Proof.
  intros Hr H. unfold pop. destruct (Nat.eqb_spec (length (q_ring q)) 0) as [E|_].
  { by apply nil_length_inv in E. }
  pose proof (pop_scan_skip (length (q_ring q)) 0 (q_ring q) [] (q_active q) H) as E.
  rewrite Nat.add_0_r, app_nil_r in E. rewrite E. by destruct (q_ring q).
Qed.

Lemma pop_nil q : q_ring q = [] → pop q = (PopNil, true, q).
Proof. intros H. unfold pop. by rewrite H. Qed.

(** Every ring is in one of the three cases. *)
Lemma ring_cases q :
  q_ring q = [] ∨
  (q_ring q ≠ [] ∧ Forall (excluded (q_active q)) (q_ring q)) ∨
  ∃ l1 t l2, q_ring q = l1 ++ t :: l2 ∧ Forall (excluded (q_active q)) l1 ∧
             ¬ excluded (q_active q) t.
Proof.
  destruct (decide (q_ring q = [])) as [|Hne]; [by left|]. right.
  assert (∀ t, Decision (excluded (q_active q) t)) by (unfold excluded; apply _).
  destruct (decide (Forall (excluded (q_active q)) (q_ring q))) as [|H]; [by left|]. right.
  clear Hne. induction (q_ring q) as [|t r IH]; [by destruct H|].
  destruct (decide (excluded (q_active q) t)) as [Ht|Ht].
  - destruct IH as (l1 & t' & l2 & -> & ? & ?); [by intros ?; apply H; constructor|].
    exists (t :: l1), t', l2. split; [done|]. split; [by constructor|done].
  - exists [], t, r. split; [done|]. split; [constructor|done].
Qed.

(** C11: [pop] hands out the first test, in ring order, whose exclusion is not
    active, records its exclusion and leaves the other tests in the ring; it
    says (nil, true), and wakes the waiters, only on an empty queue, and
    (nil, false), changing nothing, only when every test is excluded. *)
Theorem pop_spec q :
  match pop q with
  | (PopNil, wakes, q') => q_ring q = [] ∧ wakes = true ∧ q' = q
  | (PopBusy, wakes, q') =>
      q_ring q ≠ [] ∧ Forall (excluded (q_active q)) (q_ring q) ∧ wakes = false ∧ q' = q
  | (PopTest t, wakes, q') => ∃ l1 l2,
      q_ring q = l1 ++ t :: l2 ∧ Forall (excluded (q_active q)) l1 ∧
      ¬ excluded (q_active q) t ∧ wakes = false ∧
      q_ring q' ≡ₚ l1 ++ l2 ∧ q_active q' = hold t (q_active q)
  end.
Proof.
  destruct (ring_cases q) as [H|[[H1 H2]|(l1 & t & l2 & H1 & H2 & H3)]].
  - by rewrite pop_nil.
  - by rewrite pop_busy.
  - rewrite (pop_first _ _ _ _ H1 H2 H3). exists l1, l2. split_and!; try done.
    apply ring_after_perm.
Qed.

End Queue.
