(* ===== verification/QueueExec.v ===== *)
(** * pkg/test/ginkgo/queue.go: Take and Execute as a transition system

    A worker is the goroutine [for q.Take(ctx, ...) {}]; its program counter
    says where in [Take] it is.  The steps interleave freely, the scheduler is
    the list of actions. *)

From S2P Require Import Prelude.
From S2P Require Import GoStrings.
From S2P Require Import Queue.

Section Exec.
Context {T : Type} (name testExclusion : T → string).

Notation pop := (pop testExclusion).
Notation q_done := (q_done testExclusion).

(* src: pkg/test/ginkgo/queue.go 86-100 parallelByFileTestQueue.Take *)
Inductive wpc :=
| PLoop             (* about to call q.pop *)
| PWait             (* pop said false: about to call q.cond.Wait *)
| PSleep            (* on the wait list of q.cond *)
| PTaken (t : T)    (* about to call fn(ctx, test) *)
| PRun (t : T)      (* inside the fn of Execute *)
| PDone (t : T)     (* about to run the deferred q.done(test) *)
| PExit.            (* Take returned false, wg.Done was called *)

(** The goroutine that calls Execute. *)
Inductive mpc :=
| MWait                               (* wg.Wait() *)
| MSerial (rest : list T)             (* at the head of the serial loop *)
| MRun (t : T) (rest : list T)        (* inside fn(parentCtx, test) *)
| MReturn.

Record exec := mkExec {
  ex_queue : queue (T := T);
  pcs : list wpc;           (* the workers, by i *)
  serial : list T;
  calls : list T;           (* the tests fn was called with, in order *)
  ctx_done : bool;          (* parentCtx.Done() is closed *)
  closer : bool;            (* the goroutine that waits to Close is alive *)
  main : mpc
}.

(** [q.cond.Broadcast()] *)
Definition wake (p : wpc) : wpc := match p with PSleep => PLoop | _ => p end.
Definition broadcast (b : bool) (l : list wpc) : list wpc := if b then map wake l else l.

(** The function Execute gives to Take: a serial test is set aside. *)
Definition isSerial (t : T) : bool := Contains (name t) "[Serial]".

(** One step of worker [i]. *)
(* src: pkg/test/ginkgo/queue.go 86-125 parallelByFileTestQueue.Take, Execute (worker) *)
Definition step_worker (i : nat) (s : exec) : option exec :=
  let upd q l se ca := mkExec q l se ca (ctx_done s) (closer s) (main s) in
  match pcs s !! i with
  | Some PLoop =>
      match pop (ex_queue s) with
      | (PopTest t, b, q) =>
          Some (upd q (broadcast b (<[i := PTaken t]> (pcs s))) (serial s) (calls s))
      | (PopNil, b, q) =>
          Some (upd q (broadcast b (<[i := PExit]> (pcs s))) (serial s) (calls s))
      | (PopBusy, b, q) =>
          Some (upd q (broadcast b (<[i := PWait]> (pcs s))) (serial s) (calls s))
      end
  | Some PWait => Some (upd (ex_queue s) (<[i := PSleep]> (pcs s)) (serial s) (calls s))
  | Some (PTaken t) =>
      if isSerial t
      then Some (upd (ex_queue s) (<[i := PDone t]> (pcs s)) (serial s ++ [t]) (calls s))
      else Some (upd (ex_queue s) (<[i := PRun t]> (pcs s)) (serial s) (calls s ++ [t]))
  | Some (PRun t) => Some (upd (ex_queue s) (<[i := PDone t]> (pcs s)) (serial s) (calls s))
  | Some (PDone t) =>
      Some (upd (q_done t (ex_queue s)) (broadcast true (<[i := PLoop]> (pcs s)))
              (serial s) (calls s))
  | Some PSleep | Some PExit | None => None
  end.

Definition is_exit (p : wpc) : bool := match p with PExit => true | _ => false end.

(** One step of the caller: the wait group, then the serial tests. *)
(* src: pkg/test/ginkgo/queue.go 126-135 parallelByFileTestQueue.Execute (serial tests) *)
Definition step_main (s : exec) : option exec :=
  let upd ca m := mkExec (ex_queue s) (pcs s) (serial s) ca (ctx_done s) (closer s) m in
  match main s with
  | MWait => if forallb is_exit (pcs s) then Some (upd (calls s) (MSerial (serial s))) else None
  | MSerial [] => Some (upd (calls s) MReturn)
  | MSerial (t :: rest) =>
      if ctx_done s then Some (upd (calls s) MReturn)
      else Some (upd (calls s ++ [t]) (MRun t rest))
  | MRun t rest => Some (upd (calls s) (MSerial rest))
  | MReturn => None
  end.

Inductive action := AWorker (i : nat) | AMain | ACancel | AClose.

(* src: pkg/test/ginkgo/queue.go 102-136 parallelByFileTestQueue.Execute *)
Definition step (a : action) (s : exec) : option exec :=
  match a with
  | AWorker i => step_worker i s
  | AMain => step_main s
  | ACancel =>
      if ctx_done s then None
      else Some (mkExec (ex_queue s) (pcs s) (serial s) (calls s) true (closer s) (main s))
  | AClose =>
      if ctx_done s && closer s
      then Some (mkExec (q_Close (ex_queue s)) (broadcast true (pcs s)) (serial s) (calls s)
                   true false (main s))
      else None
  end.

(* src: pkg/test/ginkgo/queue.go 102-112 parallelByFileTestQueue.Execute *)
Definition Execute_start (tests : list T) (parallelism : nat) : exec :=
  mkExec (newParallelTestQueue tests) (replicate parallelism PLoop) [] [] false true MWait.

(* src: pkg/test/ginkgo/queue.go 86-136 parallelByFileTestQueue.Take, Execute *)
Definition exec_step (s s' : exec) : Prop := ∃ a, step a s = Some s'.

(** A schedule, for concrete runs; [None] when an action is not enabled. *)
Fixpoint run_schedule (l : list action) (s : exec) : option exec :=
  match l with
  | [] => Some s
  | a :: l' => match step a s with Some s' => run_schedule l' s' | None => None end
  end.

Lemma run_schedule_rtc l s s' : run_schedule l s = Some s' → rtc exec_step s s'.
Proof.
  revert s. induction l as [|a l IH]; intros s; cbn; [by intros [= ->]|].
  destruct (step a s) eqn:E; [|done]. intros H. eapply rtc_l; [by exists a|by apply IH].
Qed.

(** ** Broadcasts *)

(** The test a worker holds: taken and not yet given back. *)
Definition holds (p : wpc) : option T :=
  match p with PTaken t | PRun t | PDone t => Some t | _ => None end.

Lemma holds_wake p : holds (wake p) = holds p.
Proof. by destruct p. Qed.
Lemma broadcast_length b l : length (broadcast b l) = length l.
Proof. destruct b; cbn; by rewrite ?length_map. Qed.
Lemma broadcast_lookup b l (i : nat) :
  broadcast b l !! i = (if b then wake else id) <$> l !! i.
Proof. destruct b; cbn; [by rewrite list_lookup_fmap|by destruct (l !! i)]. Qed.
Lemma holds_broadcast b l (i : nat) : l !! i ≫= holds = broadcast b l !! i ≫= holds.
Proof. rewrite broadcast_lookup. destruct (l !! i), b; cbn; by rewrite ?holds_wake. Qed.

Lemma holds_insert (l : list wpc) i j p t :
  <[i := p]> l !! j ≫= holds = Some t →
  (j = i ∧ holds p = Some t) ∨ (j ≠ i ∧ l !! j ≫= holds = Some t).
Proof.
  rewrite list_lookup_insert. case_decide as Hd; destruct_and?; subst; cbn; [by left|].
  intros H. right. split; [|done]. intros ->. apply Hd. split; [done|].
  destruct (l !! i) eqn:E; [|done]. by eapply lookup_lt_Some.
Qed.

(** ** Mutual exclusion *)

Definition distinct_exclusions (l : list wpc) : Prop :=
  ∀ i j ti tj, i ≠ j → l !! i ≫= holds = Some ti → l !! j ≫= holds = Some tj →
  testExclusion ti = testExclusion tj → testExclusion ti = "".

(** Until the queue is closed, the active set is the set of the exclusions that
    are held; a closed queue hands out no test. *)
Record exec_wf (s : exec) : Prop := {
  wf_distinct : distinct_exclusions (pcs s);
  wf_active : closer s = true → ∀ x,
    x ∈ q_active (ex_queue s) ↔
    x ≠ "" ∧ ∃ i t, pcs s !! i ≫= holds = Some t ∧ testExclusion t = x;
  wf_closed : closer s = false → q_ring (ex_queue s) = []
}.

Lemma distinct_mono l l' :
  (∀ i t, l' !! i ≫= holds = Some t → l !! i ≫= holds = Some t) →
  distinct_exclusions l → distinct_exclusions l'.
Proof. intros H Hd i j ti tj Hij Hi Hj. by apply (Hd i j); auto. Qed.

(** A step that changes neither the queue nor who holds what. *)
Lemma exec_wf_same s s' :
  (∀ i, pcs s' !! i ≫= holds = pcs s !! i ≫= holds) →
  ex_queue s' = ex_queue s → closer s' = closer s →
  exec_wf s → exec_wf s'.
Proof.
  intros Hh Hq Hc [H1 H2 H3]. split; rewrite ?Hq, ?Hc; [|intros Hcl x|done].
  - eapply distinct_mono; [|done]. intros i t. by rewrite Hh.
  - rewrite (H2 Hcl x). by setoid_rewrite Hh.
Qed.

Lemma holds_set (l : list wpc) (i : nat) p p' b :
  l !! i = Some p → holds p' = holds p →
  ∀ j, broadcast b (<[i := p']> l) !! j ≫= holds = l !! j ≫= holds.
Proof.
  intros Hi Hp j. rewrite <- holds_broadcast, list_lookup_insert.
  case_decide as Hd; [|done]. destruct Hd as [<- _]. by rewrite Hi.
Qed.

Lemma hold_spec t act x :
  x ∈ hold testExclusion t act ↔ x ∈ act ∨ (x = testExclusion t ∧ x ≠ "").
Proof.
  unfold hold. destruct (Nat.ltb_spec 0 (String.length (testExclusion t))) as [H|H].
  - rewrite elem_of_union, elem_of_singleton. split; [|tauto].
    intros [->|?]; [right|by left]. split; [done|]. intros E. rewrite E in H. cbn in H. lia.
  - split; [by left|]. intros [?|[-> Hx]]; [done|]. destruct (testExclusion t); [done|].
    cbn in H. lia.
Qed.

(** A worker takes a test that is not excluded. *)
Lemma exec_wf_take s i l1 t l2 :
  pcs s !! i = Some PLoop →
  q_ring (ex_queue s) = l1 ++ t :: l2 → ¬ excluded testExclusion (q_active (ex_queue s)) t →
  exec_wf s →
  exec_wf (mkExec (mkQueue (ring_after l1 l2) (hold testExclusion t (q_active (ex_queue s))))
             (<[i := PTaken t]> (pcs s)) (serial s) (calls s) (ctx_done s) (closer s) (main s)).
Proof.
  intros Hi Hr Ht [H1 H2 H3]. assert (closer s = true) as Hc.
  { destruct (closer s); [done|]. rewrite H3 in Hr by done. by destruct l1. }
  specialize (H2 Hc). split; cbn.
  - assert (∀ j tj, j ≠ i → pcs s !! j ≫= holds = Some tj →
              testExclusion t = testExclusion tj → testExclusion t = "") as Hnew.
    { intros j tj Hj Htj E. destruct (decide (testExclusion t = "")) as [|Hne]; [done|].
      destruct Ht. apply H2. split; [done|]. by exists j, tj. }
    intros a b ta tb Hab Ha%holds_insert Hb%holds_insert E. cbn in Ha, Hb.
    destruct Ha as [[-> [= <-]]|[Ha Ha']], Hb as [[-> [= <-]]|[Hb Hb']]; try done.
    + by eapply Hnew.
    + rewrite E. by eapply (Hnew a).
    + by eapply (H1 a b).
  - intros _ x. rewrite hold_spec, H2. split.
    + intros [(Hx & j & tj & Hj & E)|[-> Hx]]; (split; [done|]).
      * exists j, tj. split; [|done]. rewrite list_lookup_insert_ne; [done|].
        intros <-. by rewrite Hi in Hj.
      * exists i, t. split; [|done].
        rewrite list_lookup_insert_eq; [done|by eapply lookup_lt_Some].
    + intros (Hx & j & tj & Hj%holds_insert & E). cbn in Hj.
      destruct Hj as [[-> [= <-]]|[_ Hj]]; [by right|]. left. split; [done|]. eauto.
  - by rewrite Hc.
Qed.

(** A worker gives its test back. *)
Lemma exec_wf_done s i t :
  pcs s !! i = Some (PDone t) → exec_wf s →
  exec_wf (mkExec (q_done t (ex_queue s)) (broadcast true (<[i := PLoop]> (pcs s)))
             (serial s) (calls s) (ctx_done s) (closer s) (main s)).
Proof.
  intros Hi [H1 H2 H3].
  assert (∀ j tj, broadcast true (<[i := PLoop]> (pcs s)) !! j ≫= holds = Some tj ↔
                  j ≠ i ∧ pcs s !! j ≫= holds = Some tj) as Hh.
  { intros j tj. rewrite <- holds_broadcast. split.
    - intros [[-> ?]|?]%holds_insert; done.
    - intros [Hj Htj]. by rewrite list_lookup_insert_ne. }
  split; cbn [pcs ex_queue closer].
  - eapply distinct_mono; [|done]. intros j tj. rewrite Hh. tauto.
  - intros Hc x. cbn [q_active Queue.q_done]. rewrite elem_of_difference, elem_of_singleton, (H2 Hc).
    setoid_rewrite Hh. split.
    + intros [(Hx & j & tj & Hj & E) Hne]. split; [done|]. exists j, tj.
      split; [|done]. split; [|done]. intros ->. rewrite Hi in Hj. cbn in Hj. congruence.
    + intros (Hx & j & tj & [Hj Htj] & E). split; [eauto|]. intros ->. apply Hx.
      rewrite <- E. eapply (H1 j i); [done|done|by rewrite Hi|done].
  - intros Hc. cbn. by rewrite H3.
Qed.

Lemma exec_wf_exit s i b :
  pcs s !! i = Some PLoop → exec_wf s →
  exec_wf (mkExec (ex_queue s) (broadcast b (<[i := PExit]> (pcs s)))
             (serial s) (calls s) (ctx_done s) (closer s) (main s)).
Proof. intros Hi. apply (exec_wf_same s); [|done..]. cbn. by eapply holds_set. Qed.

Lemma step_worker_wf i s s' : step_worker i s = Some s' → exec_wf s → exec_wf s'.
Proof.
  intros Hs Hwf. unfold step_worker in Hs.
  destruct (pcs s !! i) as [[| | |t|t|t|]|] eqn:Hi; simplify_eq/=.
  - destruct (ring_cases testExclusion (ex_queue s)) as [H|[[H1 H2]|(l1 & t & l2 & H1 & H2 & H3)]].
    + rewrite pop_nil in Hs by done. simplify_eq. by apply exec_wf_exit.
    + rewrite pop_busy in Hs by done. simplify_eq.
      apply (exec_wf_same s); [|done..]. by eapply (holds_set _ _ _ _ false).
    + rewrite (pop_first _ _ _ _ _ H1 H2 H3) in Hs. simplify_eq. by eapply exec_wf_take.
  - apply (exec_wf_same s); [|done..]. by eapply (holds_set _ _ _ _ false).
  - destruct (isSerial t); simplify_eq;
      (apply (exec_wf_same s); [|done..]; by eapply (holds_set _ _ _ _ false)).
  - apply (exec_wf_same s); [|done..]. by eapply (holds_set _ _ _ _ false).
  - by apply exec_wf_done.
Qed.

Lemma step_wf s s' : exec_step s s' → exec_wf s → exec_wf s'.
Proof.
  intros [[i| | |] Hs] Hwf; cbn in Hs.
  - by eapply step_worker_wf.
  - unfold step_main in Hs. repeat destr_match; simplify_eq;
      by apply (exec_wf_same s).
  - destruct (ctx_done s); simplify_eq. by apply (exec_wf_same s).
  - destruct (ctx_done s && closer s) eqn:E; simplify_eq. destruct Hwf as [H1 H2 H3].
    split; cbn; try done. eapply distinct_mono; [|apply H1].
    intros i t Ht. by rewrite (holds_broadcast true).
Qed.

Lemma start_holds p n (i : nat) t : replicate n p !! i ≫= holds = Some t → holds p = Some t.
Proof.
  destruct (replicate n p !! i) eqn:E; [|done]. apply lookup_replicate in E as [-> _]. done.
Qed.

Lemma start_wf tests n : exec_wf (Execute_start tests n).
Proof.
  unfold Execute_start. rewrite newParallelTestQueue_ring. split; cbn; [|intros _ x|done].
  - intros i j ti tj _ H%start_holds. done.
  - rewrite elem_of_empty. split; [done|]. intros (_ & i & t & H%start_holds & _). done.
Qed.

(** C1: two workers never execute, at the same time, two tests with the same
    non-empty exclusion, whatever the scheduling and even when the run is
    cancelled. *)
Theorem Execute_mutual_exclusion tests n s i j ti tj :
  rtc exec_step (Execute_start tests n) s →
  i ≠ j → pcs s !! i = Some (PRun ti) → pcs s !! j = Some (PRun tj) →
  testExclusion ti = testExclusion tj → testExclusion ti = "".
Proof.
  intros Hr Hij Hi Hj. pose proof (rtc_preserve _ _ _ _ step_wf Hr (start_wf tests n)) as [H _ _].
  apply (H i j); [done|by rewrite Hi|by rewrite Hj].
Qed.

(** ** Every test is run once *)

Definition taken (p : wpc) : list T := match p with PTaken t => [t] | _ => [] end.

(** The tests that are not run yet. *)
Definition todo (s : exec) : list T :=
  match main s with
  | MWait => serial s ++ concat (map taken (pcs s)) ++ q_ring (ex_queue s)
  | MSerial rest | MRun _ rest => rest
  | MReturn => []
  end.

(** The calls of the workers, then those of the serial loop. *)
Definition calls_in_order (s : exec) : Prop :=
  match main s with
  | MWait => Forall (λ t, isSerial t = false) (calls s)
  | MSerial rest => ∃ par ser, calls s = par ++ ser ∧
      Forall (λ t, isSerial t = false) par ∧ serial s = ser ++ rest
  | MRun t rest => ∃ par ser, calls s = par ++ ser ++ [t] ∧
      Forall (λ t, isSerial t = false) par ∧ serial s = ser ++ t :: rest
  | MReturn => ∃ par ser, calls s = par ++ ser ∧
      Forall (λ t, isSerial t = false) par ∧ ser `prefix_of` serial s
  end.

Record exec_inv (tests : list T) (s : exec) : Prop := {
  inv_pos : pcs s ≠ [];
  inv_atmost : calls s ++ todo s ⊆+ tests;
  inv_exact : ctx_done s = false → calls s ++ todo s ≡ₚ tests;
  inv_exit : PExit ∈ pcs s → q_ring (ex_queue s) = [];
  inv_main : main s ≠ MWait → Forall (λ p, p = PExit) (pcs s);
  inv_run : ∀ i t, pcs s !! i = Some (PRun t) → isSerial t = false;
  inv_serial : Forall (λ t, isSerial t = true) (serial s);
  inv_order : calls_in_order s
}.

Lemma taken_wake l : concat (map taken (map wake l)) = concat (map taken l).
Proof. induction l as [|[] l IH]; cbn; by rewrite ?IH. Qed.
Lemma taken_broadcast b l : concat (map taken (broadcast b l)) = concat (map taken l).
Proof. destruct b; [apply taken_wake|done]. Qed.

Lemma taken_insert (l : list wpc) (i : nat) p p' :
  l !! i = Some p →
  taken p ++ concat (map taken (<[i := p']> l)) ≡ₚ taken p' ++ concat (map taken l).
Proof.
  revert i. induction l as [|q l IH]; intros [|i] Hi; simplify_eq/=.
  - apply Permutation_app_swap_app.
  - rewrite !(Permutation_app_swap_app _ (taken q)). by rewrite IH.
Qed.

Lemma elem_of_broadcast_exit b l : PExit ∈ broadcast b l → PExit ∈ l.
Proof.
  destruct b; [|done]. cbn. intros (p & E & Hp)%list_elem_of_fmap. by destruct p.
Qed.
Lemma elem_of_insert_ne (l : list wpc) (i : nat) p q : p ≠ q → p ∈ <[i := q]> l → p ∈ l.
Proof.
  intros Hne [j Hj]%list_elem_of_lookup. rewrite list_lookup_insert in Hj.
  case_decide; simplify_eq. by eapply list_elem_of_lookup_2.
Qed.
Lemma run_broadcast b (l : list wpc) (i : nat) t :
  broadcast b l !! i = Some (PRun t) → l !! i = Some (PRun t).
Proof. rewrite broadcast_lookup. by destruct (l !! i) as [[]|], b. Qed.

(** A step of worker [i] from [p] to [p']. *)
Lemma exec_inv_worker tests s i p p' b q' se' ca' :
  pcs s !! i = Some p → p ≠ PExit →
  ca' ++ se' ++ taken p' ++ q_ring q' ≡ₚ
    calls s ++ serial s ++ taken p ++ q_ring (ex_queue s) →
  (p' = PExit ∨ q_ring (ex_queue s) = [] → q_ring q' = []) →
  (∀ t, p' = PRun t → isSerial t = false) →
  (main s = MWait → Forall (λ t, isSerial t = true) (serial s) →
     Forall (λ t, isSerial t = false) (calls s) →
     Forall (λ t, isSerial t = true) se' ∧ Forall (λ t, isSerial t = false) ca') →
  exec_inv tests s →
  exec_inv tests
    (mkExec q' (broadcast b (<[i := p']> (pcs s))) se' ca' (ctx_done s) (closer s) (main s)).
Proof.
  intros Hi Hp Hperm Hring Hrun Hse [H1 H2 H3 H4 H5 H6 H7 H8].
  assert (main s = MWait) as Hm.
  { destruct (main s) eqn:E; [done|..]; exfalso; apply Hp;
      eapply (Forall_lookup_1 _ _ _ _ (H5 ltac:(done)) Hi). }
  unfold calls_in_order, todo in *. rewrite Hm in *.
  destruct (Hse eq_refl H7 H8) as [Hse1 Hse2].
  assert (ca' ++ se' ++ concat (map taken (broadcast b (<[i := p']> (pcs s)))) ++ q_ring q' ≡ₚ
          calls s ++ serial s ++ concat (map taken (pcs s)) ++ q_ring (ex_queue s)) as E.
  { rewrite taken_broadcast. pose proof (taken_insert _ _ _ p' Hi) as Ht.
    apply (Permutation_app_inv_l (taken p ++ taken p')).
    rewrite <- !app_assoc. clear -Hperm Ht.
    transitivity ((taken p ++ concat (map taken (<[i:=p']> (pcs s)))) ++
                  (ca' ++ se' ++ taken p' ++ q_ring q')).
    { solve_Permutation. }
    rewrite Ht, Hperm. solve_Permutation. }
  split; cbn [pcs ex_queue calls serial ctx_done main]; unfold todo, calls_in_order;
    cbn [pcs ex_queue calls serial ctx_done main]; rewrite ?Hm; try done.
  - intros E'%(f_equal length). rewrite broadcast_length, length_insert in E'.
    by destruct (pcs s).
  - by rewrite E.
  - intros Hc. by rewrite E, H3.
  - intros Hx%elem_of_broadcast_exit. apply Hring.
    destruct (decide (is_exit p' = true)) as [Hd|Hd]; [left; by destruct p'|]. right. apply H4.
    eapply elem_of_insert_ne; [|done]. by intros <-.
  - intros j t Hj%run_broadcast. rewrite list_lookup_insert in Hj.
    case_decide; simplify_eq; eauto.
Qed.

Lemma step_worker_inv tests i s s' :
  step_worker i s = Some s' → exec_inv tests s → exec_inv tests s'.
Proof.
  intros Hs Hinv. unfold step_worker in Hs.
  destruct (pcs s !! i) as [[| | |t|t|t|]|] eqn:Hi; simplify_eq/=.
  - destruct (ring_cases testExclusion (ex_queue s)) as [H|[[H1 H2]|(l1 & t & l2 & H1 & H2 & H3)]].
    + rewrite pop_nil in Hs by done. simplify_eq.
      by eapply (exec_inv_worker _ _ _ PLoop PExit).
    + rewrite pop_busy in Hs by done. simplify_eq.
      eapply (exec_inv_worker _ _ _ PLoop PWait); try done. intros [?|?]; done.
    + rewrite (pop_first _ _ _ _ _ H1 H2 H3) in Hs. simplify_eq.
      eapply (exec_inv_worker _ _ _ PLoop (PTaken t)); try done.
      * cbn [taken q_ring]. rewrite (ring_after_perm l1 l2), H1. solve_Permutation.
      * intros [?|E]; [done|]. rewrite H1 in E. by destruct l1.
  - eapply (exec_inv_worker _ _ _ PWait PSleep false); try done. intros [?|?]; done.
  - destruct (isSerial t) eqn:E; simplify_eq.
    + eapply (exec_inv_worker _ _ _ (PTaken t) (PDone t) false); try done.
      * cbn [taken]. solve_Permutation.
      * intros [?|?]; done.
      * intros _ H1 H2. split; [|done]. apply Forall_app. by repeat constructor.
    + eapply (exec_inv_worker _ _ _ (PTaken t) (PRun t) false); try done.
      * cbn [taken]. solve_Permutation.
      * intros [?|?]; done.
      * intros t' [= <-]. done.
      * intros _ H1 H2. split; [done|]. apply Forall_app. by repeat constructor.
  - eapply (exec_inv_worker _ _ _ (PRun t) (PDone t) false); try done. intros [?|?]; done.
  - eapply (exec_inv_worker _ _ _ (PDone t) PLoop true); try done. intros [?|?]; done.
Qed.

Lemma all_exit l : forallb is_exit l = true → Forall (λ p, p = PExit) l.
Proof.
  rewrite forallb_elem_of, Forall_forall. intros H p Hp. specialize (H p Hp). by destruct p.
Qed.

Lemma exit_taken l : Forall (λ p, p = PExit) l → concat (map taken l) = [].
Proof. induction 1 as [|p l -> _ IH]; cbn; done. Qed.

Lemma step_main_inv tests s s' : step_main s = Some s' → exec_inv tests s → exec_inv tests s'.
Proof.
  intros Hs [H1 H2 H3 H4 H5 H6 H7 H8]. unfold step_main, todo, calls_in_order in *.
  destruct (main s) as [|[|t rest]|t rest|] eqn:Hm; simplify_eq.
  - destruct (forallb is_exit (pcs s)) eqn:E; simplify_eq. apply all_exit in E.
    rewrite (exit_taken _ E) in *. rewrite H4, app_nil_r in *
      by (destruct (pcs s) as [|p l]; [done|]; inv E; apply list_elem_of_here).
    split; unfold todo, calls_in_order; cbn; try done. exists (calls s), []. by rewrite app_nil_r.
  - destruct H8 as (par & ser & E1 & E2 & E3). split; unfold todo, calls_in_order; cbn; try done.
    + intros _. by apply H5.
    + exists par, ser. rewrite E3. split_and!; [done..|]. by apply prefix_app_r.
  - destruct H8 as (par & ser & E1 & E2 & E3).
    destruct (ctx_done s) eqn:Ec; simplify_eq; split; unfold todo, calls_in_order; cbn; try done.
    + etrans; [|apply H2]. by apply submseteq_app; [|apply submseteq_nil_l].
    + intros _. by apply H5.
    + exists par, ser. split_and!; [done..|]. rewrite E3. by apply prefix_app_r.
    + by rewrite <- app_assoc.
    + intros Hc. rewrite <- app_assoc. by apply H3.
    + intros _. by apply H5.
    + exists par, ser. rewrite E1, app_assoc. done.
  - destruct H8 as (par & ser & E1 & E2 & E3). split; unfold todo, calls_in_order; cbn; try done.
    + intros _. by apply H5.
    + exists par, (ser ++ [t]). rewrite E3, <- app_assoc. done.
Qed.

Lemma step_inv tests s s' : exec_step s s' → exec_inv tests s → exec_inv tests s'.
Proof.
  intros [[i| | |] Hs] Hinv; cbn in Hs.
  - by eapply step_worker_inv.
  - by eapply step_main_inv.
  - destruct (ctx_done s) eqn:E; simplify_eq. destruct Hinv. by split.
  - destruct (ctx_done s && closer s) eqn:E; simplify_eq. propify.
    destruct Hinv as [H1 H2 H3 H4 H5 H6 H7 H8].
    unfold todo, calls_in_order in *.
    split; unfold todo, calls_in_order; cbn -[map]; try done.
    + by destruct (pcs s).
    + etrans; [|apply H2]. destruct (main s); try done. rewrite taken_wake.
      repeat apply submseteq_skips_l. apply submseteq_nil_l.
    + intros Hm. specialize (H5 Hm). clear -H5. induction H5 as [|p l -> _ IH]; by constructor.
    + intros i t Hi%(run_broadcast true). eauto.
Qed.

Lemma start_inv tests n : 0 < n → exec_inv tests (Execute_start tests n).
Proof.
  intros Hn. unfold Execute_start. rewrite newParallelTestQueue_ring.
  assert (concat (map taken (replicate n PLoop)) = []) as E by (clear Hn; by induction n).
  split; unfold todo, calls_in_order; cbn; rewrite ?E; try done.
  - by destruct n; [lia|].
  - intros [H _]%elem_of_replicate. done.
  - intros i t Hi. apply lookup_replicate in Hi as [? _]. done.
Qed.

Lemma reachable_inv tests n s :
  0 < n → rtc exec_step (Execute_start tests n) s → exec_inv tests s.
Proof. intros Hn Hr. by apply (rtc_preserve _ _ _ _ (step_inv tests) Hr), start_inv. Qed.

(** C2: when [Execute] returns, [fn] has been called at most once for each
    queued test, and exactly once unless the context was cancelled; the calls
    are those of the parallel phase, none of them for a [Serial] test,
    followed by the [Serial] tests one after the other, in the order in which
    they were set aside. *)
Theorem Execute_calls tests n s :
  0 < n → rtc exec_step (Execute_start tests n) s → main s = MReturn →
  calls s ⊆+ tests ∧
  (ctx_done s = false → calls s ≡ₚ tests) ∧
  ∃ par ser, calls s = par ++ ser ∧
    Forall (λ t, isSerial t = false) par ∧ Forall (λ t, isSerial t = true) ser ∧
    ser `prefix_of` serial s.
Proof.
  intros Hn Hr Hm. destruct (reachable_inv _ _ _ Hn Hr) as [_ H2 H3 _ _ _ H7 H8].
  unfold todo, calls_in_order in *. rewrite Hm, app_nil_r in *.
  split; [done|]. split; [done|]. destruct H8 as (par & ser & E1 & E2 & E3).
  exists par, ser. split_and!; try done. destruct E3 as [k E3]. rewrite E3 in H7.
  by apply Forall_app in H7 as [? _].
Qed.

(** C9: while the serial loop runs a test, no worker runs or holds one, and a
    worker never runs a [Serial] test. *)
Theorem Execute_serial_alone tests n s :
  0 < n → rtc exec_step (Execute_start tests n) s →
  (∀ t rest, main s = MRun t rest → isSerial t = true ∧ Forall (λ p, p = PExit) (pcs s)) ∧
  (∀ i t, pcs s !! i = Some (PRun t) → isSerial t = false ∧ main s = MWait).
Proof.
  intros Hn Hr. destruct (reachable_inv _ _ _ Hn Hr) as [_ _ _ _ H5 H6 H7 H8]. split.
  - intros t rest Hm. unfold calls_in_order in H8. rewrite Hm in *.
    destruct H8 as (par & ser & _ & _ & E). rewrite E in H7.
    apply Forall_app in H7 as [_ H7]. inv H7. auto.
  - intros i t Hi. split; [eauto|]. destruct (main s) eqn:E; [done|..]; exfalso;
      by pose proof (Forall_lookup_1 _ _ _ _ (H5 ltac:(done)) Hi).
Qed.

(** ** Progress *)

Definition awake (p : wpc) : bool :=
  match p with PLoop | PTaken _ | PRun _ | PDone _ => true | _ => false end.

(** While tests are queued, some worker is on its way to [pop]. *)
Definition some_awake (s : exec) : Prop :=
  q_ring (ex_queue s) ≠ [] → ∃ i p, pcs s !! i = Some p ∧ awake p = true.

Lemma awake_wake p : awake p = true → awake (wake p) = true.
Proof. by destruct p. Qed.

(** A failed [pop] is due to a test another worker holds. *)
Lemma busy_holder s i :
  exec_wf s → pcs s !! i = Some PLoop → q_ring (ex_queue s) ≠ [] →
  Forall (excluded testExclusion (q_active (ex_queue s))) (q_ring (ex_queue s)) →
  (∃ j p, j ≠ i ∧ pcs s !! j = Some p ∧ awake p = true) ∧
  ∃ t, t ∈ q_ring (ex_queue s) ∧ testExclusion t ≠ "".
Proof.
  intros [_ H2 H3] Hi Hne Hall. destruct (q_ring (ex_queue s)) as [|t r]; [done|].
  destruct (closer s) eqn:Hc; [|by specialize (H3 eq_refl)]. inv Hall.
  apply (H2 eq_refl) in H1 as (Hx & j & tj & Hj & E). split.
  - destruct (pcs s !! j) as [p|] eqn:Ej; [|done]. exists j, p. split_and!; [|done|].
    + intros ->. rewrite Hi in Ej. by simplify_eq.
    + by destruct p.
  - exists t. split; [apply list_elem_of_here|done].
Qed.

Lemma some_awake_set s q' (i : nat) p' b se ca :
  is_Some (pcs s !! i) → awake p' = true →
  some_awake (mkExec q' (broadcast b (<[i := p']> (pcs s))) se ca (ctx_done s) (closer s) (main s)).
Proof.
  intros [p Hi%lookup_lt_Some] Hp _. exists i, ((if b then wake else id) p').
  cbn. rewrite broadcast_lookup, list_lookup_insert_eq by done. split; [done|].
  destruct b; [by apply awake_wake|done].
Qed.

Lemma step_worker_awake i s s' :
  step_worker i s = Some s' → exec_wf s → some_awake s → some_awake s'.
Proof.
  intros Hs Hwf Ha. unfold step_worker in Hs.
  destruct (pcs s !! i) as [[| | |t|t|t|]|] eqn:Hi; simplify_eq/=.
  - destruct (ring_cases testExclusion (ex_queue s)) as [H|[[H1 H2]|(l1 & t & l2 & H1 & H2 & H3)]].
    + rewrite pop_nil in Hs by done. simplify_eq. intros Hne. done.
    + rewrite pop_busy in Hs by done. simplify_eq.
      destruct (busy_holder s i) as [(j & p & Hj & Hp & Hw) _]; try done.
      intros _. exists j, p. cbn. by rewrite list_lookup_insert_ne.
    + rewrite (pop_first _ _ _ _ _ H1 H2 H3) in Hs. simplify_eq.
      apply some_awake_set; [by rewrite Hi|done].
  - intros Hne. destruct (Ha Hne) as (j & p & Hp & Hw). exists j, p. split; [|done]. cbn.
    rewrite list_lookup_insert_ne; [done|]. intros <-. rewrite Hi in Hp. by simplify_eq.
  - destruct (isSerial t); simplify_eq;
      apply (some_awake_set s _ _ _ false); by rewrite ?Hi.
  - apply (some_awake_set s _ _ _ false); by rewrite ?Hi.
  - apply (some_awake_set s _ _ _ true); by rewrite ?Hi.
Qed.

Lemma step_awake s s' : exec_step s s' → exec_wf s ∧ some_awake s → exec_wf s' ∧ some_awake s'.
Proof.
  intros Hstep [Hwf Ha]. split; [by eapply step_wf|]. destruct Hstep as [[i| | |] Hs]; cbn in Hs.
  - by eapply step_worker_awake.
  - unfold step_main in Hs. repeat destr_match; simplify_eq; apply Ha.
  - destruct (ctx_done s); simplify_eq. apply Ha.
  - destruct (ctx_done s && closer s); simplify_eq. intros Hne. done.
Qed.

Lemma start_awake tests n : 0 < n → some_awake (Execute_start tests n).
Proof. intros Hn _. exists 0, PLoop. by destruct n; [lia|]. Qed.

(** Neither a worker nor the caller can move. *)
Definition stalled (s : exec) : Prop :=
  step AMain s = None ∧ ∀ i, step (AWorker i) s = None.

Lemma stalled_worker s i p :
  stalled s → pcs s !! i = Some p → p = PSleep ∨ p = PExit.
Proof.
  intros [_ H] Hi. specialize (H i). cbn in H. unfold step_worker in H. rewrite Hi in H.
  destruct p as [| | |t| | |]; try done; try (by auto); [|by destruct (isSerial t)].
  destruct (pop (ex_queue s)) as [[[] ?] ?]; done.
Qed.

(** A stall before the end: the parallel tests are run, the serial ones set
    aside, and a worker sleeps on an empty queue. *)
Lemma stalled_cases tests n s :
  0 < n → rtc exec_step (Execute_start tests n) s → stalled s → main s ≠ MReturn →
  main s = MWait ∧ PSleep ∈ pcs s ∧ Forall (λ p, p = PSleep ∨ p = PExit) (pcs s) ∧
  q_ring (ex_queue s) = [].
Proof.
  intros Hn Hr Hst Hm. pose proof (reachable_inv _ _ _ Hn Hr) as Hinv.
  pose proof (rtc_preserve _ _ _ _ step_awake Hr
                (conj (start_wf tests n) (start_awake tests n Hn))) as [_ Ha].
  assert (Forall (λ p, p = PSleep ∨ p = PExit) (pcs s)) as Hall.
  { apply Forall_lookup. intros i p. by apply stalled_worker. }
  destruct (Hst) as [Hmain _]. cbn in Hmain. unfold step_main in Hmain.
  destruct (main s) as [|[|t rest]|t rest|] eqn:Em; try done.
  - destruct (forallb is_exit (pcs s)) eqn:E; [done|]. split_and!; [done| |done|].
    + assert (¬ ∀ p, p ∈ pcs s → is_exit p = true) as Hex
        by (rewrite <- forallb_elem_of; by rewrite E).
      rewrite Forall_forall in Hall.
      destruct (decide (Exists (λ p, is_exit p = false) (pcs s))) as [(p & Hp & Hf)%Exists_exists|Hno].
      * destruct (Hall p Hp) as [->| ->]; done.
      * destruct Hex. intros p Hp. destruct (is_exit p) eqn:Ep; [done|].
        destruct Hno. apply Exists_exists. eauto.
    + destruct (q_ring (ex_queue s)) eqn:Er; [done|].
      destruct Ha as (i & p & Hp & Hw); [by rewrite Er|].
      destruct (Forall_lookup_1 _ _ _ _ Hall Hp) as [->| ->]; done.
  - by destruct (ctx_done s).
Qed.

(** If an uncancelled [Execute] stops making progress before it returns,
    every test that is not [Serial] has been run, no [Serial] test has, and
    some worker sleeps in [cond.Wait] on an empty queue, the lost wake-up. *)
Theorem Execute_stall tests n s :
  0 < n → rtc exec_step (Execute_start tests n) s → ctx_done s = false →
  stalled s → main s ≠ MReturn →
  PSleep ∈ pcs s ∧ q_ring (ex_queue s) = [] ∧ calls s ++ serial s ≡ₚ tests ∧
  Forall (λ t, isSerial t = false) (calls s) ∧ Forall (λ t, isSerial t = true) (serial s).
Proof.
  intros Hn Hr Hc Hst Hm. pose proof (reachable_inv _ _ _ Hn Hr) as [_ _ H3 _ _ _ H7 H8].
  destruct (stalled_cases _ _ _ Hn Hr Hst Hm) as (Em & Hsl & Hall & Er).
  unfold todo, calls_in_order in *. rewrite Em, Er in *. split_and!; try done.
  rewrite <- (H3 Hc), app_nil_r.
  assert (concat (map taken (pcs s)) = []) as ->; [|by rewrite app_nil_r].
  clear -Hall. induction Hall as [|p l [->| ->] _ IH]; cbn; done.
Qed.

(** Without a second worker or without exclusions nobody ever waits. *)
Definition unexcluded (tests : list T) (n : nat) : Prop :=
  n = 1 ∨ ∀ t, t ∈ tests → testExclusion t = "".

Definition no_waiter (n : nat) (s : exec) : Prop :=
  length (pcs s) = n ∧ PWait ∉ pcs s ∧ PSleep ∉ pcs s.

Lemma no_waiter_set n s q' i p' b se ca :
  p' ≠ PWait → p' ≠ PSleep → no_waiter n s →
  no_waiter n (mkExec q' (broadcast b (<[i := p']> (pcs s))) se ca (ctx_done s) (closer s) (main s)).
Proof.
  intros Hw Hs (H1 & H2 & H3). unfold no_waiter. cbn.
  rewrite broadcast_length, length_insert. split; [done|].
  assert (∀ p, p ≠ PLoop → p ∈ broadcast b (<[i := p']> (pcs s)) → p = p' ∨ p ∈ pcs s) as H.
  { intros p Hp [j Hj]%list_elem_of_lookup. rewrite broadcast_lookup, list_lookup_insert in Hj.
    case_decide; [destruct b, p'; naive_solver|].
    destruct (pcs s !! j) eqn:Ej; [|done]. apply list_elem_of_lookup_2 in Ej.
    destruct b, w; naive_solver. }
  split; intros [?|?]%H; try done; congruence.
Qed.

Lemma step_no_waiter tests n s s' :
  unexcluded tests n → exec_step s s' →
  exec_wf s ∧ exec_inv tests s ∧ no_waiter n s → exec_wf s' ∧ exec_inv tests s' ∧ no_waiter n s'.
Proof.
  intros Hu Hstep (Hwf & Hinv & Hn). split; [by eapply step_wf|]. split; [by eapply step_inv|].
  destruct Hstep as [[i| | |] Hs]; cbn in Hs.
  - unfold step_worker in Hs. destruct (pcs s !! i) as [[| | |t|t|t|]|] eqn:Hi; simplify_eq/=.
    + destruct (ring_cases testExclusion (ex_queue s)) as [H|[[H1 H2]|(l1 & t & l2 & H1 & H2 & H3)]].
      * rewrite pop_nil in Hs by done. simplify_eq. by apply no_waiter_set.
      * exfalso. destruct (busy_holder s i) as [(j & p & Hj & Hp & _) (t & Ht & Ht')]; try done.
        destruct Hu as [->|Hu].
        -- apply lookup_lt_Some in Hi, Hp. destruct Hn as [E _]. rewrite E in *. lia.
        -- apply Ht', Hu. destruct Hinv as [_ Hsub _ _ Hm _ _ _].
           assert (main s = MWait) as Em.
           { destruct (main s) eqn:E; [done|..]; exfalso;
               by pose proof (Forall_lookup_1 _ _ _ _ (Hm ltac:(done)) Hi). }
           unfold todo in Hsub. rewrite Em in Hsub.
           eapply elem_of_submseteq; [|apply Hsub]. rewrite !elem_of_app. tauto.
      * rewrite (pop_first _ _ _ _ _ H1 H2 H3) in Hs. simplify_eq. by apply no_waiter_set.
    + destruct Hn as (_ & H & _). destruct H. by eapply list_elem_of_lookup_2.
    + destruct (isSerial t); simplify_eq; by apply (no_waiter_set _ s _ _ _ false).
    + by apply (no_waiter_set _ s _ _ _ false).
    + by apply (no_waiter_set _ s _ _ _ true).
  - unfold step_main in Hs. repeat destr_match; simplify_eq; apply Hn.
  - destruct (ctx_done s); simplify_eq. apply Hn.
  - destruct (ctx_done s && closer s); simplify_eq. destruct Hn as (H1 & H2 & H3).
    split_and!; cbn -[map]; [by rewrite length_map| |];
      intros (p & E & Hp)%list_elem_of_fmap; by destruct p.
Qed.

(** With one worker, or when no test has an exclusion, an [Execute] that can
    make no step has returned: together with [Execute_calls] every test has
    been run exactly once. *)
Theorem Execute_unexcluded_returns tests n s :
  0 < n → unexcluded tests n → rtc exec_step (Execute_start tests n) s →
  stalled s → main s = MReturn.
Proof.
  intros Hn Hu Hr Hst.
  destruct (rtc_preserve _ _ _ _ (λ a b, step_no_waiter tests n a b Hu) Hr) as (_ & _ & _ & _ & H).
  { split_and!; [apply start_wf|by apply start_inv|].
    unfold no_waiter. cbn. rewrite length_replicate. split; [done|].
    split; intros [E _]%elem_of_replicate; done. }
  destruct (main s) eqn:Em; [| | |done];
    destruct (stalled_cases _ _ _ Hn Hr Hst) as (_ & Hsl & _); congruence.
Qed.

(** ** Termination *)

Section Measure.
Variable n : nat.   (* the number of workers *)

Definition weight (p : wpc) : nat :=
  match p with
  | PExit => 0
  | PSleep => 2 * n
  | PWait => 2 * n + 1
  | PLoop => 2 * n + 2
  | PDone _ => 4 * n + 3
  | PRun _ => 4 * n + 4
  | PTaken _ => 4 * n + 6
  end.

Definition main_weight (s : exec) : nat :=
  match main s with
  | MWait => 2 * length (serial s) + 2
  | MSerial rest => 2 * length rest + 1
  | MRun _ rest => 2 * length rest + 2
  | MReturn => 0
  end.

Definition measure (s : exec) : nat :=
  sum_list_with weight (pcs s) + (2 * n + 6) * length (q_ring (ex_queue s)) + main_weight s
  + (if ctx_done s then 0 else 1) + (if closer s then 2 * n + 1 else 0).

Lemma weight_broadcast b l :
  sum_list_with weight (broadcast b l) ≤ sum_list_with weight l + (if b then 2 * length l else 0).
Proof.
  destruct b; cbn [broadcast]; [|lia].
  induction l as [|p l IH]; cbn [map sum_list_with length]; [lia|].
  assert (weight (wake p) ≤ weight p + 2) by (destruct p; cbn; lia). lia.
Qed.

(** A worker's step, from the weights before and after. *)
Lemma measure_worker s (i : nat) (p p' : wpc) (b : bool) (q' : queue (T := T)) (se' ca' : list T) :
  length (pcs s) = n → pcs s !! i = Some p →
  weight p' + (2 * n + 6) * length (q_ring q') + 2 * length se' + (if b then 2 * n else 0) <
  weight p + (2 * n + 6) * length (q_ring (ex_queue s)) + 2 * length (serial s) →
  length (serial s) ≤ length se' →
  measure (mkExec q' (broadcast b (<[i := p']> (pcs s))) se' ca' (ctx_done s) (closer s) (main s))
  < measure s.
Proof.
  intros Hl Hi Hw Hse. unfold measure, main_weight. cbn [pcs ex_queue serial main ctx_done closer].
  pose proof (sum_list_insert weight _ _ _ p' Hi) as H1.
  pose proof (weight_broadcast b (<[i := p']> (pcs s))) as H2.
  rewrite length_insert, Hl in H2. destruct b, (main s); lia.
Qed.

Lemma step_measure a s s' :
  length (pcs s) = n → step a s = Some s' → length (pcs s') = n ∧ measure s' < measure s.
Proof.
  intros Hl Hs. destruct a as [i| | |]; cbn in Hs.
  - unfold step_worker in Hs. destruct (pcs s !! i) as [[| | |t|t|t|]|] eqn:Hi; simplify_eq/=.
    + destruct (ring_cases testExclusion (ex_queue s)) as [H|[[H1 H2]|(l1 & t & l2 & H1 & H2 & H3)]].
      * rewrite pop_nil in Hs by done. simplify_eq.
        split; [cbn -[broadcast]; by rewrite broadcast_length, length_insert|].
        eapply measure_worker; [done|done| |done]. cbn [weight]. lia.
      * rewrite pop_busy in Hs by done. simplify_eq.
        split; [cbn; by rewrite length_insert|].
        apply (measure_worker _ _ PLoop PWait false); [done|done| |done]. cbn [weight]. lia.
      * rewrite (pop_first _ _ _ _ _ H1 H2 H3) in Hs. simplify_eq.
        split; [cbn; by rewrite length_insert|].
        apply (measure_worker _ _ PLoop (PTaken t) false); [done|done| |done].
        cbn [weight q_ring]. rewrite H1, (ring_after_perm l1 l2), !length_app. cbn. lia.
    + split; [by rewrite length_insert|].
      apply (measure_worker _ _ PWait PSleep false); [done|done| |done]. cbn [weight]. lia.
    + destruct (isSerial t); simplify_eq; (split; [cbn; by rewrite length_insert|]).
      * apply (measure_worker _ _ (PTaken t) (PDone t) false); [done|done|..];
          rewrite length_app; cbn; lia.
      * apply (measure_worker _ _ (PTaken t) (PRun t) false); [done|done| |done]. cbn; lia.
    + split; [by rewrite length_insert|].
      apply (measure_worker _ _ (PRun t) (PDone t) false); [done|done| |done]. cbn [weight]. lia.
    + split; [by rewrite length_map, length_insert|].
      apply (measure_worker _ _ (PDone t) PLoop true); [done|done| |done]. cbn. lia.
  - unfold step_main in Hs. unfold measure, main_weight.
    repeat destr_match; simplify_eq; cbn in *; split; try done; simplify_eq; cbn; lia.
  - destruct (ctx_done s) eqn:E; simplify_eq. split; [done|]. unfold measure, main_weight.
    rewrite E. cbn. lia.
  - destruct (ctx_done s) eqn:E, (closer s) eqn:E'; simplify_eq/=.
    split; [by rewrite length_map|]. unfold measure, main_weight. rewrite E, E'. cbn -[map].
    pose proof (weight_broadcast true (pcs s)) as H. cbn [broadcast] in H. lia.
Qed.
End Measure.

(** C8: every execution ends: a schedule of [n] workers over a queue of tests
    has at most 2 n^2 + 4 n + 4 + (2 n + 6) |tests| steps, whatever waits and
    wake-ups it contains. *)
Theorem Execute_terminates tests n l s :
  run_schedule l (Execute_start tests n) = Some s →
  length l ≤ n * (2 * n + 2) + 2 * n + 4 + (2 * n + 6) * length tests.
Proof.
  assert (∀ l s s', length (pcs s) = n → run_schedule l s = Some s' → length l ≤ measure n s) as H.
  { clear l s. induction l as [|a l IH]; intros s s' Hl Hs; cbn in *; [lia|].
    destruct (step a s) as [s1|] eqn:E; [|done].
    destruct (step_measure n _ _ _ Hl E) as [Hl1 Hm]. specialize (IH _ _ Hl1 Hs). lia. }
  intros Hs. apply H in Hs; [|by cbn; rewrite length_replicate].
  etrans; [apply Hs|]. unfold measure, Execute_start, main_weight.
  rewrite newParallelTestQueue_ring. cbn [pcs ex_queue q_ring serial main ctx_done closer].
  assert (∀ m, sum_list_with (weight n) (replicate m PLoop) = m * (2 * n + 2)) as ->.
  { induction m as [|m IH]; [done|].
    change (replicate (S m) PLoop) with (PLoop :: replicate m PLoop).
    cbn [sum_list_with weight]. rewrite IH. lia. }
  cbn. lia.
Qed.
End Exec.

(** ** Concrete runs *)

(** A test as its name and its exclusion. *)
Definition test_ref : Type := string * string.
Definition start_of (tests : list test_ref) (n : nat) : exec (T := test_ref) :=
  Execute_start tests n.
Definition run_of (l : list action) (tests : list test_ref) (n : nat) : option exec :=
  run_schedule fst snd l (start_of tests n).

Lemma run_of_rtc l tests n s :
  run_of l tests n = Some s → rtc (exec_step fst snd) (start_of tests n) s.
Proof. apply run_schedule_rtc. Qed.

(** Two workers, a parallel and a serial test of the same file: worker 1 is
    preempted between its failed [pop] and [cond.Wait]. *)
Definition two_tests : list test_ref := [("a", "f.go"); ("[Serial] b", "f.go")]%string.
Definition W0 := AWorker 0.
Definition W1 := AWorker 1.
Definition lost_schedule : list action := [W0; W1; W0; W0; W0; W0; W0; W0; W0; W1].

(** C10: a run can block for ever: after the failed [pop] of a worker and before
    its [cond.Wait] another worker can finish the queue and send the last
    wake-up; then no worker and no caller can make a step, the context is not
    cancelled and the [Serial] test is never run. *)
Theorem Execute_lost_wakeup :
  ∃ s, rtc (exec_step fst snd) (start_of two_tests 2) s ∧
    stalled fst snd s ∧ main s = MWait ∧ ctx_done s = false ∧
    calls s = [("a", "f.go")]%string ∧ serial s = [("[Serial] b", "f.go")]%string.
Proof.
  destruct (run_of lost_schedule two_tests 2) as [s|] eqn:E; [|by vm_compute in E].
  exists s. split; [by eapply run_of_rtc|]. vm_compute in E. injection E as <-.
  split_and!; try done. split; [done|]. intros [|[|i]]; done.
Qed.

(** Two workers run two tests without exclusion at the same time. *)
Definition free_tests : list test_ref := [("a", ""); ("b", "")]%string.

Example Execute_mutual_exclusion_witness :
  ∃ s, run_of [W0; W1; W0; W1] free_tests 2 = Some s ∧
    pcs s = [PRun ("a", ""); PRun ("b", "")]%string ∧ snd ("a", "")%string = ""%string.
Proof.
  destruct (run_of [W0; W1; W0; W1] free_tests 2) as [s|] eqn:E; [|by vm_compute in E].
  pose proof (run_of_rtc _ _ _ _ E) as Hr. vm_compute in E. injection E as <-.
  eexists. split; [reflexivity|]. split; [reflexivity|].
  by apply (Execute_mutual_exclusion fst snd free_tests 2 _ 0 1
              ("a", "")%string ("b", "")%string Hr).
Defined.

Definition serial_run : list action := replicate 8 W0 ++ replicate 4 AMain.

Example Execute_calls_witness :
  ∃ s, run_of serial_run two_tests 1 = Some s ∧ main s = MReturn ∧ calls s ≡ₚ two_tests.
Proof.
  destruct (run_of serial_run two_tests 1) as [s|] eqn:E; [|by vm_compute in E].
  pose proof (run_of_rtc _ _ _ _ E) as Hr. vm_compute in E. injection E as <-.
  eexists. split; [reflexivity|]. split; [reflexivity|].
  by apply (Execute_calls fst snd two_tests 1 _ ltac:(lia) Hr eq_refl).
Defined.

Example Execute_serial_alone_witness :
  ∃ s, run_of (replicate 8 W0 ++ replicate 2 AMain) two_tests 1 = Some s ∧
    main s = MRun ("[Serial] b", "f.go")%string [] ∧ Forall (λ p, p = PExit) (pcs s).
Proof.
  destruct (run_of (replicate 8 W0 ++ replicate 2 AMain) two_tests 1) as [s|] eqn:E;
    [|by vm_compute in E].
  pose proof (run_of_rtc _ _ _ _ E) as Hr. vm_compute in E. injection E as <-.
  eexists. split; [reflexivity|]. split; [reflexivity|].
  by apply (Execute_serial_alone fst snd two_tests 1 _ ltac:(lia) Hr)
    with (t := ("[Serial] b", "f.go")%string) (rest := []).
Defined.

Example Execute_stall_witness :
  ∃ s, run_of lost_schedule two_tests 2 = Some s ∧ calls s ++ serial s ≡ₚ two_tests.
Proof.
  destruct (run_of lost_schedule two_tests 2) as [s|] eqn:E; [|by vm_compute in E].
  pose proof (run_of_rtc _ _ _ _ E) as Hr. vm_compute in E. injection E as <-.
  eexists. split; [reflexivity|].
  apply (Execute_stall fst snd two_tests 2 _ ltac:(lia) Hr eq_refl); [|done].
  split; [done|]. intros [|[|i]]; done.
Defined.

Example Execute_unexcluded_returns_witness :
  ∃ s, run_of serial_run two_tests 1 = Some s ∧ main s = MReturn.
Proof.
  destruct (run_of serial_run two_tests 1) as [s|] eqn:E; [|by vm_compute in E].
  pose proof (run_of_rtc _ _ _ _ E) as Hr. vm_compute in E. injection E as <-.
  eexists. split; [reflexivity|].
  apply (Execute_unexcluded_returns fst snd two_tests 1 _ ltac:(lia)); [by left|exact Hr|].
  split; [done|]. intros [|i]; done.
Defined.

Example Execute_terminates_witness :
  ∃ s, run_of lost_schedule two_tests 2 = Some s ∧ length lost_schedule ≤ 40.
Proof.
  destruct (run_of lost_schedule two_tests 2) as [s|] eqn:E; [|by vm_compute in E].
  exists s. split; [done|]. apply (Execute_terminates fst snd two_tests 2 lost_schedule s E).
Defined.
