(* ===== verification/Interrupt.v ===== *)
(** * pkg/test/ginkgo/cmd_runsuite.go, pkg/monitor/cmd.go: interruption

    The commands start a goroutine that receives the signals of a channel
    without a buffer: the first cancels the context of the run, the second ends
    the process.  The runtime does not wait for a receiver, so a signal that
    finds the goroutine busy is dropped.  The goroutine is put beside the queue
    of the run, whose context it cancels. *)

From S2P Require Import Prelude.
From S2P Require Import GoStrings.
From S2P Require Import Queue.
From S2P Require Import QueueExec.

Inductive os_signal := SIGINT | SIGTERM.

#[export] Instance os_signal_eq_dec : EqDecision os_signal.
Proof. solve_decision. Defined.

(** [sig.String()] *)
Definition signal_String (s : os_signal) : string :=
  match s with SIGINT => "interrupt" | SIGTERM => "terminated" end.

(* src: pkg/test/ginkgo/cmd_runsuite.go 183-188 Options.Run (exit code) *)
Definition exit_code (s : os_signal) : Z := match s with SIGINT => 130 | SIGTERM => 0 end.

(** Where the goroutine is: receiving, in the statements after a receive, or
    gone with the process. *)
Inductive handler :=
| HFirst
| HTerminate
| HSecond
| HTwice (s : os_signal)
| HExited (code : Z).

Section Interrupt.
Context {T : Type} (name testExclusion : T → string).
Variable first_line : string.   (* what the command prints at the first signal *)

Record process := mkProcess {
  p_handler : handler;
  p_exec : exec (T := T);
  p_err : list string
}.

Definition exited (p : process) : bool := match p_handler p with HExited _ => true | _ => false end.

(** A signal is received if the goroutine is in a receive. *)
Definition receiving (h : handler) : bool := match h with HFirst | HSecond => true | _ => false end.
Definition receive (s : os_signal) (h : handler) : handler :=
  match h with HFirst => HTerminate | HSecond => HTwice s | _ => h end.

Definition cancel (e : exec (T := T)) : exec :=
  mkExec (ex_queue e) (pcs e) (serial e) (calls e) true (closer e) (main e).

(** The statements of the goroutine between the receives. *)
(* src: pkg/test/ginkgo/cmd_runsuite.go 174-190 Options.Run (abort goroutine) *)
Definition step_handler (p : process) : option process :=
  match p_handler p with
  | HTerminate => Some (mkProcess HSecond (cancel (p_exec p)) (p_err p ++ [first_line]))
  | HTwice s =>
      Some (mkProcess (HExited (exit_code s)) (p_exec p)
              (p_err p ++ ["Interrupted twice, exiting (" +:+ signal_String s +:+ ")" +:+ nl]))
  | _ => None
  end.

Inductive paction := PSignal (s : os_signal) | PHandler | PQueue (a : action).

(** Only the goroutine cancels the context while the queue runs. *)
Definition step_process (a : paction) (p : process) : option process :=
  if exited p then None
  else match a with
       | PSignal s => Some (mkProcess (receive s (p_handler p)) (p_exec p) (p_err p))
       | PHandler => step_handler p
       | PQueue ACancel => None
       | PQueue a =>
           match step name testExclusion a (p_exec p) with
           | Some e => Some (mkProcess (p_handler p) e (p_err p))
           | None => None
           end
       end.

Definition process_start (tests : list T) (n : nat) : process :=
  mkProcess HFirst (Execute_start tests n) [].

Fixpoint run_process (l : list paction) (p : process) : option process :=
  match l with
  | [] => Some p
  | a :: l' => match step_process a p with Some p' => run_process l' p' | None => None end
  end.

(** The signals that were received, the dropped ones left out. *)
Fixpoint received (l : list paction) (p : process) : list os_signal :=
  match l with
  | [] => []
  | a :: l' =>
      match a with PSignal s => if receiving (p_handler p) && negb (exited p) then [s] else [] | _ => [] end ++
      match step_process a p with Some p' => received l' p' | None => [] end
  end.

(** ** The goroutine is a function of the signals it received *)

(** What [sigs] lead to: the states the goroutine may be in, whether the
    context is cancelled, and what was printed, with the text and the status of
    each signal written out. *)
Definition handler_spec (sigs : list os_signal) (p : process) : Prop :=
  match sigs with
  | [] => p_handler p = HFirst ∧ ctx_done (p_exec p) = false ∧ p_err p = []
  | [s1] =>
      (p_handler p = HTerminate ∧ ctx_done (p_exec p) = false ∧ p_err p = []) ∨
      (p_handler p = HSecond ∧ ctx_done (p_exec p) = true ∧ p_err p = [first_line])
  | [s1; s2] =>
      ctx_done (p_exec p) = true ∧
      ((p_handler p = HTwice s2 ∧ p_err p = [first_line]) ∨
       match s2 with
       | SIGINT =>
           p_handler p = HExited 130 ∧
           p_err p = [first_line; "Interrupted twice, exiting (interrupt)" +:+ nl]
       | SIGTERM =>
           p_handler p = HExited 0 ∧
           p_err p = [first_line; "Interrupted twice, exiting (terminated)" +:+ nl]
       end)
  | _ => False
  end.

Lemma step_ctx a (e e' : exec (T := T)) :
  a ≠ ACancel → step name testExclusion a e = Some e' →
  ctx_done e' = ctx_done e ∨ (ctx_done e = true ∧ ctx_done e' = true).
Proof.
  destruct a as [i| | |]; intros Hne; cbn; [| |done|].
  - unfold step_worker. destruct (pcs e !! i) as [[]|]; try done; repeat destr_match; intros; simplify_eq; by left.
  - unfold step_main. destruct (main e) as [|[]| |]; repeat destr_match; intros; simplify_eq; by left.
  - destruct (ctx_done e) eqn:E, (closer e); cbn; intros; simplify_eq. by right.
Qed.

Lemma handler_step sigs a p p' :
  step_process a p = Some p' → handler_spec sigs p →
  handler_spec (sigs ++ match a with PSignal s => if receiving (p_handler p) && negb (exited p) then [s] else [] | _ => [] end) p'.
Proof.
  unfold step_process. destruct (exited p) eqn:Hx; [done|]. destruct a as [s| |a].
  - intros [= <-] H. destruct sigs as [|s1 [|s2 [|]]]; cbn in H |- *; try done.
    + destruct H as (-> & H1 & H2). cbn. by left.
    + destruct H as [(-> & H1 & H2)|(-> & H1 & H2)]; cbn; [by left|]. split; [done|]. by left.
    + destruct H as [H1 [[-> H2]|H2]]; [cbn; by eauto|].
      destruct s2, H2 as [-> H2]; cbn; by eauto.
  - rewrite app_nil_r. unfold step_handler. intros Hs H.
    destruct sigs as [|s1 [|s2 [|]]]; cbn in H |- *; try done.
    + destruct H as (E & H1 & H2). by rewrite E in Hs.
    + destruct H as [(E & H1 & H2)|(E & H1 & H2)]; rewrite E in Hs; simplify_eq/=. right. by rewrite H2.
    + destruct H as [H1 [[E H2]|H2]].
      * rewrite E in Hs. simplify_eq/=. split; [done|]. right. destruct s2; by rewrite H2.
      * destruct s2; destruct H2 as [E H2]; by rewrite E in Hs.
  - rewrite app_nil_r. intros Hs H.
    assert (∃ e, step name testExclusion a (p_exec p) = Some e ∧ a ≠ ACancel ∧
              p' = mkProcess (p_handler p) e (p_err p)) as (e & He & Hne & ->).
    { destruct a; [| |done|]; destruct (step _ _ _ _) as [e|] eqn:E; simplify_eq; exists e; by split_and!. }
    destruct (step_ctx _ _ _ Hne He) as [Hc|[Hc Hc']];
      destruct sigs as [|s1 [|s2 [|]]]; cbn in H |- *; naive_solver congruence.
Qed.

Lemma run_handler_spec l sigs p p' :
  run_process l p = Some p' → handler_spec sigs p → handler_spec (sigs ++ received l p) p'.
Proof.
  revert sigs p. induction l as [|a l IH]; intros sigs p; cbn [run_process received].
  { intros [= <-]. by rewrite app_nil_r. }
  destruct (step_process a p) as [p1|] eqn:E; [|done]. intros Hr H.
  rewrite app_assoc. apply IH; [done|]. by eapply handler_step.
Qed.

Lemma start_handler_spec tests n : handler_spec [] (process_start tests n).
Proof. done. Qed.

(** C7: the goroutine does what the signals it received say, wherever the
    queue is: without a signal nothing is cancelled and nothing printed; after
    the first the run is told to end and the context is cancelled; the process
    ends at the second only, with code 130 for an interrupt and 0 for any other
    signal, after it has printed which signal it was. *)
Theorem interrupt_spec tests n l p :
  run_process l (process_start tests n) = Some p →
  handler_spec (received l (process_start tests n)) p.
Proof.
  intros H. change (received l (process_start tests n)) with ([] ++ received l (process_start tests n)).
  by eapply run_handler_spec.
Qed.

(** Signals that find the goroutine busy. *)
Lemma signals_dropped l p :
  exited p = false → receiving (p_handler p) = false →
  run_process (map PSignal l) p = Some p ∧ received (map PSignal l) p = [].
Proof.
  intros Hx Hr. induction l as [|s l [IH1 IH2]]; [done|]. cbn [map run_process received step_process].
  unfold step_process. rewrite Hx, Hr.
  assert (mkProcess (receive s (p_handler p)) (p_exec p) (p_err p) = p) as ->
    by (destruct p as [[] e er]; done).
  by rewrite IH1, IH2.
Qed.

(** Signals that arrive before the goroutine receives again count as one:
    however often the user interrupts at once, the run is cancelled and the
    process goes on. *)
Theorem quick_signals_count_once s l p :
  p_handler p = HFirst →
  ∃ p', run_process (map PSignal (s :: l) ++ [PHandler]) p = Some p' ∧
    received (map PSignal (s :: l) ++ [PHandler]) p = [s] ∧
    p_handler p' = HSecond ∧ ctx_done (p_exec p') = true.
Proof.
  intros Hf. assert (exited p = false) as Hx by (unfold exited; by rewrite Hf).
  set (p1 := mkProcess HTerminate (p_exec p) (p_err p)).
  assert (step_process (PSignal s) p = Some p1) as E by (unfold step_process; by rewrite Hx, Hf).
  destruct (signals_dropped l p1 eq_refl eq_refl) as [H1 H2].
  assert (∀ k, run_process (map PSignal l ++ k) p1 = run_process k p1 ∧
    received (map PSignal l ++ k) p1 = received k p1) as Hk.
  { clear -p1. intros k. induction l as [|x l [IH1 IH2]]; [done|].
    split; [exact IH1|exact IH2]. }
  destruct (Hk [PHandler]) as [K1 K2].
  cbn [map app run_process received]. rewrite E, K1, K2, Hf, Hx.
  eexists. split; [reflexivity|]. by split_and!.
Qed.

(** ** No test is started after the interruption *)

Notation exec_step := (exec_step name testExclusion).

(** A test a worker has taken and is about to start. *)
Definition about_to_run (p : wpc (T := T)) : list T :=
  match p with PTaken t => if isSerial name t then [] else [t] | _ => [] end.
Definition pending (e : exec (T := T)) : list T := concat (map about_to_run (pcs e)).

Lemma pending_wake l : concat (map about_to_run (map wake l)) = concat (map about_to_run l).
Proof. induction l as [|[] l IH]; cbn; by rewrite ?IH. Qed.
Lemma pending_broadcast b l : concat (map about_to_run (broadcast b l)) = concat (map about_to_run l).
Proof. destruct b; [apply pending_wake|done]. Qed.
Lemma pending_insert (l : list wpc) (i : nat) p p' :
  l !! i = Some p →
  about_to_run p ++ concat (map about_to_run (<[i := p']> l)) ≡ₚ
  about_to_run p' ++ concat (map about_to_run l).
Proof.
  revert i. induction l as [|q l IH]; intros [|i] Hi; simplify_eq/=.
  - apply Permutation_app_swap_app.
  - rewrite !(Permutation_app_swap_app _ (about_to_run q)). by rewrite IH.
Qed.

(** The context is cancelled and the queue was closed. *)
Definition closed (e : exec (T := T)) : Prop :=
  ctx_done e = true ∧ closer e = false ∧ q_ring (ex_queue e) = [].

Lemma closed_worker i e e' :
  step_worker name testExclusion i e = Some e' → closed e →
  closed e' ∧ ∃ l, calls e' = calls e ++ l ∧ l ++ pending e' ≡ₚ pending e.
Proof.
  intros Hs (H1 & H2 & H3). unfold step_worker in Hs. unfold pending.
  destruct (pcs e !! i) as [pc|] eqn:Hi; [|done].
  assert (∀ p' b, about_to_run p' = about_to_run pc →
    concat (map about_to_run (broadcast b (<[i := p']> (pcs e)))) ≡ₚ concat (map about_to_run (pcs e))) as Hsame.
  { intros p' b Hp. rewrite pending_broadcast. pose proof (pending_insert _ _ _ p' Hi) as Hq.
    rewrite Hp in Hq. by apply Permutation_app_inv_l in Hq. }
  destruct pc as [| | |t|t|t|]; try done.
  - rewrite pop_nil in Hs by done. simplify_eq/=. split; [done|]. exists []. rewrite app_nil_r. split; [done|]. cbn [app]. apply (Hsame PExit true). done.
  - simplify_eq/=. split; [done|]. exists []. rewrite app_nil_r. split; [done|]. by apply (Hsame PSleep false).
  - destruct (isSerial name t) eqn:Ht; simplify_eq/=; (split; [done|]).
    + exists []. rewrite app_nil_r. split; [done|]. apply (Hsame (PDone t) false). cbn. by rewrite Ht.
    + exists [t]. split; [done|]. pose proof (pending_insert _ _ _ (PRun t) Hi) as Hq. cbn in Hq.
      by rewrite Ht in Hq.
  - simplify_eq/=. split; [done|]. exists []. rewrite app_nil_r. split; [done|]. by apply (Hsame (PDone t) false).
  - simplify_eq/=. split; [by split_and!|]. exists []. rewrite app_nil_r. split; [done|].
    by apply (Hsame PLoop true).
Qed.

Lemma closed_step e e' :
  exec_step e e' → closed e →
  closed e' ∧ ∃ l, calls e' = calls e ++ l ∧ l ++ pending e' ≡ₚ pending e.
Proof.
  intros [[i| | |] Hs] Hc; [by eapply closed_worker|..].
  - destruct Hc as (H1 & H2 & H3). cbn in Hs. unfold step_main in Hs. rewrite H1 in Hs.
    destruct (main e) as [|[|t rest]|t rest|]; repeat destr_match; simplify_eq/=;
      (split; [by split_and!|]); exists []; by rewrite app_nil_r.
  - destruct Hc as (H1 & H2 & H3). cbn in Hs. by rewrite H1 in Hs.
  - destruct Hc as (H1 & H2 & H3). cbn in Hs. by rewrite H1, H2 in Hs.
Qed.

Lemma closed_steps e e' :
  rtc exec_step e e' → closed e →
  closed e' ∧ ∃ l, calls e' = calls e ++ l ∧ l ++ pending e' ≡ₚ pending e.
Proof.
  induction 1 as [e|e1 e2 e3 H1 _ IH]; intros Hc.
  { split; [done|]. exists []. by rewrite app_nil_r. }
  destruct (closed_step _ _ H1 Hc) as (Hc2 & l1 & E1 & P1). destruct (IH Hc2) as (Hc3 & l2 & E2 & P2).
  split; [done|]. exists (l1 ++ l2). rewrite E2, E1, <- !app_assoc. split; [done|]. by rewrite P2.
Qed.

Lemma reachable_closed tests n e :
  rtc exec_step (Execute_start tests n) e → closer e = false → closed e.
Proof.
  intros Hr Hc.
  assert (∀ e0 e1, rtc exec_step e0 e1 → exec_wf testExclusion e0 ∧ (closer e0 = false → ctx_done e0 = true) →
            exec_wf testExclusion e1 ∧ (closer e1 = false → ctx_done e1 = true)) as Hinv.
  { induction 1 as [|e1 e2 e3 H1 _ IH]; [done|]. intros [Hw Hx]. apply IH.
    split; [by eapply step_wf|]. destruct H1 as [[i| | |] Hs]; cbn in Hs.
    - unfold step_worker in Hs. destruct (pcs e1 !! i) as [[]|]; try done; repeat destr_match; by simplify_eq.
    - unfold step_main in Hs. destruct (main e1) as [|[]| |]; repeat destr_match; by simplify_eq.
    - repeat destr_match; by simplify_eq.
    - destruct (ctx_done e1 && closer e1); by simplify_eq. }
  destruct (Hinv _ _ Hr) as [Hw Hx]; [split; [apply start_wf|done]|].
  split_and!; [by apply Hx|done|by apply (wf_closed _ _ Hw)].
Qed.

(** C6: once the context is cancelled and the queue closed, the only tests
    that are still started are those a worker had taken before: each at most
    once, none from the ring and none of the serial tests. *)
Theorem interrupt_stops tests n e e' :
  rtc exec_step (Execute_start tests n) e → closer e = false → rtc exec_step e e' →
  ∃ l, calls e' = calls e ++ l ∧ l ⊆+ pending e.
Proof.
  intros Hr Hc Hs. destruct (closed_steps _ _ Hs (reachable_closed _ _ _ Hr Hc)) as (_ & l & E & P).
  exists l. split; [done|]. rewrite <- P. by apply submseteq_inserts_r.
Qed.
End Interrupt.

(** The goroutine of the monitor command prints a line of its own. *)
(* src: pkg/monitor/cmd.go 25-39 Options.Run (abort goroutine) *)
Definition monitor_abort {T : Type} : process → option process :=
  step_handler (T := T) ("Interrupted, terminating" +:+ nl).

(** ** Two workers that are interrupted *)

Definition abc : list (string * string) := [("a", ""); ("[Serial] c", ""); ("b", "")]%string.
Definition terminating : string := "Interrupted, terminating tests" +:+ nl.

(** Worker 0 has started a, worker 1 has taken b when the signal arrives. *)
Definition until_signal : list paction :=
  [PQueue (AWorker 0); PQueue (AWorker 0); PQueue (AWorker 1)].
Definition interrupted : list paction :=
  until_signal ++ [PSignal SIGTERM; PSignal SIGINT; PHandler; PQueue AClose].

Example interrupt_spec_witness :
  ∃ p, run_process fst snd terminating (interrupted ++ [PSignal SIGINT; PHandler]) (process_start abc 2) = Some p ∧
    p_handler p = HExited 130.
Proof.
  set (l := interrupted ++ [PSignal SIGINT; PHandler]).
  destruct (run_process fst snd terminating l (process_start abc 2)) as [p|] eqn:E;
    [|vm_compute in E; discriminate].
  exists p. split; [reflexivity|].
  pose proof (interrupt_spec fst snd terminating abc 2 l p E) as H.
  assert (received fst snd terminating l (process_start abc 2) = [SIGTERM; SIGINT]) as Hr
    by (vm_compute; reflexivity).
  rewrite Hr in H. destruct H as [_ [[H _]|[H _]]]; [|exact H].
  exfalso. vm_compute in E. injection E as <-. vm_compute in H. discriminate H.
Defined.

Example quick_signals_count_once_witness :
  ∃ p, run_process fst snd terminating (map PSignal [SIGINT; SIGINT; SIGINT] ++ [PHandler]) (process_start abc 2) =
    Some p ∧ exited p = false.
Proof.
  destruct (quick_signals_count_once fst snd terminating SIGINT [SIGINT; SIGINT] (process_start abc 2) eq_refl)
    as (p & H1 & _ & H2 & _).
  exists p. split; [exact H1|]. unfold exited. rewrite H2. reflexivity.
Defined.

(** b is still started, the serial test is not. *)
Definition queue_actions : list action :=
  [AWorker 0; AWorker 0; AWorker 1; ACancel; AClose].
Definition queue_rest : list action :=
  [AWorker 1; AWorker 1; AWorker 1; AWorker 1; AWorker 0; AWorker 0; AWorker 0; AMain; AMain].

Example interrupt_stops_witness :
  ∃ e e', run_schedule fst snd queue_actions (Execute_start abc 2) = Some e ∧
    run_schedule fst snd queue_rest e = Some e' ∧ main e' = MReturn ∧
    ∃ l, calls e' = calls e ++ l ∧ l ⊆+ [("b", "")]%string.
Proof.
  destruct (run_schedule fst snd queue_actions (Execute_start abc 2)) as [e|] eqn:E1;
    [|vm_compute in E1; discriminate].
  destruct (run_schedule fst snd queue_rest e) as [e'|] eqn:E2;
    [|vm_compute in E1; injection E1 as <-; vm_compute in E2; discriminate].
  exists e, e'. pose proof (run_schedule_rtc _ _ _ _ _ E1) as R1. pose proof (run_schedule_rtc _ _ _ _ _ E2) as R2.
  assert (closer e = false) as Hc by (vm_compute in E1; injection E1 as <-; reflexivity).
  assert (pending fst e = [("b", "")]%string) as Hp by (vm_compute in E1; injection E1 as <-; reflexivity).
  split; [reflexivity|]. split; [exact E2|].
  split; [vm_compute in E1; injection E1 as <-; vm_compute in E2; injection E2 as <-; reflexivity|].
  pose proof (interrupt_stops fst snd abc 2 e e' R1 Hc R2) as H. rewrite Hp in H. exact H.
Defined.
