(* ===== verification/TestCase.v ===== *)
(** * pkg/test/ginkgo/test.go, ginkgo.go, queue.go: test cases and suites

    A [*testCase] is a pointer that several lists share and that the runs
    mutate: the tests live in a store ([list testCase]) and the code's lists of
    pointers are lists of indices into it.  The specs and the summaries are
    plain data of github.com/onsi/ginkgo/types. *)

From S2P Require Import Prelude.
From S2P Require Import GoStrings.
From S2P Require Import GoLib.

(** ** Data of ginkgo *)

Record CodeLocation := mkLoc { FileName : string; LineNumber : Z; FullStackTrace : string }.

#[export] Instance CodeLocation_eq_dec : EqDecision CodeLocation.
Proof. solve_decision. Defined.

Inductive SpecState := SPassed | SSkipped | SFailed | SPanicked | STimedOut | SPending | SInvalid.

Record SpecFailure := mkFailure {
  FMessage : string;
  FLocation : CodeLocation;
  ForwardedPanic : string
}.

Record SpecSummary := mkSummary {
  ComponentTexts : list string;
  ComponentCodeLocations : list CodeLocation;
  State : SpecState;
  Failure : SpecFailure
}.

Record SetupSummary := mkSetup { SetupState : SpecState; SetupFailure : SpecFailure }.

(** What the code reads of a spec: its texts joined by ginkgo and the code
    locations of [Summary("")]. *)
(* src: pkg/test/ginkgo/ginkgo.go 29-37 ginkgoSpec *)
Record ginkgoSpec := mkSpec { ConcatenatedString : string; SpecLocations : list CodeLocation }.

(** ** Test cases *)

(* src: pkg/test/ginkgo/test.go 17-34 testCase *)
Record testCase := mkTest {
  name : string;
  spec : ginkgoSpec;
  location : CodeLocation;
  testExclusion : string;
  tc_start : time;
  tc_end : time;
  tc_duration : duration;
  out : string;
  success : bool;
  failed : bool;
  skipped : bool;
  previous : option nat
}.

Definition fresh_test (n : string) (sp : ginkgoSpec) (loc : CodeLocation) (ex : string)
    (prev : option nat) : testCase :=
  mkTest n sp loc ex time_zero time_zero 0%Z "" false false false prev.

(** Indexing an empty list of locations panics. *)
(* src: pkg/test/ginkgo/test.go 36-45 newTestCase *)
Definition newTestCase (sp : ginkgoSpec) : outcome testCase :=
  match last (SpecLocations sp) with
  | Some loc =>
      Ret (fresh_test (TrimPrefix (ConcatenatedString sp) "[Top Level] ") sp loc "" None)
  | None => Panic "index out of range"
  end.

(** The copy keeps what identifies the test; [p] is the pointer to the
    original. *)
(* src: pkg/test/ginkgo/test.go 47-57 testCase.Retry *)
Definition Retry (p : nat) (t : testCase) : testCase :=
  fresh_test (name t) (spec t) (location t) (testExclusion t) (Some p).

(** The iterator of the global suite, drained: the specs it returned before
    the error, and the text of that error. *)
(* src: pkg/test/ginkgo/ginkgo.go 13-27 testsForSuite *)
Fixpoint testsForSuite (specs : list ginkgoSpec) (err : string) : outcome (list testCase) :=
  match specs with
  | [] => if String.eqb err "no more specs to run" then Ret [] else Fail (Errorf err)
  | sp :: specs' =>
      match newTestCase sp with
      | Ret t =>
          match testsForSuite specs' err with
          | Ret ts => Ret (t :: ts)
          | r => r
          end
      | Fail e => Fail e
      | Panic m => Panic m
      end
  end.

(** ** Suites *)

(** [Init] is nil for most suites; [G] is the state of the globals it sets. *)
(* src: pkg/test/ginkgo/test.go 59-77 TestSuite *)
Record TestSuite {G : Type} := mkSuite {
  SuiteName : string;
  Description : string;
  Matches : string → bool;
  Init : option (gmap string string → go G unit);
  Count : Z;
  Parallelism : Z;
  MaximumAllowedFlakes : Z;
  TestTimeout : duration
}.
Arguments TestSuite G : clear implicits.

Section Store.
Context {G : Type}.
Variable store : list testCase.

(** Reading the name through a pointer. *)
Definition deref_name (p : nat) : string := default "" (name <$> store !! p).
Definition deref_exclusion (p : nat) : string := default "" (testExclusion <$> store !! p).

(* src: pkg/test/ginkgo/test.go 79-88 TestSuite.Filter *)
Definition Filter (s : TestSuite G) (tests : list nat) : list nat :=
  bfilter (λ p, Matches s (deref_name p)) tests.

(* src: pkg/test/ginkgo/test.go 129-135 testNames *)
Definition testNames (tests : list nat) : list string := map deref_name tests.

(* src: pkg/test/ginkgo/queue.go 155-164 splitTests *)
Fixpoint splitTests (fn : nat → bool) (tests : list nat) : list nat * list nat :=
  match tests with
  | [] => ([], [])
  | t :: ts => let '(a, b) := splitTests fn ts in if fn t then (t :: a, b) else (a, t :: b)
  end.
End Store.

(** The lines of a file that hold a quoted name; the first that does not
    unquote is the error. *)
Fixpoint suite_lines (lines : list string) : option (list string) :=
  match lines with
  | [] => Some []
  | l :: rest =>
      let l := TrimSpace l in
      if HasPrefix l dquote then
        match Unquote l with
        | Some n => (cons n) <$> suite_lines rest
        | None => None
        end
      else suite_lines rest
  end.

Definition suite_named {G} (n : string) (m : string → bool) : TestSuite G :=
  mkSuite G n "" m None 0 0 0 0%Z.

(* src: pkg/test/ginkgo/test.go 90-111 newSuiteFromFile *)
Definition newSuiteFromFile {G} (n contents : string) : TestSuite G + error :=
  match suite_lines (SplitChar nl_char contents) with
  | Some tests => inl (suite_named n (λ x, bool_decide (x ∈ tests)))
  | None => inr (Errorf "invalid syntax")
  end.

(** [compile] is [regexp.Compile] followed by [MatchString]. *)
(* src: pkg/test/ginkgo/test.go 113-127 filterWithRegex *)
Definition filterWithRegex {G} (compile : string → (string → bool) + error)
    (suite : TestSuite G) (regex : string) : TestSuite G + error :=
  match compile regex with
  | inr e => inr e
  | inl re =>
      inl (mkSuite G (SuiteName suite) (Description suite)
             (λ n, if negb (Matches suite n) then false else re n) (Init suite)
             (Count suite) (Parallelism suite) (MaximumAllowedFlakes suite) (TestTimeout suite))
  end.

(** [prefix] is the format of a [Fprintf] without arguments. *)
(* src: pkg/test/ginkgo/test.go 139-146 SuitesString *)
Definition SuitesString {G} (suites : list (TestSuite G)) (prefix : string) : string :=
  Sprintf_ints prefix [] +:+
  String.concat "" (map (λ s, SuiteName s +:+ nl +:+ "  " +:+ Description s +:+ nl +:+ nl) suites).

(** ** Exclusions *)

Definition is_framework_file (f : string) : bool :=
  HasSuffix f "/k8s.io/kubernetes/test/e2e/framework/framework.go".

(** The last file of the spec's locations that is not the e2e framework. *)
Definition suitePath (locs : list CodeLocation) : string :=
  fold_left (λ p loc,
    if Nat.ltb 0 (String.length (FileName loc)) && negb (is_framework_file (FileName loc))
    then FileName loc else p) locs "".

Definition set_exclusion (e : string) (t : testCase) : testCase :=
  mkTest (name t) (spec t) (location t) e (tc_start t) (tc_end t) (tc_duration t) (out t)
    (success t) (failed t) (skipped t) (previous t).

(* src: pkg/test/ginkgo/queue.go 138-153 setTestExclusion *)
Definition setTestExclusion (fn : string → testCase → bool) (tests : list testCase)
  : list testCase :=
  map (λ t, let p := suitePath (SpecLocations (spec t)) in
            if fn p t then set_exclusion p t else t) tests.

(** ** Properties *)

Lemma splitTests_spec fn l :
  splitTests fn l = (bfilter fn l, bfilter (λ t, negb (fn t)) l).
Proof. induction l as [|t l IH]; cbn; [done|]. rewrite IH. by destruct (fn t). Qed.

(** Both parts together are the tests. *)
Lemma splitTests_perm fn l : fst (splitTests fn l) ++ snd (splitTests fn l) ≡ₚ l.
Proof. rewrite splitTests_spec. apply bfilter_perm_split. Qed.

Lemma suite_lines_quoted names rest :
  suite_lines (map Quote names ++ rest) = (app names) <$> suite_lines rest.
Proof.
  induction names as [|n names IH]; cbn [map app suite_lines].
  - by destruct (suite_lines rest).
  - rewrite TrimSpace_Quote, IH.
    assert (HasPrefix (Quote n) dquote = true) as -> by apply HasPrefix_app.
    rewrite Unquote_Quote. by destruct (suite_lines rest).
Qed.

(** The listing of a dry run: one quoted name per line. *)
Fixpoint listing (names : list string) : string :=
  match names with [] => "" | n :: ns => Quote n +:+ nl +:+ listing ns end.

Lemma SplitChar_listing names : SplitChar nl_char (listing names) = map Quote names ++ [""].
Proof.
  induction names as [|n names IH]; [done|]. cbn [listing map app].
  unfold nl. rewrite str_app_cons, str_app_nil_l, SplitChar_app by apply Quote_no_nl.
  by rewrite IH.
Qed.

Lemma newSuiteFromFile_listing {G} n names :
  newSuiteFromFile (G := G) n (listing names) = inl (suite_named n (λ x, bool_decide (x ∈ names))).
Proof.
  unfold newSuiteFromFile. rewrite SplitChar_listing, suite_lines_quoted. cbn. by rewrite app_nil_r.
Qed.

(** A regular expression narrows the suite and changes nothing else of it;
    one that does not compile is an error. *)
Theorem filterWithRegex_spec {G} compile (suite : TestSuite G) regex :
  match compile regex with
  | inl re => ∃ s, filterWithRegex compile suite regex = inl s ∧
      (∀ store tests, Filter store s tests =
         bfilter (λ p, re (deref_name store p)) (Filter store suite tests)) ∧
      SuiteName s = SuiteName suite ∧ MaximumAllowedFlakes s = MaximumAllowedFlakes suite
  | inr e => filterWithRegex compile suite regex = inr e
  end.
Proof.
  unfold filterWithRegex. destruct (compile regex) as [re|e]; [|done].
  eexists. split; [reflexivity|]. split; [|done]. intros store tests. unfold Filter. cbn.
  induction tests as [|p tests IH]; cbn; [done|].
  destruct (Matches suite (deref_name store p)); cbn; by rewrite IH.
Qed.
