(* ===== verification/Junit.v ===== *)
(** * pkg/test/ginkgo/junit.go: the JUnit report

    The report is the value handed to the XML encoder; a duration in seconds is
    kept in nanoseconds.  Counters are [uint]s that count list elements, so
    they stay far from their bound. *)

From S2P Require Import Prelude.
From S2P Require Import GoStrings.
From S2P Require Import GoLib.
From S2P Require Import TestCase.

(* src: pkg/test/ginkgo/junit.go 65-88 JUnitTestCase *)
Record JUnitTestCase := mkJCase {
  JName : string;
  Classname : string;
  JDuration : duration;
  SkipMessage : option string;
  FailureOutput : option (string * string);   (* Message, Output *)
  SystemOut : string;
  SystemErr : string
}.

(* src: pkg/test/ginkgo/junit.go 28-54 JUnitTestSuite *)
Record JUnitTestSuite := mkJSuite {
  JSuiteName : string;
  NumTests : nat;
  NumSkipped : nat;
  NumFailed : nat;
  JSuiteDuration : duration;
  TestCases : list JUnitTestCase
}.

(* src: pkg/test/ginkgo/junit.go 198-205 stringStartsWithAny *)
Fixpoint stringStartsWithAny (s : string) (contains : list string) : bool :=
  match contains with
  | [] => false
  | m :: rest => if HasPrefix s m then true else stringStartsWithAny s rest
  end.

(** [s[i:j]] *)
Definition slice (i j : nat) (s : string) : string := drop_str i (take_str j s).

(** The loop of [lastLinesUntil]: the index the result starts at, [None] for
    the whole output.  The index decreases at every iteration, so [index] is
    enough fuel; without fuel the index is 0 and there is no newline before
    it. *)
Fixpoint last_lines_loop (fuel : nat) (output : string) (max index : nat) (until : list string)
  : option nat :=
  match max with
  | O => Some index
  | S max' =>
      match fuel with
      | O => None
      | S fuel' =>
          match LastIndexChar (take_str index output) nl_char with
          | None | Some O => None
          | Some next =>
              let line := TrimSpace (slice (S next) index output) in
              let max := if Nat.ltb 0 (String.length line) then max' else max in
              if stringStartsWithAny line until then Some next
              else last_lines_loop fuel' output max next until
          end
      end
  end.

(* src: pkg/test/ginkgo/junit.go 174-196 lastLinesUntil *)
Definition lastLinesUntil (output : string) (max : nat) (until : list string) : string :=
  let output := TrimSpace output in
  if Nat.eqb (String.length output) 0 || Nat.eqb max 0 then output
  else
    let index := String.length output - 1 in
    match last_lines_loop index output max index until with
    | None => TrimSpace output
    | Some i => TrimSpace (drop_str i output)
    end.

Definition skip_output (t : testCase) : string := lastLinesUntil (out t) 100 ["skip ["].
Definition fail_output (t : testCase) : string := lastLinesUntil (out t) 100 ["fail ["].

(** The report of one test: the counters (tests, skipped, failed) it adds and
    its entry. *)
Definition report_test (t : testCase) : nat * nat * nat * list JUnitTestCase :=
  if skipped t then
    (1, 1, 0, [mkJCase (name t) "" (tc_duration t) (Some (skip_output t)) None (out t) ""])
  else if failed t then
    (1, 0, 1, [mkJCase (name t) "" (tc_duration t) None (Some ("", fail_output t)) (out t) ""])
  else if success t then
    (0, 0, 1, [mkJCase (name t) "" (tc_duration t) None None "" ""])
  else (0, 0, 0, []).

Definition report_result (r : JUnitTestCase) : nat * nat * nat * list JUnitTestCase :=
  match SkipMessage r, FailureOutput r with
  | Some _, _ => (1, 1, 0, [r])
  | None, Some _ => (1, 0, 1, [r])
  | None, None => (1, 0, 0, [r])
  end.

Definition add_report (s : JUnitTestSuite) (r : nat * nat * nat * list JUnitTestCase) :=
  let '(n, sk, f, cs) := r in
  mkJSuite (JSuiteName s) (NumTests s + n) (NumSkipped s + sk) (NumFailed s + f)
    (JSuiteDuration s) (TestCases s ++ cs).

(** The name of the file, and the report written to it. *)
(* src: pkg/test/ginkgo/junit.go 118-172 writeJUnitReport *)
Definition writeJUnitReport (filePrefix n : string) (tests : list testCase) (dir : string)
    (d : duration) (now : time) (additional : list JUnitTestCase) : string * JUnitTestSuite :=
  let s := mkJSuite n 0 0 0 d [] in
  let s := fold_left add_report (map report_test tests) s in
  let s := fold_left add_report (map report_result additional) s in
  (dir +:+ "/" +:+ filePrefix +:+ "_" +:+ FormatFile now +:+ ".xml", s).

(** ** The counters *)

Definition count_of {A} (p : A → bool) (l : list A) : nat := length (bfilter p l).

(** A test's verdict in the report: skipped before failed before passed. *)
Definition counts_skip (t : testCase) : bool := skipped t.
Definition counts_fail (t : testCase) : bool := negb (skipped t) && failed t.
Definition counts_pass (t : testCase) : bool := negb (skipped t) && negb (failed t) && success t.
Definition result_skip (r : JUnitTestCase) : bool := if SkipMessage r then true else false.
Definition result_fail (r : JUnitTestCase) : bool :=
  match SkipMessage r, FailureOutput r with None, Some _ => true | _, _ => false end.

Lemma report_tests_counts tests s :
  let s' := fold_left add_report (map report_test tests) s in
  NumTests s' = NumTests s + count_of counts_skip tests + count_of counts_fail tests ∧
  NumSkipped s' = NumSkipped s + count_of counts_skip tests ∧
  NumFailed s' = NumFailed s + count_of counts_fail tests + count_of counts_pass tests ∧
  JSuiteName s' = JSuiteName s.
Proof.
  unfold count_of. revert s. induction tests as [|t tests IH]; intros s; cbn; [split_and!; [lia..|done]|].
  specialize (IH (add_report s (report_test t))). cbn in IH.
  destruct IH as (-> & -> & -> & ->).
  unfold counts_skip, counts_fail, counts_pass, report_test.
  destruct (skipped t), (failed t), (success t); cbn; split_and!; try done; lia.
Qed.

Lemma report_results_counts rs s :
  let s' := fold_left add_report (map report_result rs) s in
  NumTests s' = NumTests s + length rs ∧
  NumSkipped s' = NumSkipped s + count_of result_skip rs ∧
  NumFailed s' = NumFailed s + count_of result_fail rs ∧
  JSuiteName s' = JSuiteName s.
Proof.
  unfold count_of. revert s. induction rs as [|r rs IH]; intros s; cbn; [split_and!; [lia..|done]|].
  specialize (IH (add_report s (report_result r))). cbn in IH.
  destruct IH as (-> & -> & -> & ->). unfold result_skip, result_fail, report_result.
  destruct (SkipMessage r), (FailureOutput r); cbn; split_and!; try done; lia.
Qed.

(** The counters of the report: the skipped and the failed tests and every
    additional result are counted as tests, a test that only passed is not,
    and it is counted as a failure. *)
Theorem writeJUnitReport_counts prefix n tests dir d now rs :
  let s := snd (writeJUnitReport prefix n tests dir d now rs) in
  NumTests s = count_of counts_skip tests + count_of counts_fail tests + length rs ∧
  NumSkipped s = count_of counts_skip tests + count_of result_skip rs ∧
  NumFailed s = count_of counts_fail tests + count_of counts_pass tests + count_of result_fail rs.
Proof.
  unfold writeJUnitReport. cbn [snd]. cbn zeta.
  set (s0 := mkJSuite n 0 0 0 d []).
  destruct (report_tests_counts tests s0) as (H1 & H2 & H3 & _).
  destruct (report_results_counts rs (fold_left add_report (map report_test tests) s0))
    as (-> & -> & -> & _).
  rewrite H1, H2, H3. cbn. lia.
Qed.

(** A run of passing tests only is reported with as many failures as it has
    tests, and with no test at all. *)
Theorem writeJUnitReport_all_passed prefix n tests dir d now :
  Forall (λ t, success t = true ∧ failed t = false ∧ skipped t = false) tests →
  let s := snd (writeJUnitReport prefix n tests dir d now []) in
  NumTests s = 0 ∧ NumFailed s = length tests.
Proof.
  intros H. unfold writeJUnitReport. cbn [snd fold_left map]. cbn zeta.
  destruct (report_tests_counts tests (mkJSuite n 0 0 0 d [])) as (-> & _ & -> & _).
  assert (∀ (p : testCase → bool) v, (∀ t, success t = true ∧ failed t = false ∧ skipped t = false → p t = v) →
            Forall (λ t, p t = v) tests) as Hp by (intros p v Hpv; eapply Forall_impl; [apply H|apply Hpv]).
  unfold count_of. rewrite (bfilter_none counts_skip), (bfilter_none counts_fail),
    (bfilter_all counts_pass); [cbn; lia|..]; apply Hp; intros t (H1 & H2 & H3);
    unfold counts_skip, counts_fail, counts_pass; by rewrite ?H1, ?H2, ?H3.
Qed.

Definition passed_test : testCase :=
  mkTest "a" (mkSpec "a" []) (mkLoc "a.go" 1 "") "" 0 0 0 "" true false false None.

Example writeJUnitReport_all_passed_witness :
  NumFailed (snd (writeJUnitReport "junit_e2e" "openshift-tests" [passed_test] "d" 0 0 [])) = 1.
Proof.
  apply (writeJUnitReport_all_passed "junit_e2e" "openshift-tests" [passed_test] "d" 0 0).
  by repeat constructor.
Defined.

(** ** The last lines *)

Definition nonblank (l : string) : bool := Nat.ltb 0 (String.length (TrimSpace l)).

(** [nl ++ l1 ++ nl ++ l2 ...] *)
Fixpoint on_lines (ls : list string) : string :=
  match ls with [] => "" | l :: ls' => nl +:+ l +:+ on_lines ls' end.

Lemma on_lines_snoc ls l : on_lines (ls ++ [l]) = on_lines ls +:+ nl +:+ l.
Proof.
  induction ls as [|x ls IH]; cbn [on_lines app]; [by rewrite str_app_nil_r|].
  by rewrite IH, !str_app_assoc.
Qed.

Lemma LastIndexChar_Some s c p :
  LastIndexChar s c = Some p →
  p < String.length s ∧ s = take_str p s +:+ String c (drop_str (S p) s).
Proof.
  revert p. induction s as [|a s IH]; intros p; [done|]. cbn [LastIndexChar].
  destruct (LastIndexChar s c) as [i|] eqn:E.
  - intros [= <-]. destruct (IH i eq_refl) as [H1 H2]. split; [cbn; lia|].
    rewrite H2 at 1. done.
  - destruct (Ascii.eqb a c) eqn:Ea; [|done]. intros [= <-].
    apply Ascii.eqb_eq in Ea as ->. split; [cbn; lia|]. cbn [take_str drop_str].
    by destruct s.
Qed.

Lemma take_take_str i j s : i ≤ j → take_str i (take_str j s) = take_str i s.
Proof.
  revert i j. induction s as [|a s IH]; intros [|i] [|j] H; try done; [lia|].
  cbn. rewrite IH by lia. done.
Qed.
Lemma take_str_length i s : i ≤ String.length s → String.length (take_str i s) = i.
Proof.
  revert i. induction s as [|a s IH]; intros [|i] H; cbn in *; try done; [lia|].
  rewrite IH by lia. done.
Qed.

Lemma last_lines_loop_spec fuel output max index until i :
  index ≤ String.length output →
  last_lines_loop fuel output max index until = Some i →
  i ≤ index ∧ ∃ ls, take_str index output = take_str i output +:+ on_lines ls ∧
    length (bfilter nonblank ls) ≤ max ∧
    (length (bfilter nonblank ls) = max ∨
     ∃ l ls', ls = l :: ls' ∧ stringStartsWithAny (TrimSpace l) until = true).
Proof.
  revert max index. induction fuel as [|fuel IH]; intros [|max] index Hi;
    cbn [last_lines_loop]; try done.
  1,2: intros [= ->]; split; [done|]; exists []; cbn; rewrite str_app_nil_r;
    split; [done|]; split; [lia|by left].
  destruct (LastIndexChar (take_str index output) nl_char) as [[|next]|] eqn:E; try done.
  apply LastIndexChar_Some in E as [H1 H2]. rewrite take_str_length in H1 by done.
  rewrite take_take_str in H2 by lia. unfold slice. set (l := drop_str (S (S next)) _) in *.
  fold (nonblank l).
  destruct (stringStartsWithAny (TrimSpace l) until) eqn:Eu.
  - intros [= <-]. split; [lia|]. exists [l]. cbn [on_lines bfilter].
    rewrite str_app_nil_r. split; [done|]. split.
    + destruct (nonblank l); cbn; lia.
    + right. eauto.
  - intros Hl. apply IH in Hl as (H3 & ls & H4 & H5 & H6); [|lia].
    split; [lia|]. exists (ls ++ [l]). rewrite on_lines_snoc, bfilter_app, length_app.
    rewrite H2, H4, !str_app_assoc. split; [done|]. cbn [bfilter].
    destruct (nonblank l); cbn [length] in *; (split; [lia|]);
      (destruct H6 as [H6|(l0 & ls' & -> & H6)]; [left; lia|right; eauto]).
Qed.

(** [lastLinesUntil] returns the trimmed output, or its suffix from a line
    break on, trimmed; in the second case the lines of the suffix (without the
    last byte of the output) hold at most [max] lines that are not blank, and
    exactly [max] unless the first of them starts with one of the markers. *)
Theorem lastLinesUntil_spec output max until :
  let o := TrimSpace output in
  lastLinesUntil output max until = o ∨
  lastLinesUntil output max until = TrimSpace o ∨
  ∃ pre ls b, o = pre +:+ on_lines ls +:+ b ∧ String.length b = 1 ∧
    lastLinesUntil output max until = TrimSpace (on_lines ls +:+ b) ∧
    length (bfilter nonblank ls) ≤ max ∧
    (length (bfilter nonblank ls) = max ∨
     ∃ l ls', ls = l :: ls' ∧ stringStartsWithAny (TrimSpace l) until = true).
Proof.
  intros o. unfold lastLinesUntil. fold o.
  destruct (Nat.eqb_spec (String.length o) 0) as [|Hne]; cbn [orb]; [by left|].
  destruct (Nat.eqb_spec max 0) as [|Hmax]; [by left|]. right.
  set (n := String.length o - 1). assert (S n = String.length o) as Hn by (subst n; lia).
  destruct (last_lines_loop n o max n until) as [i|] eqn:E; [|by left]. right.
  apply last_lines_loop_spec in E as (Hi & ls & H1 & H2 & H3); [|lia].
  exists (take_str i o), ls, (drop_str n o).
  pose proof (take_drop_str n o) as Hsplit. rewrite H1, str_app_assoc in Hsplit.
  split; [done|]. split; [|split; [|done]].
  - pose proof (f_equal String.length (take_drop_str n o)) as Hlen.
    rewrite str_length_app, take_str_length in Hlen by lia. lia.
  - f_equal. pose proof (take_drop_str i o) as Hs2. rewrite <- Hsplit in Hs2 at 1.
    rewrite <- Hsplit at 1. rewrite <- (take_str_length i o) at 1 by lia.
    apply drop_str_app.
Qed.

(** ** The cases of junit_test.go *)

Definition lines_ (l : list string) : string := Join l nl.

Example Test_lastLines :
  map (λ '(o, m, u), lastLinesUntil o m u)
    [("", 0, []); ("", 1, []); ("test", 1, []); (lines_ ["test"; ""], 1, []);
     (lines_ ["test"; "other"], 1, []); (lines_ ["test"; "other"; ""], 2, []);
     (lines_ ["test"; "other"; ""], 3, []); (lines_ ["test"; ""; ""; "other"; ""], 2, []);
     (lines_ ["test"; ""; ""; "other and stuff"; ""], 2, ["other"]);
     (lines_ ["test"; ""; ""; "other"; ""], 1, ["test"]);
     (lines_ ["test"; "test"; ""; ""; "other"; ""], 10, ["test"])]%string
  = [""; ""; "test"; "test"; "other"; lines_ ["test"; "other"]; lines_ ["test"; "other"];
     lines_ ["test"; ""; ""; "other"]; "other and stuff"; "other";
     lines_ ["test"; ""; ""; "other"]]%string.
Proof. reflexivity. Qed.

(** The last line loses its last byte in the scan: when it has one byte only it
    is taken for a blank line and one line too many is returned. *)
Example lastLines_one_byte : lastLinesUntil (lines_ ["a"; "b"]) 1 [] = lines_ ["a"; "b"].
Proof. reflexivity. Qed.
