(* ===== verification/JunitXml.v ===== *)
(** * pkg/test/ginkgo/junit.go: the report as XML

    [xml.Marshal] of the report: elements and attributes in the order of the
    fields, empty values left out where the tag says so, and every value
    escaped.  Go's escaping decodes UTF-8 and replaces what XML cannot hold by
    U+FFFD.  A reader of such documents shows what a consumer gets back. *)

From S2P Require Import Prelude.
From S2P Require Import GoStrings.
From S2P Require Import GoLib.
From S2P Require Import TestCase.
From S2P Require Import Junit.

Notation ascii := Ascii.ascii.

(** ** Runes *)

Definition byte_of (c : ascii) : N := Ascii.N_of_ascii c.
Definition within (lo hi b : N) : bool := (lo <=? b)%N && (b <=? hi)%N.
Definition cont (c : ascii) : bool := within 128 191 (byte_of c).

(** The second byte after the first: no overlong forms, no surrogates, nothing
    above U+10FFFF. *)
Definition second_ok (b b1 : N) : bool :=
  within 128 191 b1 &&
  (if (b =? 224)%N then (160 <=? b1)%N
   else if (b =? 237)%N then (b1 <=? 159)%N
   else if (b =? 240)%N then (144 <=? b1)%N
   else if (b =? 244)%N then (b1 <=? 143)%N else true).

(** The rune at the head: whether it is copied, and its width; a byte that
    begins no rune has width 1. *)
Definition rune (c : ascii) (s : string) : bool * nat :=
  let b := byte_of c in
  if (b <? 128)%N then ((32 <=? b)%N || (b =? 9)%N || (b =? 10)%N || (b =? 13)%N, 1)
  else match s with
       | String c1 s1 =>
           if within 194 223 b && cont c1 then (true, 2)
           else match s1 with
                | String c2 s2 =>
                    if within 224 239 b && second_ok b (byte_of c1) && cont c2
                    then (negb ((b =? 239)%N && (byte_of c1 =? 191)%N && (190 <=? byte_of c2)%N), 3)
                    else match s2 with
                         | String c3 _ =>
                             if within 240 244 b && second_ok b (byte_of c1) && cont c2 && cont c3
                             then (true, 4) else (false, 1)
                         | EmptyString => (false, 1)
                         end
                | EmptyString => (false, 1)
                end
       | EmptyString => (false, 1)
       end.

(** U+FFFD *)
Definition replacement : string :=
  String (Ascii.ascii_of_N 239) (String (Ascii.ascii_of_N 191) (String (Ascii.ascii_of_N 189) EmptyString)).

(** The bytes of the rune that are left: copied or dropped. *)
Inductive rest_of_rune := Copy (n : nat) | Drop (n : nat).

(** The characters that have an escape. *)
Definition entity (c : ascii) : option string :=
  match N.to_nat (byte_of c) with
  | 34 => Some "&#34;" | 39 => Some "&#39;" | 38 => Some "&amp;" | 60 => Some "&lt;" | 62 => Some "&gt;"
  | 9 => Some "&#x9;" | 10 => Some "&#xA;" | 13 => Some "&#xD;"
  | _ => None
  end%string.

(** One pass over the string, with [f] for the characters that are copied. *)
Fixpoint runes (f : ascii → string) (st : rest_of_rune) (s : string) : string :=
  match s with
  | EmptyString => EmptyString
  | String c s' =>
      match st with
      | Copy (S n) => String c (runes f (Copy n) s')
      | Drop (S n) => runes f (Drop n) s'
      | _ =>
          let '(ok, w) := rune c s' in
          if ok then f c +:+ runes f (Copy (w - 1)) s'
          else replacement +:+ runes f (Drop (w - 1)) s'
      end
  end.

Definition one (c : ascii) : string := String c EmptyString.

(** [xml.EscapeText]; [sanitize] is what it keeps of a string. *)
Definition escape (s : string) : string := runes (λ c, default (one c) (entity c)) (Copy 0) s.
Definition sanitize (s : string) : string := runes one (Copy 0) s.

(** ** Reading escaped text *)

Definition entities : list (string * ascii) :=
  [("#34;", Ascii.ascii_of_nat 34); ("#39;", Ascii.ascii_of_nat 39); ("amp;", Ascii.ascii_of_nat 38);
   ("lt;", Ascii.ascii_of_nat 60); ("gt;", Ascii.ascii_of_nat 62); ("#x9;", Ascii.ascii_of_nat 9);
   ("#xA;", Ascii.ascii_of_nat 10); ("#xD;", Ascii.ascii_of_nat 13)]%string.

Definition amp : ascii := Ascii.ascii_of_nat 38.

(** [skip] counts the bytes left of an entity. *)
Fixpoint unescape (skip : nat) (s : string) : string :=
  match s with
  | EmptyString => EmptyString
  | String c s' =>
      match skip with
      | S k => unescape k s'
      | O =>
          if Ascii.eqb c amp then
            match find_first (λ e, HasPrefix s' e.1) entities with
            | Some (e, x) => String x (unescape (String.length e) s')
            | None => String c (unescape 0 s')
            end
          else String c (unescape 0 s')
      end
  end.

(** ** Escaping and reading back *)

(** The bytes a state still has to copy are continuation bytes. *)
Definition st_ok (st : rest_of_rune) (s : string) : Prop :=
  match st with Copy n => ∀ k c, k < n → String.get k s = Some c → cont c = true | Drop _ => True end.

Lemma cont_facts c : cont c = true → (128 <= byte_of c)%N.
Proof. unfold cont, within. rewrite andb_true_iff, !N.leb_le. lia. Qed.

Lemma amp_byte c : Ascii.eqb c amp = true → byte_of c = 38%N.
Proof. intros ->%Ascii.eqb_eq. reflexivity. Qed.

Lemma cont_plain c : cont c = true → Ascii.eqb c amp = false.
Proof.
  intros H%cont_facts. destruct (Ascii.eqb c amp) eqn:E; [|done]. apply amp_byte in E. lia.
Qed.

Lemma second_ok_cont b c : second_ok b (byte_of c) = true → cont c = true.
Proof. unfold second_ok, cont. by intros [? _]%andb_true_iff. Qed.

Lemma rune_ok c s w : rune c s = (true, w) → st_ok (Copy (w - 1)) s.
Proof.
  unfold rune. destruct (_ <? 128)%N.
  { intros [= _ <-] k x Hk. cbn in Hk. lia. }
  destruct s as [|c1 s1]; [done|]. destruct (within 194 223 _ && cont c1) eqn:E2.
  { intros [= <-]. apply andb_true_iff in E2 as [_ H1]. intros [|k] x Hk; cbn; [|lia]. by intros [= <-]. }
  destruct s1 as [|c2 s2]; [done|]. destruct (within 224 239 _ && _ && _) eqn:E3.
  { intros [= _ <-]. rewrite !andb_true_iff in E3. destruct E3 as [[_ H1%second_ok_cont] H2].
    intros [|[|k]] x Hk; cbn; [..|cbn in Hk; lia]; by intros [= <-]. }
  destruct s2 as [|c3 s3]; [done|]. destruct (within 240 244 _ && _ && _ && _) eqn:E4; [|done].
  intros [= <-]. rewrite !andb_true_iff in E4. destruct E4 as [[[_ H1%second_ok_cont] H2] H3].
  intros [|[|[|k]]] x Hk; cbn; [..|cbn in Hk; lia]; by intros [= <-].
Qed.

Lemma unescape_plain c s : Ascii.eqb c amp = false → unescape 0 (String c s) = String c (unescape 0 s).
Proof. cbn. by intros ->. Qed.

Lemma skip_app p s : unescape (String.length p) (p +:+ s) = unescape 0 s.
Proof. induction p as [|c p IH]; [done|]. exact IH. Qed.

Lemma unescape_entity c e s : entity c = Some e → unescape 0 (e +:+ s) = String c (unescape 0 s).
Proof.
  destruct c as [[] [] [] [] [] [] [] []]; vm_compute; intros H; first [discriminate|injection H as <-; destruct s; reflexivity].
Qed.

Lemma entity_none_amp c : entity c = None → Ascii.eqb c amp = false.
Proof. destruct (Ascii.eqb c amp) eqn:E; [|done]. apply Ascii.eqb_eq in E as ->. done. Qed.

Lemma unescape_runes st s :
  st_ok st s → unescape 0 (runes (λ c, default (one c) (entity c)) st s) = runes one st s.
Proof.
  assert (∀ c s, unescape 0 (default (one c) (entity c) +:+ s) = one c +:+ unescape 0 s) as Hc.
  { intros c t. destruct (entity c) as [e|] eqn:E; [by apply unescape_entity|].
    apply unescape_plain. by apply entity_none_amp. }
  revert st. induction s as [|c s IH]; intros st Hst; [done|].
  assert (unescape 0 (let '(ok, w) := rune c s in
      if ok then default (one c) (entity c) +:+ runes (λ c, default (one c) (entity c)) (Copy (w - 1)) s
      else replacement +:+ runes (λ c, default (one c) (entity c)) (Drop (w - 1)) s) =
    (let '(ok, w) := rune c s in
      if ok then one c +:+ runes one (Copy (w - 1)) s else replacement +:+ runes one (Drop (w - 1)) s)) as H0.
  { destruct (rune c s) as [[|] w] eqn:Er.
    - rewrite Hc, IH; [done|]. by eapply rune_ok.
    - transitivity (replacement +:+ unescape 0 (runes (λ c, default (one c) (entity c)) (Drop (w - 1)) s));
        [reflexivity|]. by rewrite IH. }
  destruct st as [[|n]|[|n]]; cbn [runes]; [exact H0| |exact H0|by apply IH].
  rewrite unescape_plain; [|by apply cont_plain, (Hst 0); [lia|]]. rewrite IH; [done|].
  intros k x Hk Hx. apply (Hst (S k)); [lia|done].
Qed.

Lemma unescape_escape s : unescape 0 (escape s) = sanitize s.
Proof. apply unescape_runes. intros k c Hk. lia. Qed.

(** ** Characters that a string lacks *)

Fixpoint has_char (c : ascii) (s : string) : bool :=
  match s with EmptyString => false | String x s' => Ascii.eqb x c || has_char c s' end.

Lemma has_char_app c s t : has_char c (s +:+ t) = has_char c s || has_char c t.
Proof. induction s as [|x s IH]; [done|]. rewrite str_app_cons. cbn. by rewrite IH, orb_assoc. Qed.

(** The text up to a character, and what follows it. *)
Fixpoint break_at (c : ascii) (s : string) : option (string * string) :=
  match s with
  | EmptyString => None
  | String x s' =>
      if Ascii.eqb x c then Some (EmptyString, s')
      else (λ p, (String x p.1, p.2)) <$> break_at c s'
  end.

Lemma break_at_app c p r : has_char c p = false → break_at c (p +:+ String c r) = Some (p, r).
Proof.
  induction p as [|x p IH]; intros H.
  - rewrite str_app_nil_l. cbn. by rewrite Ascii.eqb_refl.
  - cbn in H. apply orb_false_iff in H as [Hx Hp]. rewrite str_app_cons. cbn. by rewrite Hx, IH.
Qed.

Definition lt_char : ascii := Ascii.ascii_of_nat 60.
Definition gt_char : ascii := Ascii.ascii_of_nat 62.
Definition space_char : ascii := Ascii.ascii_of_nat 32.
Definition eq_char : ascii := Ascii.ascii_of_nat 61.
Definition slash_char : ascii := Ascii.ascii_of_nat 47.

(** The characters of markup do not occur in escaped text. *)
Definition markup (x : ascii) : Prop := x = lt_char ∨ x = gt_char ∨ x = quote_char.

Lemma default_entity_lacks x c : markup x → has_char x (default (one c) (entity c)) = false.
Proof. intros [->|[->| ->]]; destruct c as [[] [] [] [] [] [] [] []]; reflexivity. Qed.

Lemma cont_not_markup x c : markup x → cont c = true → Ascii.eqb c x = false.
Proof.
  intros Hx Hc%cont_facts. destruct (Ascii.eqb_spec c x) as [->|]; [|done].
  by destruct Hx as [->|[->| ->]].
Qed.

Lemma runes_lack x st s :
  markup x → st_ok st s → has_char x (runes (λ c, default (one c) (entity c)) st s) = false.
Proof.
  intros Hx. revert st. induction s as [|c s IH]; intros st Hst; [done|].
  assert (has_char x (let '(ok, w) := rune c s in
      if ok then default (one c) (entity c) +:+ runes (λ c, default (one c) (entity c)) (Copy (w - 1)) s
      else replacement +:+ runes (λ c, default (one c) (entity c)) (Drop (w - 1)) s) = false) as H0.
  { destruct (rune c s) as [[|] w] eqn:Er; rewrite has_char_app.
    - rewrite default_entity_lacks, IH; [done|by eapply rune_ok|done].
    - rewrite IH by done. by destruct Hx as [->|[->| ->]]. }
  destruct st as [[|n]|[|n]]; cbn [runes]; [exact H0| |exact H0|by apply IH].
  cbn [has_char]. rewrite cont_not_markup; [|done|apply (Hst 0); [lia|done]]. rewrite IH; [done|].
  intros k y Hk Hy. apply (Hst (S k)); [lia|done].
Qed.

Lemma escape_lacks x s : markup x → has_char x (escape s) = false.
Proof. intros Hx. apply runes_lack; [done|]. intros k c Hk. lia. Qed.

Lemma escape_nil s : escape s = ""%string → s = ""%string.
Proof.
  destruct s as [|c s]; [done|]. unfold escape. cbn [runes]. destruct (rune c s) as [[|] w]; [|done].
  unfold one, entity. by repeat destr_match.
Qed.

(** ** Documents *)

Inductive xml :=
| Elem (name : string) (attrs : list (string * string)) (children : list xml)
| Text (s : string).

Lemma xml_induction (P : xml → Prop) :
  (∀ s, P (Text s)) → (∀ n a cs, Forall P cs → P (Elem n a cs)) → ∀ t, P t.
Proof.
  intros Ht He. fix IH 1. intros [n a cs|s]; [|done]. apply He.
  induction cs as [|c cs IHcs]; constructor; [apply IH|done].
Qed.

Definition render_attr (a : string * string) : string :=
  " " +:+ a.1 +:+ "=" +:+ dquote +:+ escape a.2 +:+ dquote.

Definition cat (l : list string) : string := foldr String.append EmptyString l.

(** An element without content is written with both tags. *)
Fixpoint render (t : xml) : string :=
  match t with
  | Text s => escape s
  | Elem n a cs =>
      "<" +:+ n +:+ cat (map render_attr a) +:+ ">" +:+
      cat (map render cs) +:+ "</" +:+ n +:+ ">"
  end.

(** ** A reader *)

Inductive token := TOpen (n : string) (a : list (string * string)) | TClose (n : string) | TChars (s : string).

Fixpoint read_attrs (fuel : nat) (s : string) : option (list (string * string)) :=
  match fuel, s with
  | _, EmptyString => Some []
  | O, _ => None
  | S fuel, String x s1 =>
      if Ascii.eqb x space_char then
        match break_at eq_char s1 with
        | Some (k, String q s2) =>
            if Ascii.eqb q quote_char then
              match break_at quote_char s2 with
              | Some (v, s3) => cons (k, unescape 0 v) <$> read_attrs fuel s3
              | None => None
              end
            else None
        | _ => None
        end
      else None
  end.

(** The name of a tag and its attributes. *)
Fixpoint name_of (s : string) : string * string :=
  match s with
  | EmptyString => (EmptyString, EmptyString)
  | String x s' => if Ascii.eqb x space_char then (EmptyString, s) else let '(n, r) := name_of s' in (String x n, r)
  end.

Definition read_tag (body : string) : option token :=
  match body with
  | String x n => if Ascii.eqb x slash_char then Some (TClose n)
                  else let '(n, r) := name_of body in TOpen n <$> read_attrs (String.length r) r
  | EmptyString => None
  end.

(** The text up to the next tag. *)
Fixpoint text_of (s : string) : string * string :=
  match s with
  | EmptyString => (EmptyString, EmptyString)
  | String x s' => if Ascii.eqb x lt_char then (EmptyString, s) else let '(n, r) := text_of s' in (String x n, r)
  end.

Fixpoint tokens (fuel : nat) (s : string) : option (list token) :=
  match fuel, s with
  | _, EmptyString => Some []
  | O, _ => None
  | S fuel, String x s1 =>
      if Ascii.eqb x lt_char then
        match break_at gt_char s1 with
        | Some (body, rest) =>
            match read_tag body with
            | Some t => cons t <$> tokens fuel rest
            | None => None
            end
        | None => None
        end
      else let '(txt, rest) := text_of s in cons (TChars (unescape 0 txt)) <$> tokens fuel rest
  end.

(** The elements that are open, the innermost first. *)
Fixpoint build (l : list token) (stack : list (string * list (string * string) * list xml)) : option xml :=
  match l, stack with
  | TOpen n a :: l', _ => build l' ((n, a, []) :: stack)
  | TChars s :: l', (n, a, cs) :: st => build l' ((n, a, cs ++ [Text s]) :: st)
  | TClose n :: l', (m, a, cs) :: st =>
      if String.eqb n m then
        match st, l' with
        | [], [] => Some (Elem n a cs)
        | [], _ => None
        | (k, b, ds) :: st', _ => build l' ((k, b, ds ++ [Elem n a cs]) :: st')
        end
      else None
  | _, _ => None
  end.

Definition parse (s : string) : option xml :=
  match tokens (String.length s) s with Some l => build l [] | None => None end.

(** ** Reading what was written *)

(** Names of elements and attributes: not empty, without the characters of
    markup. *)
Definition name_ok (n : string) : bool :=
  negb (String.eqb n "") &&
  forallb (λ x, negb (has_char x n)) [lt_char; gt_char; space_char; eq_char; slash_char; quote_char].

Definition is_elem (t : xml) : bool := match t with Elem _ _ _ => true | Text _ => false end.

(** Names are names, and a text is the only child. *)
Fixpoint ok_xml (t : xml) : bool :=
  match t with
  | Text s => negb (String.eqb s "")
  | Elem n a cs =>
      name_ok n && forallb (λ kv, name_ok kv.1) a &&
      (match cs with [Text _] => true | _ => forallb is_elem cs end) && forallb ok_xml cs
  end.

(** The document with the text that survives the escaping. *)
Definition clean_attrs (a : list (string * string)) : list (string * string) :=
  map (λ kv, (kv.1, sanitize kv.2)) a.
Fixpoint clean (t : xml) : xml :=
  match t with
  | Text s => Text (sanitize s)
  | Elem n a cs => Elem n (clean_attrs a) (map clean cs)
  end.

Fixpoint flatten (t : xml) : list token :=
  match t with
  | Text s => [TChars (sanitize s)]
  | Elem n a cs => TOpen n (clean_attrs a) :: concat (map flatten cs) ++ [TClose n]
  end.

Lemma name_ok_lacks n x :
  name_ok n = true → x ∈ [lt_char; gt_char; space_char; eq_char; slash_char; quote_char] → has_char x n = false.
Proof.
  unfold name_ok. rewrite andb_true_iff, forallb_forall. intros [_ H] Hx%list_elem_of_In.
  by apply negb_true_iff, H.
Qed.

Ltac lacks := match goal with
  | H : name_ok ?n = true |- has_char _ ?n = false => apply (name_ok_lacks _ _ H); set_solver
  end.

Lemma render_attr_cons k v r :
  render_attr (k, v) +:+ r =
  String space_char (k +:+ String eq_char (String quote_char (escape v +:+ String quote_char r))).
Proof.
  unfold render_attr, dquote. cbn [fst snd]. rewrite !str_app_assoc. reflexivity.
Qed.

Lemma read_attrs_render a f :
  forallb (λ kv, name_ok kv.1) a = true → length a ≤ f →
  read_attrs f (cat (map render_attr a)) = Some (clean_attrs a).
Proof.
  revert f. induction a as [|[k v] a IH]; intros f Ha Hf; [by destruct f|].
  cbn [forallb] in Ha. apply andb_true_iff in Ha as [Hk Ha]. cbn [fst] in Hk.
  destruct f as [|f]; [cbn in Hf; lia|]. cbn [length] in Hf.
  change (cat (map render_attr ((k, v) :: a))) with (render_attr (k, v) +:+ cat (map render_attr a)).
  rewrite render_attr_cons. cbn [read_attrs]. rewrite Ascii.eqb_refl, break_at_app by lacks.
  rewrite Ascii.eqb_refl, break_at_app by (apply escape_lacks; unfold markup; auto).
  rewrite IH by (done || lia). by rewrite unescape_escape.
Qed.

Lemma name_of_app n r :
  name_ok n = true → (r = ""%string ∨ ∃ r', r = String space_char r') → name_of (n +:+ r) = (n, r).
Proof.
  intros Hn Hr. assert (has_char space_char n = false) as Hs by lacks. clear Hn.
  induction n as [|x n IH].
  - rewrite str_app_nil_l. destruct Hr as [->|[r' ->]]; [done|]. cbn. by rewrite Ascii.eqb_refl.
  - cbn in Hs. apply orb_false_iff in Hs as [Hx Hs]. rewrite str_app_cons. cbn. by rewrite Hx, IH.
Qed.

Lemma render_attrs_shape a :
  let r := cat (map render_attr a) in r = ""%string ∨ ∃ r', r = String space_char r'.
Proof.
  destruct a as [|[k v] a]; [by left|right]. cbn zeta. cbn [map cat foldr].
  change (foldr String.append "" (map render_attr a)) with (cat (map render_attr a)).
  rewrite render_attr_cons. by eexists.
Qed.

Lemma render_attrs_length a : length a ≤ String.length (cat (map render_attr a)).
Proof.
  induction a as [|[k v] a IH]; [done|]. change (cat (map render_attr ((k, v) :: a))) with
    (render_attr (k, v) +:+ cat (map render_attr a)). rewrite render_attr_cons. cbn [length String.length].
  rewrite str_length_app. cbn [String.length]. rewrite str_length_app. cbn [String.length]. lia.
Qed.

Lemma render_attrs_no_gt a :
  forallb (λ kv, name_ok kv.1) a = true → has_char gt_char (cat (map render_attr a)) = false.
Proof.
  induction a as [|[k v] a IH]; [done|]. cbn [forallb]. intros [Hk Ha]%andb_true_iff. cbn [fst] in Hk.
  change (cat (map render_attr ((k, v) :: a))) with (render_attr (k, v) +:+ cat (map render_attr a)).
  rewrite render_attr_cons. cbn [has_char]. rewrite has_char_app. cbn [has_char]. rewrite has_char_app.
  cbn [has_char]. rewrite IH by done. rewrite (escape_lacks gt_char v) by (unfold markup; auto).
  rewrite (name_ok_lacks k gt_char Hk) by set_solver. reflexivity.
Qed.

Lemma tokens_open f n a r :
  name_ok n = true → forallb (λ kv, name_ok kv.1) a = true →
  tokens (S f) ("<" +:+ n +:+ cat (map render_attr a) +:+ ">" +:+ r) =
  cons (TOpen n (clean_attrs a)) <$> tokens f r.
Proof.
  intros Hn Ha. change ("<" +:+ n +:+ cat (map render_attr a) +:+ ">" +:+ r) with
    (String lt_char (n +:+ cat (map render_attr a) +:+ String gt_char r)).
  cbn [tokens]. rewrite Ascii.eqb_refl, <- str_app_assoc, break_at_app.
  2: { rewrite has_char_app, render_attrs_no_gt by done. rewrite (name_ok_lacks n gt_char Hn); [done|set_solver]. }
  assert (read_tag (n +:+ cat (map render_attr a)) = Some (TOpen n (clean_attrs a))) as ->; [|done].
  pose proof (name_of_app n _ Hn (render_attrs_shape a)) as Hname.
  pose proof (name_ok_lacks n slash_char Hn ltac:(set_solver)) as Hs.
  destruct n as [|x n]; [done|]. rewrite str_app_cons in *. cbn in Hs. apply orb_false_iff in Hs as [Hx _].
  unfold read_tag. rewrite Hx, Hname. by rewrite read_attrs_render by (done || apply render_attrs_length).
Qed.

Lemma tokens_close f n r :
  name_ok n = true → tokens (S f) ("</" +:+ n +:+ ">" +:+ r) = cons (TClose n) <$> tokens f r.
Proof.
  intros Hn. change ("</" +:+ n +:+ ">" +:+ r) with (String lt_char (String slash_char n +:+ String gt_char r)).
  cbn [tokens]. rewrite Ascii.eqb_refl, break_at_app; [done|].
  cbn [has_char]. by rewrite (name_ok_lacks n gt_char Hn) by set_solver.
Qed.

(** What follows a text: a tag. *)
Definition at_tag (r : string) : Prop := ∃ r', r = String lt_char r'.

Lemma text_of_app s r : has_char lt_char s = false → at_tag r → text_of (s +:+ r) = (s, r).
Proof.
  intros Hs [r' ->]. induction s as [|x s IH]; [done|].
  cbn in Hs. apply orb_false_iff in Hs as [Hx Hs]. rewrite str_app_cons. cbn. by rewrite Hx, IH.
Qed.

Lemma tokens_text f s r :
  s ≠ ""%string → at_tag r →
  tokens (S f) (escape s +:+ r) = cons (TChars (sanitize s)) <$> tokens f r.
Proof.
  intros Hs Hr. pose proof (escape_lacks lt_char s ltac:(unfold markup; auto)) as Hl.
  pose proof (text_of_app _ _ Hl Hr) as Ht. pose proof (unescape_escape s) as Hu.
  destruct (escape s) as [|x e] eqn:E; [by apply escape_nil in E|].
  cbn in Hl. apply orb_false_iff in Hl as [Hx _]. rewrite str_app_cons in *. cbn [tokens].
  by rewrite Hx, Ht, Hu.
Qed.

Definition child_ok (cs : list xml) : bool := match cs with [Text _] => true | _ => forallb is_elem cs end.

Definition reads (t : xml) : Prop := ∀ f r, is_elem t = true ∨ at_tag r →
  tokens (length (flatten t) + f) (render t +:+ r) = app (flatten t) <$> tokens f r.

Lemma at_tag_render c r : is_elem c = true → at_tag (render c +:+ r).
Proof. destruct c as [n a cs|s]; [|done]. intros _. eexists. reflexivity. Qed.

Lemma fmap_app_some {A} (l1 l2 : list A) (o : option (list A)) :
  app l1 <$> (app l2 <$> o) = app (l1 ++ l2) <$> o.
Proof. destruct o; [|done]. cbn. by rewrite app_assoc. Qed.

Lemma tokens_children cs f r :
  Forall reads cs → child_ok cs = true → at_tag r →
  tokens (length (concat (map flatten cs)) + f) (cat (map render cs) +:+ r) =
  app (concat (map flatten cs)) <$> tokens f r.
Proof.
  intros Hcs Hok Hr.
  assert (forallb is_elem cs = true ∨ ∃ s, cs = [Text s]) as [He|[s ->]].
  { destruct cs as [|[|s] [|]]; eauto. }
  - clear Hok. induction Hcs as [|c cs Hc _ IH]; [change (tokens f r = app [] <$> tokens f r); by destruct (tokens f r)|].
    cbn [forallb] in He. apply andb_true_iff in He as [Hec He].
    cbn [map concat]. change (cat (render c :: map render cs)) with (render c +:+ cat (map render cs)).
    rewrite length_app, <- Nat.add_assoc, str_app_assoc, Hc, IH by auto. apply fmap_app_some.
  - inversion Hcs as [|? ? Hc _]. specialize (Hc f r (or_intror Hr)).
    cbn [map concat flatten app] in *. change (cat [render (Text s)]) with (render (Text s) +:+ "").
    rewrite str_app_nil_r. exact Hc.
Qed.

Lemma tokens_render t : ok_xml t = true → reads t.
Proof.
  induction t as [s|n a cs IH] using xml_induction; intros Hok f r Hr.
  - destruct Hr as [Hr|Hr]; [done|]. cbn in Hok. apply negb_true_iff, String.eqb_neq in Hok.
    cbn [flatten length render Nat.add]. by rewrite tokens_text.
  - cbn [ok_xml] in Hok. rewrite !andb_true_iff in Hok. destruct Hok as [[[Hn Ha] Hc] Hcs].
    assert (Forall reads cs) as Hreads.
    { rewrite forallb_forall in Hcs. rewrite Forall_forall in IH |- *. intros c Hin.
      apply IH; [done|]. by apply Hcs, list_elem_of_In. }
    cbn [flatten length render]. rewrite length_app, !str_app_assoc. cbn [length Nat.add].
    rewrite tokens_open by done.
    change ("</" +:+ n +:+ ">" +:+ r) with (String lt_char (String slash_char n +:+ ">" +:+ r)).
    rewrite <- Nat.add_assoc, tokens_children; [|done|exact Hc|by eexists].
    change (String lt_char (String slash_char n +:+ ">" +:+ r)) with ("</" +:+ n +:+ ">" +:+ r).
    cbn [Nat.add]. rewrite tokens_close by done. destruct (tokens f r) as [l|]; [|done].
    cbn. by rewrite <- app_assoc.
Qed.

Lemma flatten_length t : ok_xml t = true → length (flatten t) ≤ String.length (render t).
Proof.
  induction t as [s|n a cs IH] using xml_induction; intros Hok.
  - cbn in Hok. apply negb_true_iff, String.eqb_neq in Hok. cbn [flatten length render].
    destruct (escape s) eqn:E; [by apply escape_nil in E|]. cbn. lia.
  - cbn [ok_xml] in Hok. rewrite !andb_true_iff in Hok. destruct Hok as [_ Hcs].
    assert (length (concat (map flatten cs)) ≤ String.length (cat (map render cs))) as Hl.
    { induction IH as [|c cs Hc _ IHcs]; [done|]. cbn [forallb] in Hcs. apply andb_true_iff in Hcs as [H1 H2].
      cbn [map concat]. change (cat (render c :: map render cs)) with (render c +:+ cat (map render cs)).
      rewrite length_app, str_length_app. specialize (Hc H1). specialize (IHcs H2). lia. }
    cbn [flatten length render]. rewrite length_app. cbn [length].
    rewrite !str_length_app. cbn [String.length]. lia.
Qed.

Lemma build_flatten t l k b ds st :
  build (flatten t ++ l) ((k, b, ds) :: st) = build l ((k, b, ds ++ [clean t]) :: st).
Proof.
  revert l k b ds st. induction t as [s|n a cs IH] using xml_induction; intros l k b ds st; [done|].
  assert (∀ acc l' st', build (concat (map flatten cs) ++ l') ((n, clean_attrs a, acc) :: st') =
    build l' ((n, clean_attrs a, acc ++ map clean cs) :: st')) as Hcs.
  { induction IH as [|c cs Hc _ IHcs]; intros acc l' st'; [cbn; by rewrite app_nil_r|].
    cbn [map concat]. by rewrite <- app_assoc, Hc, IHcs, <- app_assoc. }
  cbn [flatten app build]. rewrite <- app_assoc, Hcs. cbn [app build]. by rewrite String.eqb_refl.
Qed.

(** A document is read back as it was written, up to what escaping drops. *)
Lemma parse_render n a cs : ok_xml (Elem n a cs) = true → parse (render (Elem n a cs)) = Some (clean (Elem n a cs)).
Proof.
  intros Hok. set (t := Elem n a cs) in *. pose proof (flatten_length t Hok) as Hl.
  pose proof (tokens_render t Hok (String.length (render t) - length (flatten t)) "" (or_introl eq_refl)) as Ht.
  rewrite str_app_nil_r in Ht. unfold parse. replace (String.length (render t)) with
    (length (flatten t) + (String.length (render t) - length (flatten t))) by lia.
  rewrite Ht. replace (tokens _ "") with (Some ([] : list token)) by (by destruct (_ - _)).
  cbn [fmap option_fmap option_map]. rewrite app_nil_r. subst t. cbn [flatten build].
  assert (∀ acc l, build (concat (map flatten cs) ++ l) [(n, clean_attrs a, acc)] =
    build l [(n, clean_attrs a, acc ++ map clean cs)]) as Hcs.
  { clear. induction cs as [|c cs IHcs]; intros acc l; [cbn; by rewrite app_nil_r|].
    cbn [map concat]. by rewrite <- app_assoc, build_flatten, IHcs, <- app_assoc. }
  rewrite Hcs. cbn [app build]. by rewrite String.eqb_refl.
Qed.

(** ** The report *)

Section Report.
Variable seconds : duration → string.   (* [strconv.FormatFloat] of [d.Seconds()] *)

(** [omitempty] *)
Definition attr_if (k v : string) : list (string * string) := if String.eqb v "" then [] else [(k, v)].
Definition text (s : string) : list xml := if String.eqb s "" then [] else [Text s].
Definition elem_if (n v : string) : list xml := if String.eqb v "" then [] else [Elem n [] [Text v]].

(* src: pkg/test/ginkgo/junit.go 90-96 SkipMessage *)
Definition xml_of_skip (message : string) : xml := Elem "skipped" (attr_if "message" message) [].

(* src: pkg/test/ginkgo/junit.go 98-107 FailureOutput *)
Definition xml_of_failure (f : string * string) : xml := Elem "failure" [("message"%string, f.1)] (text f.2).

(* src: pkg/test/ginkgo/junit.go 64-88 JUnitTestCase (XML) *)
Definition xml_of_case (c : JUnitTestCase) : xml :=
  Elem "testcase"
    ([("name"%string, JName c)] ++ attr_if "classname" (Classname c) ++ [("time"%string, seconds (JDuration c))])
    (match SkipMessage c with Some m => [xml_of_skip m] | None => [] end ++
     match FailureOutput c with Some f => [xml_of_failure f] | None => [] end ++
     elem_if "system-out" (SystemOut c) ++ elem_if "system-err" (SystemErr c)).

(** The properties and the children of a suite are never set. *)
(* src: pkg/test/ginkgo/junit.go 27-54 JUnitTestSuite (XML) *)
Definition xml_of_suite (s : JUnitTestSuite) : xml :=
  Elem "testsuite"
    [("name", JSuiteName s); ("tests", itoa (Z.of_nat (NumTests s))); ("skipped", itoa (Z.of_nat (NumSkipped s)));
     ("failures", itoa (Z.of_nat (NumFailed s))); ("time", seconds (JSuiteDuration s))]%string
    (map xml_of_case (TestCases s)).

(* src: pkg/test/ginkgo/junit.go 56-62 TestSuiteProperty *)
Definition xml_of_property (name value : string) : xml :=
  Elem "property" [("name"%string, name); ("value"%string, value)] [].

(** A collection of suites, which the driver declares and does not write. *)
(* src: pkg/test/ginkgo/junit.go 19-25 JUnitTestSuites *)
Definition xml_of_suites (suites : list JUnitTestSuite) : xml := Elem "testsuites" [] (map xml_of_suite suites).

(* src: pkg/test/ginkgo/junit.go 109-116 TestResult *)
Inductive TestResult := TestResultPass | TestResultSkip | TestResultFail.
Definition TestResult_String (r : TestResult) : string :=
  match r with TestResultPass => "pass" | TestResultSkip => "skip" | TestResultFail => "fail" end.

(** [xml.Marshal(s)] *)
(* src: pkg/test/ginkgo/junit.go 164-171 writeJUnitReport (file) *)
Definition Marshal (s : JUnitTestSuite) : string := render (xml_of_suite s).

(** ** What a consumer of the file sees *)

Definition attr_of (k : string) (a : list (string * string)) : option string :=
  snd <$> find_first (λ kv, String.eqb kv.1 k) a.
Definition elem_name (t : xml) : option string := match t with Elem n _ _ => Some n | Text _ => None end.

(** The name of a test case and the elements it has. *)
Definition case_of (t : xml) : option (option string * list string) :=
  match t with
  | Elem n a cs => if String.eqb n "testcase" then Some (attr_of "name" a, omap elem_name cs) else None
  | Text _ => None
  end.
Definition cases_of (doc : xml) : list (option string * list string) :=
  match doc with Elem _ _ cs => omap case_of cs | Text _ => [] end.

(** Skipped, failed, and whether there is output. *)
Definition parts (c : JUnitTestCase) : list string :=
  (if SkipMessage c then ["skipped"%string] else []) ++ (if FailureOutput c then ["failure"%string] else []) ++
  (if String.eqb (SystemOut c) "" then [] else ["system-out"%string]) ++
  (if String.eqb (SystemErr c) "" then [] else ["system-err"%string]).

Lemma ok_case c : ok_xml (xml_of_case c) = true.
Proof.
  unfold xml_of_case, xml_of_skip, xml_of_failure, attr_if, elem_if, text. cbn [ok_xml].
  destruct (SkipMessage c) as [m|], (FailureOutput c) as [[m' o]|];
    destruct (Classname c), (SystemOut c), (SystemErr c); cbn [fst snd];
    try destruct m; try destruct o; reflexivity.
Qed.

Lemma ok_suite s : ok_xml (xml_of_suite s) = true.
Proof.
  unfold xml_of_suite. cbn [ok_xml]. rewrite !andb_true_iff. split; [split; [by vm_compute|]|].
  - assert (forallb is_elem (map xml_of_case (TestCases s)) = true) as H
      by (induction (TestCases s) as [|c l IH]; [done|exact IH]).
    by destruct (TestCases s) as [|c [|]].
  - induction (TestCases s) as [|c l IH]; [done|]. cbn [map forallb]. by rewrite ok_case.
Qed.

(** A collection is well formed and read back too. *)
Lemma suites_read_back l : parse (render (xml_of_suites l)) = Some (clean (xml_of_suites l)).
Proof.
  apply parse_render. cbn [ok_xml]. rewrite !andb_true_iff. split; [split; [by vm_compute|]|].
  - assert (forallb is_elem (map xml_of_suite l) = true) as H by (induction l as [|s l IH]; [done|exact IH]).
    by destruct l as [|s [|]].
  - induction l as [|s l IH]; [done|]. cbn [map forallb]. by rewrite ok_suite.
Qed.

Lemma case_of_clean c : case_of (clean (xml_of_case c)) = Some (Some (sanitize (JName c)), parts c).
Proof.
  unfold xml_of_case, parts, attr_if, elem_if. cbn [clean case_of]. rewrite String.eqb_refl. f_equal.
  destruct (SkipMessage c) as [m|], (FailureOutput c) as [f|], (String.eqb (SystemOut c) ""),
    (String.eqb (SystemErr c) ""), (String.eqb (Classname c) ""); reflexivity.
Qed.

(** C13: the report file is well formed whatever the outputs of the tests
    contain, and a reader gets back the report as it was, every text with the
    bytes XML cannot hold replaced: the test cases in order, with their names
    and whether they were skipped, failed or had output. *)
Theorem report_read_back s :
  parse (Marshal s) = Some (clean (xml_of_suite s)) ∧
  cases_of (clean (xml_of_suite s)) = map (λ c, (Some (sanitize (JName c)), parts c)) (TestCases s).
Proof.
  split; [apply parse_render, ok_suite|]. cbn [xml_of_suite clean cases_of].
  induction (TestCases s) as [|c l IH]; [done|]. cbn [map omap list_omap]. rewrite case_of_clean. by rewrite <- IH.
Qed.
End Report.

(** ** Text that survives *)

(** Printable ASCII, tab, newline and carriage return. *)
Definition plain_char (c : ascii) : bool :=
  let b := byte_of c in within 32 126 b || (b =? 9)%N || (b =? 10)%N || (b =? 13)%N.
Fixpoint plain (s : string) : bool :=
  match s with EmptyString => true | String c s' => plain_char c && plain s' end.

Lemma sanitize_plain s : plain s = true → sanitize s = s.
Proof.
  unfold sanitize. induction s as [|c s IH]; [done|]. cbn [plain]. intros [Hc Hs]%andb_true_iff.
  cbn [runes]. assert (rune c s = (true, 1)) as Hr.
  { unfold rune, plain_char, within in *. rewrite !orb_true_iff, andb_true_iff, !N.leb_le, !N.eqb_eq in Hc.
    destruct (N.ltb_spec (byte_of c) 128); [|lia]. f_equal.
    rewrite !orb_true_iff, !N.eqb_eq, N.leb_le. lia. }
  cbn [runes]. rewrite Hr. change (String c (runes one (Copy 0) s) = String c s). by rewrite IH.
Qed.

(** The colours of a terminal do not survive, a two-byte rune does. *)
Example sanitize_examples :
  sanitize (String (Ascii.ascii_of_nat 27) "[31m") = replacement +:+ "[31m" ∧
  sanitize (String (Ascii.ascii_of_nat 195) (String (Ascii.ascii_of_nat 169) "")) =
    String (Ascii.ascii_of_nat 195) (String (Ascii.ascii_of_nat 169) "").
Proof. split; reflexivity. Qed.

Example Marshal_example :
  Marshal (λ _, "1"%string)
    (mkJSuite "e2e" 1 0 1 0 [mkJCase "a < b" "" 0 None (Some (""%string, "fail [x]"%string)) "" ""]) =
  ("<testsuite name=" +:+ dquote +:+ "e2e" +:+ dquote +:+ " tests=" +:+ dquote +:+ "1" +:+ dquote +:+
   " skipped=" +:+ dquote +:+ "0" +:+ dquote +:+ " failures=" +:+ dquote +:+ "1" +:+ dquote +:+
   " time=" +:+ dquote +:+ "1" +:+ dquote +:+ "><testcase name=" +:+ dquote +:+ "a &lt; b" +:+ dquote +:+
   " time=" +:+ dquote +:+ "1" +:+ dquote +:+ "><failure message=" +:+ dquote +:+ dquote +:+
   ">fail [x]</failure></testcase></testsuite>")%string.
Proof. vm_compute. reflexivity. Qed.
