(* ===== verification/Status.v ===== *)
(** * pkg/test/ginkgo/status.go and cmd_runtest.go: one test, parent and child

    The parent runs each test in a child process ([run-test NAME]) and
    classifies its exit status; the child runs the spec and turns the ginkgo
    summary into an exit status.  The child process is a value: its output and
    the error of [CombinedOutput]. *)

From S2P Require Import Prelude.
From S2P Require Import GoStrings.
From S2P Require Import GoLib.
From S2P Require Import MonitorTypes.
From S2P Require Import TestCase.
From S2P Require Import Junit.

(** ** The parent *)

(** What the test writes to [s.out] is appended to [st_out]. *)
(* src: pkg/test/ginkgo/status.go 19-31 testStatus *)
Record testStatus := mkStatus {
  st_out : string;
  timeout : duration;
  monitor : option (time → time → list EventInterval);
  env : list string;
  includeSuccessfulOutput : bool;
  failures : Z;
  index : Z;
  total : Z
}.

(* src: pkg/test/ginkgo/status.go 33-43 newTestStatus *)
Definition newTestStatus (o : string) (include : bool) (tot : Z) (tmo : duration)
    (m : option (time → time → list EventInterval)) (testEnv : list string) : testStatus :=
  mkStatus o tmo m testEnv include 0 0 tot.

Definition with_out (o : string) (s : testStatus) : testStatus :=
  mkStatus o (timeout s) (monitor s) (env s) (includeSuccessfulOutput s)
    (failures s) (index s) (total s).
Definition write (x : string) (s : testStatus) : testStatus := with_out (st_out s +:+ x) s.
Definition writeln (x : string) (s : testStatus) : testStatus := write (x +:+ nl) s.

(* src: pkg/test/ginkgo/status.go 45-49 testStatus.Failure *)
Definition Failure_ (s : testStatus) : testStatus :=
  mkStatus (st_out s) (timeout s) (monitor s) (env s) (includeSuccessfulOutput s)
    (failures s + 1) (index s) (total s).

(* src: pkg/test/ginkgo/status.go 51-58 testStatus.Fprintf *)
Definition Fprintf_status (format : string) (s : testStatus) : testStatus :=
  let i := if (index s <? total s)%Z then (index s + 1)%Z else index s in
  let s := mkStatus (st_out s) (timeout s) (monitor s) (env s) (includeSuccessfulOutput s)
             (failures s) i (total s) in
  write (Sprintf_ints format [failures s; index s; total s]) s.

(** [os_args0] is [os.Args[0]].  An entry of the environment without an equal
    sign has no second part. *)
(* src: pkg/test/ginkgo/status.go 61-69 testStatus.OutputCommand *)
Definition OutputCommand (os_args0 : string) (t : testCase) (s : testStatus)
  : outcome testStatus :=
  let fix vars l : option string :=
    match l with
    | [] => Some ""
    | e :: l' =>
        match SplitN2 (Ascii.ascii_of_nat 61) e with
        | [k; v] => (String.append (k +:+ "=" +:+ Quote v +:+ " ")) <$> vars l'
        | _ => None
        end
    end in
  match vars (env s) with
  | Some buf => Ret (writeln (buf +:+ os_args0 +:+ " run-test " +:+ Quote (name t)) s)
  | None => Panic "index out of range"
  end.

Inductive Signal := SIGINT | SIGABRT.

(** The signals sent to the child started at time 0, when the context is done
    at [cancel] (if ever, and not at the very instant of the timeout). *)
(* src: pkg/test/ginkgo/test.go 148-174 runWithTimeout *)
Definition runWithTimeout (cancel : option time) (tmo : duration) : list (time * Signal) :=
  if (0 <? tmo)%Z then
    match cancel with
    | Some c => if (c <? tmo)%Z then [(c, SIGINT)]
                else [(tmo, SIGINT); ((tmo + Minute)%Z, SIGABRT)]
    | None => [(tmo, SIGINT); ((tmo + Minute)%Z, SIGABRT)]
    end
  else [].

Inductive cmd_error := CmdOk | CmdExit (status : Z) | CmdOther (msg : string).

Definition set_result (st en : time) (d : duration) (o : string) (t : testCase) : testCase :=
  mkTest (name t) (spec t) (location t) (testExclusion t) st en d o
    (success t) (failed t) (skipped t) (previous t).
Definition set_success (t : testCase) : testCase :=
  mkTest (name t) (spec t) (location t) (testExclusion t) (tc_start t) (tc_end t)
    (tc_duration t) (out t) true (failed t) (skipped t) (previous t).
Definition set_failed (t : testCase) : testCase :=
  mkTest (name t) (spec t) (location t) (testExclusion t) (tc_start t) (tc_end t)
    (tc_duration t) (out t) (success t) true (skipped t) (previous t).
Definition set_skipped (t : testCase) : testCase :=
  mkTest (name t) (spec t) (location t) (testExclusion t) (tc_start t) (tc_end t)
    (tc_duration t) (out t) (success t) (failed t) true (previous t).

(** The switch on the exit status. *)
(* src: pkg/test/ginkgo/status.go 123-143 testStatus.Run (exit status) *)
Definition classify (err : cmd_error) (t : testCase) : testCase :=
  match err with
  | CmdOk => set_success t
  | CmdExit z =>
      if (z =? 1)%Z then set_failed t
      else if (z =? 2)%Z then set_failed t
      else if (z =? 3)%Z then set_skipped t
      else set_failed t
  | CmdOther _ => set_failed t
  end.

Definition verdict_line (v : string) (t : testCase) : string :=
  v +:+ ": (" +:+ Duration_String (tc_duration t) +:+ ") " +:+ FormatISO (tc_end t) +:+ " " +:+
  Quote (name t) +:+ nl +:+ nl.

(** The deferred function: what is printed once the flags are set. *)
(* src: pkg/test/ginkgo/status.go 72-108 testStatus.Run (deferred) *)
Definition report_end (t : testCase) (s : testStatus) : testStatus :=
  if success t then
    let s := if includeSuccessfulOutput s then writeln "" (write (out t) s) else s in
    write (verdict_line "passed" t) s
  else if skipped t then
    let s :=
      if includeSuccessfulOutput s then writeln "" (write (out t) s)
      else let message := lastLinesUntil (out t) 100 ["skip ["] in
           if Nat.ltb 0 (String.length message) then writeln "" (writeln message s) else s in
    write (verdict_line "skipped" t) s
  else if failed t then
    let s := writeln "" (write (out t) s) in
    let s :=
      match monitor s with
      | Some events_of =>
          if (2 <? total s)%Z then
            match events_of (tc_start t) (tc_end t) with
            | [] => s
            | evs => writeln "" (fold_left (λ s e, writeln (EventInterval_String e) s) evs s)
            end
          else s
      | None => s
      end in
    Failure_ (write (verdict_line "failed" t) s)
  else s.

Definition rounded (d : duration) : duration :=
  let d := Round d (Second / 10)%Z in
  if (Minute <? d)%Z then Round d Second else d.

(** [st], [en]: the instants before and after the child [res] ran. *)
(* src: pkg/test/ginkgo/status.go 71-144 testStatus.Run *)
Definition Run_test (st en : time) (res : string * cmd_error) (t : testCase) (s : testStatus)
  : testCase * testStatus :=
  let s := Fprintf_status ("started: (%d/%d/%d) " +:+ Quote (name t) +:+ nl +:+ nl) s in
  let t := set_result st en (rounded (Sub en st)) (fst res) t in
  let t := classify (snd res) t in
  (t, report_end t s).

(* src: pkg/test/ginkgo/status.go 146-161 summarizeTests *)
Fixpoint summarizeTests (tests : list testCase) : Z * Z * Z * list testCase :=
  match tests with
  | [] => (0, 0, 0, [])%Z
  | t :: ts =>
      let '(pass, fl, skip, failing) := summarizeTests ts in
      if success t then (pass + 1, fl, skip, failing)%Z
      else if failed t then (pass, fl + 1, skip, t :: failing)%Z
      else if skipped t then (pass, fl, skip + 1, failing)%Z
      else (pass, fl, skip, failing)
  end.

Definition name_less (a b : testCase) : bool := str_lt (name a) (name b).

(** Over any implementation of [sort.Slice]. *)
(* src: pkg/test/ginkgo/status.go 163-168 sortedTests *)
Definition sortedTests (srt : list testCase → list testCase) (tests : list testCase)
  : list testCase := srt tests.

(** ** The child *)

(* src: pkg/test/ginkgo/ginkgo.go 89-91 specName *)
Definition specName (sp : SpecSummary) : option string :=
  match ComponentTexts sp with
  | [] => None
  | _ :: texts => Some (Join texts " ")
  end.

(* src: pkg/test/ginkgo/ginkgo.go 39-44 MinimalReporter *)
Record MinimalReporter := mkReporter {
  r_name : string;
  r_location : CodeLocation;
  r_spec : option SpecSummary;
  r_setup : option SetupSummary
}.

(* src: pkg/test/ginkgo/ginkgo.go 46-51 NewMinimalReporter *)
Definition NewMinimalReporter (n : string) (loc : CodeLocation) : MinimalReporter :=
  mkReporter n loc None None.

(* src: pkg/test/ginkgo/ginkgo.go 63-65 MinimalReporter.BeforeSuiteDidRun *)
Definition BeforeSuiteDidRun (setup : SetupSummary) (r : MinimalReporter) : MinimalReporter :=
  mkReporter (r_name r) (r_location r) (r_spec r) (Some setup).

(* src: pkg/test/ginkgo/ginkgo.go 70-81 MinimalReporter.SpecDidComplete *)
Definition SpecDidComplete (sp : SpecSummary) (r : MinimalReporter) : outcome MinimalReporter :=
  match last (ComponentCodeLocations sp) with
  | None => Panic "index out of range"
  | Some loc =>
      if bool_decide (loc ≠ r_location r) then Ret r
      else match specName sp with
           | None => Panic "slice bounds out of range"
           | Some n =>
               if negb (String.eqb n (r_name r)) then Ret r
               else match r_spec r with
                    | Some old =>
                        Panic ("spec was set twice: " +:+ Quote (default "" (specName old)) +:+
                               " and " +:+ Quote n)
                    | None => Ret (mkReporter (r_name r) (r_location r) (Some sp) (r_setup r))
                    end
           end
  end.

(* src: pkg/test/ginkgo/ginkgo.go 56-58 MinimalReporter.Summary *)
Definition Summary (r : MinimalReporter) : option SpecSummary * option SetupSummary :=
  (r_spec r, r_setup r).

(** What a run of the suite tells its reporter; the other four calls have an
    empty body. *)
Inductive report_event :=
| RSuiteWillBegin
| RSetup (s : SetupSummary)
| RSpecWillRun
| RSpec (s : SpecSummary)
| RAfterSuite
| RSuiteDidEnd.

(* src: pkg/test/ginkgo/ginkgo.go 60-87 MinimalReporter (calls of a run) *)
Fixpoint deliver (evs : list report_event) (r : MinimalReporter) : outcome MinimalReporter :=
  match evs with
  | [] => Ret r
  | RSetup s :: evs' => deliver evs' (BeforeSuiteDidRun s r)
  | RSpec s :: evs' =>
      match SpecDidComplete s r with
      | Ret r' => deliver evs' r'
      | x => x
      end
  | (RSuiteWillBegin | RSpecWillRun | RAfterSuite | RSuiteDidEnd) :: evs' => deliver evs' r
  end.

(* src: pkg/test/ginkgo/cmd_runtest.go 97-105 lastFilenameSegment *)
Definition lastFilenameSegment (filename : string) : string :=
  let parts := Split filename "/vendor/" in
  if Nat.ltb 1 (length parts) then default "" (last parts)
  else
    let parts := Split filename "/src/" in
    if Nat.ltb 1 (length parts) then default "" (last parts) else filename.

(** The writers of the child. *)
Record streams := mkStreams { so : string; se : string }.
Definition out_print (x : string) : go streams unit := modw (λ w, mkStreams (so w +:+ x) (se w)).
Definition err_print (x : string) : go streams unit := modw (λ w, mkStreams (so w) (se w +:+ x)).

(** [regexp.QuoteMeta(s)] *)
Definition is_meta (c : Ascii.ascii) : bool :=
  existsb (Ascii.eqb c) (String.list_ascii_of_string "\.+*?()|[]{}^$").
Fixpoint QuoteMeta (s : string) : string :=
  match s with
  | EmptyString => ""
  | String c s' => if is_meta c then String backslash_char (String c (QuoteMeta s'))
                   else String c (QuoteMeta s')
  end.

Definition at_location (kind : string) (sp : SpecSummary) : string :=
  let loc := FLocation (Failure sp) in
  kind +:+ " [" +:+ lastFilenameSegment (FileName loc) +:+ ":" +:+ itoa (LineNumber loc) +:+ "]: ".

(* src: pkg/test/ginkgo/cmd_runtest.go 15-21 ExitError, ExitError.Error *)
Definition ExitError (code : Z) : error := Err (KExit code) ("exit with code " +:+ itoa code).

Section RunTest.
(** The specs of the global suite ([iter_err] ends the iterator), its run for a
    focus expression, and Go's [%#v]. *)
Variable specs : list ginkgoSpec.
Variable iter_err : string.
Variable suite_run : string → list report_event.
Variable gosyntax : SpecSummary → string.

(** The switch on the summary. *)
Definition summary_result (summary : option SpecSummary) : go streams unit :=
  match summary with
  | None => fail (Errorf "test suite set up failed, see logs")
  | Some sp =>
      let msg := FMessage (Failure sp) in
      let panic := ForwardedPanic (Failure sp) in
      match State sp with
      | SPassed => ret tt
      | SSkipped =>
          ((if Nat.ltb 0 (String.length msg) then err_print (at_location "skip" sp +:+ msg +:+ nl)
            else ret tt) ;;!
           (if Nat.ltb 0 (String.length panic)
            then err_print (at_location "skip" sp +:+ panic +:+ nl) else ret tt) ;;!
           fail (ExitError 3))%go
      | SFailed | SPanicked =>
          if Nat.ltb 0 (String.length panic) then
            ((if Nat.ltb 0 (String.length (FullStackTrace (FLocation (Failure sp))))
              then err_print (nl +:+ FullStackTrace (FLocation (Failure sp)) +:+ nl)
              else ret tt) ;;!
             err_print (at_location "fail" sp +:+ "Test Panicked: " +:+ panic +:+ nl) ;;!
             fail (ExitError 1))%go
          else (err_print (at_location "fail" sp +:+ msg +:+ nl) ;;! fail (ExitError 1))%go
      | STimedOut | SPending | SInvalid =>
          fail (Errorf ("unrecognized test case outcome: " +:+ gosyntax sp))
      end
  end.

(** The summary of the spec, or the one made up from the set-up. *)
Definition effective_summary (r : MinimalReporter) : option SpecSummary :=
  match Summary r with
  | (None, Some setup) => Some (mkSummary [] [] (SetupState setup) (SetupFailure setup))
  | (sp, _) => sp
  end.

Definition of_outcome {W A} (o : outcome A) : go W A :=
  match o with Ret a => ret a | Fail e => fail e | Panic m => gopanic m end.

(* src: pkg/test/ginkgo/cmd_runtest.go 29-95 TestOptions.Run *)
Definition TestOptions_Run (DryRun : bool) (args : list string) : go streams unit :=
  match args with
  | [arg] =>
      (tests <-! of_outcome (testsForSuite specs iter_err) ;;
       match find_first (λ t, String.eqb (name t) arg) tests with
       | None => fail (Errorf "no test exists with that name")
       | Some test =>
           if DryRun then out_print ("Running test (dry-run)" +:+ nl)
           else
             let focus := "^" +:+ QuoteMeta (" [Top Level] " +:+ name test) +:+ "$" in
             (r <-! of_outcome (deliver (suite_run focus)
                                 (NewMinimalReporter (name test) (location test))) ;;
              summary_result (effective_summary r))%go
       end)%go
  | _ => fail (Errorf "only a single test name may be passed")
  end.
End RunTest.

(** The exit status of the process; a panic of the Go runtime exits with 2. *)
(* src: cmd/extended-platform-tests/openshift-tests.go 66-76 main *)
Definition exit_status {A} (r : outcome A) : Z :=
  match r with
  | Ret _ => 0
  | Fail e => match err_kind_of e with KExit code => code | _ => 1 end
  | Panic _ => 2
  end.

Definition cmd_error_of (status : Z) : cmd_error :=
  if (status =? 0)%Z then CmdOk else CmdExit status.

(** ** Properties *)

Lemma summary_result_status gosyntax sp w :
  exit_status (fst (summary_result gosyntax sp w)) =
  match State <$> sp with Some SPassed => 0 | Some SSkipped => 3 | _ => 1 end%Z.
Proof.
  destruct sp as [sp|]; [|done]. unfold summary_result. cbn [fmap option_fmap option_map].
  destruct (State sp); try done; unfold gobind, err_print, ret, modw, fail;
    repeat (destruct (Nat.ltb 0 _)); done.
Qed.

(** C17: the verdict the parent records is the state the child's spec ended in:
    passed, skipped, or failed for any other state and for a run without a
    summary. *)
Theorem run_test_verdict specs iter_err suite_run gosyntax n sp r w t0 st en s :
  fst (TestOptions_Run specs iter_err suite_run gosyntax false [n] w) = r →
  (∃ tests test, testsForSuite specs iter_err = Ret tests ∧
     find_first (λ t, String.eqb (name t) n) tests = Some test ∧
     ∃ rep, deliver (suite_run ("^" +:+ QuoteMeta (" [Top Level] " +:+ name test) +:+ "$"))
              (NewMinimalReporter (name test) (location test)) = Ret rep ∧
            effective_summary rep = sp) →
  success t0 = false → failed t0 = false → skipped t0 = false →
  let t := fst (Run_test st en ("", cmd_error_of (exit_status r)) t0 s) in
  (success t, skipped t, failed t) =
    match State <$> sp with
    | Some SPassed => (true, false, false)
    | Some SSkipped => (false, true, false)
    | _ => (false, false, true)
    end.
Proof.
  intros Hr (tests & test & Ht & Hf & rep & Hd & Hs) H1 H2 H3.
  assert (exit_status r =
          match State <$> sp with Some SPassed => 0 | Some SSkipped => 3 | _ => 1 end%Z) as ->.
  { rewrite <- Hr, <- Hs, <- (summary_result_status gosyntax _ w). unfold TestOptions_Run.
    rewrite Ht. unfold of_outcome at 1. rewrite gobind_ret, Hf. cbn [negb].
    rewrite Hd. unfold of_outcome. by rewrite gobind_ret. }
  unfold Run_test. cbn. destruct (State <$> sp) as [[]|]; cbn; by rewrite ?H1, ?H2, ?H3.
Qed.

(** Every test is counted once by the summary, as passed before failed
    before skipped, and the failing list holds the failed ones in order. *)
Theorem summarizeTests_spec tests :
  let '(pass, fl, skip, failing) := summarizeTests tests in
  pass = Z.of_nat (count_of success tests) ∧
  failing = bfilter (λ t, negb (success t) && failed t) tests ∧
  fl = Z.of_nat (length failing) ∧
  skip = Z.of_nat (count_of (λ t, negb (success t) && negb (failed t) && skipped t) tests).
Proof.
  induction tests as [|t ts IH]; cbn; [done|].
  destruct (summarizeTests ts) as [[[pass fl] skip] failing].
  destruct IH as (-> & -> & -> & ->). unfold count_of. cbn.
  destruct (success t), (failed t), (skipped t); cbn; split_and!; try done; lia.
Qed.

Definition a_spec : ginkgoSpec := mkSpec "[Top Level] a" [mkLoc "a.go" 1 ""].
Definition a_summary (st : SpecState) : SpecSummary :=
  mkSummary ["[Top Level]"; "a"] [mkLoc "a.go" 1 ""] st (mkFailure "m" (mkLoc "a.go" 2 "") "").
Definition a_test : testCase := fresh_test "a" a_spec (mkLoc "a.go" 1 "") "" None.
Definition a_status : testStatus := newTestStatus "" false 1 Minute None [].

Example run_test_verdict_witness :
  let t := fst (Run_test 0 Second ("", cmd_error_of 3) a_test a_status) in
  (success t, skipped t, failed t) = (false, true, false).
Proof.
  apply (run_test_verdict [a_spec] "no more specs to run" (λ _, [RSpec (a_summary SSkipped)])
           (λ _, "") "a" (Some (a_summary SSkipped)) (Fail (ExitError 3)) (mkStreams "" "")
           a_test 0 Second a_status); [reflexivity| |done..].
  exists [a_test], a_test. split; [reflexivity|]. split; [reflexivity|].
  eexists. split; reflexivity.
Defined.

Example Run_test_output :
  st_out (snd (Run_test 0 (3 * Second) ("", CmdOk) a_test a_status)) =
  lines_ ["started: (0/1/1) " +:+ Quote "a"; ""; "passed: (3s) 0001-01-01T00:00:03 " +:+ Quote "a"; ""; ""].
Proof. reflexivity. Qed.
