(* ===== verification/KubeTypes.v ===== *)
(** * The API objects the driver reads

    Plain data of k8s.io/api and github.com/openshift/api, restricted to the
    fields the modelled code reads.  Enumerated strings (phases, condition
    statuses) stay strings, as in the API. *)

From S2P Require Import Prelude.
From S2P Require Import GoStrings.
From S2P Require Import GoLib.

Record ObjectMeta := mkMeta {
  Name : string;
  Namespace : string;
  UID : string;
  ResourceVersion : string;
  Generation : Z;
  CreationTimestamp : time;
  DeletionTimestamp : option time;
  DeletionGracePeriodSeconds : option Z;
  Annotations : gmap string string;
  Labels : gmap string string
}.

Record ContainerStateTerminated := mkTerminated {
  ExitCode : Z;
  TReason : string;
  TMessage : string
}.

Record ContainerStatus := mkCStatus {
  CName : string;
  Ready : bool;
  RestartCount : Z;
  Terminated : option ContainerStateTerminated;
  Running : bool
}.

Record Pod := mkPod {
  PodMeta : ObjectMeta;
  NodeName : string;
  RestartPolicy : string;
  Phase : string;
  PodReason : string;
  PodMessage : string;
  PodConditions : list (string * string);       (* type, status *)
  InitContainerStatuses : list ContainerStatus;
  ContainerStatuses : list ContainerStatus
}.

Record NodeCondition := mkNodeCond { NCType : string; NCStatus : string }.
Record Node := mkNode { NodeMeta : ObjectMeta; NodeConditions : list NodeCondition }.

(** corev1.Event *)
Record KEvent := mkKEvent {
  InvolvedNamespace : string;
  InvolvedKind : string;
  InvolvedName : string;
  KMeta : ObjectMeta;
  KMessage : string;
  KType : string;
  KCount : Z
}.

(** configv1.ClusterOperatorStatusCondition, also used by ClusterVersion. *)
Record StatusCondition := mkSCond {
  SCType : string;
  SCStatus : string;
  SCReason : string;
  SCMessage : string
}.
Record OperandVersion := mkOperand { OVName : string; OVVersion : string }.
Record ClusterOperator := mkCO {
  COMeta : ObjectMeta;
  COConditions : list StatusCondition;
  COVersions : list OperandVersion
}.

(** configv1.Update, UpdateHistory and ClusterVersion *)
Record Update := mkUpdate { UVersion : string; UImage : string; UForce : bool }.
Record UpdateHistory := mkHistory { HState : string; HVersion : string; HImage : string }.
Record ClusterVersion := mkCV {
  CVMeta : ObjectMeta;
  DesiredUpdate : option Update;           (* Spec.DesiredUpdate *)
  CVDesired : Update;                      (* Status.Desired *)
  History : list UpdateHistory;
  ObservedGeneration : Z;
  CVConditions : list StatusCondition
}.

#[export] Instance Update_eq_dec : EqDecision Update.
Proof. solve_decision. Defined.

Definition meta_of (n ns : string) : ObjectMeta :=
  mkMeta n ns "" "" 0 0 None None ∅ ∅.
