(* ===== verification/MonitorApi.v ===== *)
(** * pkg/monitor/api.go, sampler.go and cmd.go

    The two API pollers are [sampler]s: a goroutine that is told the previous
    availability at each tick.  A response of the API is [option error] (nil
    is [None]).  The list/watch wrapper records the first error of a burst. *)

From S2P Require Import Prelude.
From S2P Require Import GoStrings.
From S2P Require Import GoLib.
From S2P Require Import KubeTypes.
From S2P Require Import MonitorTypes.
From S2P Require Import Monitor.

(** ** sampler.go *)

(* src: pkg/monitor/sampler.go 13-16 sampler *)
Record sampler := mkSampler { available : bool }.

(* src: pkg/monitor/sampler.go 44-48 sampler.isAvailable *)
Definition isAvailable (s : sampler) : bool := available s.

(* src: pkg/monitor/sampler.go 49-53 sampler.setAvailable *)
Definition setAvailable (b : bool) (s : sampler) : sampler := mkSampler b.

(** What a tick records, and the new state. *)
Definition sampler_tick (sampleFn : bool → option Condition * bool) (s : sampler)
  : list Condition * sampler :=
  let '(condition, ok) := sampleFn (isAvailable s) in
  (match condition with Some c => [c] | None => [] end, setAvailable ok s).

(** The goroutine over a sequence of ticks; [R] is what the sampled thing
    answers at a tick. *)
(* src: pkg/monitor/sampler.go 18-42 StartSampling *)
Fixpoint StartSampler {R} (sampleFn : R → bool → option Condition * bool) (s : sampler)
    (ticks : list R) : list Condition * sampler :=
  match ticks with
  | [] => ([], s)
  | r :: rest =>
      let '(cs, s') := sampler_tick (sampleFn r) s in
      let '(cs', s'') := StartSampler sampleFn s' rest in
      (cs ++ cs', s'')
  end.

Definition new_sampler : sampler := mkSampler true.

(** The state of the sampler is the one it has at the time it is asked. *)
(* src: pkg/monitor/sampler.go 55-62 sampler.ConditionWhenFailing *)
Definition ConditionWhenFailing (c : Condition) (s : time → sampler) : SamplerFunc :=
  λ now, if isAvailable (s now) then [] else [c].

(* src: pkg/monitor/sampler.go 9-11 ConditionalSampler *)
Class ConditionalSampler (S : Type) := {
  conditional_ConditionWhenFailing : Condition → (time → S) → SamplerFunc
}.
#[export] Instance sampler_ConditionalSampler : ConditionalSampler sampler :=
  {| conditional_ConditionWhenFailing := ConditionWhenFailing |}.

(** ** api.go *)

Definition is_nil (e : option error) : bool := match e with None => true | _ => false end.

(* src: pkg/monitor/api.go 68-85 startAPIMonitoring (kube) *)
Definition kube_sample (err : option error) (previous : bool) : option Condition * bool :=
  let condition :=
    match err with
    | None => if negb previous
              then Some (mkCondition Info "kube-apiserver"
                           "Kube API started responding to GET requests")
              else None
    | Some e => if previous
                then Some (mkCondition Error "kube-apiserver"
                             ("Kube API started failing: " +:+ err_msg e))
                else None
    end in
  (condition, is_nil err).

(* src: pkg/monitor/api.go 93-113 startAPIMonitoring (openshift) *)
Definition openshift_sample (err : option error) (previous : bool) : option Condition * bool :=
  let err :=
    match err with
    | Some e => if negb (is_kind KUnexpectedServer e) && is_kind KNotFound e then None else err
    | None => None
    end in
  let condition :=
    match err with
    | None => if negb previous
              then Some (mkCondition Info "openshift-apiserver"
                           "OpenShift API started responding to GET requests")
              else None
    | Some e => if previous
                then Some (mkCondition Info "openshift-apiserver"
                             ("OpenShift API started failing: " +:+ err_msg e))
                else None
    end in
  (condition, is_nil err).

Definition kube_failing : Condition :=
  mkCondition Error "kube-apiserver" "Kube API is not responding to GET requests".
Definition openshift_failing : Condition :=
  mkCondition Error "openshift-apiserver" "OpenShift API is not responding to GET requests".

(** The clients of the two pollers may not be created; the state of a poller is
    the one it has when the condition is sampled. *)
(* src: pkg/monitor/api.go 55-120 startAPIMonitoring *)
Definition startAPIMonitoring (polling_err image_err : option error)
    (kube openshift : time → sampler) : go Monitor unit :=
  match polling_err with
  | Some err => fail err
  | None =>
      match image_err with
      | Some err => fail err
      | None =>
          (modw (AddSampler (ConditionWhenFailing kube_failing kube)) ;;!
           modw (AddSampler (ConditionWhenFailing openshift_failing openshift)))%go
      end
  end.

(* src: pkg/monitor/api.go 122-134 findContainerStatus *)
Definition findContainerStatus (status : list ContainerStatus) (name : string) (position : nat)
  : option ContainerStatus :=
  match status !! position with
  | Some s => if String.eqb (CName s) name then Some s
              else find_first (λ s, String.eqb (CName s) name) status
  | None => find_first (λ s, String.eqb (CName s) name) status
  end.

(* src: pkg/monitor/api.go 136-148 findNodeCondition *)
Definition findNodeCondition (status : list NodeCondition) (name : string) (position : nat)
  : option NodeCondition :=
  match status !! position with
  | Some s => if String.eqb (NCType s) name then Some s
              else find_first (λ s, String.eqb (NCType s) name) status
  | None => find_first (λ s, String.eqb (NCType s) name) status
  end.

(* src: pkg/monitor/api.go 150-155 locateEvent *)
Definition locateEvent (e : KEvent) : string :=
  if Nat.ltb 0 (String.length (InvolvedNamespace e)) then
    "ns/" +:+ InvolvedNamespace e +:+ " " +:+ ToLower (InvolvedKind e) +:+ "/" +:+ InvolvedName e
  else ToLower (InvolvedKind e) +:+ "/" +:+ InvolvedName e.

(* src: pkg/monitor/api.go 157-159 locatePod *)
Definition locatePod (p : Pod) : string :=
  "ns/" +:+ Namespace (PodMeta p) +:+ " pod/" +:+ Name (PodMeta p) +:+ " node/" +:+ NodeName p.

(* src: pkg/monitor/api.go 161-163 locateNode *)
Definition locateNode (n : Node) : string := "node/" +:+ Name (NodeMeta n).

(* src: pkg/monitor/api.go 165-167 locatePodContainer *)
Definition locatePodContainer (p : Pod) (c : string) : string :=
  locatePod p +:+ " container=" +:+ c.

(** [None] is an object without metadata. *)
(* src: pkg/monitor/api.go 169-179 filterToSystemNamespaces *)
Definition filterToSystemNamespaces (m : option ObjectMeta) : bool :=
  match m with
  | None => true
  | Some m =>
      let ns := Namespace m in
      if Nat.eqb (String.length ns) 0 then true
      else HasPrefix ns "kube-" || HasPrefix ns "openshift-" || String.eqb ns "default"
  end.

(* src: pkg/monitor/api.go 181-188 errorRecordingListWatcher *)
Record errorRecordingListWatcher := mkWatcher { receivedError : bool }.

(* src: pkg/monitor/api.go 190-195 NewErrorRecordingListWatcher *)
Definition NewErrorRecordingListWatcher : errorRecordingListWatcher := mkWatcher false.

(* src: pkg/monitor/api.go 209-224 errorRecordingListWatcher.handle *)
Definition handle (err : option error) (w : errorRecordingListWatcher)
  : list Condition * errorRecordingListWatcher :=
  match err with
  | Some e =>
      (if negb (receivedError w)
       then [mkCondition Error "kube-apiserver" ("failed contacting the API: " +:+ err_msg e)]
       else [], mkWatcher true)
  | None => ([], mkWatcher false)
  end.

(** A sequence of List and Watch calls of the wrapped lister: both record the
    error and return what the lister returned. *)
(* src: pkg/monitor/api.go 197-207 errorRecordingListWatcher.List, Watch *)
Fixpoint list_watch (errs : list (option error)) (w : errorRecordingListWatcher)
  : list Condition * errorRecordingListWatcher :=
  match errs with
  | [] => ([], w)
  | e :: rest =>
      let '(cs, w') := handle e w in
      let '(cs', w'') := list_watch rest w' in
      (cs ++ cs', w'')
  end.

(** ** cmd.go *)

(** One tick of the printing goroutine: what it prints and the new [last]. *)
Definition print_tick (srt : list EventInterval → list EventInterval) (m : Monitor)
    (last_ : time) : list EventInterval * time :=
  match Events srt m last_ time_zero with
  | [] => ([], last_)
  | events =>
      (bfilter (λ e, Equal (From e) (To e)) events,
       match last events with Some e => From e | None => last_ end)
  end.

(** The goroutine, over the monitor as it is at each tick. *)
(* src: pkg/monitor/cmd.go 46-68 Options.Run (print goroutine) *)
Fixpoint print_loop srt (ticks : list Monitor) (last_ : time) : list EventInterval :=
  match ticks with
  | [] => []
  | m :: rest =>
      let '(printed, last') := print_tick srt m last_ in
      printed ++ print_loop srt rest last'
  end.

(** The output of the command: the events, then the conditions of the monitor
    at the end. *)
(* src: pkg/monitor/cmd.go 22-81 Options.Run *)
Definition Monitor_Run (start_err : option error) srt (ticks : list Monitor) (fin : Monitor)
  : outcome string :=
  match start_err with
  | Some e => Fail e
  | None =>
      let line e := EventInterval_String e +:+ nl in
      let conds := Conditions fin time_zero time_zero in
      Ret (String.concat "" (map line (print_loop srt ticks time_zero)) +:+
           match conds with
           | [] => ""
           | _ => nl +:+ "Conditions:" +:+ nl +:+ nl +:+ String.concat "" (map line conds)
           end)
  end.

(** ** Properties *)

(** The samples at which the outcome differs from the one before. *)
Fixpoint edges (prev : bool) (oks : list bool) : nat :=
  match oks with
  | [] => 0
  | b :: rest => (if Bool.eqb prev b then 0 else 1) + edges b rest
  end.

(** An API poller records exactly one condition for each change of
    availability and none while the answer stays the same, and its sampled
    condition is on exactly when the last answer was an error. *)
Theorem kube_sampler_edges errs s :
  let '(cs, s') := StartSampler kube_sample s errs in
  length cs = edges (available s) (map is_nil errs) ∧
  available s' = List.last (map is_nil errs) (available s) ∧
  ConditionWhenFailing kube_failing (λ _, s') 0%Z = (if available s' then [] else [kube_failing]) ∧
  Forall (λ c, Locator c = "kube-apiserver"%string) cs.
Proof.
  revert s. induction errs as [|e errs IH]; intros s; cbn [StartSampler map edges].
  - cbn. split_and!; done.
  - unfold sampler_tick. destruct (kube_sample e (isAvailable s)) as [c ok] eqn:E.
    specialize (IH (setAvailable ok s)).
    destruct (StartSampler kube_sample (setAvailable ok s) errs) as [cs' s''].
    destruct IH as (H1 & H2 & H3 & H4).
    assert (ok = is_nil e ∧ length (match c with Some c => [c] | None => [] end) =
              (if Bool.eqb (available s) (is_nil e) then 0 else 1) ∧
            Forall (λ c, Locator c = "kube-apiserver"%string)
              (match c with Some c => [c] | None => [] end)) as (-> & Hc & Hf).
    { unfold kube_sample, isAvailable in E. destruct e, (available s); simplify_eq/=;
        by repeat constructor. }
    split_and!.
    + rewrite length_app, Hc, H1. done.
    + rewrite H2, list_last_cons. done.
    + done.
    + by apply Forall_app.
Qed.

(** The errors that follow a success, or that come first. *)
Fixpoint bursts (prev : bool) (errs : list (option error)) : list error :=
  match errs with
  | [] => []
  | Some e :: rest => (if prev then [] else [e]) ++ bursts true rest
  | None :: rest => bursts false rest
  end.

(** The list/watch wrapper records the first error of every burst of
    failures, with its message, and nothing else. *)
Theorem list_watch_bursts errs w :
  fst (list_watch errs w) =
  map (λ e, mkCondition Error "kube-apiserver" ("failed contacting the API: " +:+ err_msg e))
    (bursts (receivedError w) errs).
Proof.
  revert w. induction errs as [|[e|] errs IH]; intros w; cbn; [done|..].
  - specialize (IH (mkWatcher true)). destruct (list_watch errs (mkWatcher true)).
    cbn in IH. rewrite map_app, IH. by destruct (receivedError w).
  - specialize (IH (mkWatcher false)). by destruct (list_watch errs (mkWatcher false)).
Qed.

(** The status looked up for a container is one of the list with its name,
    and there is one whenever the list has one; the position is only a hint. *)
Theorem findContainerStatus_spec status name position :
  match findContainerStatus status name position with
  | Some s => s ∈ status ∧ CName s = name
  | None => ∀ s, s ∈ status → CName s ≠ name
  end.
Proof.
  assert (match find_first (λ s, String.eqb (CName s) name) status with
          | Some s => s ∈ status ∧ CName s = name
          | None => ∀ s, s ∈ status → CName s ≠ name end) as Hf.
  { destruct (find_first _ _) as [s|] eqn:E.
    - apply find_first_Some in E as [H1 H2]. by propify.
    - rewrite find_first_None in E. intros s Hs. specialize (E s Hs). cbn in E. by propify. }
  unfold findContainerStatus. destruct (status !! position) as [s|] eqn:E; [|done].
  destruct (String.eqb (CName s) name) eqn:En; [|done]. propify.
  split; [by eapply list_elem_of_lookup_2|done].
Qed.

(** *** The printing loop *)

(** The events of the ticks: each tick sees those of the one before and newer
    ones, recorded at strictly later times. *)
Fixpoint growing (seen : list Event) (ticks : list Monitor) : Prop :=
  match ticks with
  | [] => True
  | m :: rest => ∃ new, events m = seen ++ new ∧ samples m = [] ∧
      sorted_by At (events m) ∧ at_pos At (events m) ∧
      (∀ a b, a ∈ seen → b ∈ new → At a < At b)%Z ∧ growing (events m) rest
  end.

Definition last_at (l : list Event) : time := match last l with Some e => At e | None => 0%Z end.

Lemma sorted_last l e : sorted_by At l → e ∈ l → (At e ≤ last_at l)%Z.
Proof.
  unfold last_at. destruct l as [|x l _] using rev_ind; [by intros _ ?%elem_of_nil|].
  rewrite last_snoc. intros Hs [He|He%list_elem_of_singleton]%elem_of_app; [|by subst].
  apply StronglySorted_app in Hs as (H & _ & _). apply H; [done|by apply list_elem_of_singleton].
Qed.

Lemma print_tick_new srt m seen new :
  events m = seen ++ new → samples m = [] → sorted_by At (events m) → at_pos At (events m) →
  (∀ a b, a ∈ seen → b ∈ new → At a < At b)%Z →
  print_tick srt m (last_at seen) = (map event_interval new, last_at (events m)).
Proof.
  intros He Hsm Hs Hp Hlt. unfold print_tick, Events, snapshot. rewrite Hsm. cbn [filterSamples].
  assert (filterSamples [] (last_at seen) time_zero = []) as ->.
  { unfold filterSamples. by destruct (IsZero (last_at seen)). }
  cbn [length Nat.eqb negb app]. rewrite filterEvents_window by done.
  assert (bfilter (λ e, in_window (last_at seen) time_zero (At e)) (events m) = new) as ->.
  { rewrite He in *. unfold in_window, IsZero, time_zero, After. rewrite bfilter_app.
    apply StronglySorted_app in Hs as (_ & Hs1 & _).
    assert (∀ a, a ∈ seen → 0 < At a)%Z as Hpos.
    { unfold at_pos in Hp. rewrite Forall_forall in Hp. intros a Ha. apply Hp.
      apply elem_of_app. by left. }
    rewrite bfilter_none, bfilter_all; [done|..]; apply Forall_forall; intros e Hin.
    - apply andb_true_iff. split; [|done]. apply orb_true_iff.
      destruct seen as [|a seen' _] using rev_ind; [by left|]. right. unfold last_at.
      rewrite last_snoc. apply Z.ltb_lt, Hlt; [|done]. apply elem_of_app. right.
      by apply list_elem_of_singleton.
    - pose proof (sorted_last _ _ Hs1 Hin). specialize (Hpos _ Hin). cbn.
      rewrite andb_true_r. apply orb_false_iff. split; [apply Z.eqb_neq|apply Z.ltb_ge]; lia. }
  destruct new as [|e new _] using rev_ind.
  - cbn. by rewrite He, app_nil_r.
  - rewrite map_app. cbn [map]. set (evs := map event_interval new ++ [event_interval e]).
    assert (evs ≠ []) as Hne by (intros [_ ?]%app_eq_nil; done).
    assert (last evs = Some (event_interval e)) as Hlast by apply last_snoc.
    assert (bfilter (λ e, Equal (From e) (To e)) evs = evs) as Hall.
    { apply bfilter_all, Forall_forall. intros i Hi. apply Z.eqb_eq.
      apply elem_of_app in Hi as [(x & -> & _)%list_elem_of_fmap|Hi]; [done|].
      by apply list_elem_of_singleton in Hi as ->. }
    assert (last_at (events m) = At e) as -> by (unfold last_at; by rewrite He, app_assoc, last_snoc).
    clearbody evs. destruct evs as [|x evs]; [done|]. by rewrite Hall, Hlast.
Qed.

(** The command prints every recorded event exactly once, in order, when the
    events of different ticks have different times. *)
Theorem print_loop_once srt ticks fin :
  growing [] (ticks ++ [fin]) →
  print_loop srt (ticks ++ [fin]) time_zero = map event_interval (events fin).
Proof.
  assert (∀ ticks seen, growing seen (ticks ++ [fin]) →
            map event_interval seen ++ print_loop srt (ticks ++ [fin]) (last_at seen) =
            map event_interval (events fin)) as H.
  { clear ticks. induction ticks as [|m ticks IH]; intros seen (new & He & Hsm & Hs & Hp & Hlt & Hg);
      cbn [print_loop app]; rewrite (print_tick_new srt _ _ _ He Hsm Hs Hp Hlt).
    - by rewrite He, app_nil_r, map_app.
    - rewrite <- (IH _ Hg), He, map_app, <- app_assoc. done. }
  intros Hg. apply (H ticks []). done.
Qed.

Example print_loop_once_witness :
  print_loop (insertion_sort Less)
    ([monitor_of [] (take 1 one_two)] ++ [monitor_of [] one_two]) time_zero =
  map event_interval one_two.
Proof.
  apply (print_loop_once (insertion_sort Less) [monitor_of [] (take 1 one_two)]
           (monitor_of [] one_two)).
  exists (take 1 one_two). split_and!; [done|done|repeat constructor..|set_solver|].
  exists (drop 1 one_two). split_and!; [done|done|apply one_two_sorted|repeat constructor| |done].
  intros a b Ha Hb. apply list_elem_of_singleton in Ha as ->, Hb as ->. done.
Defined.
