(* ===== verification/RunSuite.v ===== *)
(** * pkg/test/ginkgo/cmd_runsuite.go: running a suite

    [Options_Run] is the whole of [Options.Run].  What it does not compute is
    in [run_env]: files, the specs ginkgo knows, the child processes, the
    monitor's events, the scheduler's choices ([e_schedule] is the order of
    the calls an [Execute] makes, of which QueueExec proves that it is a
    permutation of the queue when the run is not cancelled).  The calls of
    [status.Run] are taken one after the other in that order; RunExec runs them
    interleaved, and RunPhases shows that this model is what they come to. *)

From S2P Require Import Prelude.
From S2P Require Import GoStrings.
From S2P Require Import GoLib.
From S2P Require Import MonitorTypes.
From S2P Require Import Monitor.
From S2P Require Import TestCase.
From S2P Require Import Junit.
From S2P Require Import Status.

Section RunSuite.
Context {G : Type}.   (* the globals a suite's Init sets *)

(* src: pkg/test/ginkgo/cmd_runsuite.go 24-43 Options *)
Record Options := mkOptions {
  o_Parallelism : Z;
  o_Count : Z;
  o_Timeout : duration;
  JUnitDir : string;
  TestFile : string;
  OutFile : string;
  Regex : string;
  IncludeSuccessOutput : bool;
  Provider : string;
  SuiteOptions : string;
  Suites : list (TestSuite G);
  DryRun : bool;
  PrintCommands : bool
}.

Inductive stat_result := StatOk | StatNotExist | StatError (e : error).

Record run_env := mkEnv {
  e_args0 : string;
  e_stdin : string + error;
  e_file : string → string + error;
  e_specs : list ginkgoSpec;
  e_iter_err : string;
  e_compile : string → (string → bool) + error;
  e_stat : string → stat_result;
  e_mkdir : string → option error;
  e_monitor : (time → time → list EventInterval) + error;   (* monitor.Start *)
  e_child : nat → testCase → time * time * (string * cmd_error);
  e_schedule : list nat → list nat;
  e_start : time;            (* around the two phases *)
  e_end : time;
  e_now : time;              (* the name of the report *)
  e_interrupt : option error;  (* ctx.Err() at the end *)
  e_sort : list EventInterval → list EventInterval;
  e_sort_tests : list testCase → list testCase;
  e_write : string * JUnitTestSuite → option error
}.

(** What a run changes: its two outputs, the tests, the number of children
    started so far and the reports written. *)
Record run_state := mkRun {
  w_out : string;
  w_err : string;
  w_store : list testCase;
  w_calls : nat;
  w_reports : list (string * JUnitTestSuite)
}.

Definition print_out (x : string) : go run_state unit :=
  modw (λ w, mkRun (w_out w +:+ x) (w_err w) (w_store w) (w_calls w) (w_reports w)).
Definition print_err (x : string) : go run_state unit :=
  modw (λ w, mkRun (w_out w) (w_err w +:+ x) (w_store w) (w_calls w) (w_reports w)).
Definition set_store (l : list testCase) : go run_state unit :=
  modw (λ w, mkRun (w_out w) (w_err w) l (w_calls w) (w_reports w)).

(* src: pkg/test/ginkgo/cmd_runsuite.go 45-50 Options.AsEnv *)
Definition AsEnv (opt : Options) : list string :=
  ["TEST_PROVIDER=" +:+ Provider opt; "TEST_SUITE_OPTIONS=" +:+ SuiteOptions opt].

Section Env.
Variable env : run_env.

(** [filepath.Base(p)]: the last element that is not empty. *)
Definition base_name (p : string) : string :=
  match last (bfilter (λ x, negb (String.eqb x "")) (SplitChar (Ascii.ascii_of_nat 47) p)) with
  | Some x => x
  | None => if String.eqb p "" then "." else "/"
  end.

(** The suite of the test file, if there is one. *)
(* src: pkg/test/ginkgo/cmd_runsuite.go 55-73 Options.Run (test file) *)
Definition suite_from_file (opt : Options) : option (TestSuite G) + error :=
  if Nat.ltb 0 (String.length (TestFile opt)) then
    match (if String.eqb (TestFile opt) "-" then e_stdin env else e_file env (TestFile opt)) with
    | inr e => inr e
    | inl contents =>
        match newSuiteFromFile "files" contents with
        | inl s => inl (Some s)
        | inr e => inr (Errorf ("could not read test suite from input: " +:+ err_msg e))
        end
    end
  else inl None.

Definition list_suites (opt : Options) : string :=
  Sprintf_ints
    (SuitesString (Suites opt) ("Select a test suite to run against the server:" +:+ nl +:+ nl)) [].

(* src: pkg/test/ginkgo/cmd_runsuite.go 75-96 Options.Run (suite) *)
Definition choose_suite (opt : Options) (args : list string) : go run_state (TestSuite G) :=
  (file <-! of_sum (suite_from_file opt) ;;
   suite <-!
     (match file, args with
      | Some s, _ => ret s
      | None, [] =>
          print_err (list_suites opt) ;;!
          match Suites opt with
          | [] => gopanic "index out of range"
          | s :: _ =>
              fail (Errorf ("specify a test suite to run, for example: " +:+
                            base_name (e_args0 env) +:+ " run " +:+ SuiteName s))
          end
      | None, arg :: _ =>
          match find_first (λ s, String.eqb (SuiteName s) arg) (Suites opt) with
          | Some s => ret s
          | None =>
              print_err (list_suites opt) ;;!
              fail (Errorf ("suite " +:+ Quote arg +:+ " does not exist"))
          end
      end) ;;
   if Nat.ltb 0 (String.length (Regex opt)) then
     match filterWithRegex (e_compile env) suite (Regex opt) with
     | inl s => ret s
     | inr e => fail (Errorf ("regular expression for filtering tests is invalid: " +:+ err_msg e))
     end
   else ret suite)%go.

Definition excluded_files : list string := ["/k8s.io/kubernetes/test/e2e/apps/disruption.go"].

Definition excluded_path (p : string) (_ : testCase) : bool :=
  existsb (HasSuffix p) excluded_files.

(** [tests] repeated [count] times: the same pointers again. *)
Definition repeat_tests (count : Z) (tests : list nat) : list nat :=
  if (1 <? count)%Z then concat (replicate (Z.to_nat count) tests) else tests.

(* src: pkg/test/ginkgo/cmd_runsuite.go 98-134 Options.Run (tests) *)
Definition choose_tests (opt : Options) (suite : TestSuite G) : go run_state (list nat) :=
  (all <-! of_outcome (testsForSuite (e_specs env) (e_iter_err env)) ;;
   let store := setTestExclusion excluded_path all in
   set_store store ;;!
   let tests := Filter store suite (seq 0 (length store)) in
   match tests with
   | [] => fail (Errorf ("suite " +:+ Quote (SuiteName suite) +:+ " does not contain any tests"))
   | _ =>
       let count := if (o_Count opt =? 0)%Z then Count suite else o_Count opt in
       ret (repeat_tests count tests)
   end)%go.

Definition deref (w : run_state) (p : nat) : option testCase := w_store w !! p.
Definition deref_all (w : run_state) (ps : list nat) : list testCase := omap (deref w) ps.

(** [--print-commands]: the commands in the order of the queue's calls. *)
(* src: pkg/test/ginkgo/cmd_runsuite.go 136-140 Options.Run (print commands) *)
Definition print_commands (opt : Options) (tests : list nat) : go run_state unit := λ w,
  let status := newTestStatus (w_out w) true (Z.of_nat (length tests)) Minute
                  (Some (λ f t, Events (e_sort env) (mkMonitor 0 [] [] []) f t)) (AsEnv opt) in
  let fix each ts s :=
    match ts with
    | [] => (Ret tt, mkRun (st_out s) (w_err w) (w_store w) (w_calls w) (w_reports w))
    | t :: ts' =>
        match OutputCommand (e_args0 env) t s with
        | Ret s' => each ts' s'
        | Fail e => (Fail e, w)
        | Panic m => (Panic m, w)
        end
    end in
  each (deref_all w (e_schedule env tests)) status.

(* src: pkg/test/ginkgo/cmd_runsuite.go 141-146 Options.Run (dry run) *)
Definition dry_run (tests : list nat) : go run_state unit :=
  (w <-! getw ;;
   for_each (sortedTests (e_sort_tests env) (deref_all w tests))
     (λ t, print_out (Quote (name t) +:+ nl)))%go.

(* src: pkg/test/ginkgo/cmd_runsuite.go 148-157 Options.Run (report directory) *)
Definition make_junit_dir (opt : Options) : go run_state unit :=
  if Nat.ltb 0 (String.length (JUnitDir opt)) then
    match e_stat env (JUnitDir opt) with
    | StatOk => ret tt
    | StatError e => fail (Errorf ("could not access --junit-dir: " +:+ err_msg e))
    | StatNotExist =>
        match e_mkdir env (JUnitDir opt) with
        | Some e => fail (Errorf ("could not create --junit-dir: " +:+ err_msg e))
        | None => ret tt
        end
    end
  else ret tt.

(* src: pkg/test/ginkgo/cmd_runsuite.go 159-172 Options.Run (defaults) *)
Definition run_limits (opt : Options) (suite : TestSuite G) : Z * duration :=
  let parallelism := if (o_Parallelism opt =? 0)%Z then Parallelism suite else o_Parallelism opt in
  let parallelism := if (parallelism =? 0)%Z then 3%Z else parallelism in
  let timeout := if (o_Timeout opt =? 0)%Z then TestTimeout suite else o_Timeout opt in
  let timeout := if (timeout =? 0)%Z then (15 * Minute)%Z else timeout in
  (parallelism, timeout).

(** One call of [status.Run]. *)
(* src: pkg/test/ginkgo/cmd_runsuite.go 196-216 Options.Run (calls of status.Run) *)
Definition run_one (p : nat) (x : list testCase * nat * testStatus)
  : list testCase * nat * testStatus :=
  let '(store, calls, s) := x in
  match store !! p with
  | None => x
  | Some t =>
      let '(st, en, res) := e_child env calls t in
      let '(t', s') := Run_test st en res t s in
      (<[p := t']> store, S calls, s')
  end.

(** One [Execute]. *)
Definition run_queue (tests : list nat) (x : list testCase * nat * testStatus)
  : list testCase * nat * testStatus :=
  fold_left (λ x p, run_one p x) (e_schedule env tests) x.

(** The two [Execute]s as the calls they make, in the order that [e_schedule]
    gives for each queue; RunExec and RunPhases run the workers and the calls
    concurrently and show which schedule a run amounts to.  The number of
    workers, which is the parallelism of the command, does not appear in this
    order; a negative one, with which [wg.Add] panics, is not modelled. *)
(* src: pkg/test/ginkgo/cmd_runsuite.go 196-216 Options.Run (phases) *)
Definition run_phases (opt : Options) (events_of : time → time → list EventInterval)
    (timeout : duration) (tests : list nat) : go run_state unit := λ w,
  let include := IncludeSuccessOutput opt || Nat.eqb (length tests) 1 in
  let status := newTestStatus (w_out w) include (Z.of_nat (length tests)) timeout
                  (Some events_of) (AsEnv opt) in
  let '(smoke, normal) :=
    splitTests (λ p, Contains (deref_name (w_store w) p) "[Smoke]") tests in
  let x := run_queue smoke (w_store w, w_calls w, status) in
  let '(store, calls, status) := run_queue normal x in
  (Ret tt, mkRun (st_out status) (w_err w) store calls (w_reports w)).

(** ** The timeline *)

Definition failed_intervals (t : testCase) : list EventInterval :=
  let locator := "test=" +:+ Quote (name t) in
  [mkInterval (mkCondition Info locator "running") (tc_start t) (tc_end t);
   mkInterval (mkCondition Info locator "failed") (tc_end t) (tc_end t)].

Definition is_error (e : EventInterval) : bool :=
  bool_decide (Level (IvCondition e) = MonitorTypes.Error).

Definition print_lines (l : list EventInterval) : string :=
  String.concat "" (map (λ e, EventInterval_String e +:+ nl) l).

(* src: pkg/test/ginkgo/cmd_runsuite.go 225-279 Options.Run (timeline) *)
Definition timeline (events : list EventInterval) (tests : list testCase) (d : duration)
  : string * list JUnitTestCase :=
  match events with
  | [] => ("", [])
  | _ =>
      let events := e_sort env
        (events ++ concat (map failed_intervals (bfilter failed tests))) in
      let errors := bfilter is_error events in
      let buf := nl +:+ "Timeline:" +:+ nl +:+ nl +:+ print_lines events +:+ nl in
      (buf,
       if Nat.ltb 0 (length errors) then
         [mkJCase "Monitor cluster while tests execute" "" d None
            (Some ("", itoa (Z.of_nat (length errors)) +:+
                       " error level events were detected during this test run:" +:+ nl +:+ nl +:+
                       print_lines errors)) buf ""]
       else [])
  end.

(** ** Flakes *)

(** The pointers of the failing tests, one per occurrence. *)
Definition failing_tests (w : run_state) (tests : list nat) : list nat :=
  bfilter (λ p, match deref w p with
                | Some t => negb (success t) && failed t
                | None => false
                end) tests.

(** Retried tests are new test cases; what matters of their run is the tests
    and the number of children. *)
Definition retry_run (opt : Options) (events_of : time → time → list EventInterval)
    (timeout : duration) (failing : list nat) (w : run_state) : list nat * list testCase * nat :=
  let copies := omap (λ p, Retry p <$> deref w p) failing in
  let retries := seq (length (w_store w)) (length copies) in
  let status := newTestStatus "" (IncludeSuccessOutput opt) (Z.of_nat (length retries)) timeout
                  (Some events_of) (AsEnv opt) in
  let '(store, calls, _) := run_queue retries (w_store w ++ copies, w_calls w, status) in
  (retries, store, calls).

Definition passed_in (store : list testCase) (p : nat) : bool :=
  match store !! p with Some t => success t | None => false end.

(* src: pkg/test/ginkgo/cmd_runsuite.go 281-308 Options.Run (flakes) *)
Definition retry_failures (opt : Options) (suite : TestSuite G)
    (events_of : time → time → list EventInterval) (timeout : duration)
    (fl : Z) (failing : list nat) : go run_state (list nat) := λ w,
  if (0 <? fl)%Z && (fl <=? MaximumAllowedFlakes suite)%Z then
    let '(retries, store, calls) :=
      retry_run opt events_of timeout (take (S (Z.to_nat (MaximumAllowedFlakes suite))) failing) w in
    let flaky := bfilter (passed_in store) retries in
    let repeatFailures := bfilter (λ p, negb (passed_in store p)) retries in
    let w' := mkRun (w_out w) (w_err w) store calls (w_reports w) in
    match flaky with
    | [] => (Ret failing, w')
    | _ =>
        (print_out ("Flaky tests:" +:+ nl +:+ nl +:+
                    Join (sort_Strings (map (deref_name store) flaky)) nl +:+ nl +:+ nl) ;;!
         ret repeatFailures)%go w'
    end
  else (Ret failing, w).

(** ** The verdict *)

Definition summary_line (pass skip : Z) (d : duration) : string :=
  itoa pass +:+ " pass, " +:+ itoa skip +:+ " skip (" +:+ Duration_String d +:+ ")".

(* src: pkg/test/ginkgo/cmd_runsuite.go 310-314 Options.Run (failing tests) *)
Definition print_failing (failing : list nat) : go run_state unit := λ w,
  match failing with
  | [] => ret tt w
  | _ => print_out ("Failing tests:" +:+ nl +:+ nl +:+
           Join (sort_Strings (testNames (w_store w) failing)) nl +:+ nl +:+ nl) w
  end.

(* src: pkg/test/ginkgo/cmd_runsuite.go 316-320 Options.Run (report) *)
Definition write_report (opt : Options) (tests : list nat) (d : duration)
    (synthetic : list JUnitTestCase) : go run_state unit := λ w,
  if Nat.ltb 0 (String.length (JUnitDir opt)) then
    let report := writeJUnitReport "junit_e2e" "openshift-tests" (deref_all w tests)
                    (JUnitDir opt) d (e_now env) synthetic in
    (print_err ("Writing JUnit report to " +:+ fst report +:+ nl +:+ nl) ;;!
     match e_write env report with
     | Some e => print_out ("error: Unable to write e2e JUnit results: " +:+ err_msg e)
     | None => modw (λ w, mkRun (w_out w) (w_err w) (w_store w) (w_calls w)
                            (w_reports w ++ [report]))
     end)%go w
  else ret tt w.

(* src: pkg/test/ginkgo/cmd_runsuite.go 322-331 Options.Run (verdict) *)
Definition verdict (suite : TestSuite G) (failing : list nat) (pass fl skip : Z) (d : duration)
  : go run_state unit :=
  ((if (0 <? fl)%Z then
      if negb (Nat.eqb (length failing) 0) || (MaximumAllowedFlakes suite =? 0)%Z then
        fail (Errorf (itoa fl +:+ " fail, " +:+ summary_line pass skip d))
      else print_out (itoa fl +:+ " flakes detected, suite allows passing with only flakes" +:+
                      nl +:+ nl)
    else ret tt) ;;!
   print_out (summary_line pass skip d +:+ nl) ;;!
   match e_interrupt env with Some e => fail e | None => ret tt end)%go.

Definition finish (opt : Options) (suite : TestSuite G) (tests failing : list nat)
    (pass fl skip : Z) (d : duration) (synthetic : list JUnitTestCase) : go run_state unit :=
  (print_failing failing ;;!
   write_report opt tests d synthetic ;;!
   verdict suite failing pass fl skip d)%go.

(* src: pkg/test/ginkgo/cmd_runsuite.go 192-223 Options.Run (monitor and summary) *)
Definition run_and_report (opt : Options) (suite : TestSuite G) (tests : list nat)
  : go run_state unit :=
  let '(_, timeout) := run_limits opt suite in
  (events_of <-! of_sum (e_monitor env) ;;
   run_phases opt events_of timeout tests ;;!
   w <-! getw ;;
   let d := rounded (Sub (e_end env) (e_start env)) in
   let '(pass, fl, skip, _) := summarizeTests (deref_all w tests) in
   let '(buf, synthetic) := timeline (events_of time_zero time_zero) (deref_all w tests) d in
   print_out buf ;;!
   failing <-! retry_failures opt suite events_of timeout fl (failing_tests w tests) ;;
   finish opt suite tests failing pass fl skip d synthetic)%go.

(* src: pkg/test/ginkgo/cmd_runsuite.go 52-331 Options.Run *)
Definition Options_Run (opt : Options) (args : list string) : go run_state unit :=
  (suite <-! choose_suite opt args ;;
   tests <-! choose_tests opt suite ;;
   if PrintCommands opt then print_commands opt tests
   else if DryRun opt then dry_run tests
   else
     make_junit_dir opt ;;!
     run_and_report opt suite tests)%go.
End Env.
End RunSuite.

(** ** The dry run *)

Section Properties.
Context {G : Type}.
Implicit Types (env : run_env) (opt : Options (G := G)).

Lemma for_each_print (l : list testCase) w :
  for_each l (λ t, print_out (Quote (name t) +:+ nl)) w =
  (Ret tt, mkRun (w_out w +:+ listing (map name l)) (w_err w) (w_store w) (w_calls w) (w_reports w)).
Proof.
  revert w. induction l as [|t l IH]; intros w; cbn [for_each map listing].
  - unfold ret. rewrite str_app_nil_r. by destruct w.
  - unfold gobind, print_out, modw in *. rewrite IH. cbn. by rewrite !str_app_assoc.
Qed.

(** A dry run starts no test and prints the quoted names of the chosen
    tests, sorted, one per line: the listing that [newSuiteFromFile] reads. *)
Theorem dry_run_listing env tests w :
  GoSort name_less (e_sort_tests env) →
  ∃ l, dry_run env tests w =
         (Ret tt, mkRun (w_out w +:+ listing (map name l)) (w_err w) (w_store w) (w_calls w)
                    (w_reports w)) ∧
       l ≡ₚ deref_all w tests ∧
       StronglySorted (λ a b, name_less b a = false) l.
Proof.
  intros Hs. exists (e_sort_tests env (deref_all w tests)).
  unfold dry_run, sortedTests. unfold gobind at 1, getw. rewrite for_each_print.
  split; [done|]. split; [apply sort_perm|apply sort_sorted].
Qed.

Lemma elem_of_repeat_tests count tests p : p ∈ repeat_tests count tests ↔ p ∈ tests.
Proof.
  unfold repeat_tests. destruct (Z.ltb_spec 1 count) as [Hc|]; [|done].
  destruct (Z.to_nat count) as [|n] eqn:En; [lia|]. cbn [replicate concat]. rewrite elem_of_app.
  split; [|by left]. intros [?|H]; [done|]. clear En Hc. induction n as [|n IH]; [by apply elem_of_nil in H|].
  cbn [replicate concat] in H. apply elem_of_app in H as [?|?]; auto.
Qed.

Lemma elem_of_deref_names w tests x :
  x ∈ map name (deref_all w tests) ↔ ∃ p t, p ∈ tests ∧ w_store w !! p = Some t ∧ name t = x.
Proof.
  unfold deref_all, deref. rewrite list_elem_of_fmap. setoid_rewrite list_elem_of_omap. naive_solver.
Qed.

Lemma choose_suite_Ret env opt args w suite w' :
  choose_suite env opt args w = (Ret suite, w') → w' = w.
Proof.
  unfold choose_suite. intros (f & w1 & H1 & (s & w2 & H2 & H)%gobind_Ret_inv)%gobind_Ret_inv.
  assert (w1 = w) as ->. { unfold of_sum in H1. by destruct (suite_from_file _ _); inversion H1. }
  assert (w2 = w) as ->.
  { destruct f; [by inversion H2|]. destruct args; [|destruct (find_first _ _); [by inversion H2|]].
    - apply gobind_Ret_inv in H2 as (? & ? & _ & H2). by destruct (Suites opt).
    - by apply gobind_Ret_inv in H2 as (? & ? & _ & H2). }
  by repeat destr_match; inversion H.
Qed.

(** The tests of a suite: those whose names it matches, with their
    repetitions. *)
Lemma choose_tests_Ret env opt suite w tests w' :
  choose_tests env opt suite w = (Ret tests, w') →
  ∃ all base, testsForSuite (e_specs env) (e_iter_err env) = Ret all ∧
    w' = mkRun (w_out w) (w_err w) (setTestExclusion excluded_path all) (w_calls w) (w_reports w) ∧
    base = Filter (w_store w') suite (seq 0 (length (w_store w'))) ∧ base ≠ [] ∧
    tests = repeat_tests (if (o_Count opt =? 0)%Z then Count suite else o_Count opt) base.
Proof.
  unfold choose_tests. intros (all & w1 & H1 & (? & w2 & H2 & H)%gobind_Ret_inv)%gobind_Ret_inv.
  unfold of_outcome in H1. destruct (testsForSuite _ _) as [all0|e|m] eqn:Ha; try done.
  injection H1 as <- <-. injection H2 as <- <-. exists all0.
  set (st := setTestExclusion excluded_path all0) in *. exists (Filter st suite (seq 0 (length st))).
  destruct (Filter st suite (seq 0 (length st))) as [|p ps] eqn:E; [done|]. injection H as <- <-.
  split_and!; [done|done|by rewrite <- E|done|done].
Qed.

(** C38: the listing of a dry run, of any suite, regular expression and
    repetition, given to another run on its standard input makes that run
    choose exactly the tests the first one chose, whatever bytes their names
    hold.  The second run is of the same specs, without a regular expression;
    the repetitions of the first run are not in its listing, those of the
    second are its own --count.  The dry run starts no test. *)
Theorem dry_run_roundtrip env opt args w w1 env' opt' args' w2 :
  GoSort name_less (e_sort_tests env) → DryRun opt = true → PrintCommands opt = false →
  w_out w = "" → Options_Run env opt args w = (Ret tt, w1) →
  e_specs env' = e_specs env → e_iter_err env' = e_iter_err env →
  TestFile opt' = "-" → e_stdin env' = inl (w_out w1) → Regex opt' = "" →
  w_calls w1 = w_calls w ∧
  ∃ suite s base,
    choose_suite env opt args w = (Ret suite, w) ∧
    fst (choose_tests env opt suite w) =
      Ret (repeat_tests (if (o_Count opt =? 0)%Z then Count suite else o_Count opt) base) ∧
    choose_suite env' opt' args' w2 = (Ret s, w2) ∧
    fst (choose_tests env' opt' s w2) = Ret (repeat_tests (o_Count opt') base) ∧
    (∀ x, Matches s x = true ↔ ∃ p t, p ∈ base ∧ w_store w1 !! p = Some t ∧ name t = x).
Proof.
  intros Hs Hdry Hpc Hout HR Hspecs Herr Hfile Hin Hre. unfold Options_Run in HR.
  apply gobind_Ret_inv in HR as (suite & wa & Hcs & HR). pose proof (choose_suite_Ret _ _ _ _ _ _ Hcs) as ->.
  apply gobind_Ret_inv in HR as (tests & wb & Hct & HR). rewrite Hpc, Hdry in HR.
  destruct (choose_tests_Ret _ _ _ _ _ _ Hct) as (all & base & Hall & Hwb & Hbase & Hne & Htests).
  destruct (dry_run_listing env tests wb Hs) as (l & Hl & Hperm & _). rewrite Hl in HR. injection HR as <-. cbn.
  split; [by rewrite Hwb|].
  assert (∀ x, x ∈ map name l ↔ ∃ p t, p ∈ base ∧ w_store wb !! p = Some t ∧ name t = x) as Hnames.
  { intros x. rewrite Hperm, elem_of_deref_names, Htests. by setoid_rewrite elem_of_repeat_tests. }
  exists suite, (suite_named "files" (λ x, bool_decide (x ∈ map name l))), base.
  split; [done|]. split; [by rewrite Hct, Htests|]. split; [|split].
  - unfold choose_suite, suite_from_file. cbn in Hin. rewrite Hfile, Hin, Hre, Hwb. cbn.
    by rewrite Hout, str_app_nil_l, newSuiteFromFile_listing.
  - assert (base = Filter (w_store wb) (suite_named (G := G) "files" (λ x, bool_decide (x ∈ map name l)))
              (seq 0 (length (w_store wb)))) as Hb.
    { rewrite Hbase. apply bfilter_ext. intros p Hp. cbn. apply eq_true_iff_eq.
      rewrite bool_decide_eq_true, Hnames. setoid_rewrite Hbase. unfold Filter, deref_name.
      setoid_rewrite elem_of_bfilter. apply elem_of_seq in Hp as [_ Hp].
      destruct (lookup_lt_is_Some_2 (w_store wb) p ltac:(lia)) as [t Ht]. split.
      - intros Hm. exists p, t. rewrite Ht. split; [|done]. split; [apply elem_of_seq; lia|by rewrite Ht in Hm].
      - intros (q & t' & [_ Hm] & Hq & Heq). rewrite Hq in Hm. rewrite Ht in Heq |- *. by rewrite <- Heq. }
    assert (w_store wb = setTestExclusion excluded_path all) as Hst by by rewrite Hwb.
    unfold choose_tests. rewrite Hspecs, Herr, Hall. rewrite Hst in Hb. cbn. rewrite <- Hb.
    destruct base; [done|]. cbn. by destruct (Z.eqb_spec (o_Count opt') 0) as [->|].
  - intros x. cbn. rewrite bool_decide_eq_true. apply Hnames.
Qed.

(** ** The verdict of a run *)

Lemma failing_tests_length w tests :
  length (bfilter (λ t, negb (success t) && failed t) (deref_all w tests)) =
  length (failing_tests w tests).
Proof.
  unfold deref_all, failing_tests. induction tests as [|p tests IH]; cbn; [done|].
  destruct (deref w p) as [t|]; cbn; [|done].
  destruct (negb (success t) && failed t); cbn; by rewrite IH.
Qed.

Lemma failing_tests_deref w tests p :
  p ∈ failing_tests w tests → is_Some (deref w p).
Proof. intros [_ H]%elem_of_bfilter. destruct (deref w p); [eauto|done]. Qed.

(** Every retried copy of the failing tests passes. *)
Definition all_retried_pass env opt events_of tmo (w : run_state) (failing : list nat) : Prop :=
  let '(retries, store, _) := retry_run env opt events_of tmo failing w in
  Forall (λ p, passed_in store p = true) retries.

Lemma omap_retry_length w failing :
  (∀ p, p ∈ failing → is_Some (deref w p)) →
  length (omap (λ p, Retry p <$> deref w p) failing) = length failing.
Proof.
  induction failing as [|p l IH]; intros H; [done|]. cbn.
  destruct (H p) as [t ->]; [apply list_elem_of_here|]. cbn. rewrite IH; [done|].
  intros q Hq. apply H. by apply list_elem_of_further.
Qed.

Lemma bfilter_empty_iff {A} (p : A → bool) l :
  bfilter (λ x, negb (p x)) l = [] ↔ Forall (λ x, p x = true) l.
Proof.
  induction l as [|x l IH]; cbn; [done|]. rewrite Forall_cons. destruct (p x); cbn; naive_solver.
Qed.

(** [retry_failures] leaves nothing failing exactly when nothing failed, or the
    failures are within the allowance and every retry passes. *)
Lemma retry_failures_empty env opt (suite : TestSuite G) ev tmo w failing :
  (∀ p, p ∈ failing → is_Some (deref w p)) →
  let fl := Z.of_nat (length failing) in
  ∃ left_ w', retry_failures env opt suite ev tmo fl failing w = (Ret left_, w') ∧
    (left_ = [] ↔ failing = [] ∨
       (fl ≤ MaximumAllowedFlakes suite)%Z ∧ all_retried_pass env opt ev tmo w failing).
Proof.
  intros Hd fl. unfold retry_failures.
  destruct (Z.ltb_spec 0 fl) as [Hpos|Hz]; cbn [andb].
  2: { assert (failing = []) as -> by (apply nil_length_inv; lia).
    exists [], w. split; [done|]. split; [by left|done]. }
  assert (failing ≠ []) as Hne by (intros ->; cbn in *; lia).
  destruct (Z.leb_spec fl (MaximumAllowedFlakes suite)) as [Hle|Hgt].
  2: { exists failing, w. split; [done|]. split; [done|]. intros [?|[? _]]; [done|lia]. }
  rewrite take_ge by lia. unfold all_retried_pass.
  destruct (retry_run env opt ev tmo failing w) as [[retries store] calls] eqn:E.
  assert (retries ≠ []) as Hr.
  { unfold retry_run in E. rewrite omap_retry_length in E by done.
    destruct (run_queue _ _ _) as [[? ?] ?]. injection E as <- _ _.
    destruct failing; [done|]. done. }
  destruct (bfilter (passed_in store) retries) as [|p fl'] eqn:Ef.
  - eexists _, _. split; [done|]. split; [done|]. intros [?|[_ H]]; [done|].
    rewrite bfilter_all in Ef by done. done.
  - eexists _, _. split; [done|]. rewrite bfilter_empty_iff. tauto.
Qed.

Lemma print_failing_ret failing w : ∃ w', print_failing failing w = (Ret tt, w').
Proof. unfold print_failing. destruct failing; eexists; reflexivity. Qed.

Lemma write_report_ret env opt tests d syn w :
  ∃ w', write_report env opt tests d syn w = (Ret tt, w').
Proof.
  unfold write_report, gobind, print_err, modw, ret.
  destruct (Nat.ltb _ _); [destr_match|]; eexists; reflexivity.
Qed.

Lemma finish_status env opt (suite : TestSuite G) tests failing pass fl skip d syn w :
  e_interrupt env = None →
  fst (finish env opt suite tests failing pass fl skip d syn w) = Ret tt ↔
  (fl ≤ 0)%Z ∨ (failing = [] ∧ MaximumAllowedFlakes suite ≠ 0%Z).
Proof.
  intros Hi. unfold finish.
  destruct (print_failing_ret failing w) as [w1 E1].
  destruct (write_report_ret env opt tests d syn w1) as [w2 E2].
  unfold gobind at 1. rewrite E1. unfold gobind at 1. rewrite E2.
  unfold verdict, gobind, print_out, modw, ret, fail. rewrite Hi.
  destruct (Z.ltb_spec 0 fl) as [Hpos|Hz]; cbn; [|by split; [left|]].
  destruct failing, (Z.eqb_spec (MaximumAllowedFlakes suite) 0); cbn; split;
    try done; try (intros [?|[? ?]]; [lia|done]). intros _. by right.
Qed.

Lemma run_phases_ret env opt ev tmo tests w :
  ∃ w', run_phases env opt ev tmo tests w = (Ret tt, w').
Proof.
  unfold run_phases. destruct (splitTests _ _) as [a b].
  destruct (run_queue _ b _) as [[? ?] ?]. eexists; reflexivity.
Qed.

(** C12: the verdict of an uninterrupted run: it succeeds exactly when no test
    failed, or when the failures are within the suite's allowance of flakes and
    every failed test passes when it is retried. *)
Theorem run_verdict env opt (suite : TestSuite G) tests ev w :
  e_monitor env = inl ev → e_interrupt env = None →
  let tmo := snd (run_limits opt suite) in
  let w1 := snd (run_phases env opt ev tmo tests w) in
  let failing := failing_tests w1 tests in
  let buf := fst (timeline env (ev time_zero time_zero) (deref_all w1 tests)
                    (rounded (Sub (e_end env) (e_start env)))) in
  fst (run_and_report env opt suite tests w) = Ret tt ↔
  failing = [] ∨
  (Z.of_nat (length failing) ≤ MaximumAllowedFlakes suite)%Z ∧
  all_retried_pass env opt ev tmo (snd (print_out buf w1)) failing.
Proof.
  intros Hm Hi tmo w1 failing buf.
  destruct (run_phases_ret env opt ev tmo tests w) as [w1' E1].
  assert (w1 = w1') as Ew by (unfold w1; by rewrite E1).
  clearbody w1. subst w1'. unfold run_and_report. subst tmo.
  destruct (run_limits opt suite) as [par tmo]. cbn [snd] in *.
  unfold of_sum. rewrite Hm, gobind_ret. unfold gobind at 1. rewrite E1.
  unfold gobind at 1, getw.
  pose proof (summarizeTests_spec (deref_all w1 tests)) as Hsum.
  destruct (summarizeTests (deref_all w1 tests)) as [[[pass fl] skip] fs].
  destruct Hsum as (_ & Hfs & Hfl & _). rewrite Hfs, failing_tests_length in Hfl.
  fold failing in Hfl. clear Hfs fs. subst buf.
  destruct (timeline _ _ _ _) as [buf syn]. cbn [fst].
  pose proof (failing_tests_deref w1 tests) as Hder. fold failing in Hder |- *.
  clearbody failing.
  unfold gobind at 1. unfold print_out, modw. cbn [snd]. set (w2 := mkRun _ _ _ _ _).
  destruct (retry_failures_empty env opt suite ev tmo w2 failing) as (l & w3 & E3 & Hl).
  { apply Hder. }
  rewrite <- Hfl in E3, Hl. unfold gobind at 1. rewrite E3, finish_status by done.
  rewrite <- Hfl. etrans; [|apply Hl]. split.
  - intros [Hz|[? _]]; [|done]. apply Hl. left. apply nil_length_inv. lia.
  - intros ->. destruct (proj1 Hl eq_refl) as [->|[Hle _]]; [left; cbn in *; lia|].
    destruct (decide (MaximumAllowedFlakes suite = 0)%Z); [left; lia|by right].
Qed.

(** ** Repeated tests *)

Lemma run_one_success env p q x :
  passed_in x.1.1 p = true → passed_in (run_one env q x).1.1 p = true.
Proof.
  destruct x as [[store calls] s]. unfold run_one, passed_in. cbn.
  destruct (store !! q) as [t|] eqn:Eq; [|done].
  destruct (e_child env calls t) as [[st en] res]. unfold Run_test. cbn.
  destruct (decide (q = p)) as [->|]; [|by rewrite list_lookup_insert_ne].
  rewrite list_lookup_insert_eq by (by eapply lookup_lt_Some). rewrite Eq. intros H.
  destruct (snd res); cbn; [done| |done]. by repeat destr_match.
Qed.

Lemma run_list_success env l p x :
  passed_in x.1.1 p = true →
  passed_in (fold_left (λ x p, run_one env p x) l x).1.1 p = true.
Proof. revert x. induction l as [|q l IH]; intros x H; cbn; [done|]. by apply IH, run_one_success. Qed.

(** A queue that holds the same test several times reports it as passed as
    soon as one of its runs passes, whatever the exit status of the others:
    the repetitions share one test case, whose flags are never reset. *)
Theorem repeated_test_passes env tests store calls s l1 l2 p t :
  e_schedule env tests = l1 ++ p :: l2 →
  let x := fold_left (λ x p, run_one env p x) l1 (store, calls, s) in
  x.1.1 !! p = Some t → snd (snd (e_child env x.1.2 t)) = CmdOk →
  passed_in (run_queue env tests (store, calls, s)).1.1 p = true.
Proof.
  intros Hsch x Ht Hok. unfold run_queue. rewrite Hsch, fold_left_app. fold x. cbn [fold_left].
  apply run_list_success. destruct x as [[store' calls'] s']. cbn in Ht, Hok.
  unfold run_one, passed_in. rewrite Ht.
  destruct (e_child env calls' t) as [[st en] res]. unfold Run_test. cbn in *.
  rewrite list_lookup_insert_eq by (by eapply lookup_lt_Some). by rewrite Hok.
Qed.
End Properties.

(** ** A run of two tests *)

Definition b_spec : ginkgoSpec := mkSpec "[Top Level] b" [mkLoc "b.go" 1 ""].

(** Child number [k] exits with the [k]-th status. *)
Definition env_of (statuses : list Z) : run_env :=
  mkEnv "/bin/tests" (inl "") (λ _, inl "") [a_spec; b_spec] "no more specs to run"
    (λ _, inr (Errorf "bad")) (λ _, StatOk) (λ _, None) (inl (λ _ _, []))
    (λ k _, (0, Second, ("", cmd_error_of (nth k statuses 0%Z))))%Z (λ l, l)
    0 Second 0 None (insertion_sort Less) (insertion_sort name_less) (λ _, None).

Definition suite_of (flakes : Z) : TestSuite unit :=
  mkSuite unit "s" "" (λ _, true) None 0 0 flakes 0%Z.
Definition opt_of (flakes count : Z) (dry : bool) : Options :=
  mkOptions 0 count 0 "" "" "" "" false "" "" [suite_of flakes] dry false.
Definition run0 : run_state := mkRun "" "" [] 0 [].

#[export] Instance sort_names_GoSort : GoSort name_less (insertion_sort name_less).
Proof.
  apply insertion_sort_GoSort; unfold name_less.
  - intros x y. apply str_lt_asym.
  - intros x y z. apply str_lt_negtrans.
Qed.

Definition ab_store : run_state :=
  mkRun "" "" [fresh_test "b" b_spec (mkLoc "b.go" 1 "") "" None; a_test] 0 [].

Example dry_run_listing_witness :
  fst (dry_run (env_of []) [0; 1] ab_store) = Ret tt.
Proof.
  destruct (dry_run_listing (env_of []) [0; 1] ab_store) as (l & -> & _); [apply _|done].
Defined.

(** A spec whose name holds a quote, a newline and a byte that is no UTF-8,
    and the run that reads the listing. *)
Definition odd_spec : ginkgoSpec :=
  mkSpec ("[Top Level] " +:+ dquote +:+ nl +:+ String (Ascii.ascii_of_nat 255) "") [mkLoc "c.go" 1 ""].
Definition odd_env (stdin : string) : run_env :=
  let e := env_of [] in
  mkEnv (e_args0 e) (inl stdin) (e_file e) [a_spec; odd_spec] (e_iter_err e) (e_compile e) (e_stat e)
    (e_mkdir e) (e_monitor e) (e_child e) (e_schedule e) (e_start e) (e_end e) (e_now e) (e_interrupt e)
    (e_sort e) (e_sort_tests e) (e_write e).
Definition piped_opt : Options (G := unit) :=
  mkOptions 0 0 0 "" "-" "" "" false "" "" [] false false.

Example dry_run_roundtrip_witness :
  let w1 := snd (Options_Run (odd_env "") (opt_of 0 2 true) ["s"%string] run0) in
  w_calls w1 = 0 ∧
  ∃ s base, choose_suite (odd_env (w_out w1)) piped_opt [] run0 = (Ret s, run0) ∧
    fst (choose_tests (odd_env "") (opt_of 0 2 true) (suite_of 0) run0) = Ret (repeat_tests 2 base) ∧
    fst (choose_tests (odd_env (w_out w1)) piped_opt s run0) = Ret base.
Proof.
  intros w1.
  destruct (dry_run_roundtrip (odd_env "") (opt_of 0 2 true) ["s"%string] run0 w1 (odd_env (w_out w1))
              piped_opt [] run0) as (Hw & suite & s & base & H1 & H2 & H3 & H4 & _);
    [apply _|done|done|done|vm_compute; reflexivity|done..|].
  split; [done|]. exists s, base. split; [done|]. split; [|done]. by injection H1 as <-.
Defined.

(** One failure out of two, which passes when retried. *)
Example run_verdict_witness :
  fst (run_and_report (env_of [1; 0; 0]%Z) (opt_of 1 1 false) (suite_of 1) [0; 1] ab_store) = Ret tt.
Proof.
  apply (run_verdict (env_of [1; 0; 0]%Z) (opt_of 1 1 false) (suite_of 1) [0; 1] (λ _ _, []));
    [done|done|]. right. split; [vm_compute; done|]. vm_compute. by repeat constructor.
Defined.

(** With --count=2 the run whose second half fails is reported as passed. *)
Example repeated_test_passes_witness :
  passed_in (run_queue (env_of [0; 1]%Z) [0; 0] ([a_test], 0, a_status)).1.1 0 = true.
Proof.
  eapply (repeated_test_passes (env_of [0; 1]%Z) [0; 0] [a_test] 0 a_status [] [0] 0 a_test);
    reflexivity.
Defined.

Example count_masks_failures :
  Options_Run (env_of [0; 0; 1; 1]%Z) (opt_of 0 2 false) ["s"%string] run0 =
  (Ret tt, snd (Options_Run (env_of [0; 0; 1; 1]%Z) (opt_of 0 2 false) ["s"%string] run0)).
Proof. vm_compute. reflexivity. Qed.

Example run_of_suite :
  fst (Options_Run (env_of [0; 1]%Z) (opt_of 0 1 false) ["s"%string] run0) =
    Fail (Errorf "1 fail, 1 pass, 0 skip (1s)") ∧
  fst (Options_Run (env_of [0; 1]%Z) (opt_of 0 1 false) ["x"%string] run0) =
    Fail (Errorf ("suite " +:+ Quote "x" +:+ " does not exist")) ∧
  w_out (snd (Options_Run (env_of []) (opt_of 0 1 true) ["s"%string] run0)) =
    listing ["a"; "b"]%string.
Proof. vm_compute. done. Qed.
