(* ===== verification/RunExec.v ===== *)
(** * The queue running the tests: [Execute] with [status.Run] as its function

    RunSuite takes the calls of [status.Run] one after the other.  Here they
    run as the code runs them: every worker of the queue (and the caller, for
    the serial tests) is inside a call of its own, the calls interleave, and
    only [Fprintf] and [Failure] hold the lock of the status; the writes of the
    deferred function are separate writes on the shared output.  The theorems
    show that every queued test is called and that the writes of a call are
    neither lost nor reordered, and, when no test is queued twice, that the
    tests and the counters end as in the sequential order of the calls and that
    the verdicts do not depend on the schedule. *)

From S2P Require Import Prelude.
From S2P Require Import GoStrings.
From S2P Require Import GoLib.
From S2P Require Import MonitorTypes.
From S2P Require Import Queue.
From S2P Require Import QueueExec.
From S2P Require Import TestCase.
From S2P Require Import Junit.
From S2P Require Import Status.
From S2P Require Import RunSuite.

(** ** One call of [status.Run], write by write *)

(** The writes of the deferred function. *)
(* src: pkg/test/ginkgo/status.go 72-108 testStatus.Run (deferred writes) *)
Definition end_chunks (t : testCase) (s : testStatus) : list string :=
  if success t then
    (if includeSuccessfulOutput s then [out t; nl] else []) ++ [verdict_line "passed" t]
  else if skipped t then
    (if includeSuccessfulOutput s then [out t; nl]
     else let message := lastLinesUntil (out t) 100 ["skip ["] in
          if Nat.ltb 0 (String.length message) then [message +:+ nl; nl] else []) ++
    [verdict_line "skipped" t]
  else if failed t then
    [out t; nl] ++
    (match monitor s with
     | Some events_of =>
         if (2 <? total s)%Z then
           match events_of (tc_start t) (tc_end t) with
           | [] => []
           | evs => map (λ e, EventInterval_String e +:+ nl) evs ++ [nl]
           end
         else []
     | None => []
     end) ++
    [verdict_line "failed" t]
  else [].

(** Whether it ends with [s.Failure()]. *)
Definition report_fails (t : testCase) : bool := negb (success t) && negb (skipped t) && failed t.

Definition set_start (st : time) (t : testCase) : testCase :=
  mkTest (name t) (spec t) (location t) (testExclusion t) st (tc_end t) (tc_duration t)
    (out t) (success t) (failed t) (skipped t) (previous t).

(** Where a call is: about to print its first line, waiting for the child,
    about to run the deferred function, in its writes, or returned. *)
Inductive rpc :=
| RBegin
| RChild
| RReport
| RWrite (chunks : list string) (fails : bool)
| RReturned.

(** A call: the test it is given and what its child will do. *)
Record call := mkCall {
  c_ref : nat;
  c_child : time * time * (string * cmd_error);
  c_pc : rpc
}.

Definition at_pc (pc : rpc) (c : call) : call := mkCall (c_ref c) (c_child c) pc.

Definition started_format (t : testCase) : string :=
  "started: (%d/%d/%d) " +:+ Quote (name t) +:+ nl +:+ nl.

(** One atomic action of a call, and what it writes. *)
(* src: pkg/test/ginkgo/status.go 71-144 testStatus.Run (step by step) *)
Definition step_call (c : call) (store : list testCase) (s : testStatus)
  : option (call * list testCase * testStatus * list string) :=
  let '(st, en, res) := c_child c in
  match store !! c_ref c with
  | None => None
  | Some t =>
      match c_pc c with
      | RBegin =>
          let s' := Fprintf_status (started_format t) s in
          Some (at_pc RChild c, <[c_ref c := set_start st t]> store, s',
                [Sprintf_ints (started_format t) [failures s'; index s'; total s']])
      | RChild =>
          let t' := set_result (tc_start t) en (rounded (Sub en (tc_start t))) (fst res) t in
          Some (at_pc RReport c, <[c_ref c := classify (snd res) t']> store, s, [])
      | RReport => Some (at_pc (RWrite (end_chunks t s) (report_fails t)) c, store, s, [])
      | RWrite (x :: l) f => Some (at_pc (RWrite l f) c, store, write x s, [x])
      | RWrite [] true => Some (at_pc RReturned c, store, Failure_ s, [])
      | RWrite [] false => Some (at_pc RReturned c, store, s, [])
      | RReturned => None
      end
  end.

(** ** What a call comes to *)

(** The test when its child has returned. *)
Definition run_result (child : time * time * (string * cmd_error)) (t : testCase) : testCase :=
  let '(st, en, res) := child in
  classify (snd res) (set_result st en (rounded (Sub en st)) (fst res) t).

Lemma run_result_name c t : name (run_result c t) = name t.
Proof. destruct c as [[st en] [o [|z|m]]]; cbn; [done| |done]. by repeat destr_match. Qed.

(** The fields of the status that do not change. *)
Definition same_status (s s0 : testStatus) : Prop :=
  includeSuccessfulOutput s = includeSuccessfulOutput s0 ∧ monitor s = monitor s0 ∧
  total s = total s0 ∧ timeout s = timeout s0 ∧ Status.env s = Status.env s0.

#[export] Instance same_status_po : PreOrder same_status.
Proof. unfold same_status. split; [by intros s|]. intros a b c; naive_solver congruence. Qed.

Lemma end_chunks_same t s s0 : same_status s s0 → end_chunks t s = end_chunks t s0.
Proof. intros (H1 & H2 & H3 & _). unfold end_chunks. by rewrite H1, H2, H3. Qed.

Lemma concat_str_cons x l : String.concat "" (x :: l) = x +:+ String.concat "" l.
Proof. destruct l; [by rewrite str_app_nil_r|done]. Qed.
Lemma concat_str_app l1 l2 :
  String.concat "" (l1 ++ l2) = String.concat "" l1 +:+ String.concat "" l2.
Proof. induction l1 as [|x l1 IH]; [done|]. by rewrite <- app_comm_cons, !concat_str_cons, IH, str_app_assoc. Qed.

Lemma fold_left_map {A B C} (f : A → B → A) (g : C → B) l a :
  fold_left f (map g l) a = fold_left (λ a x, f a (g x)) l a.
Proof. revert a. induction l as [|x l IH]; intros a; cbn; [done|]. apply IH. Qed.

Lemma write_all l s :
  let s' := fold_left (λ s x, write x s) l s in
  st_out s' = st_out s +:+ String.concat "" l ∧ failures s' = failures s ∧ index s' = index s ∧
  same_status s' s.
Proof.
  revert s. induction l as [|x l IH]; intros s; cbn [fold_left].
  - cbn. by rewrite str_app_nil_r.
  - destruct (IH (write x s)) as (-> & -> & -> & H). split_and!; [|done..|by etrans].
    cbn [st_out write with_out]. rewrite str_app_assoc. by rewrite concat_str_cons.
Qed.

(** The deferred function is its writes, then [Failure]. *)
Lemma report_end_chunks t s :
  report_end t s =
  (if report_fails t then Failure_ else id) (fold_left (λ s x, write x s) (end_chunks t s) s).
Proof.
  unfold report_end, report_fails, end_chunks, writeln.
  destruct (success t); [by destruct (includeSuccessfulOutput s)|].
  destruct (skipped t).
  { destruct (includeSuccessfulOutput s); [done|]. by destruct (Nat.ltb _ _). }
  destruct (failed t); [|done]. cbn [negb andb].
  rewrite !fold_left_app. cbn [fold_left]. f_equal. f_equal.
  set (s1 := write nl _). change (monitor (write ("" +:+ nl) _)) with (monitor s).
  change (total (write ("" +:+ nl) _)) with (total s).
  destruct (monitor s) as [events_of|]; [|done]. destruct (2 <? total s)%Z; [|done].
  destruct (events_of _ _) as [|e evs]; [done|]. rewrite fold_left_app. cbn [fold_left]. f_equal.
  by rewrite fold_left_map.
Qed.

Lemma report_end_spec t s :
  failures (report_end t s) = (failures s + if report_fails t then 1 else 0)%Z ∧
  index (report_end t s) = index s ∧ same_status (report_end t s) s.
Proof.
  rewrite report_end_chunks. destruct (write_all (end_chunks t s) s) as (_ & Hf & Hi & Hs).
  destruct (report_fails t); cbn; rewrite ?Hf; split_and!; try done; lia.
Qed.

(** The sequential call. *)
Lemma Run_test_spec c t s :
  (index s ≤ total s)%Z →
  let '(t', s') := Run_test c.1.1 c.1.2 c.2 t s in
  t' = run_result c t ∧ same_status s' s ∧ index s' = Z.min (total s) (index s + 1)%Z ∧
  failures s' = (failures s + if report_fails t' then 1 else 0)%Z.
Proof.
  destruct c as [[st en] res]. cbn [fst snd]. intros Hi. unfold Run_test.
  set (t' := classify _ _). set (s1 := Fprintf_status _ _).
  destruct (report_end_spec t' s1) as (Hf & Hx & Hs). split; [done|]. split; [by etrans|].
  rewrite Hf, Hx. split; [|done]. cbn. destruct (Z.ltb_spec (index s) (total s)); lia.
Qed.

Section View.
Variable s0 : testStatus.

Definition first_line (t0 : testCase) (x : string) : Prop :=
  ∃ f i, x = Sprintf_ints (started_format t0) [f; i; total s0].

(** Where a call of the test [t0] is: what the test is by now and what the call
    has written. *)
Definition call_view (c : call) (t0 t : testCase) (w : list string) : Prop :=
  let r := run_result (c_child c) t0 in
  match c_pc c with
  | RBegin => t = t0 ∧ w = []
  | RChild => t = set_start (c_child c).1.1 t0 ∧ ∃ x, first_line t0 x ∧ w = [x]
  | RReport => t = r ∧ ∃ x, first_line t0 x ∧ w = [x]
  | RWrite l f =>
      t = r ∧ f = report_fails r ∧ ∃ x l1, first_line t0 x ∧ w = x :: l1 ∧ l1 ++ l = end_chunks r s0
  | RReturned => t = r ∧ ∃ x, first_line t0 x ∧ w = x :: end_chunks r s0
  end.

Definition returned (c : call) : bool := match c_pc c with RReturned => true | _ => false end.
Definition started (c : call) : bool := match c_pc c with RBegin => false | _ => true end.
Definition call_failed (c : call) (t0 : testCase) : bool :=
  returned c && report_fails (run_result (c_child c) t0).

Definition b2z (b : bool) : Z := if b then 1 else 0.

Lemma step_call_ref c store s c' store' s' w :
  step_call c store s = Some (c', store', s', w) →
  c_ref c' = c_ref c ∧ c_child c' = c_child c ∧ returned c = false.
Proof.
  unfold step_call, returned. destruct c as [p [[st en] res] pc]; cbn.
  intros H. repeat destr_match; by simplify_eq/=.
Qed.

Lemma step_call_view c store s c' store' s' w t0 t w0 :
  step_call c store s = Some (c', store', s', w) →
  store !! c_ref c = Some t → call_view c t0 t w0 → same_status s s0 →
  ∃ t', store' = <[c_ref c := t']> store ∧ call_view c' t0 t' (w0 ++ w) ∧ same_status s' s ∧
        st_out s' = st_out s +:+ String.concat "" w.
Proof.
  unfold step_call, call_view. destruct c as [p [[st en] res] pc]. cbn -[run_result end_chunks].
  intros Hs Ht Hv Hsame. rewrite Ht in Hs.
  destruct pc as [| | |[|x l] [|]|]; simplify_eq; cbn -[run_result end_chunks].
  - destruct Hv as [-> ->]. eexists. split; [done|]. split; [|by split_and!].
    split; [done|]. eexists. split; [|done]. eexists _, _. by destruct Hsame as (_ & _ & -> & _).
  - destruct Hv as [-> Hv]. eexists. split; [done|]. rewrite app_nil_r, str_app_nil_r. by split_and!.
  - destruct Hv as [-> (x & Hx & ->)]. eexists. split; [by rewrite list_insert_id|].
    rewrite str_app_nil_r. split; [|done]. split; [done|]. split; [done|]. exists x, [].
    by rewrite (end_chunks_same _ _ _ Hsame).
  - destruct Hv as (-> & _ & x & l1 & Hx & -> & <-). eexists. split; [by rewrite list_insert_id|].
    rewrite str_app_nil_r, !app_nil_r. split; [|done]. eauto.
  - destruct Hv as (-> & _ & x & l1 & Hx & -> & <-). eexists. split; [by rewrite list_insert_id|].
    rewrite str_app_nil_r, !app_nil_r. split; [|done]. eauto.
  - destruct Hv as (-> & Hf & y & l1 & Hx & -> & <-). eexists. split; [by rewrite list_insert_id|].
    split; [|done]. split; [done|]. split; [done|]. exists y, (l1 ++ [x]).
    split_and!; [done|done|]. by rewrite <- app_assoc.
  - destruct Hv as (-> & Hf & y & l1 & Hx & -> & <-). eexists. split; [by rewrite list_insert_id|].
    split; [|done]. split; [done|]. split; [done|]. exists y, (l1 ++ [x]).
    split_and!; [done|done|]. by rewrite <- app_assoc.
Qed.

(** What a call has written by now, whatever else is done to its test: only the
    name of a test never changes. *)
Definition says (c : call) (t0 : testCase) (w : list string) : Prop :=
  match c_pc c with
  | RBegin => w = []
  | RChild | RReport => ∃ x, first_line t0 x ∧ w = [x]
  | RWrite l _ => ∃ x l1 t', name t' = name t0 ∧ first_line t0 x ∧ w = x :: l1 ∧ l1 ++ l = end_chunks t' s0
  | RReturned => ∃ x t', name t' = name t0 ∧ first_line t0 x ∧ w = x :: end_chunks t' s0
  end.

Lemma classify_name e t : name (classify e t) = name t.
Proof. destruct e as [|z|m]; cbn; [done| |done]. by repeat destr_match. Qed.

Lemma step_call_says c store s c' store' s' w t0 t w0 :
  step_call c store s = Some (c', store', s', w) →
  store !! c_ref c = Some t → name t = name t0 → says c t0 w0 → same_status s s0 →
  ∃ t', store' = <[c_ref c := t']> store ∧ name t' = name t0 ∧ says c' t0 (w0 ++ w) ∧
        same_status s' s ∧ st_out s' = st_out s +:+ String.concat "" w.
Proof.
  unfold step_call, says. destruct c as [p [[st en] res] pc]. cbn -[classify end_chunks].
  intros Hs Ht Hn Hv Hsame. rewrite Ht in Hs.
  destruct pc as [| | |[|x l] [|]|]; simplify_eq; cbn -[classify end_chunks].
  - eexists. split; [done|]. split_and!; [done| |by split_and!|done].
    eexists. split; [|done]. exists (failures s), (index (Fprintf_status (started_format t) s)).
    unfold started_format. rewrite <- Hn. destruct Hsame as (_ & _ & <- & _). done.
  - eexists. split; [done|]. rewrite app_nil_r, str_app_nil_r, classify_name. by split_and!.
  - destruct Hv as (x & Hx & ->). exists t. split; [by rewrite list_insert_id|].
    rewrite str_app_nil_r. split_and!; [done| |done|done]. exists x, [], t.
    split_and!; [done..|by apply end_chunks_same].
  - destruct Hv as (x & l1 & t' & Hn' & Hx & -> & He). exists t. split; [by rewrite list_insert_id|].
    rewrite app_nil_r in He. subst l1. rewrite str_app_nil_r, app_nil_r. split_and!; [done| |done|done].
    by exists x, t'.
  - destruct Hv as (x & l1 & t' & Hn' & Hx & -> & He). exists t. split; [by rewrite list_insert_id|].
    rewrite app_nil_r in He. subst l1. rewrite str_app_nil_r, app_nil_r. split_and!; [done| |done|done].
    by exists x, t'.
  - destruct Hv as (y & l1 & t' & Hn' & Hx & -> & He). exists t. split; [by rewrite list_insert_id|].
    split_and!; [done| |done|done]. exists y, (l1 ++ [x]), t'. by rewrite <- app_assoc.
  - destruct Hv as (y & l1 & t' & Hn' & Hx & -> & He). exists t. split; [by rewrite list_insert_id|].
    split_and!; [done| |done|done]. exists y, (l1 ++ [x]), t'. by rewrite <- app_assoc.
Qed.

(** The counters of the status move with the calls. *)
Lemma step_call_counters c store s c' store' s' w t0 t w0 :
  step_call c store s = Some (c', store', s', w) →
  store !! c_ref c = Some t → call_view c t0 t w0 → (index s ≤ total s)%Z →
  (failures s' = failures s + b2z (call_failed c' t0) - b2z (call_failed c t0) ∧
   index s' = Z.min (total s) (index s + b2z (started c') - b2z (started c)))%Z.
Proof.
  unfold step_call, call_view, call_failed, started, returned.
  destruct c as [p [[st en] res] pc]. cbn -[run_result end_chunks Z.sub Z.add Z.min].
  intros Hs Ht Hv Hi. rewrite Ht in Hs.
  destruct pc as [| | |[|x l] [|]|]; simplify_eq; cbn -[run_result end_chunks Z.sub Z.add Z.min].
  1: destruct (Z.ltb_spec (index s) (total s)); cbn -[Z.min]; lia.
  all: try (split; lia).
  all: destruct Hv as (_ & <- & _); cbn; split; lia.
Qed.
End View.

(** ** The sequential order of the calls *)

Section Sequential.
Variable E : run_env.

Definition fails_in (store : list testCase) (p : nat) : bool :=
  match store !! p with Some t => report_fails t | None => false end.

Definition run_in_order (σ : list nat) (x : list testCase * nat * testStatus) :=
  fold_left (λ x p, run_one E p x) σ x.

Record order_spec (σ : list nat) (store : list testCase) (k : nat) (s : testStatus)
    (store' : list testCase) (k' : nat) (s' : testStatus) : Prop := {
  os_length : length store' = length store;
  os_calls : k' = k + length σ;
  os_same : same_status s' s;
  os_index : index s' = Z.min (total s) (index s + Z.of_nat (length σ));
  os_failures : failures s' = (failures s + Z.of_nat (count_of (fails_in store') σ))%Z;
  os_idle : ∀ p, p ∉ σ → store' !! p = store !! p;
  os_run : ∀ i p, σ !! i = Some p → ∃ t0, store !! p = Some t0 ∧
    store' !! p = Some (run_result (e_child E (k + i) t0) t0)
}.

Lemma run_in_order_spec σ store k s :
  NoDup σ → Forall (λ p, is_Some (store !! p)) σ → (index s ≤ total s)%Z →
  let '(store', k', s') := run_in_order σ (store, k, s) in
  order_spec σ store k s store' k' s'.
Proof.
  revert store k s. induction σ as [|p σ IH]; intros store k s Hnd Hr Hi.
  - cbn. split; cbn; done || lia.
  - apply NoDup_cons in Hnd as [Hp Hnd]. apply Forall_cons in Hr as [[t Ht] Hr].
    unfold run_in_order. cbn [fold_left]. fold (run_in_order σ).
    unfold run_one at 2. rewrite Ht.
    pose proof (Run_test_spec (e_child E k t) t s Hi) as Hrun.
    destruct (e_child E k t) as [[st en] res] eqn:Ec. cbn [fst snd] in Hrun.
    destruct (Run_test st en res t s) as [t' s1]. destruct Hrun as (-> & Hs1 & Hi1 & Hf1).
    rewrite <- Ec in *. set (t' := run_result _ t) in *.
    assert (total s1 = total s) as Ht1 by apply Hs1.
    specialize (IH (<[p := t']> store) (S k) s1 Hnd).
    fold (run_in_order σ (<[p := t']> store, S k, s1)).
    destruct (run_in_order _ _) as [[store' k'] s']. destruct IH as [H1 H2 H3 H4 H5 H6 H7].
    { eapply Forall_impl; [done|]. intros q [u Hu]. rewrite list_lookup_insert.
      case_decide; eauto. }
    { rewrite Ht1, Hi1. lia. }
    assert (store' !! p = Some t') as Hpt.
    { rewrite H6 by done. rewrite list_lookup_insert_eq; [done|by eapply lookup_lt_Some]. }
    split.
    + by rewrite H1, length_insert.
    + cbn. lia.
    + by etrans.
    + rewrite H4, Ht1, Hi1. cbn [length]. lia.
    + rewrite H5, Hf1. unfold count_of. cbn [bfilter]. unfold fails_in at 2. rewrite Hpt.
      destruct (report_fails t'); cbn [length]; lia.
    + intros q Hq. rewrite not_elem_of_cons in Hq. rewrite H6 by tauto.
      rewrite list_lookup_insert_ne; [done|]. naive_solver.
    + intros [|i] q Hq; cbn in Hq.
      * injection Hq as <-. exists t. rewrite Nat.add_0_r. by split.
      * destruct (H7 i q Hq) as (t0 & Ht0 & Hs'). exists t0.
        rewrite list_lookup_insert_ne in Ht0; [|intros <-; apply Hp; by eapply list_elem_of_lookup_2].
        by rewrite Nat.add_succ_r.
Qed.
End Sequential.

(** ** The queue and its calls together *)

Section RunExec.
Variable E : run_env.
Variables nm ex : nat → string.   (* the names and the exclusions of the tests *)
Variable base : nat.              (* the children started by earlier queues *)

Record run_exec := mkRE {
  re_exec : exec (T := nat);
  re_store : list testCase;
  re_status : testStatus;
  re_calls : list call;                    (* in the order in which they began *)
  re_running : gmap (option nat) nat;      (* the call each worker, or the caller (None), made *)
  re_log : list (nat * string)             (* what was written, by which call *)
}.

(** The goroutine of an action of the queue. *)
Definition goroutine (a : action) : option (option nat) :=
  match a with AWorker i => Some (Some i) | AMain => Some None | _ => None end.

(** The test a goroutine is running: it is inside [fn]. *)
Definition fn_of (pc : wpc (T := nat)) : option nat :=
  match pc with PRun p => Some p | _ => None end.
Definition in_fn (e : exec (T := nat)) (who : option nat) : option nat :=
  match who with
  | Some i => pcs e !! i ≫= fn_of
  | None => match main e with MRun p _ => Some p | _ => None end
  end.

(** A goroutine leaves [fn] when its call has returned. *)
Definition waits_for_call (x : run_exec) (who : option nat) : bool :=
  match in_fn (re_exec x) who, re_running x !! who ≫= (re_calls x !!.) with
  | Some _, Some c => negb (returned c)
  | _, _ => false
  end.

(** The action of a goroutine that is not inside a call; entering [fn] begins a
    call. *)
(* src: pkg/test/ginkgo/queue.go 86-136 parallelByFileTestQueue.Take, Execute (with fn) *)
Definition step_queue (a : action) (x : run_exec) : option run_exec :=
  match step nm ex a (re_exec x) with
  | None => None
  | Some e' =>
      match goroutine a with
      | None => Some (mkRE e' (re_store x) (re_status x) (re_calls x) (re_running x) (re_log x))
      | Some who =>
          if waits_for_call x who then None
          else match in_fn e' who with
               | None => Some (mkRE e' (re_store x) (re_status x) (re_calls x) (re_running x)
                                 (re_log x))
               | Some p =>
                   let k := length (re_calls x) in
                   match re_store x !! p with
                   | None => None
                   | Some t =>
                       Some (mkRE e' (re_store x) (re_status x)
                               (re_calls x ++ [mkCall p (e_child E (base + k) t) RBegin])
                               (<[who := k]> (re_running x)) (re_log x))
                   end
               end
      end
  end.

Inductive run_action := RQueue (a : action) | RCall (k : nat).

Definition step_run (a : run_action) (x : run_exec) : option run_exec :=
  match a with
  | RQueue a => step_queue a x
  | RCall k =>
      match re_calls x !! k ≫= (λ c, step_call c (re_store x) (re_status x)) with
      | Some (c', store', s', w) =>
          Some (mkRE (re_exec x) store' s' (<[k := c']> (re_calls x)) (re_running x)
                  (re_log x ++ map (pair k) w))
      | None => None
      end
  end.

Definition run_step (x x' : run_exec) : Prop := ∃ a, step_run a x = Some x'.

(** [q := newParallelTestQueue(tests); q.Execute(ctx, n, status.Run)] *)
(* src: pkg/test/ginkgo/cmd_runsuite.go 196-216 Options.Run (Execute of status.Run) *)
Definition run_start (tests : list nat) (n : nat) (store : list testCase) (s : testStatus)
  : run_exec := mkRE (Execute_start tests n) store s [] ∅ [].

Fixpoint run_actions (l : list run_action) (x : run_exec) : option run_exec :=
  match l with
  | [] => Some x
  | a :: l' => match step_run a x with Some x' => run_actions l' x' | None => None end
  end.

Lemma run_actions_rtc l x x' : run_actions l x = Some x' → rtc run_step x x'.
Proof.
  revert x. induction l as [|a l IH]; intros x; cbn; [by intros [= ->]|].
  destruct (step_run a x) eqn:Ea; [|done]. intros H. eapply rtc_l; [by exists a|by apply IH].
Qed.

(** ** What a step of the queue does to the goroutines *)

Lemma fn_of_wake pc : fn_of (wake pc) = fn_of pc.
Proof. by destruct pc. Qed.
Lemma fn_broadcast b (l : list wpc) (i : nat) : broadcast b l !! i ≫= fn_of = l !! i ≫= fn_of.
Proof. rewrite broadcast_lookup. destruct (l !! i), b; cbn; by rewrite ?fn_of_wake. Qed.
Lemma fn_wake (l : list wpc) (i : nat) : map wake l !! i ≫= fn_of = l !! i ≫= fn_of.
Proof. apply (fn_broadcast true). Qed.
Lemma fn_set (l : list wpc) (i j : nat) pc :
  i < length l → <[i := pc]> l !! j ≫= fn_of = if decide (j = i) then fn_of pc else l !! j ≫= fn_of.
Proof.
  intros Hl. case_decide; [subst; by rewrite list_lookup_insert_eq|].
  by rewrite list_lookup_insert_ne.
Qed.

(** The call of a goroutine that enters [fn] is the next one; no other
    goroutine enters or leaves. *)
Lemma step_in_fn a e e' who :
  step nm ex a e = Some e' → goroutine a = Some who →
  calls e' = calls e ++ option_list (in_fn e' who) ∧
  (∀ w, w ≠ who → in_fn e' w = in_fn e w) ∧
  (is_Some (in_fn e who) → in_fn e' who = None).
Proof.
  destruct a as [i| | |]; intros Hs Hg; simplify_eq/=.
  - unfold step_worker in Hs. destruct (pcs e !! i) as [pc|] eqn:Ei; [|done].
    pose proof (lookup_lt_Some _ _ _ Ei) as Hl.
    destruct pc; repeat destr_match; simplify_eq/=;
      rewrite ?fn_broadcast, ?fn_wake, ?fn_set, decide_True by done; cbn;
      (split; [by rewrite ?app_nil_r|]); (split; [|done || by intros [? ?]]);
      (intros [j|] Hne; cbn; [|done]);
      rewrite ?fn_broadcast, ?fn_wake, ?fn_set by done; rewrite decide_False; congruence.
  - unfold step_main in Hs. repeat destr_match; simplify_eq/=; rewrite ?app_nil_r;
      (split; [done|]); (split; [|done || by intros [? ?]]); by intros [j|] Hne.
Qed.

Lemma step_in_fn_none a e e' w :
  step nm ex a e = Some e' → goroutine a = None →
  calls e' = calls e ∧ in_fn e' w = in_fn e w.
Proof.
  destruct a; intros Hs Hg; simplify_eq/=; repeat destr_match; simplify_eq/=;
    (split; [done|]); destruct w; cbn; [done..| |done]. apply fn_wake.
Qed.

(** ** Queue and calls agree *)

Section Control.
Variables (tests : list nat) (n : nat).

(** The calls of the queue are the calls made, and a call that has not
    returned belongs to a goroutine that is inside [fn]. *)
Record control_inv (x : run_exec) : Prop := {
  ci_reach : rtc (exec_step nm ex) (Execute_start tests n) (re_exec x);
  ci_refs : map c_ref (re_calls x) = calls (re_exec x);
  ci_busy : ∀ k c, re_calls x !! k = Some c → returned c = false →
    ∃ who, re_running x !! who = Some k ∧ in_fn (re_exec x) who = Some (c_ref c)
}.

Lemma control_step x x' : run_step x x' → control_inv x → control_inv x'.
Proof.
  intros [[a|k] Hs] [H1 H2 H3]; cbn in Hs.
  - unfold step_queue in Hs. destruct (step nm ex a (re_exec x)) as [e'|] eqn:Ea; [|done].
    assert (rtc (exec_step nm ex) (Execute_start tests n) e') as Hr.
    { eapply rtc_r; [done|by exists a]. }
    destruct (goroutine a) as [who|] eqn:Eg.
    + destruct (step_in_fn _ _ _ _ Ea Eg) as (Hc & Ho & Hin).
      destruct (waits_for_call x who) eqn:Ew; [done|].
      assert (∀ k c, re_calls x !! k = Some c → returned c = false →
                ∃ who', who' ≠ who ∧ re_running x !! who' = Some k ∧
                        in_fn e' who' = Some (c_ref c)) as Hb.
      { intros k c Hk Hret. destruct (H3 k c Hk Hret) as (w & Hw1 & Hw2).
        assert (w ≠ who); [|exists w; rewrite Ho; auto]. intros ->.
        unfold waits_for_call in Ew. rewrite Hw1, Hw2 in Ew. cbn in Ew. by rewrite Hk, Hret in Ew. }
      destruct (in_fn e' who) as [p|] eqn:Ep; cbn in Hc; [|rewrite app_nil_r in Hc].
      * destruct (re_store x !! p) as [t|]; simplify_eq. split; cbn; [done|by rewrite map_app, H2, Hc|].
        intros k c Hk Hret. apply lookup_snoc_Some in Hk as [[Hlt Hk]|[-> <-]].
        -- destruct (Hb k c Hk Hret) as (w & Hw & ? & ?). exists w.
           by rewrite lookup_insert_ne.
        -- exists who. by rewrite lookup_insert_eq.
      * simplify_eq. split; cbn; [done|by rewrite Hc|]. intros k c Hk Hret.
        destruct (Hb k c Hk Hret) as (w & _ & ? & ?). eauto.
    + simplify_eq. split; cbn; [done| |].
      * by rewrite (proj1 (step_in_fn_none _ _ _ None Ea Eg)).
      * intros k c Hk Hret. destruct (H3 k c Hk Hret) as (w & ? & ?). exists w.
        by rewrite (proj2 (step_in_fn_none _ _ _ w Ea Eg)).
  - destruct (re_calls x !! k) as [c|] eqn:Ek; [|done]. cbn in Hs.
    destruct (step_call c _ _) as [[[[c' store'] s'] w]|] eqn:Ec; [|done]. simplify_eq.
    apply step_call_ref in Ec as (Er & _ & Hret). split; cbn; [done| |].
    + rewrite <- H2. apply list_eq. intros i. rewrite !list_lookup_fmap, list_lookup_insert.
      case_decide as Hi; [|done]. destruct Hi as [<- _]. rewrite Ek. cbn. by rewrite Er.
    + intros k' c1 Hk' Hr'. rewrite list_lookup_insert in Hk'. case_decide as Hi; [|eauto].
      destruct Hi as [<- _]. injection Hk' as <-. rewrite Er. eauto.
Qed.

Lemma control_start store s : control_inv (run_start tests n store s).
Proof. split; cbn; [apply rtc_refl|done|]. intros k c Hk. by rewrite lookup_nil in Hk. Qed.

Lemma control_reach store s x : rtc run_step (run_start tests n store s) x → control_inv x.
Proof. intros H. apply (rtc_preserve _ _ _ _ control_step H), control_start. Qed.

(** When [Execute] returns every call has returned. *)
Lemma control_returned store s x :
  0 < n → rtc run_step (run_start tests n store s) x → main (re_exec x) = MReturn →
  Forall (λ c, returned c = true) (re_calls x).
Proof.
  intros Hn Hr Hm. destruct (control_reach _ _ _ Hr) as [H1 _ H3].
  pose proof (reachable_inv _ _ _ _ _ Hn H1) as Hinv.
  apply Forall_lookup. intros k c Hk. destruct (returned c) eqn:Eret; [done|].
  destruct (H3 k c Hk Eret) as ([i|] & _ & Hi); cbn in Hi; [|by rewrite Hm in Hi].
  destruct (pcs (re_exec x) !! i) as [pc|] eqn:Ei; [|done].
  assert (pc = PExit) as ->; [|done].
  refine (Forall_lookup_1 (λ q, q = PExit) _ _ _ _ Ei). apply (inv_main _ _ _ Hinv). by rewrite Hm.
Qed.
End Control.

(** ** The tests and the status *)

Section Tests.
Variables (tests : list nat) (n : nat) (store0 : list testCase) (s0 : testStatus).
Hypothesis Hn : 0 < n.

Notation start := (run_start tests n store0 s0).

Definition written (k : nat) (log : list (nat * string)) : list string :=
  map snd (bfilter (λ e, Nat.eqb e.1 k) log).

Lemma written_app k l1 l2 : written k (l1 ++ l2) = written k l1 ++ written k l2.
Proof. unfold written. by rewrite bfilter_app, map_app. Qed.
Lemma written_pair k j w : written k (map (pair j) w) = if decide (j = k) then w else [].
Proof.
  unfold written. case_decide as H; induction w as [|y w IH]; cbn; try done.
  - rewrite (proj2 (Nat.eqb_eq _ _) H). cbn. by rewrite IH.
  - by rewrite (proj2 (Nat.eqb_neq _ _) H).
Qed.
Lemma written_fresh k log : Forall (λ e, e.1 < k) log → written k log = [].
Proof.
  intros H. unfold written. rewrite bfilter_none; [done|]. eapply Forall_impl; [done|].
  intros [j w] Hj; cbn in *. apply Nat.eqb_neq. lia.
Qed.

(** *** Any queue, a test in it several times included *)

(** The names of the tests are those of the start, and a call has written its
    first line and verdict lines of its test, as far as it has come. *)
Record runs_inv (x : run_exec) : Prop := {
  ri_control : control_inv tests n x;
  ri_names : ∀ p, name <$> re_store x !! p = name <$> store0 !! p;
  ri_call : ∀ k c, re_calls x !! k = Some c →
    ∃ t0, store0 !! c_ref c = Some t0 ∧ says s0 c t0 (written k (re_log x));
  ri_log : Forall (λ e, e.1 < length (re_calls x)) (re_log x);
  ri_same : same_status (re_status x) s0;
  ri_out : st_out (re_status x) = st_out s0 +:+ String.concat "" (map snd (re_log x))
}.

Lemma ri_length x : runs_inv x → length (re_store x) = length store0.
Proof.
  intros H. pose proof (ri_names _ H) as Hnm. apply Nat.le_antisymm; apply Nat.le_ngt; intros Hlt.
  - apply lookup_lt_is_Some in Hlt as [t Ht]. specialize (Hnm (length store0)).
    rewrite Ht, (lookup_ge_None_2 store0) in Hnm by lia. done.
  - apply lookup_lt_is_Some in Hlt as [t Ht]. specialize (Hnm (length (re_store x))).
    rewrite Ht, (lookup_ge_None_2 (re_store x)) in Hnm by lia. done.
Qed.

Lemma ri_test x p t0 : runs_inv x → store0 !! p = Some t0 → ∃ t, re_store x !! p = Some t ∧ name t = name t0.
Proof.
  intros H Hp. pose proof (ri_names _ H p) as Hnm. rewrite Hp in Hnm.
  destruct (re_store x !! p) as [t|]; [|done]. injection Hnm as Hnm. eauto.
Qed.

Lemma runs_call_step x x' k :
  step_run (RCall k) x = Some x' → control_inv tests n x' → runs_inv x → runs_inv x'.
Proof.
  intros Hs Hc' Hinv. pose proof Hinv as [Hc Hnm Hcall Hlog Hsame Hout]. cbn in Hs.
  destruct (re_calls x !! k) as [c|] eqn:Ek; [|done]. cbn in Hs.
  destruct (step_call c _ _) as [[[[c' store'] s'] w]|] eqn:Es; [|done].
  destruct (Hcall k c Ek) as (t0 & Ht0 & Hv).
  destruct (step_call_ref _ _ _ _ _ _ _ Es) as (Er & _).
  destruct (ri_test x _ t0 Hinv Ht0) as (t & Ht & Hname).
  destruct (step_call_says s0 _ _ _ _ _ _ _ _ _ _ Es Ht Hname Hv Hsame) as (t' & -> & Hn' & Hv' & Hss & Ho).
  simplify_eq. split; cbn [re_exec re_store re_status re_calls re_running re_log]; [done| | | | |].
  - intros p. rewrite list_lookup_insert. case_decide as Hp; [|done]. destruct Hp as [<- _].
    rewrite Ht0. cbn. by rewrite Hn'.
  - intros j d Hd. rewrite written_app, written_pair. destruct (decide (k = j)) as [<-|Hkj].
    + rewrite list_lookup_insert_eq in Hd by (by eapply lookup_lt_Some). injection Hd as <-.
      exists t0. by rewrite Er.
    + rewrite list_lookup_insert_ne in Hd by done. rewrite app_nil_r. by apply Hcall.
  - rewrite length_insert. apply Forall_app. split; [done|]. apply Forall_map.
    apply Forall_forall. intros y _. by eapply lookup_lt_Some.
  - by etrans.
  - rewrite Ho, Hout, map_app, concat_str_app, str_app_assoc. do 2 f_equal.
    rewrite map_map. cbn. by rewrite map_id.
Qed.

(** A goroutine enters [fn]. *)
Lemma runs_enter x e' who p t :
  re_store x !! p = Some t →
  let k := length (re_calls x) in
  let x' := mkRE e' (re_store x) (re_status x)
              (re_calls x ++ [mkCall p (e_child E (base + k) t) RBegin])
              (<[who := k]> (re_running x)) (re_log x) in
  control_inv tests n x' → runs_inv x → runs_inv x'.
Proof.
  intros Ht k x' Hc' [Hc Hnm Hcall Hlog Hsame Hout].
  split; cbn [x' re_exec re_store re_status re_calls re_running re_log]; try done.
  - intros j d Hd. apply lookup_snoc_Some in Hd as [[Hlt Hd]|[-> <-]]; [by apply Hcall|].
    specialize (Hnm p). rewrite Ht in Hnm. destruct (store0 !! p) as [t0|] eqn:E0; [|done].
    exists t0. split; [done|]. by apply written_fresh.
  - rewrite length_app. eapply Forall_impl; [done|]. intros e. cbn. lia.
Qed.

(** A step of the queue: nothing but the queue moves, or a goroutine enters
    [fn]. *)
Lemma step_queue_cases a x x' :
  step_queue a x = Some x' →
  (∃ e', x' = mkRE e' (re_store x) (re_status x) (re_calls x) (re_running x) (re_log x) ∧
         calls e' = calls (re_exec x)) ∨
  (∃ e' who p t, let k := length (re_calls x) in
     calls e' = calls (re_exec x) ++ [p] ∧ re_store x !! p = Some t ∧
     x' = mkRE e' (re_store x) (re_status x) (re_calls x ++ [mkCall p (e_child E (base + k) t) RBegin])
            (<[who := k]> (re_running x)) (re_log x)).
Proof.
  unfold step_queue. destruct (step nm ex a (re_exec x)) as [e'|] eqn:Ea; [|done].
  destruct (goroutine a) as [who|] eqn:Eg.
  - destruct (step_in_fn _ _ _ _ Ea Eg) as (He & _).
    destruct (waits_for_call x who); [done|].
    destruct (in_fn e' who) as [p|]; cbn in He; [|rewrite app_nil_r in He].
    + destruct (re_store x !! p) as [t|] eqn:Et; [|done]. intros [= <-]. right. by exists e', who, p, t.
    + intros [= <-]. left. eauto.
  - intros [= <-]. left. exists e'. split; [done|]. by apply (step_in_fn_none _ _ _ None Ea Eg).
Qed.

Lemma runs_step x x' : run_step x x' → runs_inv x → runs_inv x'.
Proof.
  intros [[a|k] Hs] Hinv;
    (assert (control_inv tests n x') as Hc' by (eapply control_step; [by eexists|apply Hinv])).
  - cbn in Hs. apply step_queue_cases in Hs as [(e' & -> & _)|(e' & who & p & t & _ & Ht & ->)].
    + destruct Hinv. by split.
    + by apply runs_enter.
  - by eapply runs_call_step.
Qed.

Lemma runs_reach x : rtc run_step start x → runs_inv x.
Proof.
  intros Hr. apply (rtc_preserve _ _ _ _ runs_step Hr).
  split; cbn; [apply control_start|done|done|by constructor|done|by rewrite str_app_nil_r].
Qed.

(** What a call that returned has written. *)
Definition reported (x : run_exec) (k p : nat) : Prop :=
  ∃ t t' f i, store0 !! p = Some t ∧ name t' = name t ∧
    written k (re_log x) = Sprintf_ints (started_format t) [f; i; total s0] :: end_chunks t' s0.

Lemma returned_reported x k c :
  runs_inv x → re_calls x !! k = Some c → returned c = true → reported x k (c_ref c).
Proof.
  intros Hinv Hk Hret. destruct (ri_call _ Hinv k c Hk) as (t0 & Ht0 & Hv).
  unfold says, returned in *. destruct (c_pc c); try done.
  destruct Hv as (y & t' & Hn' & (f & i & ->) & Hw). by exists t0, t', f, i.
Qed.

Lemma all_reported x :
  runs_inv x → Forall (λ c, returned c = true) (re_calls x) →
  ∀ k p, calls (re_exec x) !! k = Some p → reported x k p.
Proof.
  intros Hinv Hall k p Hk. rewrite <- (ci_refs _ _ _ (ri_control _ Hinv)), list_lookup_fmap in Hk.
  destruct (re_calls x !! k) as [c|] eqn:Ek; [|done]. injection Hk as <-.
  apply returned_reported; [done..|]. by apply (Forall_lookup_1 _ _ _ _ Hall Ek).
Qed.

(** *** A queue that holds every test once *)

Hypothesis Hnodup : NoDup tests.
Hypothesis Hindex : (index s0 ≤ total s0)%Z.

Definition call_failed_in (c : call) : bool :=
  match store0 !! c_ref c with Some t0 => call_failed c t0 | None => false end.

(** What the [k]-th call has done so far. *)
Definition call_ok (x : run_exec) (k : nat) (c : call) : Prop :=
  ∃ t0 t, store0 !! c_ref c = Some t0 ∧ re_store x !! c_ref c = Some t ∧
    c_child c = e_child E (base + k) t0 ∧ call_view s0 c t0 t (written k (re_log x)).

Record tests_inv (x : run_exec) : Prop := {
  ti_runs : runs_inv x;
  ti_idle : ∀ p, p ∉ calls (re_exec x) → re_store x !! p = store0 !! p;
  ti_call : ∀ k c, re_calls x !! k = Some c → call_ok x k c;
  ti_failures : failures (re_status x) =
    (failures s0 + Z.of_nat (count_of call_failed_in (re_calls x)))%Z;
  ti_index : index (re_status x) =
    Z.min (total s0) (index s0 + Z.of_nat (count_of started (re_calls x)))
}.

Lemma submseteq_NoDup {A} (l k : list A) : l ⊆+ k → NoDup k → NoDup l.
Proof. intros (l' & H)%submseteq_Permutation. rewrite H. by intros (? & _ & _)%NoDup_app. Qed.

Lemma tests_calls_NoDup x : control_inv tests n x → NoDup (calls (re_exec x)).
Proof.
  intros [H _ _]. apply (submseteq_NoDup _ tests); [|done].
  pose proof (inv_atmost _ _ _ (reachable_inv _ _ _ _ _ Hn H)) as Hs.
  etrans; [|apply Hs]. apply submseteq_inserts_r. done.
Qed.

Lemma count_of_insert {A} (p : A → bool) (l : list A) (k : nat) c c' :
  l !! k = Some c →
  (Z.of_nat (count_of p (<[k := c']> l)) =
   Z.of_nat (count_of p l) + b2z (p c') - b2z (p c))%Z.
Proof.
  revert k. induction l as [|a l IH]; intros [|k] Hk; simplify_eq/=.
  - unfold count_of. cbn. destruct (p c), (p c'); cbn; lia.
  - specialize (IH _ Hk). unfold count_of in *. cbn. destruct (p a); cbn; lia.
Qed.

Lemma count_of_app {A} (p : A → bool) l1 l2 : count_of p (l1 ++ l2) = count_of p l1 + count_of p l2.
Proof. unfold count_of. by rewrite bfilter_app, length_app. Qed.

(** A call of the queue. *)
Lemma tests_call_step x x' k :
  step_run (RCall k) x = Some x' → runs_inv x' → tests_inv x → tests_inv x'.
Proof.
  intros Hs Hr' [Hr Hidle Hcall Hf Hi]. pose proof (ri_control _ Hr) as Hc. cbn in Hs.
  destruct (re_calls x !! k) as [c|] eqn:Ek; [|done]. cbn in Hs.
  destruct (step_call c _ _) as [[[[c' store'] s'] w]|] eqn:Es; [|done].
  destruct (Hcall k c Ek) as (t0 & t & Ht0 & Ht & Hch & Hv).
  destruct (step_call_ref _ _ _ _ _ _ _ Es) as (Er & Ech & _).
  pose proof (ri_same _ Hr) as Hsame.
  destruct (step_call_view s0 _ _ _ _ _ _ _ _ _ _ Es Ht Hv Hsame) as (t' & -> & Hv' & Hss & Ho).
  assert (index (re_status x) ≤ total (re_status x))%Z as Hle.
  { destruct Hsame as (_ & _ & -> & _). rewrite Hi. lia. }
  destruct (step_call_counters s0 _ _ _ _ _ _ _ _ _ _ Es Ht Hv Hle) as [Hf' Hi'].
  simplify_eq. pose proof (tests_calls_NoDup x Hc) as Hnd. rewrite <- (ci_refs _ _ _ Hc) in Hnd.
  split; cbn [re_exec re_store re_status re_calls re_running re_log]; [done| | | |].
  - intros p Hp. rewrite list_lookup_insert_ne; [by apply Hidle|]. intros <-. apply Hp.
    rewrite <- (ci_refs _ _ _ Hc). apply list_elem_of_fmap. exists c. split; [done|].
    by eapply list_elem_of_lookup_2.
  - intros j d Hd. unfold call_ok. cbn [re_store re_log]. rewrite written_app, written_pair.
    destruct (decide (k = j)) as [<-|Hkj].
    + rewrite list_lookup_insert_eq in Hd by (by eapply lookup_lt_Some). injection Hd as <-.
      exists t0, t'. rewrite Er, Ech. split_and!; try done.
      rewrite list_lookup_insert_eq; [done|by eapply lookup_lt_Some].
    + rewrite list_lookup_insert_ne in Hd by done. rewrite app_nil_r.
      destruct (Hcall j d Hd) as (u0 & u & Hu0 & Hu & ?). exists u0, u. split; [done|].
      rewrite list_lookup_insert_ne; [done|]. intros Heq. apply Hkj.
      apply (NoDup_lookup _ _ _ (c_ref c) Hnd); rewrite list_lookup_fmap, ?Ek, ?Hd; cbn; congruence.
  - rewrite Hf', Hf, (count_of_insert _ _ _ _ _ Ek). unfold call_failed_in.
    rewrite Er, Ht0. lia.
  - rewrite Hi', Hi, (count_of_insert _ _ _ _ _ Ek).
    assert (total (re_status x) = total s0) as -> by (by destruct Hsame as (_ & _ & ? & _)).
    destruct (started c) eqn:E1, (started c') eqn:E2; cbn [b2z]; try lia.
    exfalso. clear -Es E1 E2. unfold step_call, started in *. repeat destr_match; by simplify_eq/=.
Qed.

(** A step of the queue alone. *)
Lemma tests_same x e' :
  calls e' = calls (re_exec x) →
  let x' := mkRE e' (re_store x) (re_status x) (re_calls x) (re_running x) (re_log x) in
  runs_inv x' → tests_inv x → tests_inv x'.
Proof. intros He x' Hr' []. split; try done; cbn; by rewrite He. Qed.

(** A goroutine enters [fn]. *)
Lemma tests_enter x e' who p t :
  calls e' = calls (re_exec x) ++ [p] → re_store x !! p = Some t →
  let k := length (re_calls x) in
  let x' := mkRE e' (re_store x) (re_status x)
              (re_calls x ++ [mkCall p (e_child E (base + k) t) RBegin])
              (<[who := k]> (re_running x)) (re_log x) in
  runs_inv x' → tests_inv x → tests_inv x'.
Proof.
  intros He Ht k x' Hr' [Hr Hidle Hcall Hf Hi].
  pose proof (tests_calls_NoDup x' (ri_control _ Hr')) as Hnd. cbn in Hnd. rewrite He in Hnd.
  apply NoDup_app in Hnd as (_ & Hp & _).
  assert (store0 !! p = Some t) as Ht0.
  { rewrite <- Hidle; [done|]. intros Hin. apply (Hp p Hin). by left. }
  split; cbn [x' re_exec re_store re_status re_calls re_running re_log]; try done.
  - intros q. rewrite He, elem_of_app. intros Hq. apply Hidle. tauto.
  - intros j d Hd. apply lookup_snoc_Some in Hd as [[Hlt Hd]|[-> <-]].
    + destruct (Hcall j d Hd) as (u0 & u & ?). by exists u0, u.
    + exists t, t. cbn. split_and!; try done. apply written_fresh, (ri_log _ Hr).
  - rewrite Hf, count_of_app. unfold count_of at 3, call_failed_in at 3. cbn. rewrite Ht0. cbn. lia.
  - rewrite Hi, count_of_app. unfold count_of at 3. cbn. lia.
Qed.

Lemma tests_step x x' : run_step x x' → tests_inv x → tests_inv x'.
Proof.
  intros Hs Hinv. assert (runs_inv x') as Hr' by (by eapply runs_step, Hinv).
  destruct Hs as [[a|k] Hs]; [|by eapply tests_call_step].
  cbn in Hs. apply step_queue_cases in Hs as [(e' & -> & He)|(e' & who & p & t & He & Ht & ->)].
  - by apply tests_same.
  - by apply tests_enter.
Qed.

Lemma tests_reach x : rtc run_step start x → tests_inv x.
Proof.
  intros Hr. apply (rtc_preserve _ _ _ _ tests_step Hr). split; cbn; try done.
  - by apply runs_reach.
  - lia.
  - lia.
Qed.

Lemma ti_control x : tests_inv x → control_inv tests n x.
Proof. intros H. apply H. Qed.
Lemma ti_same x : tests_inv x → same_status (re_status x) s0.
Proof. intros H. apply H. Qed.

(** What an [Execute] that returned has done. *)
Lemma returned_spec x :
  rtc run_step start x → main (re_exec x) = MReturn →
  let σ := calls (re_exec x) in
  length (re_calls x) = length σ ∧ NoDup σ ∧
  (∀ p, p ∉ σ → re_store x !! p = store0 !! p) ∧
  (∀ k p, σ !! k = Some p → ∃ t0, store0 !! p = Some t0 ∧
     re_store x !! p = Some (run_result (e_child E (base + k) t0) t0) ∧
     ∃ l, first_line s0 t0 l ∧
          written k (re_log x) = l :: end_chunks (run_result (e_child E (base + k) t0) t0) s0).
Proof.
  intros Hr Hm σ. pose proof (tests_reach x Hr) as Hinv.
  pose proof (control_returned _ _ _ _ _ Hn Hr Hm) as Hret.
  pose proof (ci_refs _ _ _ (ti_control _ Hinv)) as Hrefs. fold σ in Hrefs.
  split_and!.
  - by rewrite <- Hrefs, length_map.
  - by apply tests_calls_NoDup, ti_control.
  - apply (ti_idle _ Hinv).
  - intros k p Hk. rewrite <- Hrefs, list_lookup_fmap in Hk.
    destruct (re_calls x !! k) as [c|] eqn:Ek; [|done]. injection Hk as <-.
    destruct (ti_call _ Hinv k c Ek) as (t0 & t & Ht0 & Ht & Hch & Hv).
    pose proof (Forall_lookup_1 _ _ _ _ Hret Ek) as Hc. unfold returned in Hc. cbn in Hc.
    unfold call_view in Hv. destruct (c_pc c); try done. rewrite Hch in Hv.
    destruct Hv as [-> Hv]. eauto.
Qed.

Lemma returned_failures x :
  rtc run_step start x → main (re_exec x) = MReturn →
  count_of call_failed_in (re_calls x) = count_of (fails_in (re_store x)) (calls (re_exec x)) ∧
  count_of started (re_calls x) = length (calls (re_exec x)).
Proof.
  intros Hr Hm. pose proof (tests_reach x Hr) as Hinv.
  pose proof (control_returned _ _ _ _ _ Hn Hr Hm) as Hret.
  rewrite <- (ci_refs _ _ _ (ti_control _ Hinv)), length_map.
  pose proof (ti_call _ Hinv) as Hcall. unfold call_ok in Hcall.
  revert Hcall. generalize (re_log x) as log, (re_store x) as store. intros log store.
  assert (∀ l, Forall (λ c, returned c = true) l →
    (∀ c, c ∈ l → ∃ t0, store0 !! c_ref c = Some t0 ∧
                        store !! c_ref c = Some (run_result (c_child c) t0)) →
    count_of call_failed_in l = count_of (fails_in store) (map c_ref l) ∧
    count_of started l = length l) as H.
  { unfold count_of. induction 1 as [|c l Hc _ IH]; intros Hl; cbn; [done|].
    destruct IH as [IH1 IH2]; [intros; apply Hl; by right|].
    destruct (Hl c) as (t0 & Ht0 & Ht); [by left|].
    unfold call_failed_in at 1, fails_in at 1, call_failed. rewrite Hc, Ht0, Ht. cbn [andb].
    assert (started c = true) as -> by (unfold returned, started in *; by destruct (c_pc c)).
    cbn. split; [|by rewrite IH2]. destruct (report_fails _); cbn; by rewrite IH1. }
  intros Hcall. apply H; [done|]. intros c Hc. apply list_elem_of_lookup_1 in Hc as [k Hk].
  destruct (Hcall k c Hk) as (t0 & t & Ht0 & Ht & _ & Hv). exists t0. split; [done|].
  pose proof (Forall_lookup_1 _ _ _ _ Hret Hk) as Hr1. unfold returned in Hr1. cbn in Hr1.
  unfold call_view in Hv. destruct (c_pc c); try done. destruct Hv as [<- _]. done.
Qed.

Lemma Execute_in_order x :
  rtc run_step start x → main (re_exec x) = MReturn →
  let σ := calls (re_exec x) in
  ∃ s', run_in_order E σ (store0, base, s0) = (re_store x, base + length σ, s') ∧
    failures (re_status x) = failures s' ∧ index (re_status x) = index s' ∧
    same_status (re_status x) s'.
Proof.
  intros Hr Hm σ. pose proof (tests_reach x Hr) as Hinv.
  destruct (returned_spec x Hr Hm) as (Hlen & Hnd & Hidle & Hrun). fold σ in Hlen, Hnd, Hidle, Hrun.
  assert (Forall (λ p, is_Some (store0 !! p)) σ) as Hσ.
  { apply Forall_lookup. intros k p Hk. destruct (Hrun k p Hk) as (t0 & -> & _). eauto. }
  pose proof (run_in_order_spec E σ store0 base s0 Hnd Hσ Hindex) as Hseq.
  destruct (run_in_order _ _) as [[store' k'] s']. destruct Hseq as [H1 -> H3 H4 H5 H6 H7].
  assert (store' = re_store x) as ->.
  { apply list_eq. intros p. destruct (decide (p ∈ σ)) as [Hp|Hp]; [|by rewrite H6, Hidle].
    apply list_elem_of_lookup_1 in Hp as [k Hk].
    destruct (Hrun k p Hk) as (t0 & Ht0 & -> & _), (H7 k p Hk) as (t1 & Ht1 & ->). congruence. }
  destruct (returned_failures x Hr Hm) as [Hcf Hcs].
  exists s'. split; [done|]. rewrite (ti_failures _ Hinv), (ti_index _ Hinv), Hcf, Hcs, H4, H5.
  split_and!; [done|done|]. etrans; [apply (ti_same _ Hinv)|].
  destruct H3 as (? & ? & ? & ? & ?). by split_and!.
Qed.

(** ** Progress *)

(** No goroutine and no call can move. *)
Definition run_stalled (x : run_exec) : Prop :=
  (∀ k, step_run (RCall k) x = None) ∧
  step_run (RQueue AMain) x = None ∧ ∀ i, step_run (RQueue (AWorker i)) x = None.

Lemma step_call_moves c store s :
  is_Some (store !! c_ref c) → returned c = false → is_Some (step_call c store s).
Proof.
  intros [t Ht] Hr. unfold step_call, returned in *. rewrite Ht.
  destruct (c_child c) as [[st en] res]. destruct (c_pc c) as [| | |[|y l] [|]|]; eauto; done.
Qed.

Lemma stalled_returned x k c :
  runs_inv x → (∀ j, step_run (RCall j) x = None) → re_calls x !! k = Some c → returned c = true.
Proof.
  intros Hinv Hcalls Hk. destruct (returned c) eqn:Ec; [done|exfalso].
  destruct (ri_call _ Hinv k c Hk) as (t0 & Ht0 & _).
  destruct (ri_test x _ t0 Hinv Ht0) as (t & Ht & _).
  specialize (Hcalls k). cbn in Hcalls. rewrite Hk in Hcalls. cbn in Hcalls.
  destruct (step_call_moves c (re_store x) (re_status x)) as [[[[c' st'] s'] w] Hc];
    [eauto|done|]. by rewrite Hc in Hcalls.
Qed.

Lemma run_stalled_action x a :
  Forall (λ p, is_Some (store0 !! p)) tests → runs_inv x →
  (∀ k, step_run (RCall k) x = None) → step_run (RQueue a) x = None → step nm ex a (re_exec x) = None.
Proof.
  intros Hrange Hinv Hcalls Ha. cbn in Ha. unfold step_queue in Ha.
  destruct (step nm ex a (re_exec x)) as [e'|] eqn:Ea; [exfalso|done].
  destruct (goroutine a) as [who|] eqn:Eg; [|done].
  destruct (waits_for_call x who) eqn:Ew.
  - unfold waits_for_call in Ew. destruct (in_fn (re_exec x) who) as [p|]; [|done].
    destruct (re_running x !! who) as [k|]; cbn in Ew; [|done].
    destruct (re_calls x !! k) as [c|] eqn:Ek; [|done].
    by rewrite (stalled_returned x k c Hinv Hcalls Ek) in Ew.
  - destruct (step_in_fn _ _ _ _ Ea Eg) as (He & _).
    destruct (in_fn e' who) as [p|]; cbn in He; [|done].
    destruct (re_store x !! p) as [t|] eqn:Et; [done|].
    assert (p ∈ tests) as Hp.
    { assert (rtc (exec_step nm ex) (Execute_start tests n) e') as Hr.
      { eapply rtc_r; [apply (ci_reach _ _ _ (ri_control _ Hinv))|by exists a]. }
      eapply elem_of_submseteq; [|apply (inv_atmost _ _ _ (reachable_inv _ _ _ _ _ Hn Hr))].
      rewrite He, !elem_of_app. left. right. by left. }
    rewrite Forall_forall in Hrange. destruct (Hrange p Hp) as [t Ht].
    destruct (ri_test x p t Hinv Ht) as (u & Hu & _). congruence.
Qed.

(** The calls never block the queue: a run that cannot move is one whose queue
    cannot. *)
Lemma run_stalled_queue x :
  Forall (λ p, is_Some (store0 !! p)) tests →
  rtc run_step start x → run_stalled x → stalled nm ex (re_exec x).
Proof.
  intros Hrange Hr (H1 & H2 & H3). pose proof (runs_reach x Hr) as Hinv.
  split; [|intros i]; by eapply run_stalled_action.
Qed.
End Tests.
End RunExec.

(** ** The properties *)

Section Properties.
Variables (E : run_env) (nm ex : nat → string) (base : nat).
Variables (tests : list nat) (n : nat) (store : list testCase) (s : testStatus).
Notation start := (run_start tests n store s).
Notation steps := (rtc (run_step E nm ex base) start).

(** C3: running the tests of a queue at the same time ends as running them one
    after the other in the order in which they were started: when an
    uncancelled [Execute] of [status.Run] returns, whatever the interleaving
    of its workers and of the steps of the calls, the calls are the tests of
    the queue, each as often as it was queued, and none is left unfinished;
    and if the queue holds no test twice (a suite that is run once, [count] at
    most 1), the tests hold what the sequential run puts in them and the
    counters of the status line agree.  A test queued several times is shared
    by its calls, and nothing is claimed of its flags. *)
Theorem Execute_refines_sequential x :
  0 < n → (index s ≤ total s)%Z →
  steps x → main (re_exec x) = MReturn → ctx_done (re_exec x) = false →
  let σ := calls (re_exec x) in
  σ ≡ₚ tests ∧ map c_ref (re_calls x) = σ ∧
  Forall (λ c, c_pc c = RReturned) (re_calls x) ∧
  (NoDup tests →
   ∃ s', fold_left (λ y p, run_one E p y) σ (store, base, s) =
           (re_store x, base + length tests, s') ∧
     failures (re_status x) = failures s' ∧ index (re_status x) = index s').
Proof.
  intros Hn Hi Hr Hm Hc σ.
  pose proof (control_reach E nm ex base tests n _ _ _ Hr) as [Hq Hrefs _].
  pose proof (inv_exact _ _ _ (reachable_inv _ _ _ _ _ Hn Hq) Hc) as Hp.
  unfold todo in Hp. rewrite Hm, app_nil_r in Hp. split; [done|]. split; [done|]. split.
  - eapply Forall_impl; [by eapply control_returned|]. intros c. unfold returned.
    by destruct (c_pc c).
  - intros Hnd. destruct (Execute_in_order E nm ex base tests n store s Hn Hnd Hi x Hr Hm)
      as (s' & Hs & Hf & Hx & _).
    exists s'. rewrite <- Hp. by split_and!.
Qed.

(** C4: the output of a run is the writes of its calls, none lost and none
    written twice: what a call wrote is its "started" line followed by the
    lines of one verdict of a test of that name, in this order, although other
    calls may write between them.  When the queue holds no test twice the
    verdict is the one the test ends with; a test queued several times is
    shared by its calls, and a call then reports the flags it finds in it when
    it ends. *)
Theorem Execute_output x :
  0 < n → (index s ≤ total s)%Z →
  steps x → main (re_exec x) = MReturn →
  st_out (re_status x) = st_out s +:+ String.concat "" (map snd (re_log x)) ∧
  (∀ k w, (k, w) ∈ re_log x → k < length (calls (re_exec x))) ∧
  (∀ k p, calls (re_exec x) !! k = Some p → ∃ t t' f i,
     store !! p = Some t ∧ name t' = name t ∧
     map snd (bfilter (λ e, Nat.eqb e.1 k) (re_log x)) =
       Sprintf_ints (started_format t) [f; i; total s] :: end_chunks t' s ∧
     (NoDup tests → re_store x !! p = Some t')).
Proof.
  intros Hn Hi Hr Hm. pose proof (runs_reach E nm ex base tests n store s Hn x Hr) as Hinv.
  split; [by apply Hinv|]. split.
  - intros k w Hk. rewrite <- (ci_refs _ _ _ _ _ (ri_control _ _ _ _ _ _ _ Hinv)), length_map.
    pose proof (ri_log _ _ _ _ _ _ _ Hinv) as H. rewrite Forall_forall in H. by apply (H (k, w)).
  - intros k p Hk. destruct (decide (NoDup tests)) as [Hnd|Hnd].
    + destruct (returned_spec E nm ex base tests n store s Hn Hnd Hi x Hr Hm) as (_ & _ & _ & Hrun).
      destruct (Hrun k p Hk) as (t0 & Ht0 & Ht & l & (f & i & ->) & Hw).
      exists t0. eexists _, f, i. split; [done|]. rewrite run_result_name. by split_and!.
    + destruct (all_reported nm ex tests n store s x Hinv (control_returned _ _ _ _ _ _ _ _ _ Hn Hr Hm) k p Hk)
        as (t & t' & f & i & Ht & Hnm & Hw).
      exists t, t', f, i. by split_and!.
Qed.

(** C5: the calls of [status.Run] never block the queue: a run that stops
    before it returns is the lost wake-up of the queue.  A worker sleeps on an
    empty queue, every call that was made has returned and has written its
    "started" line and a verdict, and unless the run was cancelled the tests
    that are not serial have all been run (each as often as it was queued), the
    serial ones are set aside and none of them is ever run. *)
Theorem Execute_run_stall x :
  0 < n → Forall (λ p, is_Some (store !! p)) tests →
  steps x → run_stalled E nm ex base x → main (re_exec x) ≠ MReturn →
  let e := re_exec x in
  PSleep ∈ pcs e ∧ q_ring (ex_queue e) = [] ∧
  (∀ k p, calls e !! k = Some p →
     ∃ t t' f i, store !! p = Some t ∧ name t' = name t ∧
       map snd (bfilter (λ w, Nat.eqb w.1 k) (re_log x)) =
         Sprintf_ints (started_format t) [f; i; total s] :: end_chunks t' s) ∧
  (ctx_done e = false →
     calls e ++ serial e ≡ₚ tests ∧
     Forall (λ p, Contains (nm p) "[Serial]" = false) (calls e) ∧
     Forall (λ p, Contains (nm p) "[Serial]" = true) (serial e)).
Proof.
  intros Hn Hrange Hr Hst Hm e. pose proof (runs_reach E nm ex base tests n store s Hn x Hr) as Hinv.
  pose proof (run_stalled_queue E nm ex base tests n store s Hn x Hrange Hr Hst) as Hq.
  pose proof (ci_reach _ _ _ _ _ (ri_control _ _ _ _ _ _ _ Hinv)) as Hreach.
  destruct (stalled_cases _ _ _ _ _ Hn Hreach Hq Hm) as (_ & Hsl & _ & Hring).
  split; [done|]. split; [done|]. split.
  - apply (all_reported nm ex tests n store s x Hinv). apply Forall_lookup. intros k c Hk.
    eapply stalled_returned; [done| |done]. apply Hst.
  - intros Hc. by destruct (Execute_stall _ _ _ _ _ Hn Hreach Hc Hq Hm) as (_ & _ & H).
Qed.
End Properties.

(** ** A run of two tests by two workers *)

Definition two_run : run_exec :=
  run_start [0; 1] 2 (w_store ab_store) (newTestStatus "" false 2 Minute None []).
Definition two_step (l : list run_action) : option run_exec :=
  run_actions (env_of [1; 0]%Z) (deref_name (w_store ab_store))
    (deref_exclusion (w_store ab_store)) 0 l two_run.
Definition two_schedule : list run_action :=
  let w0 := RQueue (AWorker 0) in let w1 := RQueue (AWorker 1) in
  [w0; w1; w0; w1; RCall 1; RCall 0; RCall 1; RCall 0; RCall 1; RCall 0; RCall 1; RCall 0;
   RCall 1; RCall 0; w1; RCall 0; w1; RCall 0; w0; w1; w0; w0; RQueue AMain; RQueue AMain].

Lemma two_reach l x :
  two_step l = Some x →
  rtc (run_step (env_of [1; 0]%Z) (deref_name (w_store ab_store))
         (deref_exclusion (w_store ab_store)) 0) two_run x.
Proof. apply run_actions_rtc. Qed.

Lemma two_nodup : NoDup [0; 1].
Proof. by apply (bool_decide_unpack _). Qed.

Example Execute_refines_sequential_witness :
  ∃ x, two_step two_schedule = Some x ∧ calls (re_exec x) ≡ₚ [0; 1].
Proof.
  destruct (two_step two_schedule) as [x|] eqn:H; [|vm_compute in H; discriminate].
  exists x. split; [done|]. pose proof H as Hx. vm_compute in H. injection H as H.
  apply (Execute_refines_sequential (env_of [1; 0]%Z) (deref_name (w_store ab_store))
           (deref_exclusion (w_store ab_store)) 0 [0; 1] 2 (w_store ab_store)
           (newTestStatus "" false 2 Minute None []));
    [lia|done|by apply (two_reach two_schedule)|by rewrite <- H..].
Defined.

Example Execute_output_witness :
  ∃ x, two_step two_schedule = Some x ∧
    st_out (re_status x) = String.concat "" (map snd (re_log x)).
Proof.
  destruct (two_step two_schedule) as [x|] eqn:H; [|vm_compute in H; discriminate].
  exists x. split; [done|]. pose proof H as Hx. vm_compute in H. injection H as H.
  apply (Execute_output (env_of [1; 0]%Z) (deref_name (w_store ab_store))
           (deref_exclusion (w_store ab_store)) 0 [0; 1] 2 (w_store ab_store)
           (newTestStatus "" false 2 Minute None []));
    [lia|done|by apply (two_reach two_schedule)|by rewrite <- H].
Defined.

(** The lost wake-up of QueueExec, with the calls. *)
Definition lost_names (p : nat) : string := if Nat.eqb p 0 then "a" else "[Serial] b".
Definition lost_actions : list run_action :=
  let w0 := RQueue (AWorker 0) in let w1 := RQueue (AWorker 1) in
  [w0; w1; w0] ++ replicate 7 (RCall 0) ++ replicate 6 w0 ++ [w1].

Example Execute_run_stall_witness :
  ∃ x, run_actions (env_of [1]%Z) lost_names (λ _, "f.go"%string) 0 lost_actions two_run = Some x ∧
    PSleep ∈ pcs (re_exec x).
Proof.
  destruct (run_actions _ _ _ _ _ _) as [x|] eqn:H; [|vm_compute in H; discriminate].
  exists x. split; [done|]. pose proof H as Hx. vm_compute in H. injection H as H.
  apply (Execute_run_stall (env_of [1]%Z) lost_names (λ _, "f.go"%string) 0 [0; 1] 2
           (w_store ab_store) (newTestStatus "" false 2 Minute None []));
    [lia|by repeat constructor; eexists|by eapply run_actions_rtc| |
     by rewrite <- H].
  rewrite <- H. split; [by intros [|k]|]. split; [done|]. by intros [|[|i]].
Defined.
