(* ===== verification/RunPhases.v ===== *)
(** * The two phases of a run, and what does not depend on the schedule

    [run_phases] of RunSuite takes the order of the calls from [e_schedule].
    Here: the orders that two concurrent [Execute]s choose are such a schedule;
    with any of them each test is run as often as it was queued, smoke tests
    first, and holds the result of its own child if it was queued once; and when what a child does depends on the test
    alone, the result of the run, the reports and the tests do not depend on
    the schedule. *)

From S2P Require Import Prelude.
From S2P Require Import GoStrings.
From S2P Require Import GoLib.
From S2P Require Import MonitorTypes.
From S2P Require Import Queue.
From S2P Require Import QueueExec.
From S2P Require Import TestCase.
From S2P Require Import Junit.
From S2P Require Import Status.
From S2P Require Import RunSuite.
From S2P Require Import RunExec.

(** The same run with another schedule. *)
Definition with_schedule (E : run_env) (f : list nat → list nat) : run_env :=
  mkEnv (e_args0 E) (e_stdin E) (e_file E) (e_specs E) (e_iter_err E) (e_compile E) (e_stat E)
    (e_mkdir E) (e_monitor E) (e_child E) f (e_start E) (e_end E) (e_now E) (e_interrupt E)
    (e_sort E) (e_sort_tests E) (e_write E).

Definition is_smoke (store : list testCase) (p : nat) : bool :=
  Contains (deref_name store p) "[Smoke]".

Lemma splitTests_bfilter fn tests :
  splitTests fn tests = (bfilter fn tests, bfilter (λ p, negb (fn p)) tests).
Proof.
  induction tests as [|t ts IH]; cbn; [done|]. rewrite IH. by destruct (fn t).
Qed.

(** ** Any schedule: each test once, with the result of its child *)

Section Phases.
Context {G : Type}.
Variables (E : run_env) (opt : Options (G := G)) (ev : time → time → list EventInterval).
Variables (tmo : duration) (tests : list nat) (w : run_state).

Definition smoke_tests : list nat := bfilter (is_smoke (w_store w)) tests.
Definition normal_tests : list nat := bfilter (λ p, negb (is_smoke (w_store w) p)) tests.

(** The status of the run. *)
Definition phases_status : testStatus :=
  newTestStatus (w_out w) (IncludeSuccessOutput opt || Nat.eqb (length tests) 1)
    (Z.of_nat (length tests)) tmo (Some ev) (AsEnv opt).

Lemma run_phases_eq :
  run_phases E opt ev tmo tests w =
  let '(store, calls, s) :=
    run_queue E normal_tests (run_queue E smoke_tests (w_store w, w_calls w, phases_status)) in
  (Ret tt, mkRun (st_out s) (w_err w) store calls (w_reports w)).
Proof. unfold run_phases. rewrite splitTests_bfilter. done. Qed.

Lemma NoDup_bfilter {A} (p : A → bool) l : NoDup l → NoDup (bfilter p l).
Proof. intros H. eapply sublist_NoDup; [|apply bfilter_sublist]. done. Qed.

Lemma smoke_normal_perm : smoke_tests ++ normal_tests ≡ₚ tests.
Proof. apply bfilter_perm_split. Qed.

Lemma bfilter_subset {A} (p : A → bool) l : bfilter p l ⊆ l.
Proof. intros x Hx. by apply elem_of_bfilter in Hx as [? _]. Qed.

Lemma in_range_length (l1 l2 : list testCase) σ :
  length l2 = length l1 →
  Forall (λ p, is_Some (l1 !! p)) σ → Forall (λ p, is_Some (l2 !! p)) σ.
Proof.
  intros Hl H. eapply Forall_impl; [done|]. intros p [t Ht%lookup_lt_Some].
  apply lookup_lt_is_Some. lia.
Qed.

Lemma seq_in_range (l1 l2 : list testCase) :
  Forall (λ p, is_Some ((l1 ++ l2) !! p)) (seq (length l1) (length l2)).
Proof. apply Forall_seq. intros p Hp. apply lookup_lt_is_Some. rewrite length_app. lia. Qed.

Lemma tests_in_range σ :
  σ ⊆ tests → Forall (λ p, is_Some (w_store w !! p)) tests → Forall (λ p, is_Some (w_store w !! p)) σ.
Proof. rewrite !Forall_forall. intros Hs H p Hp. apply H, Hs, Hp. Qed.
End Phases.

(** The flags of a test that had none, from the exit status of its child. *)
Lemma run_result_flags c t :
  success t = false → skipped t = false → failed t = false →
  (success (run_result c t), skipped (run_result c t), failed (run_result c t)) =
  match c.2.2 with
  | CmdOk => (true, false, false)
  | CmdExit z => if (z =? 3)%Z then (false, true, false) else (false, false, true)
  | CmdOther _ => (false, false, true)
  end.
Proof.
  intros H1 H2 H3. destruct c as [[st en] [o [|z|m]]]; cbn; rewrite ?H1, ?H2, ?H3; try done.
  destruct (Z.eqb_spec z 1) as [->|]; [cbn; by rewrite H1, H2|].
  destruct (Z.eqb_spec z 2) as [->|]; [cbn; by rewrite H1, H2|].
  destruct (z =? 3)%Z; cbn; by rewrite ?H1, ?H2, ?H3.
Qed.

(** What the tests hold does not depend on the status. *)
Lemma run_in_order_status E σ store k s s' :
  (run_in_order E σ (store, k, s)).1 = (run_in_order E σ (store, k, s')).1.
Proof.
  unfold run_in_order. revert store k s s'. induction σ as [|p σ IH]; intros store k s s'; [done|].
  cbn [fold_left]. unfold run_one at 2 4. destruct (store !! p) as [t|]; [|apply IH].
  destruct (e_child E k t) as [[st en] res]. unfold Run_test. apply IH.
Qed.

Lemma run_in_order_app E σ1 σ2 x :
  run_in_order E (σ1 ++ σ2) x = run_in_order E σ2 (run_in_order E σ1 x).
Proof. apply fold_left_app. Qed.

(** Nor do the counters depend on what was printed. *)
Lemma run_in_order_counters E σ store k s1 s2 :
  NoDup σ → Forall (λ p, is_Some (store !! p)) σ → (index s1 ≤ total s1)%Z →
  index s1 = index s2 → failures s1 = failures s2 → total s1 = total s2 →
  index (run_in_order E σ (store, k, s1)).2 = index (run_in_order E σ (store, k, s2)).2 ∧
  failures (run_in_order E σ (store, k, s1)).2 = failures (run_in_order E σ (store, k, s2)).2.
Proof.
  intros Hnd Hr Hi1 Hi Hf Ht. assert (index s2 ≤ total s2)%Z as Hi2 by lia.
  pose proof (run_in_order_spec E σ store k s1 Hnd Hr Hi1) as H1.
  pose proof (run_in_order_spec E σ store k s2 Hnd Hr Hi2) as H2.
  pose proof (run_in_order_status E σ store k s1 s2) as Hs.
  destruct (run_in_order E σ (_, _, s1)) as [[st1 k1] u1], (run_in_order E σ (_, _, s2)) as [[st2 k2] u2].
  cbn in *. injection Hs as -> ->. destruct H1 as [_ _ _ -> -> _ _], H2 as [_ _ _ -> -> _ _].
  by rewrite Hi, Hf, Ht.
Qed.

Lemma run_queue_schedule E f l x : run_queue (with_schedule E f) l x = run_in_order E (f l) x.
Proof. done. Qed.

(** ** The concurrent phases *)

Section Concurrent.
Context {G : Type}.
Variables (E : run_env) (opt : Options (G := G)) (ev : time → time → list EventInterval).
Variables (tmo : duration) (tests : list nat) (w : run_state) (n : nat).

Let nm := deref_name (w_store w).
Let ex := deref_exclusion (w_store w).

(** The two [Execute]s of a run that is not cancelled: the second starts with
    what the first left. *)
(* src: pkg/test/ginkgo/cmd_runsuite.go 202-216 Options.Run (two Execute calls) *)
Definition phases_reach (x1 x2 : run_exec) : Prop :=
  rtc (run_step E nm ex (w_calls w))
    (run_start (smoke_tests tests w) n (w_store w) (phases_status opt ev tmo tests w)) x1 ∧
  main (re_exec x1) = MReturn ∧ ctx_done (re_exec x1) = false ∧
  rtc (run_step E nm ex (w_calls w + length (re_calls x1)))
    (run_start (normal_tests tests w) n (re_store x1) (re_status x1)) x2 ∧
  main (re_exec x2) = MReturn ∧ ctx_done (re_exec x2) = false.

(** The order in which a queue started its calls. *)
Definition observed_schedule (x1 x2 : run_exec) (l : list nat) : list nat :=
  if decide (l = smoke_tests tests w) then calls (re_exec x1) else calls (re_exec x2).

Lemma returned_perm nm' ex' l m x :
  0 < m → rtc (exec_step nm' ex') (Execute_start l m) x → main x = MReturn → ctx_done x = false →
  (calls x : list nat) ≡ₚ l.
Proof.
  intros Hm Hr Hret Hc. pose proof (inv_exact _ _ _ (reachable_inv _ _ _ _ _ Hm Hr) Hc) as Hp.
  unfold todo in Hp. by rewrite Hret, app_nil_r in Hp.
Qed.

Lemma smoke_is_normal : NoDup tests →
  smoke_tests tests w = normal_tests tests w → normal_tests tests w = [].
Proof.
  intros _ H. destruct (normal_tests tests w) as [|p l] eqn:El; [done|exfalso].
  assert (p ∈ normal_tests tests w) as H2 by (rewrite El; by left).
  assert (p ∈ smoke_tests tests w) as H1 by (rewrite H; by left).
  apply elem_of_bfilter in H1 as [_ H1], H2 as [_ H2]. by rewrite H1 in H2.
Qed.
End Concurrent.

(** Whatever the queue holds, its calls are its tests, smoke tests first. *)
Lemma phases_calls {G} E (opt : Options (G := G)) ev tmo tests w n x1 x2 :
  0 < n → phases_reach E opt ev tmo tests w n x1 x2 →
  (calls (re_exec x1) ≡ₚ smoke_tests tests w) ∧ (calls (re_exec x2) ≡ₚ normal_tests tests w) ∧
  length (re_calls x1) = length (calls (re_exec x1)) ∧
  length (re_calls x1) + length (re_calls x2) = length tests.
Proof.
  intros Hn (Hr1 & Hm1 & Hc1 & Hr2 & Hm2 & Hc2).
  pose proof (control_reach _ _ _ _ _ _ _ _ _ Hr1) as [Hq1 Hl1 _].
  pose proof (control_reach _ _ _ _ _ _ _ _ _ Hr2) as [Hq2 Hl2 _].
  pose proof (returned_perm _ _ _ _ _ Hn Hq1 Hm1 Hc1) as Hp1.
  pose proof (returned_perm _ _ _ _ _ Hn Hq2 Hm2 Hc2) as Hp2.
  apply (f_equal length) in Hl1, Hl2. rewrite length_map in Hl1, Hl2.
  split_and!; [done..|]. rewrite Hl1, Hl2, Hp1, Hp2, <- length_app. by rewrite smoke_normal_perm.
Qed.

(** Two queues without repetitions end as the calls of both one after the
    other. *)
Lemma phases_in_order {G} E (opt : Options (G := G)) ev tmo tests w n x1 x2 :
  NoDup tests → 0 < n → phases_reach E opt ev tmo tests w n x1 x2 →
  let σ := calls (re_exec x1) ++ calls (re_exec x2) in
  ∃ s', run_in_order E σ (w_store w, w_calls w, phases_status opt ev tmo tests w) =
    (re_store x2, w_calls w + length tests, s') ∧
    index (re_status x2) = index s' ∧ failures (re_status x2) = failures s' ∧
    Forall (λ p, is_Some (w_store w !! p)) σ.
Proof.
  intros Hnd Hn Hph σ. destruct (phases_calls _ _ _ _ _ _ _ _ _ Hn Hph) as (Hp1 & Hp2 & Hl1 & Hlen).
  pose proof (control_reach _ _ _ _ _ _ _ _ _ (proj1 (proj2 (proj2 (proj2 Hph))))) as [_ Hl2 _].
  apply (f_equal length) in Hl2. rewrite length_map in Hl2.
  destruct Hph as (Hr1 & Hm1 & Hc1 & Hr2 & Hm2 & Hc2).
  assert (NoDup (smoke_tests tests w) ∧ NoDup (normal_tests tests w)) as [Hnd1 Hnd2]
    by (split; by apply NoDup_bfilter).
  assert (index (phases_status opt ev tmo tests w) ≤ total (phases_status opt ev tmo tests w))%Z
    as Hi1 by (cbn; lia).
  destruct (Execute_in_order _ _ _ _ _ _ _ _ Hn Hnd1 Hi1 x1 Hr1 Hm1)
    as (s1 & Hs1 & Hf1 & Hx1 & _ & _ & Ht1 & _).
  pose proof (tests_reach _ _ _ _ _ _ _ _ Hn Hnd1 Hi1 x1 Hr1) as Hinv1.
  destruct (returned_spec _ _ _ _ _ _ _ _ Hn Hnd1 Hi1 x1 Hr1 Hm1) as (_ & _ & Hidle1 & Hrun1).
  assert (index (re_status x1) ≤ total (re_status x1))%Z as Hi2.
  { rewrite (ti_index _ _ _ _ _ _ _ _ _ Hinv1). destruct (ti_same _ _ _ _ _ _ _ _ _ Hinv1) as (_ & _ & -> & _). lia. }
  destruct (Execute_in_order _ _ _ _ _ _ _ _ Hn Hnd2 Hi2 x2 Hr2 Hm2) as (s2 & Hs2 & Hf2 & Hx2 & _).
  destruct (returned_spec _ _ _ _ _ _ _ _ Hn Hnd2 Hi2 x2 Hr2 Hm2) as (_ & _ & _ & Hrun2).
  assert (Forall (λ p, is_Some (re_store x1 !! p)) (calls (re_exec x2))) as Hr2'.
  { apply Forall_lookup. intros k p Hk. destruct (Hrun2 k p Hk) as (t0 & -> & _). eauto. }
  pose proof (run_in_order_counters E (calls (re_exec x2)) (re_store x1) (w_calls w + length (calls (re_exec x1)))
    (re_status x1) s1 ltac:(by rewrite Hp2) Hr2' Hi2 Hx1 Hf1 Ht1) as [Hci Hcf].
  pose proof (run_in_order_status E (calls (re_exec x2)) (re_store x1)
                (w_calls w + length (calls (re_exec x1))) (re_status x1) s1) as H12.
  rewrite Hl1 in Hs2. rewrite Hs2 in Hci, Hcf, H12. cbn in Hci, Hcf, H12.
  unfold σ. rewrite run_in_order_app, Hs1.
  destruct (run_in_order E (calls (re_exec x2)) (_, _, s1)) as [[store' k'] s'].
  cbn in Hci, Hcf, H12. injection H12 as <- <-. exists s'. split_and!; [|congruence..|].
  - f_equal. f_equal. lia.
  - apply Forall_app. split; apply Forall_lookup; intros k p Hk.
    + destruct (Hrun1 k p Hk) as (t0 & -> & _). eauto.
    + destruct (Hrun2 k p Hk) as (t0 & Ht0 & _). apply lookup_lt_Some in Ht0.
      rewrite (ri_length _ _ _ _ _ _ Hn _ (ti_runs _ _ _ _ _ _ _ _ _ Hinv1)) in Ht0. by apply lookup_lt_is_Some.
Qed.


(** C15: a run that is not cancelled executes every test of the suite, each as
    often as it was queued, the smoke tests before the others, in whatever
    order its workers take them; and when each test is queued once ([count] at
    most 1) the flags of each test are those of the exit status of its own
    child: status 0 passed, 3 skipped, any other failed; tests outside the
    suite are left alone.  This holds of every interleaving of the workers and
    of the steps of the calls. *)
Theorem run_phases_children {G} E (opt : Options (G := G)) ev tmo tests w n x1 x2 :
  0 < n → phases_reach E opt ev tmo tests w n x1 x2 →
  let σ := calls (re_exec x1) ++ calls (re_exec x2) in
  calls (re_exec x1) ≡ₚ bfilter (λ p, Contains (deref_name (w_store w) p) "[Smoke]") tests ∧
  calls (re_exec x2) ≡ₚ bfilter (λ p, negb (Contains (deref_name (w_store w) p) "[Smoke]")) tests ∧
  (NoDup tests →
   (∀ k p t0, σ !! k = Some p → w_store w !! p = Some t0 →
      success t0 = false → skipped t0 = false → failed t0 = false →
      ∃ t, re_store x2 !! p = Some t ∧ name t = name t0 ∧
        (success t, skipped t, failed t) =
        match (e_child E (w_calls w + k) t0).2.2 with
        | CmdOk => (true, false, false)
        | CmdExit z => if (z =? 3)%Z then (false, true, false) else (false, false, true)
        | CmdOther _ => (false, false, true)
        end) ∧
   (∀ p, p ∉ tests → re_store x2 !! p = w_store w !! p)).
Proof.
  intros Hn Hph σ. destruct (phases_calls _ _ _ _ _ _ _ _ _ Hn Hph) as (Hp1 & Hp2 & _ & Hlen).
  split; [done|]. split; [done|]. intros Hnd.
  assert (σ ≡ₚ tests) as Hσ by (unfold σ; by rewrite Hp1, Hp2, smoke_normal_perm).
  destruct (phases_in_order _ _ _ _ _ _ _ _ _ Hnd Hn Hph) as (s' & Hs & _ & _ & Hr). fold σ in Hs, Hr.
  pose proof (run_in_order_spec E σ (w_store w) (w_calls w) (phases_status opt ev tmo tests w)) as H.
  rewrite Hs in H. destruct H as [_ _ _ _ _ Hidle Hrun]; [by rewrite Hσ|done|cbn; lia|].
  split; [|intros p Hp; apply Hidle; by rewrite Hσ].
  intros k p t0 Hk Ht0 Hf1 Hf2 Hf3. destruct (Hrun k p Hk) as (t1 & Ht1 & Ht).
  assert (t1 = t0) as -> by congruence. eexists. split; [done|]. split; [apply run_result_name|].
  by apply run_result_flags.
Qed.

(** ** What does not depend on the schedule *)

(** States that differ only in what was printed. *)
Definition same_but_out (w1 w2 : run_state) : Prop :=
  w_err w1 = w_err w2 ∧ w_store w1 = w_store w2 ∧ w_calls w1 = w_calls w2 ∧
  w_reports w1 = w_reports w2.

(** Computations that take such states to the same result and such states. *)
Definition out_blind {A} (c1 c2 : go run_state A) : Prop :=
  ∀ w1 w2, same_but_out w1 w2 →
  fst (c1 w1) = fst (c2 w2) ∧ same_but_out (snd (c1 w1)) (snd (c2 w2)).

Lemma bind_from {A B} (c1 c2 : go run_state A) (k1 k2 : A → go run_state B) w1 w2 :
  fst (c1 w1) = fst (c2 w2) → same_but_out (snd (c1 w1)) (snd (c2 w2)) →
  (∀ a, out_blind (k1 a) (k2 a)) →
  fst (gobind c1 k1 w1) = fst (gobind c2 k2 w2) ∧
  same_but_out (snd (gobind c1 k1 w1)) (snd (gobind c2 k2 w2)).
Proof.
  intros H1 H2 Hk. unfold gobind.
  destruct (c1 w1) as [[a|e|m] v1], (c2 w2) as [[a2|e2|m2] v2]; cbn in H1, H2; simplify_eq; try done.
  by apply Hk.
Qed.

Lemma bind_getw {W B} (k : W → go W B) w : gobind getw k w = k w w.
Proof. done. Qed.

Lemma out_blind_bind {A B} (c1 c2 : go run_state A) (k1 k2 : A → go run_state B) :
  out_blind c1 c2 → (∀ a, out_blind (k1 a) (k2 a)) → out_blind (gobind c1 k1) (gobind c2 k2).
Proof.
  intros Hc Hk w1 w2 Hw. destruct (Hc w1 w2 Hw). by apply bind_from.
Qed.

Lemma out_blind_ret {A} (a : A) : out_blind (ret a) (ret a).
Proof. by intros w1 w2 Hw. Qed.
Lemma out_blind_fail {A} e : out_blind (fail (A := A) e) (fail e).
Proof. by intros w1 w2 Hw. Qed.
Lemma out_blind_print_out x : out_blind (print_out x) (print_out x).
Proof. by intros w1 w2 (? & ? & ? & ?). Qed.
Lemma out_blind_print_err x : out_blind (print_err x) (print_err x).
Proof. intros w1 w2 (He & ? & ? & ?). split; [done|]. split_and!; [|done..]. cbn. by rewrite He. Qed.
#[local] Hint Resolve out_blind_ret out_blind_fail out_blind_print_out out_blind_print_err : ott.

Section Independence.
Context {G : Type}.
Variables (E : run_env) (opt : Options (G := G)) (suite : TestSuite G).
Variables f1 f2 : list nat → list nat.
Hypothesis Hf1 : ∀ l, f1 l ≡ₚ l.
Hypothesis Hf2 : ∀ l, f2 l ≡ₚ l.
(** What a child does depends on its test alone. *)
Hypothesis Hchild : ∀ k k' t, e_child E k t = e_child E k' t.

Notation E1 := (with_schedule E f1).
Notation E2 := (with_schedule E f2).

Lemma run_queue_independent l store k s1 s2 :
  NoDup l → Forall (λ p, is_Some (store !! p)) l →
  (run_queue E1 l (store, k, s1)).1 = (run_queue E2 l (store, k, s2)).1.
Proof.
  intros Hnd Hr. rewrite !run_queue_schedule.
  rewrite (run_in_order_status _ (f1 l) _ _ s1 a_status), (run_in_order_status _ (f2 l) _ _ s2 a_status).
  assert (∀ f, (∀ l, f l ≡ₚ l) → NoDup (f l) ∧ Forall (λ p, is_Some (store !! p)) (f l)) as Hf
    by (intros f Hf; by rewrite (Hf l)).
  destruct (Hf f1 Hf1) as [Hn1 Ha1], (Hf f2 Hf2) as [Hn2 Ha2].
  pose proof (run_in_order_spec E (f1 l) store k a_status Hn1 Ha1 ltac:(done)) as H1.
  pose proof (run_in_order_spec E (f2 l) store k a_status Hn2 Ha2 ltac:(done)) as H2.
  destruct (run_in_order E (f1 l) _) as [[st1 k1] u1], (run_in_order E (f2 l) _) as [[st2 k2] u2].
  destruct H1 as [_ -> _ _ _ Hi1 Hr1], H2 as [_ -> _ _ _ Hi2 Hr2]. cbn.
  assert (length (f1 l) = length (f2 l)) as -> by (by rewrite (Hf1 l), (Hf2 l)). f_equal.
  apply list_eq. intros p. destruct (decide (p ∈ l)) as [Hp|Hp].
  - assert (p ∈ f1 l) as [i1 Hp1]%list_elem_of_lookup_1 by (by rewrite (Hf1 l)).
    assert (p ∈ f2 l) as [i2 Hp2]%list_elem_of_lookup_1 by (by rewrite (Hf2 l)).
    destruct (Hr1 i1 p Hp1) as (t1 & Ht1 & ->), (Hr2 i2 p Hp2) as (t2 & Ht2 & ->).
    simplify_eq. by rewrite (Hchild _ (k + i2)).
  - rewrite Hi1, Hi2; [done|by rewrite (Hf2 l)|by rewrite (Hf1 l)].
Qed.

Lemma run_queue_length E' l store k s :
  length (run_queue E' l (store, k, s)).1.1 = length store.
Proof.
  unfold run_queue. generalize (e_schedule E' l) as σ. intros σ. revert store k s.
  induction σ as [|p σ IH]; intros store k s; [done|]. cbn [fold_left]. unfold run_one at 2.
  destruct (store !! p); [|apply IH]. destruct (e_child _ _ _) as [[st en] res].
  unfold Run_test. rewrite IH. by rewrite length_insert.
Qed.

Lemma run_phases_independent ev tmo tests w :
  NoDup tests → Forall (λ p, is_Some (w_store w !! p)) tests →
  same_but_out (snd (run_phases E1 opt ev tmo tests w)) (snd (run_phases E2 opt ev tmo tests w)).
Proof.
  intros Hnd Hr. rewrite !run_phases_eq.
  pose proof (run_queue_independent (smoke_tests tests w) (w_store w) (w_calls w)
                (phases_status opt ev tmo tests w) (phases_status opt ev tmo tests w)) as H1.
  specialize (H1 (NoDup_bfilter _ _ Hnd) (tests_in_range tests w _ (bfilter_subset _ _) Hr)).
  pose proof (run_queue_length E2 (smoke_tests tests w) (w_store w) (w_calls w)
                (phases_status opt ev tmo tests w)) as Hlen.
  destruct (run_queue E1 (smoke_tests _ _) _) as [[st1 k1] s1],
    (run_queue E2 (smoke_tests _ _) _) as [[st2 k2] s2]. cbn in H1, Hlen.
  injection H1 as -> ->.
  pose proof (tests_in_range tests w (normal_tests tests w) (bfilter_subset _ _) Hr) as Hn.
  apply (in_range_length _ st2) in Hn; [|done].
  pose proof (run_queue_independent (normal_tests tests w) st2 k2 s1 s2 (NoDup_bfilter _ _ Hnd) Hn) as H2.
  destruct (run_queue E1 (normal_tests _ _) _) as [[st1' k1'] s1'],
    (run_queue E2 (normal_tests _ _) _) as [[st2' k2'] s2']. cbn in H2.
  injection H2 as -> ->. by split_and!.
Qed.

Lemma retry_independent ev tmo fl failing :
  out_blind (retry_failures E1 opt suite ev tmo fl failing)
            (retry_failures E2 opt suite ev tmo fl failing).
Proof.
  intros w1 w2 Hw. pose proof Hw as (He & Hs & Hk & Hrep). unfold retry_failures.
  destruct (_ && _); [|done]. unfold retry_run, deref. rewrite Hs, Hk.
  set (l := take _ failing). set (copies := omap _ l).
  pose proof (run_queue_independent (seq (length (w_store w2)) (length copies))
    (w_store w2 ++ copies) (w_calls w2)) as Hq.
  match goal with |- context [run_queue E1 _ (_, _, ?s)] => specialize (Hq s s) end.
  specialize (Hq (NoDup_seq _ _) (seq_in_range _ _)).
  destruct (run_queue E1 _ _) as [[st1 k1] s1], (run_queue E2 _ _) as [[st2 k2] s2]. cbn in Hq.
  injection Hq as -> ->.
  rewrite He, Hrep.
  destruct (bfilter (passed_in st2) _) as [|q qs]; [by split; [|split_and!]|].
  apply out_blind_bind; [apply out_blind_print_out|intros; apply out_blind_ret|by split_and!].
Qed.

Lemma finish_blind tests failing pass fl skip d syn :
  out_blind (finish E1 opt suite tests failing pass fl skip d syn)
            (finish E2 opt suite tests failing pass fl skip d syn).
Proof.
  unfold finish. apply out_blind_bind; [|intros _; apply out_blind_bind; [|intros _]].
  - intros w1 w2 Hw. pose proof Hw as (_ & Hs & _). unfold print_failing.
    destruct failing; [done|]. unfold testNames. rewrite Hs. by apply out_blind_print_out.
  - intros w1 w2 Hw. pose proof Hw as (_ & Hs & _). unfold write_report.
    destruct (Nat.ltb _ _); [|done]. unfold deref_all, deref. rewrite Hs.
    apply out_blind_bind; [apply out_blind_print_err|intros _|done]. cbn [with_schedule e_write e_now].
    destruct (e_write E _); [apply out_blind_print_out|].
    intros v1 v2 (? & ? & ? & Hr). split; [done|]. split_and!; try done. cbn. by rewrite Hr.
  - unfold verdict. apply out_blind_bind; [|intros _; apply out_blind_bind; [|intros _]].
    + repeat destr_match; auto with ott.
    + auto with ott.
    + cbn [with_schedule e_interrupt]. destruct (e_interrupt E); auto with ott.
Qed.

Lemma run_and_report_independent tests w :
  NoDup tests → Forall (λ p, is_Some (w_store w !! p)) tests →
  fst (run_and_report E1 opt suite tests w) = fst (run_and_report E2 opt suite tests w) ∧
  same_but_out (snd (run_and_report E1 opt suite tests w))
               (snd (run_and_report E2 opt suite tests w)).
Proof.
  intros Hnd Hr. unfold run_and_report. destruct (run_limits opt suite) as [par tmo].
  cbn [with_schedule e_monitor e_end e_start]. destruct (e_monitor E) as [ev|e]; [|done].
  unfold of_sum. rewrite !gobind_ret.
  apply bind_from.
  { destruct (run_phases_ret E1 opt ev tmo tests w) as [w1 ->],
      (run_phases_ret E2 opt ev tmo tests w) as [w2 ->]. done. }
  { by apply run_phases_independent. }
  intros _ w1 w2 Hw. pose proof Hw as (_ & Hs & _). rewrite !bind_getw.
  unfold deref_all, failing_tests, deref. rewrite Hs.
  destruct (summarizeTests _) as [[[pass fl] skip] fs].
  change (timeline E1) with (timeline E2). destruct (timeline E2 _ _ _) as [buf syn].
  apply out_blind_bind; [apply out_blind_print_out|intros _|done].
  apply out_blind_bind; [apply retry_independent|]. intros failing. apply finish_blind.
Qed.
End Independence.

(** C16: the verdict does not depend on the scheduling: when what a child does
    depends on its test alone, two runs that take the tests in any two orders
    return the same result, error text included, write the same reports and
    leave the tests, the number of children and the error output the same. *)
Theorem run_schedule_independent {G} E (opt : Options (G := G)) suite f1 f2 tests w :
  (∀ l, f1 l ≡ₚ l) → (∀ l, f2 l ≡ₚ l) →
  (∀ k k' t, e_child E k t = e_child E k' t) →
  NoDup tests → Forall (λ p, is_Some (w_store w !! p)) tests →
  let r1 := run_and_report (with_schedule E f1) opt suite tests w in
  let r2 := run_and_report (with_schedule E f2) opt suite tests w in
  fst r1 = fst r2 ∧ w_reports (snd r1) = w_reports (snd r2) ∧
  w_store (snd r1) = w_store (snd r2) ∧ w_calls (snd r1) = w_calls (snd r2) ∧
  w_err (snd r1) = w_err (snd r2).
Proof.
  intros H1 H2 Hc Hnd Hr r1 r2.
  destruct (run_and_report_independent E opt suite f1 f2 H1 H2 Hc tests w Hnd Hr) as (H & ? & ? & ? & ?).
  by split_and!.
Qed.

(** ** Two tests *)

Lemma ab_in_range : Forall (λ p, is_Some (w_store ab_store !! p)) [0; 1].
Proof. repeat constructor; by eexists. Qed.

Definition ab_actions1 : list run_action :=
  [RQueue (AWorker 0); RQueue (AWorker 1); RQueue AMain; RQueue AMain].
Definition ab_start1 : run_exec :=
  run_start [] 2 (w_store ab_store) (phases_status (opt_of 0 1 false) (λ _ _, []) Minute [0; 1] ab_store).
Definition ab_steps (l : list run_action) (x : run_exec) : option run_exec :=
  run_actions (env_of [1; 0]%Z) (deref_name (w_store ab_store))
    (deref_exclusion (w_store ab_store)) 0 l x.
Definition ab_start2 (x : run_exec) : run_exec :=
  run_start [0; 1] 2 (re_store x) (re_status x).

Definition ab_phases (x1 x2 : run_exec) : Prop :=
  phases_reach (env_of [1; 0]%Z) (opt_of 0 1 false) (λ _ _, []) Minute [0; 1] ab_store 2 x1 x2.

Lemma ab_phases_reach :
  ∃ x1 x2, ab_phases x1 x2 ∧ calls (re_exec x1) = [] ∧ calls (re_exec x2) = [0; 1].
Proof.
  destruct (ab_steps ab_actions1 ab_start1) as [x1|] eqn:H1; [|vm_compute in H1; discriminate].
  pose proof H1 as R1. vm_compute in H1. injection H1 as H1.
  destruct (ab_steps two_schedule (ab_start2 x1)) as [x2|] eqn:H2;
    [|rewrite <- H1 in H2; vm_compute in H2; discriminate].
  pose proof H2 as R2. rewrite <- H1 in H2. vm_compute in H2. injection H2 as H2.
  exists x1, x2. split; [|by rewrite <- H1, <- H2].
  split; [by apply (run_actions_rtc _ _ _ _ ab_actions1)|].
  split; [by rewrite <- H1|]. split; [by rewrite <- H1|].
  split; [|by rewrite <- H2].
  replace (length (re_calls x1)) with 0 by (by rewrite <- H1).
  by apply (run_actions_rtc _ _ _ _ two_schedule).
Qed.


Example run_phases_children_witness :
  ∃ x1 x2 t, ab_phases x1 x2 ∧ re_store x2 !! 0 = Some t ∧ failed t = true.
Proof.
  destruct ab_phases_reach as (x1 & x2 & Hph & H1 & H2).
  destruct (run_phases_children (env_of [1; 0]%Z) (opt_of 0 1 false) (λ _ _, []) Minute [0; 1] ab_store 2
           x1 x2 ltac:(lia) Hph) as (_ & _ & H). specialize (H two_nodup) as [H _].
  rewrite H1, H2 in H.
  destruct (H 0 0 _ eq_refl eq_refl eq_refl eq_refl eq_refl) as (t & Ht & _ & Hf).
  exists x1, x2, t. split; [done|]. split; [done|]. by injection Hf.
Defined.

(** Two failing tests, taken in either order. *)
Definition failing_env : run_env :=
  mkEnv "/bin/tests" (inl "") (λ _, inl "") [a_spec; b_spec] "no more specs to run"
    (λ _, inr (Errorf "bad")) (λ _, StatOk) (λ _, None) (inl (λ _ _, []))
    (λ _ t, (0, Second, (name t, cmd_error_of 1)))%Z (λ l, l)
    0%Z Second 0%Z None (insertion_sort Less) (insertion_sort name_less) (λ _, None).

Example run_schedule_independent_witness :
  let run f := run_and_report (with_schedule failing_env f) (opt_of 0 1 false) (suite_of 0)
                 [0; 1] ab_store in
  fst (run id) = fst (run (@reverse nat)).
Proof.
  apply (run_schedule_independent failing_env (opt_of 0 1 false) (suite_of 0) id (@reverse nat)
           [0; 1] ab_store);
    [done|intros l; by rewrite reverse_Permutation|done|apply two_nodup|apply ab_in_range].
Defined.
