(* ===== verification/MonitorHandlers.v ===== *)
(** * pkg/monitor/pod.go, node.go, event.go, operator.go

    The informers deliver objects to handlers; a handler's result is the list
    of the argument lists of its calls of [m.Record], in order.  An object of
    another type than the handler expects is [None].  The samplers read the
    informer's store, a list. *)

From S2P Require Import Prelude.
From S2P Require Import GoStrings.
From S2P Require Import GoLib.
From S2P Require Import KubeTypes.
From S2P Require Import MonitorTypes.
From S2P Require Import Monitor.
From S2P Require Import MonitorApi.

(** ** pod.go *)

Definition is_system_pod (p : Pod) : bool := filterToSystemNamespaces (Some (PodMeta p)).

(** The in-place filter of [ListFunc]: [l_last] is the index the next kept item is
    written to; the loop reads item [i] of the slice it overwrites. *)
Fixpoint list_filter (todo i l_last : nat) (items : list Pod) : list Pod :=
  match todo with
  | O => take l_last items
  | S n =>
      match items !! i with
      | None => take l_last items
      | Some item =>
          if negb (is_system_pod item) then list_filter n (S i) l_last items
          else if negb (Nat.eqb i l_last)
               then list_filter n (S i) (S l_last) (<[l_last := item]> items)
               else list_filter n (S i) l_last items
      end
  end.

(* src: pkg/monitor/pod.go 19-36 startPodMonitoring.ListFunc *)
Definition pod_ListFunc (r : list Pod + error) : list Pod + error :=
  match r with
  | inl items => inl (list_filter (length items) 0 0 items)
  | inr e => inr e
  end.

(* src: pkg/monitor/pod.go 37-45 startPodMonitoring.WatchFunc *)
Definition pod_WatchFunc {A} (meta : A → option ObjectMeta) (r : list A + error)
  : list A + error :=
  match r with
  | inl evs => inl (bfilter (λ e, filterToSystemNamespaces (meta e)) evs)
  | inr e => inr e
  end.

(* src: pkg/monitor/pod.go 52-70 startPodMonitoring.sampler *)
Definition pod_sampler (store : list (option Pod)) : SamplerFunc := λ now,
  omap (λ o, match o with
    | None => None
    | Some pod =>
        if String.eqb (Phase pod) "Pending" &&
           (Minute <? Sub now (CreationTimestamp (PodMeta pod)))%Z
        then Some (mkCondition Warning (locatePod pod) "pod has been pending longer than a minute")
        else None
    end) store.

Definition exit_message (who : string) (t : ContainerStateTerminated) : string :=
  who +:+ " exited with code " +:+ itoa (ExitCode t) +:+ " (" +:+ TReason t +:+ "): " +:+
  TMessage t.

(** The containers of a list that exited with an error. *)
Definition exited (who : string) (pod : Pod) (l : list ContainerStatus) : list Condition :=
  omap (λ s, match Terminated s with
    | Some t => if negb (ExitCode t =? 0)%Z
                then Some (mkCondition Error (locatePodContainer pod (CName s)) (exit_message who t))
                else None
    | None => None
    end) l.

(* src: pkg/monitor/pod.go 74-149 startPodMonitoring.podChangeFns (phase) *)
Definition pod_phase_change (pod oldPod : Pod) : list Condition :=
  let new := Phase pod in
  let old := Phase oldPod in
  let loc := locatePod pod in
  if String.eqb new old || Nat.eqb (String.length old) 0 then []
  else if String.eqb new "Pending" && negb (String.eqb old "Unknown") then
    match DeletionTimestamp (PodMeta pod) with
    | Some _ =>
        [mkCondition Warning loc ("invariant violation (bug): pod should not transition " +:+ old +:+
           "->" +:+ new +:+ " even when terminated")]
    | None =>
        if Nat.ltb 0 (String.length
             (default "" (Annotations (PodMeta pod) !! "kubernetes.io/config.mirror"%string)))
        then [mkCondition Warning loc ("invariant violation (bug): static pod should not transition "
                +:+ old +:+ "->" +:+ new +:+ " with same UID")]
        else [mkCondition Error loc ("invariant violation: pod may not transition " +:+ old +:+
                "->" +:+ new)]
    end
  else if String.eqb new "Unknown" then [mkCondition Warning loc "pod moved to the Unknown phase"]
  else if String.eqb new "Failed" && negb (String.eqb old "Failed") then
    (if String.eqb (PodReason pod) "Evicted"
     then mkCondition Error loc ("pod evicted: " +:+ PodMessage pod)
     else if String.eqb (PodReason pod) "Preempting"
     then mkCondition Error loc ("pod preempted: " +:+ PodMessage pod)
     else mkCondition Error loc ("pod failed (" +:+ PodReason pod +:+ "): " +:+ PodMessage pod))
    :: exited "container" pod (InitContainerStatuses pod)
    ++ exited "init container" pod (ContainerStatuses pod)
  else [].

(* src: pkg/monitor/pod.go 151-168 startPodMonitoring.podChangeFns (deletion) *)
Definition pod_deletion_change (pod oldPod : Pod) : list Condition :=
  match DeletionGracePeriodSeconds (PodMeta pod), DeletionGracePeriodSeconds (PodMeta oldPod) with
  | Some s, None =>
      [mkCondition Warning (locatePod pod) ("graceful deletion within " +:+ itoa s +:+ "s")]
  | None, Some _ =>
      [mkCondition Error (locatePod pod)
         "invariant violation: pod was marked for deletion and then deletion grace period was cleared"]
  | _, _ => []
  end.

Definition new_exit (who : string) (pod : Pod) (s previous : ContainerStatus) : list Condition :=
  match Terminated s, Terminated previous with
  | Some t, None =>
      if negb (ExitCode t =? 0)%Z
      then [mkCondition Error (locatePodContainer pod (CName s)) (exit_message who t)] else []
  | _, _ => []
  end.

Definition restarted (who : string) (pod : Pod) (s previous : ContainerStatus) : list Condition :=
  if negb (RestartCount s =? RestartCount previous)%Z
  then [mkCondition Warning (locatePodContainer pod (CName s)) (who +:+ " restarted")] else [].

Definition unready (pod : Pod) (s previous : ContainerStatus) : list Condition :=
  match Terminated s with
  | None => if Ready previous && negb (Ready s)
            then [mkCondition Warning (locatePodContainer pod (CName s))
                    "container stopped being ready"]
            else []
  | Some _ => []
  end.

Definition against (olds : list ContainerStatus)
    (f : ContainerStatus → ContainerStatus → list Condition) (i : nat) (s : ContainerStatus)
  : list Condition :=
  match findContainerStatus olds (CName s) i with None => [] | Some previous => f s previous end.

(* src: pkg/monitor/pod.go 170-222 startPodMonitoring.podChangeFns (containers) *)
Definition pod_container_change (pod oldPod : Pod) : list Condition :=
  concat (imap (against (ContainerStatuses oldPod) (λ s previous,
            new_exit "container" pod s previous ++ restarted "container" pod s previous ++
            unready pod s previous)) (ContainerStatuses pod)) ++
  concat (imap (against (InitContainerStatuses oldPod) (λ s previous,
            new_exit "init container" pod s previous ++ restarted "init container" pod s previous))
          (InitContainerStatuses pod)).

Definition podChangeFns : list (Pod → Pod → list Condition) :=
  [pod_phase_change; pod_deletion_change; pod_container_change].

(* src: pkg/monitor/pod.go 228-243 startPodMonitoring.AddFunc *)
Definition pod_AddFunc (startTime : time) (o : option Pod) : list (list Condition) :=
  match o with
  | None => []
  | Some pod =>
      if Before (CreationTimestamp (PodMeta pod)) startTime then []
      else [[mkCondition Info (locatePod pod) "created"]]
  end.

(* src: pkg/monitor/pod.go 244-254 startPodMonitoring.DeleteFunc *)
Definition pod_DeleteFunc (o : option Pod) : list (list Condition) :=
  match o with None => [] | Some pod => [[mkCondition Warning (locatePod pod) "deleted"]] end.

(* src: pkg/monitor/pod.go 255-270 startPodMonitoring.UpdateFunc *)
Definition pod_UpdateFunc (old obj : option Pod) : list (list Condition) :=
  match obj, old with
  | Some pod, Some oldPod =>
      if negb (String.eqb (UID (PodMeta pod)) (UID (PodMeta oldPod))) then []
      else map (λ fn, fn pod oldPod) podChangeFns
  | _, _ => []
  end.

(** ** node.go *)

(* src: pkg/monitor/node.go 15-41 startNodeMonitoring.nodeChangeFns *)
Definition node_change (node oldNode : Node) : list Condition :=
  concat (imap (λ i c,
    match findNodeCondition (NodeConditions oldNode) (NCType c) i with
    | None => []
    | Some previous =>
        if negb (String.eqb (NCStatus c) (NCStatus previous))
        then [mkCondition Warning (locateNode node) ("condition " +:+ NCType c +:+ " changed")]
        else []
    end) (NodeConditions node)) ++
  (if negb (String.eqb (UID (NodeMeta node)) (UID (NodeMeta oldNode)))
   then [mkCondition Error (locateNode node) "node was deleted and recreated"] else []).

(* src: pkg/monitor/node.go 47-57 startNodeMonitoring.DeleteFunc *)
Definition node_DeleteFunc (o : option Node) : list (list Condition) :=
  match o with None => [] | Some n => [[mkCondition Warning (locateNode n) "deleted"]] end.

(* src: pkg/monitor/node.go 58-70 startNodeMonitoring.UpdateFunc *)
Definition node_UpdateFunc (old obj : option Node) : list (list Condition) :=
  match obj, old with
  | Some node, Some oldNode => [node_change node oldNode]
  | _, _ => []
  end.

(* src: pkg/monitor/node.go 74-94 startNodeMonitoring.sampler *)
Definition node_sampler (store : list (option Node)) : SamplerFunc := λ _,
  omap (λ o, match o with
    | None => None
    | Some node =>
        let isReady := match findNodeCondition (NodeConditions node) "Ready" 0 with
                       | Some c => String.eqb (NCStatus c) "True"
                       | None => false
                       end in
        if negb isReady then Some (mkCondition Warning (locateNode node) "node is not ready")
        else None
    end) store.

(** ** event.go *)

(** What the watch delivers: an event object (or not), or a status. *)
Inductive watch_status := WStatus (expired : bool) (message : string) | WNotStatus (go_type : string).
Inductive watch_event :=
| WAdded (o : option KEvent)
| WModified (o : option KEvent)
| WDeleted (o : option KEvent)
| WError (s : watch_status).

Definition watch_meta (e : watch_event) : option ObjectMeta :=
  match e with
  | WAdded o | WModified o | WDeleted o => KMeta <$> o
  | WError _ => None
  end.

(* src: pkg/monitor/event.go 44-60 startEventMonitoring (event) *)
Definition event_condition (obj : KEvent) : Condition :=
  let message := if (1 <? KCount obj)%Z
                 then KMessage obj +:+ " (" +:+ itoa (KCount obj) +:+ " times)"
                 else KMessage obj in
  mkCondition (if String.eqb (KType obj) "Warning" then Warning else Info)
    (locateEvent obj) message.

(** The events of one watch: what is recorded, and whether it expired. *)
(* src: pkg/monitor/event.go 39-81 startEventMonitoring (watch) *)
Fixpoint drain_watch (evs : list watch_event) : list Condition * bool :=
  match evs with
  | [] => ([], false)
  | WAdded o :: rest | WModified o :: rest =>
      match o with
      | None => drain_watch rest
      | Some obj => let '(cs, x) := drain_watch rest in (event_condition obj :: cs, x)
      end
  | WDeleted _ :: rest => drain_watch rest
  | WError (WStatus true _) :: _ => ([], true)
  | WError (WStatus false m) :: _ =>
      ([mkCondition Info "kube-apiserver" ("received an error while watching events: " +:+ m)], false)
  | WError (WNotStatus ty) :: _ =>
      ([mkCondition Info "kube-apiserver"
          ("received an error while watching events: event object was not a Status: " +:+ ty)], false)
  end.

(** The watches opened after a list, all from the resource version [rv] of that
    list: [server rv k] is the answer to the [k]-th of them; [n] watches are
    followed.  The loop ends when a watch expires. *)
(* src: pkg/monitor/event.go 28-42 startEventMonitoring (watch loop) *)
Fixpoint watch_loop (server : string → nat → list watch_event + error) (rv : string)
    (k n : nat) : list Condition :=
  match n with
  | O => []
  | S n' =>
      match server rv k with
      | inr e => if is_kind KExpired e then [] else watch_loop server rv (S k) n'
      | inl evs =>
          let evs := bfilter (λ e, filterToSystemNamespaces (watch_meta e)) evs in
          let '(cs, expired) := drain_watch evs in
          cs ++ (if expired then [] else watch_loop server rv (S k) n')
      end
  end.

(** A list that fails is tried again; [lists] are the answers. *)
(* src: pkg/monitor/event.go 14-85 startEventMonitoring *)
Fixpoint startEventMonitoring (server : string → nat → list watch_event + error) (n : nat)
    (lists : list (string + error)) : list Condition :=
  match lists with
  | [] => []
  | inr _ :: rest => startEventMonitoring server n rest
  | inl rv :: rest => watch_loop server rv 0 n ++ startEventMonitoring server n rest
  end.

(** ** operator.go *)

(* src: pkg/monitor/operator.go 282-284 locateClusterOperator *)
Definition locateClusterOperator (co : ClusterOperator) : string :=
  "clusteroperator/" +:+ Name (COMeta co).

(* src: pkg/monitor/operator.go 286-288 locateClusterVersion *)
Definition locateClusterVersion (cv : ClusterVersion) : string :=
  "clusterversion/" +:+ Name (CVMeta cv).

(* src: pkg/monitor/operator.go 308-315 findOperatorStatusCondition *)
Definition findOperatorStatusCondition (conds : list StatusCondition) (t : string)
  : option StatusCondition := find_first (λ c, String.eqb (SCType c) t) conds.

(** The loop over [j] for the new version [i]; [j] counts up to [len(old)]. *)
Fixpoint version_scan (fuel j i : nat) (old : list OperandVersion) (v : OperandVersion)
  : list string :=
  match fuel with
  | O => []
  | S f =>
      match old !! ((j + i) mod length old) with
      | None => []
      | Some o =>
          if negb (String.eqb (OVName o) (OVName v)) then version_scan f (S j) i old v
          else if String.eqb (OVVersion o) (OVVersion v) then []
          else [OVName v +:+ " " +:+ OVVersion o +:+ " -> " +:+ OVVersion v]
      end
  end.

(* src: pkg/monitor/operator.go 290-306 findOperatorVersionChange *)
Definition findOperatorVersionChange (old new : list OperandVersion) : list string :=
  concat (imap (λ i v, version_scan (length old) 0 i old v) new).

Definition change_message (s : StatusCondition) : string :=
  let head := "changed " +:+ SCType s +:+ " to " +:+ SCStatus s in
  if Nat.ltb 0 (String.length (SCReason s)) && Nat.ltb 0 (String.length (SCMessage s))
  then head +:+ ": " +:+ SCReason s +:+ ": " +:+ SCMessage s
  else if Nat.ltb 0 (String.length (SCMessage s)) then head +:+ ": " +:+ SCMessage s
  else head.

Definition change_level (s : StatusCondition) : EventLevel :=
  if (String.eqb (SCType s) "Degraded" || String.eqb (SCType s) "Failing") &&
     String.eqb (SCStatus s) "True" then Error else Warning.

(* src: pkg/monitor/operator.go 175-208 startClusterOperatorMonitoring.cvChangeFns (conditions) *)
Definition status_changes (loc : string) (new old : list StatusCondition) : list Condition :=
  concat (map (λ s,
    match findOperatorStatusCondition old (SCType s) with
    | None => []
    | Some previous =>
        if negb (String.eqb (SCStatus s) (SCStatus previous))
        then [mkCondition (change_level s) loc (change_message s)] else []
    end) new).

(* src: pkg/monitor/operator.go 33-75 startClusterOperatorMonitoring.coChangeFns *)
Definition co_change (co oldCO : ClusterOperator) : list Condition :=
  status_changes (locateClusterOperator co) (COConditions co) (COConditions oldCO) ++
  match findOperatorVersionChange (COVersions oldCO) (COVersions co) with
  | [] => []
  | changes => [mkCondition Info (locateClusterOperator co) ("versions: " +:+ Join changes ", ")]
  end.

(* src: pkg/monitor/operator.go 145-174 startClusterOperatorMonitoring.cvChangeFns (history) *)
Definition cv_history_change (cv oldCV : ClusterVersion) : list Condition :=
  match History cv, History oldCV with
  | [], _ => []
  | h :: _, [] =>
      [mkCondition Warning (locateClusterVersion cv) ("cluster converging to " +:+ HVersion h)]
  | cvNew :: _, cvOld :: _ =>
      if String.eqb (HState cvNew) "Completed" && negb (String.eqb (HState cvOld) (HState cvNew))
      then [mkCondition Warning (locateClusterVersion cv) ("cluster reached " +:+ HVersion cvNew)]
      else if String.eqb (HState cvNew) "Partial" && String.eqb (HState cvOld) (HState cvNew) &&
              negb (String.eqb (HImage cvOld) (HImage cvNew))
      then [mkCondition Warning (locateClusterVersion cv)
              ("cluster upgrading to " +:+ HVersion cvNew +:+ " without completing " +:+
               HVersion cvOld)]
      else []
  end.

Definition cv_condition_change (cv oldCV : ClusterVersion) : list Condition :=
  status_changes (locateClusterVersion cv) (CVConditions cv) (CVConditions oldCV).

(** The three handlers, for cluster operators and for the cluster version. *)
(* src: pkg/monitor/operator.go 80-106 startClusterOperatorMonitoring.AddFunc, DeleteFunc *)
Definition co_AddFunc (startTime : time) (o : option ClusterOperator) : list (list Condition) :=
  match o with
  | None => []
  | Some co => if Before (CreationTimestamp (COMeta co)) startTime then []
               else [[mkCondition Info (locateClusterOperator co) "created"]]
  end.
Definition co_DeleteFunc (o : option ClusterOperator) : list (list Condition) :=
  match o with
  | None => []
  | Some co => [[mkCondition Warning (locateClusterOperator co) "deleted"]]
  end.

(* src: pkg/monitor/operator.go 107-122 startClusterOperatorMonitoring.UpdateFunc *)
Definition co_UpdateFunc (old obj : option ClusterOperator) : list (list Condition) :=
  match obj, old with
  | Some co, Some oldCO =>
      if negb (String.eqb (UID (COMeta co)) (UID (COMeta oldCO))) then []
      else [co_change co oldCO]
  | _, _ => []
  end.

(* src: pkg/monitor/operator.go 213-239 startClusterOperatorMonitoring.cvAddFunc, cvDeleteFunc *)
Definition cv_AddFunc (startTime : time) (o : option ClusterVersion) : list (list Condition) :=
  match o with
  | None => []
  | Some cv => if Before (CreationTimestamp (CVMeta cv)) startTime then []
               else [[mkCondition Info (locateClusterVersion cv) "created"]]
  end.
Definition cv_DeleteFunc (o : option ClusterVersion) : list (list Condition) :=
  match o with
  | None => []
  | Some cv => [[mkCondition Warning (locateClusterVersion cv) "deleted"]]
  end.

(* src: pkg/monitor/operator.go 240-255 startClusterOperatorMonitoring.cvUpdateFunc *)
Definition cv_UpdateFunc (old obj : option ClusterVersion) : list (list Condition) :=
  match obj, old with
  | Some cv, Some oldCV =>
      if negb (String.eqb (UID (CVMeta cv)) (UID (CVMeta oldCV))) then []
      else [cv_history_change cv oldCV; cv_condition_change cv oldCV]
  | _, _ => []
  end.

(* src: pkg/monitor/operator.go 259-277 startClusterOperatorMonitoring.sampler *)
Definition cv_sampler (store : list (option ClusterVersion)) : SamplerFunc := λ _,
  omap (λ o, match o with
    | None => None
    | Some cv =>
        match History cv with
        | h :: _ =>
            if negb (String.eqb (HState h) "Completed")
            then Some (mkCondition Warning (locateClusterVersion cv)
                         ("cluster is updating to " +:+ HVersion h))
            else None
        | [] => None
        end
    end) store.

(** ** Properties *)

(** The loop from the second item on: [kept] is final, then comes at least one
    item that has been passed over. *)
Lemma list_filter_tail rest kept x gap todo i l_last items :
  todo = length rest → i = length kept + S (length gap) → l_last = length kept →
  items = kept ++ x :: gap ++ rest →
  list_filter todo i l_last items = kept ++ bfilter is_system_pod rest.
Proof.
  intros -> -> -> ->. revert kept x gap.
  induction rest as [|p rest IH]; intros kept x gap; cbn [list_filter length].
  { by rewrite take_app_length, app_nil_r. }
  assert ((kept ++ x :: gap ++ p :: rest) !! (length kept + S (length gap)) = Some p) as ->.
  { change (x :: gap ++ p :: rest) with ((x :: gap) ++ p :: rest). rewrite app_assoc.
    apply list_lookup_middle. rewrite length_app. cbn. lia. }
  assert (∀ kept' x' gap', kept' ++ x' :: gap' ++ rest =
            (if is_system_pod p then <[length kept := p]> (kept ++ x :: gap ++ p :: rest)
             else kept ++ x :: gap ++ p :: rest) →
            length kept' = length kept + (if is_system_pod p then 1 else 0) →
            length gap' + length kept' = S (length gap) + length kept → 
            list_filter (length rest) (S (length kept + S (length gap))) (length kept')
              (kept' ++ x' :: gap' ++ rest) = kept' ++ bfilter is_system_pod rest) as Hstep.
  { intros kept' x' gap' _ Hk Hg. rewrite <- (IH kept' x' gap'). f_equal. lia. }
  cbn [bfilter]. destruct (is_system_pod p); cbn [negb].
  - destruct (Nat.eqb_spec (length kept + S (length gap)) (length kept)); [lia|]. cbn [negb].
    assert (<[length kept := p]> (kept ++ x :: gap ++ p :: rest) =
            (kept ++ [p]) ++ gap ++ p :: rest) as E.
    { rewrite insert_app_r_alt, Nat.sub_diag by lia. by rewrite <- app_assoc. }
    assert (∃ y gap', gap ++ p :: rest = y :: gap' ++ rest ∧ length gap' = length gap) as (y & gap' & Eg & Hl).
    { destruct gap as [|y gap]; [by exists p, []|]. exists y, (gap ++ [p]).
      rewrite <- app_assoc, length_app. split; [done|]. cbn. lia. }
    rewrite E, Eg in *. rewrite <- (Nat.add_1_r (length kept)).
    specialize (Hstep (kept ++ [p]) y gap'). rewrite length_app, Hl in Hstep. cbn [length] in Hstep.
    rewrite Hstep by (done || lia). by rewrite <- app_assoc.
  - specialize (Hstep kept x (gap ++ [p])). rewrite <- app_assoc, length_app in Hstep.
    cbn [length app] in Hstep. apply Hstep; [done|lia|lia].
Qed.

(** The list of pods the monitor is given is made of the system pods of the
    API's list, in order, but for its first item, which is dropped even when it
    is a system pod. *)
Theorem pod_ListFunc_spec items :
  pod_ListFunc (inl items) = inl (bfilter is_system_pod (tl items)).
Proof.
  unfold pod_ListFunc. f_equal. destruct items as [|p items]; [done|].
  cbn [length list_filter lookup list_lookup tl].
  cbn -[is_system_pod]. destruct (is_system_pod p); cbn; by apply (list_filter_tail items [] p []).
Qed.

(** *** Resynchronisation

    Every hour the informers call [UpdateFunc] with the object they have as
    both arguments. *)

Lemma findContainerStatus_self l i s :
  l !! i = Some s → findContainerStatus l (CName s) i = Some s.
Proof. intros H. unfold findContainerStatus. by rewrite H, String.eqb_refl. Qed.

Lemma concat_imap_nil {A B} (f : nat → A → list B) l :
  (∀ i x, l !! i = Some x → f i x = []) → concat (imap f l) = [].
Proof.
  revert f. induction l as [|x l IH]; intros f H; [done|]. cbn.
  rewrite (H 0 x eq_refl). apply IH. intros i y Hy. by apply (H (S i)).
Qed.

Lemma version_scan_self l i v : l !! i = Some v → version_scan (length l) 0 i l v = [].
Proof.
  intros H. pose proof (lookup_lt_Some _ _ _ H) as Hi.
  destruct (length l) as [|f] eqn:E; [lia|]. cbn [version_scan]. rewrite E.
  rewrite Nat.add_0_l, Nat.mod_small, H by lia. by rewrite !String.eqb_refl.
Qed.

(** A resynchronisation, an update that changes nothing, records no
    condition for pods, nodes, cluster operators and the cluster version (whose
    status conditions have one entry per type). *)
Theorem resync_silent pod node co cv :
  NoDup (map SCType (COConditions co)) → NoDup (map SCType (CVConditions cv)) →
  concat (pod_UpdateFunc (Some pod) (Some pod)) = [] ∧
  concat (node_UpdateFunc (Some node) (Some node)) = [] ∧
  concat (co_UpdateFunc (Some co) (Some co)) = [] ∧
  concat (cv_UpdateFunc (Some cv) (Some cv)) = [].
Proof.
  intros Hco Hcv.
  assert (∀ loc l, NoDup (map SCType l) → status_changes loc l l = []) as Hsc.
  { intros loc l Hnd. unfold status_changes, findOperatorStatusCondition.
    assert (∀ s, s ∈ l → find_first (λ c, String.eqb (SCType c) (SCType s)) l = Some s) as Hf.
    { clear loc. induction l as [|c l IH]; intros s Hs; [by apply elem_of_nil in Hs|].
      cbn in Hnd |- *. apply NoDup_cons in Hnd as [Hc Hnd].
      apply elem_of_cons in Hs as [->|Hs]; [by rewrite String.eqb_refl|].
      destruct (String.eqb_spec (SCType c) (SCType s)) as [E|]; [|auto].
      destruct Hc. rewrite E. by apply list_elem_of_fmap_2. }
    revert Hf. generalize l at 2 3 as l'. induction l as [|s l IH]; intros l' Hf; [done|]. cbn.
    rewrite Hf by left. rewrite String.eqb_refl. cbn. apply IH; [by inv Hnd|].
    intros x Hx. apply Hf. by right. }
  split_and!.
  - unfold pod_UpdateFunc. rewrite String.eqb_refl. cbn.
    assert (pod_phase_change pod pod = []) as ->
      by (unfold pod_phase_change; by rewrite String.eqb_refl).
    assert (pod_deletion_change pod pod = []) as ->
      by (unfold pod_deletion_change; by destruct (DeletionGracePeriodSeconds _)).
    cbn. rewrite app_nil_r. unfold pod_container_change.
    rewrite !concat_imap_nil; [done|..]; intros i s Hs; unfold against;
      rewrite (findContainerStatus_self _ _ _ Hs); unfold new_exit, restarted, unready;
      rewrite Z.eqb_refl; destruct (Terminated s), (Ready s); done.
  - cbn. unfold node_change. rewrite String.eqb_refl, app_nil_r. cbn. rewrite app_nil_r.
    apply concat_imap_nil. intros i c Hc. unfold findNodeCondition.
    by rewrite Hc, !String.eqb_refl.
  - unfold co_UpdateFunc. rewrite String.eqb_refl. cbn. unfold co_change. rewrite Hsc by done.
    unfold findOperatorVersionChange. rewrite concat_imap_nil; [done|].
    intros i v. apply version_scan_self.
  - unfold cv_UpdateFunc. rewrite String.eqb_refl. cbn.
    unfold cv_condition_change. rewrite Hsc, app_nil_r by done.
    unfold cv_history_change. destruct (History cv) as [|h hs]; [done|].
    rewrite !String.eqb_refl. cbn. rewrite !andb_false_r. done.
Qed.

Definition a_pod : Pod := mkPod (meta_of "p" "openshift-x") "n" "" "Running" "" "" [] [] [].
Definition a_co : ClusterOperator := mkCO (meta_of "co" "") [mkSCond "Degraded" "True" "" ""] [].
Definition a_cv : ClusterVersion :=
  mkCV (meta_of "version" "") None (mkUpdate "" "" false) [] 0 [mkSCond "Failing" "True" "" ""].

Example resync_silent_witness :
  concat (co_UpdateFunc (Some a_co) (Some a_co)) = [].
Proof.
  apply (resync_silent a_pod (mkNode (meta_of "n" "") []) a_co a_cv);
    apply NoDup_singleton.
Defined.

(** The first system pod of the list is lost. *)
Example first_pod_dropped : pod_ListFunc (inl [a_pod]) = inl [].
Proof. reflexivity. Qed.

(** *** Version changes *)

Definition version_message (v o : OperandVersion) : list string :=
  if String.eqb (OVVersion o) (OVVersion v) then []
  else [OVName v +:+ " " +:+ OVVersion o +:+ " -> " +:+ OVVersion v].

Definition version_change (old : list OperandVersion) (v : OperandVersion) : list string :=
  match find_first (λ o, String.eqb (OVName o) (OVName v)) old with
  | None => []
  | Some o => version_message v o
  end.

Lemma version_scan_absent old v fuel j i :
  (∀ o, o ∈ old → OVName o ≠ OVName v) → version_scan fuel j i old v = [].
Proof.
  intros H. revert j. induction fuel as [|f IH]; intros j; cbn; [done|].
  destruct (old !! ((j + i) mod length old)) as [o|] eqn:E; [|done].
  apply list_elem_of_lookup_2 in E. destruct (String.eqb_spec (OVName o) (OVName v)); [|apply IH].
  by destruct (H o).
Qed.

Lemma version_scan_found old v k o j0 i fuel j :
  NoDup (map OVName old) → old !! k = Some o → OVName o = OVName v →
  (j0 + i) mod length old = k → j ≤ j0 → j0 < j + fuel →
  version_scan fuel j i old v = version_message v o.
Proof.
  intros Hnd Hk Ho Hj0. revert j. induction fuel as [|f IH]; intros j Hj Hf; [lia|].
  cbn [version_scan]. pose proof (lookup_lt_Some _ _ _ Hk) as Hlt.
  assert ((j + i) mod length old < length old) as Hb by (apply Nat.mod_upper_bound; lia).
  destruct (lookup_lt_is_Some_2 old _ Hb) as [o' Ho']. rewrite Ho'.
  destruct (String.eqb_spec (OVName o') (OVName v)) as [E|E]; cbn [negb].
  - assert ((j + i) mod length old = k) as Ek.
    { eapply (NoDup_lookup (map OVName old)); [done|..].
      - rewrite list_lookup_fmap, Ho'. done.
      - rewrite list_lookup_fmap, Hk. cbn. by rewrite E, Ho. }
    rewrite Ek in Ho'. simplify_eq. done.
  - destruct (decide (j = j0)) as [->|]; [rewrite Hj0, Hk in Ho'; by simplify_eq|].
    apply IH; lia.
Qed.

(** Whatever the position the cyclic scan of [findOperatorVersionChange]
    starts from, it reports exactly the new versions whose name the operator
    had before with another version (the old names being distinct). *)
Theorem findOperatorVersionChange_spec old new :
  NoDup (map OVName old) →
  findOperatorVersionChange old new = concat (map (version_change old) new).
Proof.
  intros Hnd. unfold findOperatorVersionChange. f_equal.
  assert (∀ i v, version_scan (length old) 0 i old v = version_change old v) as H.
  { intros i v. unfold version_change.
    destruct (find_first _ old) as [o|] eqn:E.
    - apply find_first_Some in E as [Hin E]. cbn in E. propify.
      apply list_elem_of_lookup in Hin as [k Hk]. pose proof (lookup_lt_Some _ _ _ Hk) as Hlt.
      set (n := length old) in *.
      assert (i mod n < n) as Hi by (apply Nat.mod_upper_bound; lia).
      assert ((if decide (i mod n ≤ k) then k - i mod n else n + k - i mod n) < n ∧
              ((if decide (i mod n ≤ k) then k - i mod n else n + k - i mod n) + i) mod n = k)
        as [H1 H2].
      { pose proof (Nat.div_mod_eq i n) as Hdm. case_decide; split; try lia.
        - replace (k - i mod n + i) with (k + (i / n) * n) by lia.
          rewrite Nat.Div0.mod_add. by apply Nat.mod_small.
        - replace (n + k - i mod n + i) with (k + (1 + i / n) * n) by lia.
          rewrite Nat.Div0.mod_add. by apply Nat.mod_small. }
      eapply version_scan_found; [done|done|done|apply H2|lia|lia].
    - rewrite find_first_None in E. apply version_scan_absent. intros o Ho Eo.
      specialize (E o Ho). cbn in E. by propify. }
  etrans; [apply imap_ext; intros i v _; apply H|]. apply (imap_const (version_change old)).
Qed.

Example findOperatorVersionChange_spec_witness :
  findOperatorVersionChange [mkOperand "b" "1"; mkOperand "a" "1"]
    [mkOperand "a" "2"; mkOperand "b" "1"] = ["a 1 -> 2"]%string.
Proof.
  rewrite (findOperatorVersionChange_spec [mkOperand "b" "1"; mkOperand "a" "1"]);
    [reflexivity|]. cbn. repeat constructor; set_solver.
Defined.

(** *** Watches that are closed

    The resource version of the list is kept for every watch that follows it,
    so a server that serves the same history again has it recorded again. *)

(** After a watch of the events is closed without having expired, the
    monitor watches again from the same resource version: what the first watch
    delivered and the server replays is recorded twice. *)
Theorem watch_replays server rv k n evs newer cs cs' expired :
  server rv k = inl evs → server rv (S k) = inl (evs ++ newer) →
  drain_watch (bfilter (λ e, filterToSystemNamespaces (watch_meta e)) evs) = (cs, false) →
  Forall (λ e, match e with WError _ => False | _ => True end) evs →
  drain_watch (bfilter (λ e, filterToSystemNamespaces (watch_meta e)) newer) = (cs', expired) →
  ∃ rest, watch_loop server rv k (S (S n)) = cs ++ cs ++ cs' ++ rest.
Proof.
  intros H1 H2 H3 Hne H4.
  assert (drain_watch (bfilter (λ e, filterToSystemNamespaces (watch_meta e)) (evs ++ newer)) =
          (cs ++ cs', expired)) as H5.
  { rewrite bfilter_app. revert cs H3. clear H1 H2.
    induction Hne as [|e evs He Hne IH]; intros cs H3; cbn in H3 |- *; [by simplify_eq|].
    destruct (filterToSystemNamespaces (watch_meta e)); [|by apply IH].
    cbn [drain_watch app] in *. destruct e as [[o|]|[o|]|o|s]; try done; try (by apply IH);
      destruct (drain_watch _) as [c x] eqn:E in H3; simplify_eq; by rewrite (IH _ E). }
  cbn [watch_loop]. rewrite H1, H3, H2, H5.
  exists (if expired then [] else watch_loop server rv (S (S k)) n). by rewrite <- !app_assoc.
Qed.

Definition an_event : KEvent := mkKEvent "default" "Pod" "p" (meta_of "e" "default") "m" "Normal" 1.

Example watch_replays_witness :
  ∃ rest, watch_loop (λ _ _, inl [WAdded (Some an_event)]) "1" 0 2 =
    [event_condition an_event] ++ [event_condition an_event] ++ [] ++ rest.
Proof.
  apply (watch_replays (λ _ _, inl [WAdded (Some an_event)]) "1" 0 0
           [WAdded (Some an_event)] [] [event_condition an_event] [] false); try reflexivity.
  by repeat constructor.
Defined.
