(* ===== verification/MonitorStart.v ===== *)
(** * pkg/monitor: [Start] and the monitor at work

    [Start] creates the monitor, registers the samplers and starts the watchers;
    from then on everything that reaches the monitor is an input of the running
    system: what the informers deliver, what the pollers and the event watch
    record, and the sampling ticks.  The objects the informers hold and the
    state of the pollers are functions of time, read when a sampler runs. *)

From S2P Require Import Prelude.
From S2P Require Import GoStrings.
From S2P Require Import GoLib.
From S2P Require Import KubeTypes.
From S2P Require Import MonitorTypes.
From S2P Require Import Monitor.
From S2P Require Import MonitorApi.
From S2P Require Import MonitorHandlers.

(** ** Informers *)

(** What an informer is built from: the filters around its lister, and its
    handlers, which return the arguments of their calls of [Record]. *)
Record informer (A : Type) := mkInformer {
  ListFunc : list A + error → list A + error;
  AddFunc : option A → list (list Condition);
  UpdateFunc : option A → option A → list (list Condition);
  DeleteFunc : option A → list (list Condition);
  records_errors : bool      (* wrapped in an errorRecordingListWatcher *)
}.
Arguments mkInformer {A}. Arguments ListFunc {A}. Arguments AddFunc {A}.
Arguments UpdateFunc {A}. Arguments DeleteFunc {A}. Arguments records_errors {A}.

(** A delivery of an informer; [None] is an object of another type. *)
Inductive delivery (A : Type) :=
| Added (o : option A)
| Updated (old new : option A)
| Deleted (o : option A).
Arguments Added {A}. Arguments Updated {A}. Arguments Deleted {A}.

Definition handler_calls {A} (i : informer A) (d : delivery A) : list (list Condition) :=
  match d with
  | Added o => AddFunc i o
  | Updated old new => UpdateFunc i old new
  | Deleted o => DeleteFunc i o
  end.

(** What the goroutines see of the cluster at a time. *)
Record cluster := mkCluster {
  kube_at : time → sampler;
  openshift_at : time → sampler;
  pods_at : time → list (option Pod);
  nodes_at : time → list (option Node);
  versions_at : time → list (option ClusterVersion)
}.

(** [now] is [time.Now()] of the start of a watcher. *)
Definition start_time (now : time) : time := (now - Minute)%Z.

(* src: pkg/monitor/pod.go 16-275 startPodMonitoring *)
Definition startPodMonitoring `{Recorder M} (now : time) (c : cluster) : go M (informer Pod) :=
  (modw (recorder_AddSampler (λ t, pod_sampler (pods_at c t) t)) ;;!
   ret (mkInformer pod_ListFunc (pod_AddFunc (start_time now)) pod_UpdateFunc pod_DeleteFunc true))%go.

(* src: pkg/monitor/node.go 14-97 startNodeMonitoring *)
Definition startNodeMonitoring `{Recorder M} (c : cluster) : go M (informer Node) :=
  (modw (recorder_AddSampler (λ t, node_sampler (nodes_at c t) t)) ;;!
   ret (mkInformer id (λ _, []) node_UpdateFunc node_DeleteFunc false))%go.

(** Two informers; the version sampler is added last. *)
(* src: pkg/monitor/operator.go 18-280 startClusterOperatorMonitoring *)
Definition startClusterOperatorMonitoring `{Recorder M} (now : time) (c : cluster)
  : go M (informer ClusterOperator * informer ClusterVersion) :=
  let startTime := start_time now in
  let coInformer := mkInformer id (co_AddFunc startTime) co_UpdateFunc co_DeleteFunc true in
  let cvInformer := mkInformer id (cv_AddFunc startTime) cv_UpdateFunc cv_DeleteFunc true in
  (modw (recorder_AddSampler (λ t, cv_sampler (versions_at c t) t)) ;;!
   ret (coInformer, cvInformer))%go.

(** ** [Start] *)

(** The errors of the client configuration and of the clients. *)
Record clients := mkClients {
  config_err : option error;
  client_err : option error;
  config_client_err : option error;
  polling_err : option error;
  image_err : option error
}.

Record informers := mkInformers {
  pod_inf : informer Pod;
  node_inf : informer Node;
  co_inf : informer ClusterOperator;
  cv_inf : informer ClusterVersion
}.

Definition check_err {W} (e : option error) : go W unit :=
  match e with Some e => fail e | None => ret tt end.

(** The event watch starts no informer and adds no sampler, and the goroutine of
    [StartSampling] only ticks: what the watch records and the ticks are inputs
    of the running system below. *)
(* src: pkg/monitor/api.go 25-53 Start *)
Definition Start (cl : clients) (c : cluster) (now : time) : outcome (Monitor * informers) :=
  let '(r, m) :=
    (check_err (match config_err cl with
                | Some err => Some (Errorf ("could not load client configuration: " +:+ err_msg err))
                | None => None
                end) ;;!
     check_err (client_err cl) ;;!
     check_err (config_client_err cl) ;;!
     startAPIMonitoring (polling_err cl) (image_err cl) (kube_at c) (openshift_at c) ;;!
     pods <-! startPodMonitoring now c ;;
     nodes <-! startNodeMonitoring c ;;
     operators <-! startClusterOperatorMonitoring now c ;;
     ret (mkInformers pods nodes operators.1 operators.2))%go NewMonitor in
  match r with
  | Ret i => Ret (m, i)
  | Fail e => Fail e
  | Panic p => Panic p
  end.

(** ** The running system *)

(** One input of the monitor, at a time: a delivery, conditions recorded by a
    poller, a list/watch wrapper or the event watch, or a sampling tick that
    appends its sample at the time of the input. *)
Inductive input :=
| PodDelivery (d : delivery Pod)
| NodeDelivery (d : delivery Node)
| OperatorDelivery (d : delivery ClusterOperator)
| VersionDelivery (d : delivery ClusterVersion)
| Recorded (cs : list Condition)
| Tick (now : time).

Definition on_input (i : informers) (t : time) (x : input) (m : Monitor) : Monitor :=
  match x with
  | PodDelivery d => record_calls t (handler_calls (pod_inf i) d) m
  | NodeDelivery d => record_calls t (handler_calls (node_inf i) d) m
  | OperatorDelivery d => record_calls t (handler_calls (co_inf i) d) m
  | VersionDelivery d => record_calls t (handler_calls (cv_inf i) d) m
  | Recorded cs => Record_ t cs m
  | Tick now => sample_ now t m
  end.

Definition run_inputs (i : informers) (xs : list (time * input)) (m : Monitor) : Monitor :=
  fold_left (λ m tx, on_input i tx.1 tx.2 m) xs m.

(** ** Properties *)

(** What one sampling tick of a started monitor reports of the cluster, written
    without the samplers: of the pods in the store of the informer those that
    are pending and older than a minute; of the nodes those whose first
    condition of type Ready is missing or not True; of the versions those whose
    newest history entry is not completed. *)
Definition pending_too_long (t : time) (p : Pod) : bool :=
  bool_decide (Phase p = "Pending"%string ∧ Minute < Sub t (CreationTimestamp (PodMeta p)))%Z.
Definition not_ready (n : Node) : bool :=
  match bfilter (λ x, String.eqb (NCType x) "Ready") (NodeConditions n) with
  | x :: _ => negb (String.eqb (NCStatus x) "True")
  | [] => true
  end.
Definition updating (cv : ClusterVersion) : list Condition :=
  match History cv with
  | [] => []
  | h :: _ =>
      if bool_decide (HState h = "Completed"%string) then []
      else [mkCondition Warning ("clusterversion/" +:+ Name (CVMeta cv))
              ("cluster is updating to " +:+ HVersion h)]
  end.
Definition cluster_conditions (c : cluster) (t : time) : list Condition :=
  (if available (kube_at c t) then []
   else [mkCondition Error "kube-apiserver" "Kube API is not responding to GET requests"]) ++
  (if available (openshift_at c t) then []
   else [mkCondition Error "openshift-apiserver" "OpenShift API is not responding to GET requests"]) ++
  map (λ p, mkCondition Warning
              ("ns/" +:+ Namespace (PodMeta p) +:+ " pod/" +:+ Name (PodMeta p) +:+ " node/" +:+ NodeName p)
              "pod has been pending longer than a minute")
    (bfilter (pending_too_long t) (omap id (pods_at c t))) ++
  map (λ n, mkCondition Warning ("node/" +:+ Name (NodeMeta n)) "node is not ready")
    (bfilter not_ready (omap id (nodes_at c t))) ++
  flat_map updating (omap id (versions_at c t)).

Lemma pod_sampler_spec store t :
  pod_sampler store t =
  map (λ p, mkCondition Warning
              ("ns/" +:+ Namespace (PodMeta p) +:+ " pod/" +:+ Name (PodMeta p) +:+ " node/" +:+ NodeName p)
              "pod has been pending longer than a minute")
    (bfilter (pending_too_long t) (omap id store)).
Proof.
  unfold pod_sampler. induction store as [|[p|] store IH]; [done| |done].
  change (omap id (Some p :: store)) with (p :: omap id store). cbn [bfilter].
  assert (pending_too_long t p = String.eqb (Phase p) "Pending" &&
    (Minute <? Sub t (CreationTimestamp (PodMeta p)))%Z) as ->.
  { unfold pending_too_long. destruct (String.eqb_spec (Phase p) "Pending"),
      (Z.ltb_spec Minute (Sub t (CreationTimestamp (PodMeta p)))); cbn;
      [apply bool_decide_eq_true_2|apply bool_decide_eq_false_2..]; naive_solver lia. }
  cbn. destruct (_ && _); cbn; by rewrite IH.
Qed.

Lemma first_Ready l :
  findNodeCondition l "Ready" 0 = head (bfilter (λ x, String.eqb (NCType x) "Ready") l).
Proof.
  assert (∀ l, find_first (λ c, String.eqb (NCType c) "Ready") l =
               head (bfilter (λ x, String.eqb (NCType x) "Ready") l)) as H.
  { clear l. induction l as [|x l IH]; [done|]. cbn. by destruct (String.eqb _ _). }
  unfold findNodeCondition. rewrite H. destruct l as [|x l]; [done|]. cbn.
  by destruct (String.eqb (NCType x) "Ready").
Qed.

Lemma node_sampler_spec store t :
  node_sampler store t =
  map (λ n, mkCondition Warning ("node/" +:+ Name (NodeMeta n)) "node is not ready")
    (bfilter not_ready (omap id store)).
Proof.
  unfold node_sampler. induction store as [|[n|] store IH]; [done| |done].
  change (omap id (Some n :: store)) with (n :: omap id store). cbn [bfilter]. cbn.
  rewrite first_Ready. unfold not_ready at 1.
  destruct (bfilter _ (NodeConditions n)) as [|x l]; cbn [head]; [|destruct (String.eqb (NCStatus x) "True")];
    cbn; by rewrite IH.
Qed.

Lemma cv_sampler_spec store t : cv_sampler store t = flat_map updating (omap id store).
Proof.
  unfold cv_sampler. induction store as [|[cv|] store IH]; [done| |done].
  change (omap id (Some cv :: store)) with (cv :: omap id store). cbn. unfold updating at 1.
  destruct (History cv) as [|h l]; [by rewrite IH|].
  destruct (String.eqb_spec (HState h) "Completed");
    [rewrite bool_decide_eq_true_2 by done|rewrite bool_decide_eq_false_2 by done]; cbn; by rewrite IH.
Qed.

Lemma Start_Ret cl c now m i :
  Start cl c now = Ret (m, i) →
  config_err cl = None ∧ client_err cl = None ∧ config_client_err cl = None ∧
  polling_err cl = None ∧ image_err cl = None ∧
  (∀ t, collect t (samplers m) = cluster_conditions c t) ∧
  interval m = (15 * Second)%Z ∧ events m = [] ∧ samples m = [] ∧ ListFunc (pod_inf i) = pod_ListFunc.
Proof.
  unfold Start, startAPIMonitoring, gobind, check_err, fail, ret, modw.
  destruct (config_err cl), (client_err cl), (config_client_err cl), (polling_err cl), (image_err cl);
    intros H; simplify_eq/=; split_and!; try done.
  intros t. unfold cluster_conditions.
  rewrite <- (pod_sampler_spec _ t), <- (node_sampler_spec _ t), <- (cv_sampler_spec _ t).
  unfold collect, ConditionWhenFailing. cbn. by rewrite app_nil_r.
Qed.

Lemma samplers_record t calls m : samplers (record_calls t calls m) = samplers m.
Proof.
  rewrite record_calls_concat. cbn. by destruct (concat calls).
Qed.

Lemma samplers_input i t x m : samplers (on_input i t x m) = samplers m.
Proof.
  destruct x as [d|d|d|d|cs|now]; cbn [on_input]; try apply samplers_record.
  - by destruct cs.
  - unfold sample_, append_sample. by destruct (collect now (samplers m)).
Qed.

Lemma samplers_run i xs m : samplers (run_inputs i xs m) = samplers m.
Proof.
  unfold run_inputs. revert m. induction xs as [|x xs IH]; intros m; [done|].
  cbn [fold_left]. by rewrite IH, samplers_input.
Qed.

Lemma interval_run i xs m : interval (run_inputs i xs m) = interval m.
Proof.
  unfold run_inputs. revert m. induction xs as [|[t x] xs IH]; intros m; [done|].
  cbn [fold_left fst snd]. rewrite IH. destruct x as [d|d|d|d|cs|now]; cbn [on_input];
    try (rewrite record_calls_concat; cbn; by destruct (concat _)).
  - by destruct cs.
  - unfold sample_, append_sample. by destruct (collect now (samplers m)).
Qed.

(** Every input is made of steps of the monitor at its time. *)
Lemma record_calls_steps t calls m : rtc monitor_step (t, m) (t, record_calls t calls m).
Proof.
  rewrite record_calls_concat. apply rtc_once, step_record.
Qed.

Lemma on_input_steps i t x m : rtc monitor_step (t, m) (t, on_input i t x m).
Proof.
  destruct x as [d|d|d|d|cs|now]; cbn [on_input]; try apply record_calls_steps.
  - apply rtc_once, step_record.
  - apply rtc_once, step_sample.
Qed.

(** The times of the inputs do not go back, from [t0] on. *)
Fixpoint timely (t0 : time) (xs : list (time * input)) : Prop :=
  match xs with
  | [] => True
  | (t, _) :: rest => (t0 ≤ t)%Z ∧ timely t rest
  end.

Lemma run_inputs_steps i xs t0 m :
  timely t0 xs → ∃ t, rtc monitor_step (t0, m) (t, run_inputs i xs m).
Proof.
  unfold run_inputs. revert t0 m. induction xs as [|[t x] xs IH]; intros t0 m; [by exists t0|].
  cbn [fold_left timely fst snd]. intros [Ht Hx].
  destruct (IH t (on_input i t x m) Hx) as [t' Hs]. exists t'.
  eapply rtc_l; [by apply step_clock|]. etrans; [apply on_input_steps|done].
Qed.

(** C35: a monitor that [Start] has returned, after any inputs in the order of
    their times, still samples what it was started for, every 15 seconds: a tick
    appends one sample or, when there is nothing to report, none.  The sample
    holds, in this order: an error if the Kubernetes API is failing, one if the
    OpenShift API is failing, a warning for each pod known to the informer that
    has been pending for more than a minute, one for each node without a Ready
    condition that is True, and one for the cluster version whose newest history
    entry is not completed.  The pods the informer is given by a list are the
    pods of the system namespaces but for the first item of the API's list.
    What the monitor has stored is in the order of time, and the events of a
    window without samples are exactly the ones recorded in it. *)
Theorem Start_monitors cl c now m i t0 xs :
  Start cl c now = Ret (m, i) → (0 < t0)%Z → timely t0 xs →
  let m' := run_inputs i xs m in
  (∀ now t, samples (sample_ now t m') =
     samples m' ++ match cluster_conditions c now with [] => [] | cs => [mkSample t cs] end) ∧
  interval m' = (15 * Second)%Z ∧
  (∀ items, ListFunc (pod_inf i) (inl items) =
     inl (bfilter (λ p, let ns := Namespace (PodMeta p) in
                        String.eqb ns "" || HasPrefix ns "kube-" || HasPrefix ns "openshift-" ||
                        String.eqb ns "default") (tl items))) ∧
  sorted_by At (events m') ∧ sorted_by at_ (samples m') ∧
  (∀ srt from to, Conditions m' from to = [] →
     Events srt m' from to =
     map event_interval (bfilter (λ e, in_window from to (At e)) (events m'))).
Proof.
  intros Hs Ht Hx m'. apply Start_Ret in Hs as (_ & _ & _ & _ & _ & Hc & Hint & He & Hsm & Hlist).
  split.
  { intros n t. unfold sample_, m'. rewrite samplers_run, Hc. unfold append_sample.
    destruct (cluster_conditions c n); [by rewrite app_nil_r|done]. }
  split; [unfold m'; by rewrite interval_run|].
  split.
  { intros items. rewrite Hlist, pod_ListFunc_spec. f_equal. apply bfilter_ext. intros p _.
    unfold is_system_pod, filterToSystemNamespaces. by destruct (Namespace (PodMeta p)). }
  destruct (run_inputs_steps i xs t0 m Hx) as [t Hsteps]. fold m' in Hsteps.
  assert (monitor_wf (t, m')) as (_ & [H1 H2] & [H3 _]).
  { apply (rtc_preserve _ _ _ _ monitor_step_wf Hsteps). unfold monitor_wf. cbn. rewrite He, Hsm.
    split_and!; repeat constructor; done. }
  split_and!; [done..|]. intros srt from to Hw. unfold Conditions, Events, snapshot in *. cbn in *.
  rewrite Hw. cbn. rewrite filterEvents_window; [done|done|].
  eapply Forall_impl; [apply H2|]. cbn. lia.
Qed.

(** [Start] fails before anything is started exactly when the configuration or
    one of the clients fails. *)
Lemma Start_Fail cl c now :
  (∃ e, Start cl c now = Fail e) ↔
  ¬ (config_err cl = None ∧ client_err cl = None ∧ config_client_err cl = None ∧
     polling_err cl = None ∧ image_err cl = None).
Proof.
  unfold Start, startAPIMonitoring, gobind, check_err, fail, ret, modw.
  destruct (config_err cl), (client_err cl), (config_client_err cl), (polling_err cl), (image_err cl);
    cbn; split; try (by intros [e ?]); try (intros H; by eexists); try naive_solver.
Qed.

(** A node that is not ready, and the OpenShift API failing. *)
Definition troubled : cluster :=
  mkCluster (λ _, new_sampler) (λ _, mkSampler false) (λ _, [])
    (λ _, [None; Some (mkNode (meta_of "n" "") [mkNodeCond "Ready" "False"])]) (λ _, []).
Definition no_errors : clients := mkClients None None None None None.

Example Start_monitors_witness :
  match Start no_errors troubled Minute with
  | Ret (m, i) =>
      let m' := run_inputs i [(Minute, Recorded [kube_failing]); (Minute, Tick Minute)] m in
      samples (sample_ Minute Minute m') =
        samples m' ++ [mkSample Minute [openshift_failing; mkCondition Warning "node/n" "node is not ready"]]
  | _ => False
  end.
Proof.
  destruct (Start no_errors troubled Minute) as [[m i]|e|p] eqn:E; [|by vm_compute in E..].
  apply (Start_monitors no_errors troubled Minute m i Minute
    [(Minute, Recorded [kube_failing]); (Minute, Tick Minute)]); [done|done|].
  cbn. split_and!; lia.
Defined.
