(* ===== verification/Upgrade.v ===== *)
(** * test/e2e/upgrade: the upgrade test and its version monitor

    The clients of the cluster are a record of operations over a world [W];
    polls take their number of ticks.  Versions are their rendering; the
    semantic parser of k8s.io/apimachinery is a parameter.  Logging is left
    out. *)

From S2P Require Import Prelude.
From S2P Require Import GoStrings.
From S2P Require Import GoLib.
From S2P Require Import KubeTypes.

(** ** The package's variables *)

(* src: test/e2e/upgrade/upgrade.go 52-60 upgradeTests, upgradeAbortAt, upgradeDisruptRebootPolicy *)
Record upgrade_vars := mkVars {
  upgradeTests : list string;
  upgradeAbortAt : Z;
  upgradeDisruptRebootPolicy : string
}.
Definition upgradeAbortAtRandom : Z := (-1)%Z.

(** The tests, in order, as what [Name()] returns. *)
(* src: test/e2e/upgrade/upgrade.go 32-50 AllTests *)
Definition AllTests : list string :=
  ["service-upgrade"; "[sig-storage] [sig-api-machinery] secret-upgrade";
   "[sig-apps] replicaset-upgrade"; "[sig-apps] statefulset-upgrade";
   "[sig-apps] deployment-upgrade"; "[sig-apps] job-upgrade";
   "[sig-storage] [sig-api-machinery] configmap-upgrade"; "[sig-apps] daemonset-upgrade"].

(* src: test/e2e/upgrade/upgrade.go 64-66 SetTests *)
Definition SetTests (tests : list string) : go upgrade_vars unit :=
  modw (λ v, mkVars tests (upgradeAbortAt v) (upgradeDisruptRebootPolicy v)).

Definition set_policy (p : string) : go upgrade_vars unit :=
  modw (λ v, mkVars (upgradeTests v) (upgradeAbortAt v) p).
Definition set_abort_at (a : Z) : go upgrade_vars unit :=
  modw (λ v, mkVars (upgradeTests v) a (upgradeDisruptRebootPolicy v)).

(* src: test/e2e/upgrade/upgrade.go 68-77 SetUpgradeDisruptReboot *)
Definition SetUpgradeDisruptReboot (policy : string) : go upgrade_vars unit :=
  (if String.eqb policy "graceful" || String.eqb policy "force" then set_policy policy
   else set_policy "" ;;!
        fail (Errorf "disrupt-reboot must be empty, 'graceful', or 'force'"))%go.

Definition abort_at_error : error :=
  Errorf "abort-at must be empty, set to 'random', or an integer in [0,100], inclusive".

(* src: test/e2e/upgrade/upgrade.go 84-104 SetUpgradeAbortAt *)
Definition SetUpgradeAbortAt (policy : string) : go upgrade_vars unit :=
  ((if Nat.eqb (String.length policy) 0 then set_abort_at 0 else ret tt) ;;!
   if String.eqb policy "random" then set_abort_at upgradeAbortAtRandom
   else match Atoi policy with
        | Some val =>
            if (val <? 0)%Z || (100 <? val)%Z then fail abort_at_error
            else if (val =? 0)%Z then set_abort_at 1 else set_abort_at val
        | None => fail abort_at_error
        end)%go.

(** ** Updates and conditions *)

(* src: test/e2e/upgrade/upgrade.go 137-142 latestHistory *)
Definition latestHistory (history : list UpdateHistory) : option UpdateHistory := head history.

(* src: test/e2e/upgrade/upgrade.go 144-151 latestCompleted *)
Definition latestCompleted (history : list UpdateHistory) : option Update :=
  match find_first (λ v, String.eqb (HState v) "Completed") history with
  | Some v => Some (mkUpdate (HVersion v) (HImage v) false)
  | None => None
  end.

(* src: test/e2e/upgrade/monitor.go 241-248 findCondition *)
Definition findCondition (conditions : list StatusCondition) (name : string)
  : option StatusCondition := find_first (λ c, String.eqb name (SCType c)) conditions.

(* src: test/e2e/upgrade/monitor.go 250-258 equivalentUpdates *)
Definition equivalentUpdates (a b : Update) : bool :=
  let nonempty s := Nat.ltb 0 (String.length s) in
  if nonempty (UImage a) && nonempty (UImage b) then String.eqb (UImage a) (UImage b)
  else if nonempty (UVersion a) && nonempty (UVersion b)
  then String.eqb (UVersion a) (UVersion b)
  else false.

(* src: test/e2e/upgrade/monitor.go 260-271 versionString *)
Definition versionString (u : Update) : string :=
  let nonempty s := Nat.ltb 0 (String.length s) in
  if nonempty (UVersion u) && nonempty (UImage u)
  then UVersion u +:+ " (" +:+ UImage u +:+ ")"
  else if nonempty (UImage u) then UImage u
  else if nonempty (UVersion u) then UVersion u
  else "<empty>".

(* src: test/e2e/upgrade/monitor.go 199-212 findVersion *)
Definition findVersion (versions : list OperandVersion) (name oldVersion newVersion : string)
  : string :=
  match find_first (λ v, String.eqb (OVName v) name) versions with
  | Some v =>
      if Nat.ltb 0 (String.length oldVersion) && String.eqb (OVVersion v) oldVersion then "<old>"
      else if Nat.ltb 0 (String.length newVersion) && String.eqb (OVVersion v) newVersion
      then "<new>" else OVVersion v
  | None => ""
  end.

(* src: test/e2e/upgrade/monitor.go 214-232 findConditionShortStatus *)
Definition findConditionShortStatus (conditions : list StatusCondition) (name unless : string)
  : string :=
  match findCondition conditions name with
  | Some c =>
      if String.eqb (SCStatus c) "True" then if String.eqb unless (SCStatus c) then " " else "T"
      else if String.eqb (SCStatus c) "False"
      then if String.eqb unless (SCStatus c) then " " else "F"
      else "U"
  | None => " "
  end.

(* src: test/e2e/upgrade/monitor.go 234-239 findConditionMessage *)
Definition findConditionMessage (conditions : list StatusCondition) (name : string) : string :=
  match findCondition conditions name with Some c => SCMessage c | None => "" end.

Definition condition_is (conditions : list StatusCondition) (name status : string) : bool :=
  match findCondition conditions name with
  | Some c => String.eqb (SCStatus c) status
  | None => false
  end.

(** [wait.ConditionFunc]s run one after the other: the closure keeps the
    functions that are left. *)
(* src: test/e2e/upgrade/monitor.go 182-197 sequence *)
Definition sequence {W} (fns : list (go W bool)) : go W (bool * list (go W bool)) :=
  match fns with
  | [] => ret (true, [])
  | fn :: rest =>
      (ok <-! fn ;;
       if negb ok then ret (false, fns) else ret (Nat.eqb (length rest) 0, rest))%go
  end.

(** ** The clients *)

(** An object of the dynamic client. *)
Inductive json :=
| JString (s : string)
| JObject (fields : list (string * json))
| JArray (l : list json)
| JOther.

Record client (W : Type) := mkClient {
  get_cv : go W ClusterVersion;
  update_cv : ClusterVersion → go W ClusterVersion;
  list_co : go W (list ClusterOperator);
  list_masters : go W (list string);
  create_pod : string → string → string → go W unit;   (* name, node, command *)
  list_pools : go W (list string);
  get_pool : string → go W json
}.
Arguments get_cv {W}. Arguments update_cv {W}. Arguments list_co {W}.
Arguments list_masters {W}. Arguments create_pod {W}. Arguments list_pools {W}.
Arguments get_pool {W}.

(** How [%v] renders conditions and [%#v] a pointer to one: the rendering
    includes the transition times, which nothing else reads. *)
Class Rendering := {
  fmt_conditions : list StatusCondition → string;
  go_condition : option StatusCondition → string
}.

Record VersionContext := mkVC { Version : string; NodeImage : string }.

(* src: test/e2e/upgrade/monitor.go 23-27 versionMonitor *)
Record versionMonitor := mkVM { lastCV : option ClusterVersion; oldVersion : string }.

Section Monitor.
Context {W : Type} (c : client W).

Definition watched_conditions : list string := ["Progressing"; "Degraded"; "Failing"].

(** The message of the last of the conditions that holds. *)
Definition status_message (conds : list StatusCondition) : string :=
  fold_left (λ msg t, match findCondition conds t with
                      | Some c => if String.eqb (SCStatus c) "True" then SCMessage c else msg
                      | None => msg
                      end) watched_conditions "".

Definition updateString (u : option Update) : string :=
  match u with Some u => "&{" +:+ UVersion u +:+ " " +:+ UImage u +:+ " " +:+ btoa (UForce u) +:+ "}" | None => "<nil>" end.

(** [None] is a nil cluster version: the API could not be reached. *)
(* src: test/e2e/upgrade/monitor.go 30-59 versionMonitor.Check *)
Definition Check_ (initialGeneration : Z) (desired : Update)
  : go (W * versionMonitor) (option ClusterVersion * string) := λ '(w, m),
  match get_cv c w with
  | (Fail e, w') =>
      (Ret (None, "unable to retrieve cluster version during upgrade: " +:+ err_msg e), (w', m))
  | (Panic p, w') => (Panic p, (w', m))
  | (Ret cv, w') =>
      let m := mkVM (Some cv) (oldVersion m) in
      if (initialGeneration <? ObservedGeneration cv)%Z &&
         negb (bool_decide (DesiredUpdate cv = Some desired))
      then (Fail (Errorf ("desired cluster version was changed by someone else: " +:+
                          updateString (DesiredUpdate cv))), (w', m))
      else (Ret (Some cv, status_message (CVConditions cv)), (w', m))
  end.

Definition after_completion `{R : Rendering} (conds : list StatusCondition) (what : string) : error :=
  Errorf ("cluster version was " +:+ what +:+ " after completion: " +:+ fmt_conditions conds).

(* src: test/e2e/upgrade/monitor.go 61-93 versionMonitor.Reached *)
Definition Reached `{R : Rendering} (cv : ClusterVersion) (desired : Update) : bool + error :=
  if negb (equivalentUpdates (CVDesired cv) desired) then inl false
  else match latestHistory (History cv) with
       | None => inl false
       | Some target =>
           if negb (String.eqb (HState target) "Completed") ||
              negb (equivalentUpdates desired (mkUpdate (HVersion target) (HImage target) false))
           then inl false
           else
             let conds := CVConditions cv in
             if (match findCondition conds "Available" with
                 | Some c => negb (String.eqb (SCStatus c) "True") | None => false end)
             then inr (after_completion conds "Available=false")
             else if condition_is conds "Progressing" "True"
             then inr (after_completion conds "Progressing=true")
             else if condition_is conds "Degraded" "True"
             then inr (after_completion conds "Degraded=true")
             else if condition_is conds "Failing" "True"
             then inr (after_completion conds "Failing=true")
             else inl true
       end.

(** [changed/n < abortAt/100] on floats is the comparison of the two rationals:
    the quotients are rounded correctly and two different ones are further
    apart than the rounding; 0/0 is NaN, which is less than nothing. *)
(* src: test/e2e/upgrade/monitor.go 99-123 versionMonitor.ShouldUpgradeAbort *)
Definition ShouldUpgradeAbort (abortAt : Z) : go (W * versionMonitor) bool := λ '(w, m),
  if (abortAt =? 0)%Z then (Ret false, (w, m))
  else
    match list_co c w with
    | (Fail _, w') => (Ret false, (w', m))
    | (Panic p, w') => (Panic p, (w', m))
    | (Ret items, w') =>
        match items, lastCV m with
        | _ :: _, None => (Panic "nil pointer dereference", (w', m))
        | _, _ =>
            let new := match lastCV m with Some cv => UVersion (CVDesired cv) | None => "" end in
            let changed := Z.of_nat (length (bfilter (λ item,
              negb (String.eqb (findVersion (COVersions item) "operator" (oldVersion m) new)
                      "<old>")) items)) in
            (Ret (negb (changed * 100 <? abortAt * Z.of_nat (length items))%Z), (w', m))
        end
    end.

(** What is logged: the cluster version, if one was read, and the rows of the
    table of the operators. *)
(* src: test/e2e/upgrade/monitor.go 125-148 versionMonitor.Output *)
Definition Output : go (W * versionMonitor) (option ClusterVersion * list (list string)) :=
  λ '(w, m),
  match list_co c w with
  | (Fail _, w') => (Ret (lastCV m, []), (w', m))
  | (Panic p, w') => (Panic p, (w', m))
  | (Ret items, w') =>
      let header := [["NAME"; "A F P"; "VERSION"; "MESSAGE"]]%string in
      let short item n unless := findConditionShortStatus (COConditions item) n unless in
      let row new item :=
        [Name (COMeta item);
         short item "Available" "True" +:+ " " +:+ short item "Degraded" "False" +:+ " " +:+
           short item "Progressing" "False";
         findVersion (COVersions item) "operator" (oldVersion m) new;
         findConditionMessage (COConditions item) "Progressing"]%string in
      match items, lastCV m with
      | [], _ => (Ret (lastCV m, header), (w', m))
      | _, None => (Panic "nil pointer dereference", (w', m))
      | _, Some cv => (Ret (Some cv, header ++ map (row (UVersion (CVDesired cv))) items), (w', m))
      end
  end.

(** *** Disruption *)

Definition reboot_command (hard : bool) : string :=
  if hard
  then "echo 'reboot in 1 minute'; exec chroot /host sudo systemd-run sh -c 'sleep 60 && reboot --force --force'"
  else "echo 'reboot in 1 minute'; exec chroot /host shutdown -r 1".

Definition reboot_name (target : string) (attempt : Z) : string :=
  "reboot-" +:+ target +:+ "-" +:+ itoa attempt.

(** The recursion goes on while the name of the pod is taken; [fuel] bounds the
    attempts. *)
(* src: test/e2e/upgrade/monitor.go 273-330 triggerReboot *)
Fixpoint triggerReboot (fuel : nat) (target : string) (attempt : Z) (rebootHard : bool)
  : go W (option unit) := λ w,
  match fuel with
  | O => (Ret None, w)
  | S f =>
      match create_pod c (reboot_name target attempt) target (reboot_command rebootHard) w with
      | (Ret _, w') => (Ret (Some tt), w')
      | (Fail e, w') =>
          if is_kind KAlreadyExists e then triggerReboot f target (attempt + 1) rebootHard w'
          else (Fail e, w')
      | (Panic p, w') => (Panic p, w')
      end
  end.

(** The loop of the goroutine: [rounds] are the answers of [ctx.Err()] after
    each sleep and [shuffle] the permutations of the nodes. *)
(* src: test/e2e/upgrade/monitor.go 150-180 versionMonitor.Disrupt *)
Fixpoint Disrupt_loop (fuel : nat) (hard : bool) (shuffle : list string → list string)
    (rounds : list bool) : go W unit := λ w,
  match rounds with
  | [] | true :: _ => (Ret tt, w)
  | false :: rest =>
      match list_masters c w with
      | (Panic p, w') => (Panic p, w')
      | (Fail _, w') => Disrupt_loop fuel hard shuffle rest w'
      | (Ret nodes, w') =>
          match shuffle nodes with
          | [] => Disrupt_loop fuel hard shuffle rest w'
          | name :: _ =>
              match triggerReboot fuel name 0 hard w' with
              | (Panic p, w'') => (Panic p, w'')
              | (_, w'') => Disrupt_loop fuel hard shuffle rest w''
              end
          end
      end
  end.

(* src: test/e2e/upgrade/monitor.go 150-160 versionMonitor.Disrupt *)
Definition Disrupt (fuel : nat) (shuffle : list string → list string) (rounds : list bool)
    (rebootPolicy : string) : go W unit :=
  if String.eqb rebootPolicy "" then ret tt
  else Disrupt_loop fuel (String.eqb rebootPolicy "force") shuffle rounds.

(** *** Machine config pools *)

Fixpoint json_field (k : string) (fields : list (string * json)) : option json :=
  match fields with
  | [] => None
  | (k', v) :: rest => if String.eqb k k' then Some v else json_field k rest
  end.

(** [unstructured.NestedString(o, k)]: [None] when it is missing or no string. *)
Definition nested_string (k : string) (o : json) : option string :=
  match o with
  | JObject fields => match json_field k fields with Some (JString s) => Some s | _ => None end
  | _ => None
  end.

(** The loop over the conditions; [None] is the early return. *)
Fixpoint pool_flags (l : list json) (flags : bool * bool * bool) : option (bool * bool * bool) :=
  match l with
  | [] => Some flags
  | o :: rest =>
      match o with
      | JObject _ =>
          match nested_string "type" o, nested_string "status" o with
          | Some t, Some s =>
              let '(updated, updating, degraded) := flags in
              let on n := String.eqb t n && String.eqb s "True" in
              pool_flags rest (updated || on "Updated", updating || on "Updating",
                               degraded || on "Degraded")
          | _, _ => None
          end
      | _ => None
      end
  end.

Definition pool_conditions (pool : json) : option (list json) :=
  match pool with
  | JObject fields =>
      match json_field "status" fields with
      | Some (JObject st) =>
          match json_field "conditions" st with Some (JArray l) => Some l | _ => None end
      | _ => None
      end
  | _ => None
  end.

(* src: test/e2e/upgrade/upgrade.go 382-425 IsPoolUpdated *)
Definition IsPoolUpdated (name : string) : go W bool := λ w,
  match get_pool c name w with
  | (Fail _, w') => (Ret false, w')
  | (Panic p, w') => (Panic p, w')
  | (Ret pool, w') =>
      (Ret (match pool_conditions pool with
            | Some l =>
                match pool_flags l (false, false, false) with
                | Some (updated, updating, degraded) => updated && negb updating && negb degraded
                | None => false
                end
            | None => false
            end), w')
  end.

(** All the pools are asked, in order. *)
Fixpoint all_pools_updated (pools : list string) (acc : bool) : go W bool :=
  match pools with
  | [] => ret acc
  | p :: rest => (u <-! IsPoolUpdated p ;; all_pools_updated rest (acc && u))%go
  end.

(* src: test/e2e/upgrade/upgrade.go 351-376 clusterUpgrade (pools) *)
Definition wait_pools (ticks : nat) : go W unit := λ w,
  let cond : go W bool := λ w,
    match list_pools c w with
    | (Fail _, w') => (Ret false, w')
    | (Panic p, w') => (Panic p, w')
    | (Ret pools, w') => all_pools_updated pools true w'
    end in
  match PollImmediate ticks cond w with
  | (Fail e, w') => (Fail (Errorf ("Pools did not complete upgrade: " +:+ err_msg e)), w')
  | r => r
  end.
End Monitor.

(** ** The upgrade *)

Section ClusterUpgrade.
Context `{R : Rendering} {W : Type} (c : client W).

Definition cluster_err (what : string) (cond : string) : error :=
  Errorf ("cluster " +:+ what +:+ ", cannot continue: " +:+ cond).

Definition condition_text (o : option StatusCondition) : string :=
  match o with Some c => SCMessage c | None => "" end.

(** The refusals before a version is looked at: the first that applies. *)
(* src: test/e2e/upgrade/upgrade.go 168-187 getUpgradeContext (refusals) *)
Definition upgrade_refused (cv : ClusterVersion) : option error :=
  let conds := CVConditions cv in
  match (match DesiredUpdate cv with
         | Some u =>
             if negb (ObservedGeneration cv =? Generation (CVMeta cv))%Z
             then Some (Errorf "cluster may be in the process of upgrading, cannot start a test")
             else match History cv with
                  | h :: _ =>
                      if negb (String.eqb (HState h) "Completed")
                      then Some (Errorf ("cluster is already being upgraded, cannot start a test: "
                                         +:+ versionString u))
                      else None
                  | [] => None
                  end
         | None => None
         end) with
  | Some e => Some e
  | None =>
      if condition_is conds "Degraded" "True"
      then Some (cluster_err "is reporting a degraded condition"
                   (condition_text (findCondition conds "Degraded")))
      else if condition_is conds "Failing" "True"
      then Some (cluster_err "is reporting a failing condition"
                   (condition_text (findCondition conds "Failing")))
      else if negb (condition_is conds "Progressing" "False")
      then Some (cluster_err "must be reporting a progressing=false condition"
                   (go_condition (findCondition conds "Progressing")))
      else if negb (condition_is conds "Available" "True")
      then Some (cluster_err "must be reporting an available=true condition"
                   (go_condition (findCondition conds "Available")))
      else None
  end.

(** [parse] is [version.ParseSemantic]. *)
(* src: test/e2e/upgrade/upgrade.go 153-228 getUpgradeContext *)
Definition getUpgradeContext (parse : string → string + error) (upgradeTarget upgradeImage : string)
  : go W (list VersionContext) :=
  (if String.eqb upgradeTarget "[pause]"
   then ret [mkVC "0.0.1" "[pause]"; mkVC "0.0.2" "[pause]"]
   else
     cv <-! get_cv c ;;
     match upgrade_refused cv with
     | Some e => fail e
     | None =>
         match latestCompleted (History cv) with
         | None => fail (Errorf "cluster has not rolled out a version yet, must wait until that is complete")
         | Some current =>
             curVer <-! of_sum (parse (UVersion current)) ;;
             let upgCtx := [mkVC curVer (UImage current)] in
             let nonempty s := Nat.ltb 0 (String.length s) in
             if negb (nonempty upgradeTarget) && negb (nonempty upgradeImage) then ret upgCtx
             else if (nonempty upgradeImage && String.eqb upgradeImage (UImage current)) ||
                     (nonempty upgradeTarget && String.eqb upgradeTarget (UVersion current))
             then fail (Errorf ("cluster is already at version " +:+ versionString current))
             else if nonempty upgradeTarget then
               nextVer <-! of_sum (parse upgradeTarget) ;;
               ret (upgCtx ++ [mkVC nextVer upgradeImage])
             else ret (upgCtx ++ [mkVC "" upgradeImage])
         end
     end)%go.

(** The variables the closures of [clusterUpgrade] share. *)
Record upgrade_run := mkURun {
  u_world : W;
  u_mon : versionMonitor;
  u_updated : ClusterVersion;
  u_desired : Update;
  u_aborted : bool;
  u_message : string
}.

Definition on_monitor {A} (f : go (W * versionMonitor) A) : go upgrade_run A := λ r,
  let '(o, (w, m)) := f (u_world r, u_mon r) in
  (o, mkURun w m (u_updated r) (u_desired r) (u_aborted r) (u_message r)).

Definition on_world {A} (f : go W A) : go upgrade_run A := λ r,
  let '(o, w) := f (u_world r) in
  (o, mkURun w (u_mon r) (u_updated r) (u_desired r) (u_aborted r) (u_message r)).

Definition set_desired (u : Update) : go upgrade_run unit :=
  modw (λ r, mkURun (u_world r) (u_mon r) (u_updated r) u (u_aborted r) (u_message r)).
Definition set_updated (cv : ClusterVersion) : go upgrade_run unit :=
  modw (λ r, mkURun (u_world r) (u_mon r) cv (u_desired r) (u_aborted r) (u_message r)).
Definition set_aborted : go upgrade_run unit :=
  modw (λ r, mkURun (u_world r) (u_mon r) (u_updated r) (u_desired r) true (u_message r)).
Definition set_message (m : string) : go upgrade_run unit :=
  modw (λ r, mkURun (u_world r) (u_mon r) (u_updated r) (u_desired r) (u_aborted r)
               (if Nat.ltb 0 (String.length m) then m else u_message r)).

Definition check_now : go upgrade_run (option ClusterVersion * string) :=
  (r <-! getw ;; on_monitor (Check_ c (Generation (CVMeta (u_updated r))) (u_desired r)))%go.

(** The first wait: the update is acknowledged. *)
(* src: test/e2e/upgrade/upgrade.go 285-296 clusterUpgrade (acknowledgement) *)
Definition ack_cond : go upgrade_run bool :=
  (x <-! check_now ;;
   match fst x with
   | None => ret false
   | Some cv =>
       r <-! getw ;; ret (Generation (CVMeta (u_updated r)) <=? ObservedGeneration cv)%Z
   end)%go.

Definition with_desired (cv : ClusterVersion) (u : Update) : ClusterVersion :=
  mkCV (CVMeta cv) (Some u) (CVDesired cv) (History cv) (ObservedGeneration cv) (CVConditions cv).

(** The rollback, retried on conflicts. *)
(* src: test/e2e/upgrade/upgrade.go 315-337 clusterUpgrade (rollback) *)
Definition rollback (oldImage : string) : go upgrade_run unit :=
  let desired := mkUpdate "" oldImage true in
  (set_desired desired ;;!
   RetryOnConflict 10
     (cv <-! on_world (get_cv c) ;;
      cv' <-! on_world (update_cv c (with_desired cv desired)) ;;
      set_updated cv') ;;!
   set_aborted)%go.

(** The second wait: the version is reached, or rolled back. *)
(* src: test/e2e/upgrade/upgrade.go 302-347 clusterUpgrade (observation) *)
Definition observe_cond (abortAt : Z) (oldImage : string) : go upgrade_run bool :=
  (x <-! check_now ;;
   set_message (snd x) ;;!
   match fst x with
   | None => ret false
   | Some cv =>
       r <-! getw ;;
       abort <-! (if u_aborted r then ret false else on_monitor (ShouldUpgradeAbort c abortAt)) ;;
       if abort : bool then rollback oldImage ;;! ret false
       else r <-! getw ;; of_sum (Reached cv (u_desired r))
   end)%go.

(** When a wait fails the state of the cluster is logged and the error is
    wrapped. *)
Definition wrap {A} (f : error → upgrade_run → error) (m : go upgrade_run A)
  : go upgrade_run A := λ s,
  match m s with
  | (Fail e, s') => (on_monitor (Output c) ;;! λ s', (Fail (f e s'), s'))%go s'
  | r => r
  end.

Definition not_completed (e : error) (r : upgrade_run) : error :=
  if Nat.ltb 0 (String.length (u_message r))
  then Errorf ("Cluster did not complete upgrade: " +:+ err_msg e +:+ ": " +:+ u_message r)
  else Errorf ("Cluster did not complete upgrade: " +:+ err_msg e).

(** [abort_at] and the time given to the upgrade; [rand] is [rand.Int31n(100)]. *)
(* src: test/e2e/upgrade/upgrade.go 244-260 clusterUpgrade (abort) *)
Definition abort_plan (policy rand : Z) : Z * duration :=
  let maximumDuration := (75 * Minute)%Z in
  if (policy =? 0)%Z then (0, maximumDuration)%Z
  else if (policy =? upgradeAbortAtRandom)%Z then (rand + 1, maximumDuration * 2)%Z
  else (policy, maximumDuration * 2)%Z.

(** The waits that follow the request. *)
Definition upgrade_waits (abortAt : Z) (maximumDuration : duration) (oldImage : string)
  : go upgrade_run unit :=
  (wrap (λ e _, Errorf ("Cluster did not acknowledge request to upgrade in a reasonable time: " +:+
                        err_msg e))
     (PollImmediate (ticks_of (5 * Second) (2 * Minute)) ack_cond) ;;!
   wrap not_completed
     (PollImmediate (ticks_of (10 * Second) maximumDuration) (observe_cond abortAt oldImage)))%go.

(** The goroutine of [Disrupt], started after the acknowledgement, runs beside
    the second wait and shares no variable with it: it is modelled apart, and
    what it does to the cluster is part of the client's answers. *)
(* src: test/e2e/upgrade/upgrade.go 232-379 clusterUpgrade *)
Definition clusterUpgrade (policy rand : Z) (version : VersionContext) : go W unit :=
  if String.eqb (NodeImage version) "[pause]" then ret tt
  else
    let '(abortAt, maximumDuration) := abort_plan policy rand in
    (cv <-! get_cv c ;;
     let oldImage := UImage (CVDesired cv) in
     let oldVersion := UVersion (CVDesired cv) in
     let desired := mkUpdate (Version version) (NodeImage version) true in
     updated <-! update_cv c (with_desired cv desired) ;;
     (λ w, let '(o, r) := upgrade_waits abortAt maximumDuration oldImage
                            (mkURun w (mkVM None oldVersion) updated desired false "") in
           (o, u_world r)) ;;!
     wait_pools c (ticks_of (10 * Second) (30 * Minute)))%go.
End ClusterUpgrade.

(** ** Properties *)

(** C39: the policies accepted by [SetUpgradeAbortAt]: a number from 0 to 100
    sets the percentage (0 meaning 1), [random] the special value; everything
    else is an error and leaves the percentage alone, except the empty policy,
    which resets it and is an error too. *)
Theorem SetUpgradeAbortAt_spec policy v :
  let '(r, v') := SetUpgradeAbortAt policy v in
  upgradeTests v' = upgradeTests v ∧
  upgradeDisruptRebootPolicy v' = upgradeDisruptRebootPolicy v ∧
  if bool_decide (policy = "random"%string) then r = Ret tt ∧ upgradeAbortAt v' = (-1)%Z
  else match Atoi policy with
       | Some n =>
           if (0 <=? n)%Z && (n <=? 100)%Z
           then r = Ret tt ∧ upgradeAbortAt v' = Z.max 1 n
           else r = Fail abort_at_error ∧ upgradeAbortAt v' = upgradeAbortAt v
       | None =>
           r = Fail abort_at_error ∧
           upgradeAbortAt v' = (if bool_decide (policy = ""%string) then 0%Z else upgradeAbortAt v)
       end.
Proof.
  unfold SetUpgradeAbortAt, gobind. destruct (Nat.eqb_spec (String.length policy) 0) as [E|E].
  { destruct policy; [|done]. cbn. done. }
  cbn. rewrite (bool_decide_eq_false_2 (policy = ""%string)) by (by intros ->).
  destruct (String.eqb_spec policy "random") as [->|Hr]; [done|].
  rewrite bool_decide_eq_false_2 by done.
  destruct (Atoi policy) as [n|]; [|done].
  destruct (Z.ltb_spec n 0), (Z.ltb_spec 100 n), (Z.leb_spec 0 n), (Z.leb_spec n 100); try lia;
    cbn; try done. destruct (Z.eqb_spec n 0); cbn; split_and!; try done; lia.
Qed.

(** The operator has taken up the desired update, its latest history entry
    completed it and no condition contradicts the completion. *)
Definition at_version (cv : ClusterVersion) (desired : Update) : Prop :=
  equivalentUpdates (CVDesired cv) desired = true ∧
  (∃ h rest, History cv = h :: rest ∧ HState h = "Completed"%string ∧
     equivalentUpdates desired (mkUpdate (HVersion h) (HImage h) false) = true) ∧
  (∀ c, findCondition (CVConditions cv) "Available" = Some c → SCStatus c = "True"%string) ∧
  (∀ n c, n ∈ ["Progressing"; "Degraded"; "Failing"]%string →
     findCondition (CVConditions cv) n = Some c → SCStatus c ≠ "True"%string).

(** [Reached] says true exactly of a cluster that is at the version. *)
Theorem Reached_spec `{R : Rendering} cv desired :
  Reached cv desired = inl true ↔ at_version cv desired.
Proof.
  unfold at_version. fold watched_conditions.
  assert (∀ n, condition_is (CVConditions cv) n "True" = false ↔
            ∀ c, findCondition (CVConditions cv) n = Some c → SCStatus c ≠ "True"%string) as Hc.
  { intros n. unfold condition_is. destruct (findCondition _ n) as [c|]; [|naive_solver].
    rewrite String.eqb_neq. naive_solver. }
  assert (∀ P : string → Prop, (∀ n, n ∈ watched_conditions → P n) ↔
            P "Progressing"%string ∧ P "Degraded"%string ∧ P "Failing"%string) as Hw.
  { intros P. unfold watched_conditions. split; [intros H; split_and!; apply H; set_solver|].
    intros (? & ? & ?) n Hn. set_unfold. naive_solver. }
  assert ((∃ h rest, History cv = h :: rest ∧ HState h = "Completed"%string ∧
             equivalentUpdates desired (mkUpdate (HVersion h) (HImage h) false) = true) ↔
          match History cv with
          | h :: _ => String.eqb (HState h) "Completed" = true ∧
              equivalentUpdates desired (mkUpdate (HVersion h) (HImage h) false) = true
          | [] => False
          end) as ->.
  { destruct (History cv) as [|h rest]; [split; [by intros (?&?&?&_)|done]|].
    rewrite String.eqb_eq. split; [intros (?&?&?&?); by simplify_eq|eauto]. }
  assert ((∀ c, findCondition (CVConditions cv) "Available" = Some c → SCStatus c = "True"%string) ↔
          (match findCondition (CVConditions cv) "Available" with
           | Some c => negb (String.eqb (SCStatus c) "True") | None => false end) = false) as ->.
  { destruct (findCondition _ "Available") as [ca|]; [|done].
    rewrite negb_false_iff, String.eqb_eq. split; [auto|]. by intros ? ? [= <-]. }
  assert ((∀ n c, n ∈ watched_conditions → findCondition (CVConditions cv) n = Some c →
             SCStatus c ≠ "True"%string) ↔
          condition_is (CVConditions cv) "Progressing" "True" = false ∧
          condition_is (CVConditions cv) "Degraded" "True" = false ∧
          condition_is (CVConditions cv) "Failing" "True" = false) as ->.
  { rewrite !Hc. rewrite <- (Hw (λ n, ∀ c, _ n = _ → _)). split; eauto. }
  unfold Reached. clear Hc Hw.
  destruct (equivalentUpdates (CVDesired cv) desired); cbn [negb]; [|intuition congruence].
  destruct (History cv) as [|h rest]; cbn [latestHistory head]; [intuition congruence|].
  destruct (String.eqb (HState h) "Completed"); cbn [negb orb]; [|intuition congruence].
  destruct (equivalentUpdates desired _); cbn [negb]; [|intuition congruence].
  destruct (match findCondition (CVConditions cv) "Available" with Some _ => _ | None => _ end);
    [intuition congruence|].
  destruct (condition_is _ "Progressing" _); [intuition congruence|].
  destruct (condition_is _ "Degraded" _); [intuition congruence|].
  destruct (condition_is _ "Failing" _); intuition congruence.
Qed.

(** A context is handed out only by a healthy cluster: no degraded or failing
    condition, progressing false, available true, a completed version; it holds
    that version and, if a target or an image was asked for, the next one,
    which differs from the current one. *)
Theorem getUpgradeContext_healthy `{R : Rendering} {W} (c : client W) parse target image w vs w' :
  getUpgradeContext c parse target image w = (Ret vs, w') → target ≠ "[pause]"%string →
  ∃ cv cur, get_cv c w = (Ret cv, w') ∧ latestCompleted (History cv) = Some cur ∧
    condition_is (CVConditions cv) "Degraded" "True" = false ∧
    condition_is (CVConditions cv) "Failing" "True" = false ∧
    condition_is (CVConditions cv) "Progressing" "False" = true ∧
    condition_is (CVConditions cv) "Available" "True" = true ∧
    NodeImage <$> head vs = Some (UImage cur) ∧
    length vs = (if decide (target = "" ∧ image = "")%string then 1 else 2) ∧
    (image ≠ "" → image ≠ UImage cur)%string ∧ (target ≠ "" → target ≠ UVersion cur)%string.
Proof.
  unfold getUpgradeContext. intros H Hp. apply String.eqb_neq in Hp. rewrite Hp in H. clear Hp.
  apply gobind_Ret_inv in H as (cv & w1 & Hcv & H).
  destruct (upgrade_refused cv) eqn:Er; [done|].
  destruct (latestCompleted (History cv)) as [cur|] eqn:El; [|done].
  assert (∀ A (r : A + error) (wa wb : W) a, of_sum r wa = (Ret a, wb) → wb = wa) as Hsum.
  { intros A [a|e] wa wb b E; cbv in E; by simplify_eq. }
  apply gobind_Ret_inv in H as (v & w2 & Hv & H). apply Hsum in Hv as ->.
  exists cv, cur.
  assert (∀ s : string, Nat.ltb 0 (String.length s) = negb (String.eqb s "")) as Hne by (by intros []).
  rewrite !Hne in H.
  unfold upgrade_refused in Er.
  destruct (match DesiredUpdate cv with Some _ => _ | None => _ end); [done|].
  destruct (condition_is (CVConditions cv) "Degraded" "True"); [done|].
  destruct (condition_is (CVConditions cv) "Failing" "True"); [done|].
  destruct (condition_is (CVConditions cv) "Progressing" "False"); [|done].
  destruct (condition_is (CVConditions cv) "Available" "True"); [|done].
  destruct (String.eqb_spec target ""), (String.eqb_spec image "");
    destruct (String.eqb_spec image (UImage cur)), (String.eqb_spec target (UVersion cur));
    cbn in H; try (unfold fail in H; by simplify_eq); unfold ret in H;
    try (apply gobind_Ret_inv in H as (nv & w3 & Hn & H); apply Hsum in Hn as ->);
    simplify_eq; split_and!; try done; case_decide; try tauto.
Qed.

(** The conditions of a pool are well formed and hold Updated=True and neither
    Updating=True nor Degraded=True. *)
Definition pool_updated (pool : json) : Prop :=
  ∃ l, pool_conditions pool = Some l ∧
    Forall (λ o, is_Some (nested_string "type" o) ∧ is_Some (nested_string "status" o)) l ∧
    let has t := ∃ o, o ∈ l ∧ nested_string "type" o = Some t ∧
                      nested_string "status" o = Some "True"%string in
    has "Updated"%string ∧ ¬ has "Updating"%string ∧ ¬ has "Degraded"%string.

(** [IsPoolUpdated] says true exactly of such pools. *)
Theorem IsPoolUpdated_spec {W} (c : client W) name w pool w' :
  get_pool c name w = (Ret pool, w') →
  IsPoolUpdated c name w = (Ret true, w') ↔ pool_updated pool.
Proof.
  set (hit t := λ o, bool_decide (nested_string "type" o = Some t ∧
                                   nested_string "status" o = Some "True"%string)).
  assert (∀ l u1 u2 u3,
    pool_flags l (u1, u2, u3) =
    if forallb (λ o, bool_decide (is_Some (nested_string "type" o)) &&
                     bool_decide (is_Some (nested_string "status" o))) l
    then Some (u1 || existsb (hit "Updated"%string) l, u2 || existsb (hit "Updating"%string) l,
               u3 || existsb (hit "Degraded"%string) l)
    else None) as Hflags.
  { induction l as [|o l IH]; intros u1 u2 u3; cbn; [by rewrite !orb_false_r|].
    destruct o as [s|fields|arr|]; cbn [nested_string]; try done.
    destruct (json_field "type" fields) as [[t| | |]|] eqn:Et; try done.
    destruct (json_field "status" fields) as [[s| | |]|] eqn:Es; try done. cbn [andb].
    assert (∀ n, hit n (JObject fields) = String.eqb t n && String.eqb s "True") as Hb.
    { intros n. unfold hit. cbn [nested_string]. rewrite Et, Es.
      destruct (String.eqb_spec t n), (String.eqb_spec s "True"); cbn;
        [apply bool_decide_eq_true_2|apply bool_decide_eq_false_2..]; naive_solver. }
    rewrite IH, <- !orb_assoc, !Hb, !bool_decide_eq_true_2 by eauto. done. }
  intros Hg. unfold IsPoolUpdated, pool_updated. rewrite Hg.
  assert (∀ t l, existsb (hit t) l = true ↔ ∃ o, o ∈ l ∧ nested_string "type" o = Some t ∧
                      nested_string "status" o = Some "True"%string) as Hex.
  { intros t l. rewrite existsb_elem_of. unfold hit. by setoid_rewrite bool_decide_eq_true. }
  destruct (pool_conditions pool) as [l|]; [|by split; [|intros (?&?&_)]].
  rewrite Hflags.
  assert (forallb (λ o, bool_decide (is_Some (nested_string "type" o)) &&
             bool_decide (is_Some (nested_string "status" o))) l = true ↔
          Forall (λ o, is_Some (nested_string "type" o) ∧ is_Some (nested_string "status" o)) l) as Hall.
  { rewrite forallb_elem_of, Forall_forall. setoid_rewrite andb_true_iff.
    by setoid_rewrite bool_decide_eq_true. }
  destruct (forallb _ l); cbn [orb].
  2: { split; [done|]. intros (? & [= <-] & H & _). by apply Hall in H. }
  split.
  - intros H. exists l. split; [done|]. split; [by apply Hall|]. cbn zeta. rewrite <- !Hex.
    destruct (existsb (hit "Updated"%string) l), (existsb (hit "Updating"%string) l),
      (existsb (hit "Degraded"%string) l); by simplify_eq/=.
  - intros (? & [= <-] & _ & H). cbn zeta in H. rewrite <- !Hex in H.
    destruct (existsb (hit "Updated"%string) l), (existsb (hit "Updating"%string) l),
      (existsb (hit "Degraded"%string) l); naive_solver.
Qed.

(** *** What a successful upgrade has seen *)

(** One call of the client, whatever it answers. *)
Inductive client_step {W} (c : client W) : W → W → Prop :=
| step_get_cv w r w' : get_cv c w = (r, w') → client_step c w w'
| step_update_cv cv w r w' : update_cv c cv w = (r, w') → client_step c w w'
| step_list_co w r w' : list_co c w = (r, w') → client_step c w w'
| step_list_pools w r w' : list_pools c w = (r, w') → client_step c w w'
| step_get_pool n w r w' : get_pool c n w = (r, w') → client_step c w w'.

Section Success.
Context `{R : Rendering} {W : Type} (c : client W).

(** At a list of the operators read between [w0] and [w] the share of those
    that had left the old version was at least the percentage at which the
    upgrade is to be aborted, and it is to be aborted. *)
Definition told_to_abort (policy rand : Z) (oldV : string) (w0 w : W) : Prop :=
  policy ≠ 0%Z ∧
  ∃ wa items new wb, rtc (client_step c) w0 wa ∧ list_co c wa = (Ret items, wb) ∧
    rtc (client_step c) wb w ∧
    let moved item := negb (String.eqb (findVersion (COVersions item) "operator" oldV new) "<old>") in
    ((if (policy =? -1)%Z then rand + 1 else policy) * Z.of_nat (length items) ≤
     100 * Z.of_nat (length (bfilter moved items)))%Z.

Lemma told_later policy rand oldV w0 w w' :
  rtc (client_step c) w w' → told_to_abort policy rand oldV w0 w → told_to_abort policy rand oldV w0 w'.
Proof.
  intros Hs (Hp & wa & items & new & wb & H1 & H2 & H3 & H4). split; [done|].
  exists wa, items, new, wb. split_and!; try done. by etrans.
Qed.

Section Seen.
Variables (policy rand : Z) (oldV : string) (w0 : W) (req back : Update).

(** The state has been reached from [w0] by calls, and the update that is wanted
    is the one asked for, or the one to go back to after the abort. *)
Definition seen (told : bool) (r : upgrade_run (W := W)) : Prop :=
  rtc (client_step c) w0 (u_world r) ∧ oldVersion (u_mon r) = oldV ∧
  (u_desired r = req ∨
   u_desired r = back ∧ told_to_abort policy rand oldV w0 (u_world r)) ∧
  (told = true → told_to_abort policy rand oldV w0 (u_world r)).

Lemma seen_later told r r' :
  rtc (client_step c) (u_world r) (u_world r') → oldVersion (u_mon r') = oldVersion (u_mon r) →
  u_desired r' = u_desired r → seen told r → seen told r'.
Proof.
  intros Hs Hv Hd (H1 & H2 & H3 & H4). split_and!; [by etrans|congruence| |].
  - rewrite Hd. destruct H3 as [H3|[H3 Ht]]; [by left|right]. split; [done|by eapply told_later].
  - intros Ht. by eapply told_later, H4.
Qed.

Lemma seen_weaken r : seen true r → seen false r.
Proof. by intros (H1 & H2 & H3 & _). Qed.

Lemma keeps_on_world {A} told (f : go W A) :
  (∀ w, client_step c w (snd (f w))) → keeps (seen told) (on_world f).
Proof.
  intros Hf r Hr. unfold on_world. specialize (Hf (u_world r)).
  destruct (f _) as [o w]. by apply (seen_later told r); [apply rtc_once|..].
Qed.
Lemma keeps_on_monitor {A} told (f : go (W * versionMonitor) A) :
  (∀ w m, rtc (client_step c) w (fst (snd (f (w, m)))) ∧
          oldVersion (snd (snd (f (w, m)))) = oldVersion m) →
  keeps (seen told) (on_monitor f).
Proof.
  intros Hf r Hr. unfold on_monitor. destruct (Hf (u_world r) (u_mon r)) as [Hw Hm].
  destruct (f _) as [o [w m]]. by apply (seen_later told r).
Qed.
Lemma keeps_seen_mod told (f : upgrade_run → upgrade_run) :
  (∀ r, u_world (f r) = u_world r) → (∀ r, u_mon (f r) = u_mon r) →
  (∀ r, u_desired (f r) = u_desired r) → keeps (seen told) (modw f).
Proof.
  intros Hw Hm Hd. apply keeps_modw. intros r. apply seen_later; [by rewrite Hw|by rewrite Hm|done].
Qed.

Lemma Check_steps g d w m :
  rtc (client_step c) w (fst (snd (Check_ c g d (w, m)))) ∧
  oldVersion (snd (snd (Check_ c g d (w, m)))) = oldVersion m.
Proof.
  unfold Check_. destruct (get_cv c w) as [[cv|e|p] w'] eqn:E;
    repeat destr_match; (split; [apply rtc_once; by eapply step_get_cv|done]).
Qed.

Lemma ShouldUpgradeAbort_steps a w m :
  rtc (client_step c) w (fst (snd (ShouldUpgradeAbort c a (w, m)))) ∧
  oldVersion (snd (snd (ShouldUpgradeAbort c a (w, m)))) = oldVersion m.
Proof.
  unfold ShouldUpgradeAbort. destruct (a =? 0)%Z; [done|].
  destruct (list_co c w) as [[items|e|p] w'] eqn:E; [destruct items, (lastCV m)| |];
    (split; [apply rtc_once; by eapply step_list_co|done]).
Qed.

(** When the monitor says that the upgrade is to be aborted. *)
Lemma ShouldUpgradeAbort_true m w w' m' :
  ShouldUpgradeAbort c (abort_plan policy rand).1 (w, m) = (Ret true, (w', m')) →
  oldVersion m = oldV → rtc (client_step c) w0 w → told_to_abort policy rand oldV w0 w'.
Proof.
  intros H Hv Hw. unfold ShouldUpgradeAbort in H.
  assert (policy ≠ 0%Z) as Hp by (intros ->; by cbn in H).
  assert ((abort_plan policy rand).1 = if (policy =? -1)%Z then rand + 1 else policy)%Z as Ha.
  { unfold abort_plan, upgradeAbortAtRandom. rewrite (proj2 (Z.eqb_neq _ _) Hp).
    by destruct (policy =? -1)%Z. }
  rewrite Ha in H. clear Ha. set (a := if (policy =? -1)%Z then _ else _) in *.
  split; [done|]. destruct (a =? 0)%Z; [done|].
  destruct (list_co c w) as [[items|e|p] w1] eqn:E; [|done..].
  exists w, items, (match lastCV m with Some cv => UVersion (CVDesired cv) | None => "" end), w1.
  fold a. rewrite Hv in H.
  destruct items as [|i items]; [|destruct (lastCV m)]; simplify_eq; (split_and!; [done..|]);
    match goal with H : negb (_ <? _)%Z = true |- _ => apply negb_true_iff, Z.ltb_ge in H end;
    cbv zeta; by rewrite (Z.mul_comm 100).
Qed.

Lemma keeps_check_now told : keeps (seen told) (check_now c).
Proof.
  apply keeps_bind; [apply keeps_getw|]. intros r. apply keeps_on_monitor, Check_steps.
Qed.

Lemma keeps_rollback oldImage :
  back = mkUpdate "" oldImage true → keeps (seen true) (rollback c oldImage).
Proof.
  intros Hb. unfold rollback, RetryOnConflict.
  assert (∀ w, client_step c w (snd (get_cv c w))) as Hg
    by (intros w; destruct (get_cv c w) eqn:E; by eapply step_get_cv).
  assert (∀ cv w, client_step c w (snd (update_cv c cv w))) as Hu
    by (intros cv w; destruct (update_cv c cv w) eqn:E; by eapply step_update_cv).
  apply keeps_bind; [|intros; apply keeps_bind; [|intros; by apply keeps_seen_mod]].
  - apply keeps_modw. intros r (H1 & H2 & H3 & H4). split_and!; [done|done| |done].
    right. split; [done|by apply H4].
  - apply keeps_retry. apply keeps_bind; [by apply keeps_on_world|]. intros cv.
    apply keeps_bind; [by apply keeps_on_world|]. intros cv'. by apply keeps_seen_mod.
Qed.

Lemma keeps_observe oldImage :
  back = mkUpdate "" oldImage true →
  keeps (seen false) (observe_cond c (abort_plan policy rand).1 oldImage).
Proof.
  intros Hb. unfold observe_cond.
  apply keeps_bind; [apply keeps_check_now|]. intros [[cv|] msg]; cbn [fst snd];
    (apply keeps_bind; [by apply keeps_seen_mod|intros _]); [|apply keeps_ret].
  apply keeps_bind; [apply keeps_getw|]. intros r0 r Hr. unfold gobind at 1.
  destruct (u_aborted r0).
  { cbn. by apply (keeps_bind (seen false) getw); [apply keeps_getw|intros; apply keeps_of_sum|]. }
  pose proof (keeps_on_monitor false _ (ShouldUpgradeAbort_steps (abort_plan policy rand).1) r Hr) as Hr1.
  unfold on_monitor in *. destruct (ShouldUpgradeAbort _ _ _) as [o [w1 m1]] eqn:Ea. cbn in Hr1.
  destruct o as [[|]|e|p]; try done.
  - assert (seen true (mkURun w1 m1 (u_updated r) (u_desired r) (u_aborted r) (u_message r))) as Ht.
    { destruct Hr as (Hw & Hv & _ & _). split_and!; [apply Hr1..|]. intros _.
      by eapply ShouldUpgradeAbort_true. }
    apply seen_weaken, (keeps_bind (seen true) (rollback c oldImage));
      [by apply keeps_rollback|intros; apply keeps_ret|done].
  - by apply (keeps_bind (seen false) getw); [apply keeps_getw|intros; apply keeps_of_sum|].
Qed.

(** A step of a computation that keeps an invariant. *)
Lemma gobind_keeps_inv {S A B} (P : S → Prop) (m : go S A) (k : A → go S B) s b s' :
  gobind m k s = (Ret b, s') → keeps P m → P s →
  ∃ a s1, P s1 ∧ m s = (Ret a, s1) ∧ k a s1 = (Ret b, s').
Proof.
  intros (a & s1 & H1 & H2)%gobind_Ret_inv Hk Hs. exists a, s1.
  split; [|done]. specialize (Hk s Hs). by rewrite H1 in Hk.
Qed.

(** The cluster version that [check_now] returns was read from the client. *)
Lemma check_now_read r cv msg r1 :
  check_now c r = (Ret (Some cv, msg), r1) →
  get_cv c (u_world r) = (Ret cv, u_world r1) ∧ u_desired r1 = u_desired r.
Proof.
  unfold check_now, gobind, getw, on_monitor, Check_.
  destruct (get_cv c (u_world r)) as [[cv'|e|p] w1]; [|intros; by simplify_eq..].
  destruct (_ && _); intros; by simplify_eq/=.
Qed.

(** The condition of the second wait says true of a version it has read. *)
Lemma observe_true oldImage r r' :
  back = mkUpdate "" oldImage true →
  seen false r → observe_cond c (abort_plan policy rand).1 oldImage r = (Ret true, r') →
  ∃ w2 cv, get_cv c (u_world r) = (Ret cv, w2) ∧ rtc (client_step c) w2 (u_world r') ∧
    Reached cv (u_desired r) = inl true.
Proof.
  intros Hb Hr Ho. unfold observe_cond in Ho.
  apply gobind_Ret_inv in Ho as ([[cv|] msg] & r1 & Hc & Ho); [|by apply gobind_Ret_inv in Ho as (?&?&?&?)].
  apply check_now_read in Hc as [Hcv Hd1]. exists (u_world r1), cv. split; [done|]. cbn [fst snd] in Ho.
  apply gobind_Ret_inv in Ho as ([] & r2 & E & Ho).
  assert (u_world r2 = u_world r1 ∧ u_desired r2 = u_desired r1) as [Hw2 Hd2]
    by (unfold set_message, modw in E; by simplify_eq/=). clear E.
  unfold gobind at 1, getw in Ho.
  apply gobind_Ret_inv in Ho as (ab & r5 & E5 & Ho).
  assert (rtc (client_step c) (u_world r2) (u_world r5) ∧ u_desired r5 = u_desired r2) as [Hw5 Hd5].
  { destruct (u_aborted r2); [unfold ret in E5; by simplify_eq|]. unfold on_monitor in E5.
    destruct (ShouldUpgradeAbort_steps (abort_plan policy rand).1 (u_world r2) (u_mon r2)) as [Hs _].
    destruct (ShouldUpgradeAbort _ _ _) as [o [w1 m1]]. by simplify_eq/=. }
  destruct ab; [by apply gobind_Ret_inv in Ho as ([] & ? & _ & Ho)|].
  unfold gobind in Ho. rewrite Hd5, Hd2, Hd1 in Ho.
  destruct (Reached cv (u_desired r)) as [[|]|]; unfold of_sum, ret, fail in Ho; simplify_eq.
  by rewrite <- Hw2.
Qed.

Lemma wrap_Ret {A} f (m : go (upgrade_run (W := W)) A) s a s' :
  wrap c f m s = (Ret a, s') → m s = (Ret a, s').
Proof.
  unfold wrap. destruct (m s) as [[?|?|?] ?]; intros Hw; [by simplify_eq| |by simplify_eq].
  by apply gobind_Ret_inv in Hw as (? & ? & _ & Hw).
Qed.

Lemma IsPoolUpdated_step n w : client_step c w (snd (IsPoolUpdated c n w)).
Proof.
  unfold IsPoolUpdated. destruct (get_pool c n w) as [[?|?|?] w'] eqn:E; by eapply step_get_pool.
Qed.

Lemma keeps_all_pools v0 pools acc :
  keeps (rtc (client_step c) v0) (all_pools_updated c pools acc).
Proof.
  revert acc. induction pools as [|p pools IH]; intros acc; cbn [all_pools_updated];
    [apply keeps_ret|]. apply keeps_bind; [|intros; apply IH].
  intros w Hw. eapply rtc_r; [done|apply IsPoolUpdated_step].
Qed.

(** When the waits of the upgrade succeed. *)
Lemma upgrade_waits_Ret dur oldImage r r' :
  back = mkUpdate "" oldImage true → seen false r →
  upgrade_waits c (abort_plan policy rand).1 dur oldImage r = (Ret tt, r') →
  ∃ w1 cv w2, rtc (client_step c) w0 w1 ∧ get_cv c w1 = (Ret cv, w2) ∧
    rtc (client_step c) w2 (u_world r') ∧
    (Reached cv req = inl true ∨
     told_to_abort policy rand oldV w0 w1 ∧ Reached cv back = inl true).
Proof.
  intros Hb Hr Hu. unfold upgrade_waits in Hu.
  apply gobind_Ret_inv in Hu as ([] & r1 & E1 & E2). apply wrap_Ret in E1, E2.
  assert (keeps (seen false) (ack_cond c)) as Hack.
  { unfold ack_cond. apply keeps_bind; [apply keeps_check_now|]. intros [[cv|] msg]; cbn;
      [|apply keeps_ret]. apply keeps_bind; [apply keeps_getw|]. intros. apply keeps_ret. }
  pose proof (keeps_PollImmediate _ (ticks_of (5 * Second) (2 * Minute)) _ Hack r Hr) as Hr1.
  rewrite E1 in Hr1.
  apply (PollImmediate_Ret_inv (seen false)) in E2 as (r2 & Hr2 & E2); [|by apply keeps_observe|done].
  destruct (observe_true _ _ _ Hb Hr2 E2) as (w2 & cv & Hg & Hs & HR).
  destruct Hr2 as (Hw & _ & Hd & _). exists (u_world r2), cv, w2. split_and!; try done.
  destruct Hd as [<-|[<- Ht]]; [by left|by right].
Qed.
End Seen.

(** When the wait for the pools succeeds. *)
Lemma wait_pools_Ret n w w' :
  wait_pools c n w = (Ret tt, w') →
  ∃ w1 w2 pools, rtc (client_step c) w w1 ∧ list_pools c w1 = (Ret pools, w2) ∧
    all_pools_updated c pools true w2 = (Ret true, w').
Proof.
  unfold wait_pools. cbn zeta. intros Hp.
  destruct (PollImmediate _ _ _) as [[[]|e|p] w3] eqn:E; simplify_eq.
  apply (PollImmediate_Ret_inv (rtc (client_step c) w)) in E as (w3 & Hw3 & E); [| |done].
  - destruct (list_pools c w3) as [[pools|e|p] w4] eqn:El; simplify_eq. eauto 6.
  - intros x Hx. destruct (list_pools c x) as [[pools|e|p] x'] eqn:El;
      (assert (rtc (client_step c) w x') by (eapply rtc_r; [done|by eapply step_list_pools])); try done.
    by apply keeps_all_pools.
Qed.

Lemma wait_pools_steps n w w' : wait_pools c n w = (Ret tt, w') → rtc (client_step c) w w'.
Proof.
  intros (w1 & w2 & pools & H1 & H2 & H3)%wait_pools_Ret.
  pose proof (keeps_all_pools w2 pools true w2 ltac:(done)) as H. rewrite H3 in H.
  etrans; [done|]. eapply rtc_l; [by eapply step_list_pools|done].
Qed.

(** Each pool was found updated. *)
Lemma all_pools_true pools acc w w' :
  all_pools_updated c pools acc w = (Ret true, w') →
  acc = true ∧
  ∀ p, p ∈ pools → ∃ wx pool wy, rtc (client_step c) w wx ∧ get_pool c p wx = (Ret pool, wy) ∧
    rtc (client_step c) wy w' ∧ pool_updated pool.
Proof.
  revert acc w. induction pools as [|q pools IH]; intros acc w H; cbn [all_pools_updated] in H.
  { unfold ret in H. simplify_eq. split; [done|]. by intros p ?%elem_of_nil. }
  apply gobind_Ret_inv in H as (u & w1 & Hu & H).
  pose proof (IsPoolUpdated_step q w) as Hstep. rewrite Hu in Hstep. cbn in Hstep.
  pose proof (keeps_all_pools w1 pools (acc && u) w1 ltac:(done)) as Hrest. rewrite H in Hrest.
  apply IH in H as [[-> ->]%andb_true_iff Hall]. split; [done|].
  intros p [->|Hp]%elem_of_cons.
  - destruct (get_pool c q w) as [[pool|e|m] wy] eqn:Eg.
    2,3: unfold IsPoolUpdated in Hu; rewrite Eg in Hu; by simplify_eq.
    assert (wy = w1) as -> by (unfold IsPoolUpdated in Hu; rewrite Eg in Hu; by simplify_eq).
    exists w, pool, w1. split_and!; [done|done|done|]. by apply (IsPoolUpdated_spec c q w pool w1).
  - destruct (Hall p Hp) as (wx & pool & wy & H1 & H2 & H3 & H4). exists wx, pool, wy.
    split_and!; try done. by eapply rtc_l.
Qed.

(** The version that was read during the run. *)
Definition version_read (policy rand : Z) (version : VersionContext) (w wv : W) : Prop :=
  ∃ cv0 wa up wb w1 cv,
    let asked := mkUpdate (Version version) (NodeImage version) true in
    let previous := mkUpdate "" (UImage (CVDesired cv0)) true in
    get_cv c w = (Ret cv0, wa) ∧
    update_cv c (mkCV (CVMeta cv0) (Some asked) (CVDesired cv0) (History cv0)
                   (ObservedGeneration cv0) (CVConditions cv0)) wa = (Ret up, wb) ∧
    rtc (client_step c) wb w1 ∧ get_cv c w1 = (Ret cv, wv) ∧
    (at_version cv asked ∨
     told_to_abort policy rand (UVersion (CVDesired cv0)) wb w1 ∧ at_version cv previous).

Lemma clusterUpgrade_Ret policy rand version w w' :
  clusterUpgrade c policy rand version w = (Ret tt, w') → NodeImage version ≠ "[pause]"%string →
  ∃ w2 w3, version_read policy rand version w w2 ∧ rtc (client_step c) w2 w3 ∧
    wait_pools c (ticks_of (10 * Second) (30 * Minute)) w3 = (Ret tt, w').
Proof.
  unfold clusterUpgrade. intros Hu Hp. apply String.eqb_neq in Hp. rewrite Hp in Hu.
  destruct (abort_plan policy rand) as [abortAt dur] eqn:Ea.
  apply gobind_Ret_inv in Hu as (cv0 & w0 & H0 & Hu).
  apply gobind_Ret_inv in Hu as (up & wb & H1 & Hu).
  apply gobind_Ret_inv in Hu as ([] & w3 & H2 & Hu).
  destruct (upgrade_waits _ _ _ _ _) as [o r] eqn:E. simplify_eq.
  assert (abortAt = (abort_plan policy rand).1) as Ha by (by rewrite Ea). rewrite Ha in E.
  apply (upgrade_waits_Ret policy rand (UVersion (CVDesired cv0)) wb
           (mkUpdate (Version version) (NodeImage version) true)
           (mkUpdate "" (UImage (CVDesired cv0)) true)) in E as (w1 & cv & w2 & Hs1 & Hcv & Hs2 & HR);
    [|done|by split_and!; [..|left|]].
  exists w2, (u_world r). split; [|by split]. exists cv0, w0, up, wb, w1, cv. split_and!; try done.
  by rewrite <- !Reached_spec.
Qed.

(** C22: an upgrade that succeeds either was a dry run ([pause]), which calls
    nothing, or has asked for the version, and has read, during the run, a
    cluster version whose operator has taken up and completed the update it
    asked for with no condition that contradicts it; or, if at a list of the
    operators read before that the share of those that had left the old
    version had reached the abort percentage, a cluster version that is back
    at the image the run began with.  After that, as the last calls of the
    run, it has listed the machine config pools and read each of them with
    well-formed conditions, Updated=True among them and neither Updating=True
    nor Degraded=True. *)
Theorem clusterUpgrade_success policy rand version w w' :
  clusterUpgrade c policy rand version w = (Ret tt, w') →
  (NodeImage version = "[pause]"%string ∧ w' = w) ∨
  (NodeImage version ≠ "[pause]"%string ∧
   ∃ w2 w3 pools w4, version_read policy rand version w w2 ∧
     rtc (client_step c) w2 w3 ∧ list_pools c w3 = (Ret pools, w4) ∧
     ∀ p, p ∈ pools → ∃ wx pool wy, rtc (client_step c) w4 wx ∧ get_pool c p wx = (Ret pool, wy) ∧
       rtc (client_step c) wy w' ∧ pool_updated pool).
Proof.
  intros Hu. destruct (decide (NodeImage version = "[pause]"%string)) as [Hp|Hp]; [left|right].
  { unfold clusterUpgrade in Hu. rewrite Hp in Hu. cbn in Hu. unfold ret in Hu. by simplify_eq. }
  split; [done|]. destruct (clusterUpgrade_Ret _ _ _ _ _ Hu Hp) as (w2 & w3 & Hv & Hs & Hw).
  apply wait_pools_Ret in Hw as (w4 & w5 & pools & H3 & H4 & [_ H5]%all_pools_true).
  exists w2, w4, pools, w5. split_and!; try done. by etrans.
Qed.
End Success.

(** *** Reboots *)

(** A server that refuses the names it has and takes any other. *)
Definition pods_client (W : Type) (cl : client (gset string * W)) : client (gset string * W) :=
  mkClient _ (get_cv cl) (update_cv cl) (list_co cl) (list_masters cl)
    (λ n node cmd w, if bool_decide (n ∈ w.1)
                     then (Fail (Err KAlreadyExists "already exists"), w)
                     else (Ret tt, ({[ n ]} ∪ w.1, w.2)))
    (list_pools cl) (get_pool cl).

Lemma str_app_inj_l s t u : s +:+ t = s +:+ u → t = u.
Proof.
  induction s as [|a s IH]; [done|]. rewrite !str_app_cons. intros [= H]. auto.
Qed.

Lemma reboot_name_inj target a b : reboot_name target a = reboot_name target b → a = b.
Proof.
  unfold reboot_name. intros H%str_app_inj_l%str_app_inj_l%str_app_inj_l. by apply (inj pretty).
Qed.

(** A reboot request ends: against a server that holds finitely many pods it
    creates the pod with the first attempt number whose name is free, within
    one attempt more than there are pods. *)
Theorem triggerReboot_terminates {W} (cl : client (gset string * W)) target hard names x :
  ∃ k : nat, k ≤ size names ∧
    (∀ j : nat, j < k → reboot_name target (Z.of_nat j) ∈ names) ∧
    reboot_name target (Z.of_nat k) ∉ names ∧
    triggerReboot (pods_client W cl) (S (size names)) target 0 hard (names, x) =
      (Ret (Some tt), ({[ reboot_name target (Z.of_nat k) ]} ∪ names, x)).
Proof.
  assert (∀ fuel (a : nat) (seen : gset string),
    seen ⊆ names → (∀ j : nat, j < a → reboot_name target (Z.of_nat j) ∈ seen) →
    (∀ n, n ∈ seen → ∃ j : nat, j < a ∧ n = reboot_name target (Z.of_nat j)) →
    size names < size seen + fuel → a = size seen →
    ∃ k : nat, k ≤ size names ∧ a ≤ k ∧
      (∀ j : nat, j < k → reboot_name target (Z.of_nat j) ∈ names) ∧
      reboot_name target (Z.of_nat k) ∉ names ∧
      triggerReboot (pods_client W cl) fuel target (Z.of_nat a) hard (names, x) =
        (Ret (Some tt), ({[ reboot_name target (Z.of_nat k) ]} ∪ names, x))) as H.
  { induction fuel as [|f IH]; intros a seen Hsub Hall Hseen Hf Ha.
    { pose proof (subseteq_size _ _ Hsub). lia. }
    cbn [triggerReboot create_pod pods_client].
    destruct (bool_decide_reflect (reboot_name target (Z.of_nat a) ∈ names)) as [Hin|Hout]; cbn [fst].
    - rewrite bool_decide_eq_true_2 by done. change (is_kind KAlreadyExists _) with true. cbn iota.
      replace (Z.of_nat a + 1)%Z with (Z.of_nat (S a)) by lia.
      assert (reboot_name target (Z.of_nat a) ∉ seen) as Hna.
      { intros (j & Hj & E)%Hseen. apply reboot_name_inj in E. lia. }
      destruct (IH (S a) ({[ reboot_name target (Z.of_nat a) ]} ∪ seen)) as (k & H1 & H2 & H3).
      + set_solver.
      + intros j Hj. destruct (decide (j = a)) as [->|]; [set_solver|].
        apply elem_of_union_r, Hall. lia.
      + intros n [->%elem_of_singleton|(j & Hj & ->)%Hseen]%elem_of_union; [by exists a; split; [lia|]|].
        exists j. split; [lia|done].
      + rewrite size_union, size_singleton by set_solver. lia.
      + rewrite size_union, size_singleton by set_solver. lia.
      + exists k. split; [done|]. split; [lia|done].
    - rewrite bool_decide_eq_false_2 by done. exists a. split_and!; try done.
      + rewrite Ha. by apply subseteq_size.
      + intros j Hj. by apply Hsub, Hall. }
  destruct (H (S (size names)) 0 ∅) as (k & H1 & _ & H2); [set_solver|lia|set_solver|rewrite size_empty; lia|done|eauto].
Qed.

(** ** A small cluster *)

Definition sc (t s : string) : StatusCondition := mkSCond t s "" "".
Definition healthy : ClusterVersion :=
  mkCV (meta_of "version" "") None (mkUpdate "4.1" "img1" false)
    [mkHistory "Completed" "4.1" "img1"] 0 [sc "Available" "True"; sc "Progressing" "False"].

(** An update is carried out at once. *)
Definition toy_update (cv : ClusterVersion) : go ClusterVersion ClusterVersion := λ _,
  let d := default (CVDesired cv) (DesiredUpdate cv) in
  let cv' := mkCV (CVMeta cv) (DesiredUpdate cv) d
               (mkHistory "Completed" (UVersion d) (UImage d) :: History cv) 0 (CVConditions cv) in
  (Ret cv', cv').
Definition toy_pool : json :=
  JObject [("status", JObject [("conditions",
    JArray [JObject [("type", JString "Updated"); ("status", JString "True")]])])]%string.
#[local] Instance plain : Rendering :=
  {| fmt_conditions := λ _, ""; go_condition := λ _, "" |}.
Definition toy : client ClusterVersion :=
  mkClient _ getw toy_update (ret []) (ret []) (λ _ _ _, ret tt) (ret ["master"%string])
    (λ _, ret toy_pool).

Example getUpgradeContext_healthy_witness :
  condition_is (CVConditions healthy) "Available" "True" = true.
Proof.
  destruct (getUpgradeContext_healthy toy (λ v, inl v) "4.2" "" healthy
              [mkVC "4.1" "img1"; mkVC "4.2" ""] healthy) as (cv & cur & E & _ & _ & _ & _ & H & _);
    [reflexivity|done|]. by simplify_eq/=.
Defined.

Example clusterUpgrade_success_witness :
  ∃ w' w2, clusterUpgrade toy 0 0 (mkVC "4.2" "img2") healthy = (Ret tt, w') ∧
    version_read toy 0 0 (mkVC "4.2" "img2") healthy w2.
Proof.
  assert (fst (clusterUpgrade toy 0 0 (mkVC "4.2" "img2") healthy) = Ret tt) as Er
    by (vm_compute; reflexivity).
  destruct (clusterUpgrade toy 0 0 (mkVC "4.2" "img2") healthy) as [o w'] eqn:Ec.
  cbn in Er. subst o.
  destruct (clusterUpgrade_success toy 0 0 (mkVC "4.2" "img2") healthy w' Ec)
    as [[Hp _]|(_ & w2 & w3 & pools & w4 & Hv & _)]; [done|].
  by exists w', w2.
Defined.

Example IsPoolUpdated_spec_witness : IsPoolUpdated toy "master" healthy = (Ret true, healthy).
Proof.
  apply (IsPoolUpdated_spec toy "master" healthy toy_pool healthy eq_refl).
  exists [JObject [("type", JString "Updated"); ("status", JString "True")]]%string.
  split; [done|]. split; [by repeat constructor|]. cbn. split_and!.
  - eexists. split; [by apply list_elem_of_singleton|done].
  - intros (o & ->%list_elem_of_singleton & H & _). done.
  - intros (o & ->%list_elem_of_singleton & H & _). done.
Defined.

(** With no operators listed the quotient is 0/0 and the upgrade is aborted. *)
Example abort_without_operators :
  fst (ShouldUpgradeAbort toy 50 (healthy, mkVM (Some healthy) "4.0")) = Ret true.
Proof. reflexivity. Qed.

(** Without a cluster version read so far the report of a failed wait
    dereferences a nil pointer as soon as there is an operator. *)
Example output_without_version :
  fst (Output (mkClient _ getw toy_update (ret [mkCO (meta_of "dns" "") [] []]) (ret [])
                 (λ _ _ _, ret tt) (ret []) (λ _, ret toy_pool)) (healthy, mkVM None "4.0")) =
  Panic "nil pointer dereference".
Proof. reflexivity. Qed.
