(* ===== verification/Suites.v ===== *)
(** * cmd/extended-platform-tests: the commands and their suites

    [LongDesc] is the help formatter of kubectl; the JSON decoder of the
    upgrade options, the cloud configuration and the CSI driver loader are
    parameters. *)

From S2P Require Import Prelude.
From S2P Require Import GoStrings.
From S2P Require Import GoLib.
From S2P Require Import KubeTypes.
From S2P Require Import TestCase.
From S2P Require Import Upgrade.

Section Static.
Context {G : Type} (LongDesc : string → string).

Definition suite (n desc : string) (m : string → bool) (count par flakes : Z) (tmo : duration)
  : TestSuite G := mkSuite G n (LongDesc desc) m None count par flakes tmo.

Notation has := Contains.

(* src: cmd/extended-platform-tests/e2e.go 15-165 staticSuites *)
Definition staticSuites : list (TestSuite G) := [
  suite "openshift/conformance"
    "Tests that ensure an OpenShift cluster and components are working properly."
    (λ name, has name "[Suite:openshift/conformance/") 0 30 0 0;
  suite "openshift/conformance/parallel"
    "Only the portion of the openshift/conformance test suite that run in parallel."
    (λ name, has name "[Suite:openshift/conformance/parallel") 0 30 15 0;
  suite "openshift/conformance/serial"
    "Only the portion of the openshift/conformance test suite that run serially."
    (λ name, has name "[Suite:openshift/conformance/serial") 0 0 0 0;
  suite "openshift/disruptive"
    "The disruptive test suite."
    (λ name, has name "[Disruptive]" && has name "[dr-quorum-restore]") 0 0 0 (60 * Minute);
  suite "kubernetes/conformance"
    "The default Kubernetes conformance suite."
    (λ name, has name "[Suite:k8s]" && has name "[Conformance]") 0 30 0 0;
  suite "openshift/build"
    "Tests that exercise the OpenShift build functionality."
    (λ name, negb (has name "[Disabled") && has name "[Feature:Builds]") 0 7 3 (60 * Minute);
  suite "openshift/image-registry"
    "Tests that exercise the OpenShift image-registry functionality."
    (λ name, has name "[registry]" && negb (has name "[Local]")) 0 0 0 0;
  suite "openshift/image-ecosystem"
    "Tests that exercise language and tooling images shipped as part of OpenShift."
    (λ name, has name "[image_ecosystem]" && negb (has name "[Local]")) 0 7 0 (20 * Minute);
  suite "openshift/jenkins-e2e"
    "Tests that exercise the OpenShift / Jenkins integrations provided by the OpenShift Jenkins image/plugins and the Pipeline Build Strategy."
    (λ name, has name "[Feature:Jenkins]") 0 4 0 (20 * Minute);
  suite "openshift/scalability"
    "Tests that verify the scalability characteristics of the cluster. Currently this is focused on core performance behaviors and preventing regressions."
    (λ name, has name "[Suite:openshift/scalability]") 0 1 0 (20 * Minute);
  suite "openshift/conformance-excluded"
    "Run only tests that are excluded from conformance. Makes identifying omitted tests easier."
    (λ name, negb (has name "[Suite:openshift/conformance/")) 0 0 0 0;
  suite "openshift/test-cmd"
    "Run only tests for test-cmd."
    (λ name, has name "[Suite:openshift/test-cmd]") 0 0 0 0;
  suite "openshift/csi"
    "Run tests for an installed CSI driver. TEST_CSI_DRIVER_FILES env. variable must be set and it must be a comma separated list of CSI driver definition files.
        See https://github.com/kubernetes/kubernetes/blob/master/test/e2e/storage/external/README.md for required format of the files."
    (λ name, has name "[Suite:openshift/csi" && negb (has name "[Disruptive]")) 0 0 0 0;
  suite "openshift/network/stress"
    "This test suite repeatedly verifies the networking function of the cluster in parallel to find flakes."
    (λ name, has name "[Suite:openshift/conformance/" && has name "[sig-network]")
    15 30 0 (20 * Minute);
  suite "all" "Run all tests." (λ _, true) 0 0 0 0]%Z.

Definition suite_named_ (n : string) : option (TestSuite G) :=
  find_first (λ s, String.eqb (SuiteName s) n) staticSuites.

Definition matches (n test : string) : bool :=
  match suite_named_ n with Some s => Matches s test | None => false end.
End Static.

(** ** Upgrade options *)

(* src: cmd/extended-platform-tests/upgrade.go 52-58 UpgradeOptions *)
Record UpgradeOptions := mkUpgradeOptions {
  UOSuite : string;
  ToImage : string;
  UOJUnitDir : string;
  TestOptions : list string
}.

Definition equals : Ascii.ascii := Ascii.ascii_of_nat 61.

(** The loop of [OptionsMap] over the options that are left. *)
Fixpoint options_map (l : list string) (options : gmap string string)
  : gmap string string + error :=
  match l with
  | [] => inl options
  | option :: rest =>
      let invalid := inr (Errorf ("test option " +:+ Quote option +:+
                                  " is not valid, must be KEY=VALUE")) in
      match SplitN2 equals option with
      | [k; v] =>
          if Nat.eqb (String.length k) 0 then invalid
          else match options !! k with
               | Some _ => inr (Errorf ("option " +:+ Quote k +:+ " declared twice"))
               | None => options_map rest (<[k := v]> options)
               end
      | _ => invalid
      end
  end.

(* src: cmd/extended-platform-tests/upgrade.go 60-77 UpgradeOptions.OptionsMap *)
Definition OptionsMap (o : UpgradeOptions) : gmap string string + error :=
  options_map (TestOptions o) ∅.

(** The variables the upgrade command sets, those of the upgrade package
    included. *)
Record cmd_vars := mkCmdVars {
  c_upgrade : upgrade_vars;
  c_target : string;       (* gcp.SetUpgradeTarget *)
  c_image : string;        (* gcp.SetUpgradeImage *)
  c_report_dir : string    (* exutil.TestContext.ReportDir *)
}.

Definition on_upgrade {A} (f : go upgrade_vars A) : go cmd_vars A := λ v,
  let '(r, u) := f (c_upgrade v) in
  (r, mkCmdVars u (c_target v) (c_image v) (c_report_dir v)).

(* src: cmd/extended-platform-tests/upgrade.go 113-122 filterUpgrade *)
Definition filterUpgrade (tests : list string) (match_ : string → bool) : go cmd_vars unit :=
  on_upgrade (SetTests (bfilter match_ tests)).

(** One option of the suite [all]. *)
Definition init_option (kv : string * string) : go cmd_vars unit :=
  let '(k, v) := kv in
  if String.eqb k "abort-at" then on_upgrade (SetUpgradeAbortAt v)
  else if String.eqb k "disrupt-reboot" then on_upgrade (SetUpgradeDisruptReboot v)
  else fail (Errorf ("unrecognized upgrade option: " +:+ k)).

Section UpgradeSuites.
(** The order in which Go ranges over a map. *)
Variable range : gmap string string → list (string * string).

(* src: cmd/extended-platform-tests/upgrade.go 31-47 upgradeSuites.Init *)
Definition all_Init (opt : gmap string string) : go cmd_vars unit :=
  (for_each (range opt) init_option ;;!
   filterUpgrade AllTests (λ _, true))%go.

(* src: cmd/extended-platform-tests/upgrade.go 21-50 upgradeSuites *)
Definition upgradeSuites (LongDesc : string → string) : list (TestSuite cmd_vars) :=
  [mkSuite cmd_vars "all" (LongDesc "Run all tests.")
     (λ name, Contains name "[Feature:ClusterUpgrade]" && Contains name "[Suite:openshift]")
     (Some all_Init) 0 0 0 (120 * Minute)%Z].

Section Options.
(** [json.Unmarshal] and [json.Marshal] of the options. *)
Variable unmarshal : string → UpgradeOptions + error.
Variable marshal : UpgradeOptions → string + error.
Variable suites : list (TestSuite cmd_vars).

(* src: cmd/extended-platform-tests/upgrade.go 79-85 UpgradeOptions.ToEnv *)
Definition ToEnv {W} (o : UpgradeOptions) : go W string :=
  match marshal o with inl s => ret s | inr e => gopanic (err_msg e) end.

(* src: cmd/extended-platform-tests/upgrade.go 87-111 initUpgrade *)
Definition initUpgrade (value : string) : go cmd_vars unit :=
  if Nat.eqb (String.length value) 0 then ret tt
  else
    (opt <-! of_sum (unmarshal value) ;;
     match find_first (λ s, String.eqb (SuiteName s) (UOSuite opt)) suites with
     | None => fail (Errorf "unrecognized upgrade info")
     | Some s =>
         modw (λ v, mkCmdVars (c_upgrade v) "" (ToImage opt) (UOJUnitDir opt)) ;;!
         o <-! of_sum (OptionsMap opt) ;;
         match Init s with Some f => f o | None => ret tt end
     end)%go.
End Options.
End UpgradeSuites.

(** ** Providers *)

Record CloudConfig := mkCloud {
  Zone : string; Region : string; ProjectID : string; ConfigFile : string;
  NumNodes : Z; MultiMaster : bool; MultiZone : bool
}.
Record test_context := mkContext { ctx_Provider : string; ctx_CloudConfig : CloudConfig }.

(** The cluster's infrastructure, as [LoadConfig] reads it. *)
Inductive platform :=
| PNone
| PAWS (region : string)
| PGCP (project region : string)
| PAzure
| POther.

(** [sort]ed zone labels without the empty one: a set. *)
Definition zone_set (labels : list string) : gset string :=
  list_to_set labels ∖ {[ ""%string ]}.

(** The masters' and the other nodes' labels, the platform if it is set, and
    the temporary file with the Azure configuration. *)
(* src: test/extended/util/cloud/cloud.go 17-106 LoadConfig *)
Definition LoadConfig (clients : option error) (infra : option platform + error)
    (masters : list string + error) (nonMasters : nat + error)
    (azure_file : string + error) : option (string * CloudConfig) + error :=
  match clients, infra with
  | Some e, _ => inr e
  | None, inr e => inr e
  | None, inl None => inr (Errorf "status.platformStatus must be set")
  | None, inl (Some PNone) => inl None
  | None, inl (Some p) =>
      match masters, nonMasters with
      | inr e, _ => inr e
      | inl _, inr e => inr e
      | inl labels, inl others =>
          let zones := zone_set labels in
          let zone := default "" (head (sort_Strings (elements zones))) in
          let n := if Nat.eqb others 0 then Z.of_nat others else Z.of_nat (length labels) in
          let cfg region project file :=
            mkCloud zone region project file n (Nat.ltb 1 (length labels))
              (Nat.ltb 1 (size zones)) in
          match p with
          | PNone => inl None
          | PAWS r => inl (Some ("aws", cfg r "" ""))%string
          | PGCP proj r => inl (Some ("gce", cfg r proj ""))%string
          | PAzure =>
              match azure_file with
              | inr e => inr e
              | inl f => inl (Some ("azure", cfg "" "" f))%string
              end
          | POther => inl (Some ("", cfg "" "" ""))%string
          end
      end
  end.

Definition set_provider (p : string) (c : test_context) : test_context :=
  mkContext p (ctx_CloudConfig c).

(** [ssh_user], [ssh_key]: KUBE_SSH_USER and LOCAL_SSH_KEY are set.  [decode]
    gives the type and the cloud configuration of a JSON provider. *)
(* src: cmd/extended-platform-tests/openshift-tests.go 300-342 decodeProviderTo *)
Definition decodeProviderTo (ssh_user ssh_key : bool)
    (load : option (string * CloudConfig) + error)
    (decode_type : string → string + error)
    (decode_cloud : string → CloudConfig → CloudConfig + error)
    (provider : string) (dryRun : bool) (c : test_context) : test_context + error :=
  let default_ c := if String.eqb (ctx_Provider c) "" then set_provider "skeleton" c else c in
  let loaded :=
    match load with
    | inr e => inr e
    | inl (Some (p, cfg)) => inl (default_ (mkContext p cfg))
    | inl None => inl (default_ c)
    end in
  if String.eqb provider "" then
    if ssh_user && ssh_key then inl (set_provider "local" c)
    else if dryRun then inl (default_ c)
    else loaded
  else if existsb (String.eqb provider) ["azure"; "aws"; "gce"; "vsphere"]%string then loaded
  else
    match decode_type provider with
    | inr e => inr (Errorf ("provider must be a JSON object with the 'type' key at a minimum: "
                            +:+ err_msg e))
    | inl ty =>
        if Nat.eqb (String.length ty) 0
        then inr (Errorf "provider must be a JSON object with the 'type' key")
        else match decode_cloud provider (ctx_CloudConfig c) with
             | inr e => inr (Errorf ("provider must decode into the cloud config object: "
                                     +:+ err_msg e))
             | inl cfg => inl (default_ (mkContext ty cfg))
             end
    end.

(** ** CSI drivers *)

(** The two environment variables and the manifests and roots registered. *)
(* src: cmd/extended-platform-tests/csi.go 15-18 manifestEnvVar, installDriversEnvVar *)
Record csi_env := mkCsi {
  manifestEnvVar : string;
  installDriversEnvVar : string;
  definitions : list string;
  roots : list string
}.

Section CSI.
Variable InstallCSIDriver : string → string + error.
Variable AddDriverDefinition : string → option error.
Variable Dir : string → string.          (* filepath.Dir *)
Definition comma : Ascii.ascii := Ascii.ascii_of_nat 44.

Definition install_driver (driver : string) : go csi_env unit := λ e,
  match InstallCSIDriver driver with
  | inr err => (Fail (Errorf ("failed to install CSI driver from " +:+ Quote driver +:+ ": " +:+
                              err_msg err)), e)
  | inl manifest =>
      let l := manifestEnvVar e in
      let l := if Nat.ltb 0 (String.length l) then l +:+ "," else l in
      (Ret tt, mkCsi (l +:+ manifest) (installDriversEnvVar e) (definitions e) (roots e))
  end.

Definition add_definition (manifest : string) : go csi_env unit := λ e,
  match AddDriverDefinition manifest with
  | Some err => (Fail (Errorf ("failed to load manifest from " +:+ Quote manifest +:+ ": " +:+
                               err_msg err)), e)
  | None => (Ret tt, mkCsi (manifestEnvVar e) (installDriversEnvVar e)
                       (definitions e ++ [manifest]) (roots e ++ [Dir manifest]))
  end.

(* src: cmd/extended-platform-tests/csi.go 21-61 initCSITests *)
Definition initCSITests : go csi_env unit :=
  (e <-! getw ;;
   (if String.eqb (installDriversEnvVar e) "" then ret tt
    else for_each (SplitChar comma (installDriversEnvVar e)) install_driver) ;;!
   modw (λ e, mkCsi (manifestEnvVar e) "" (definitions e) (roots e)) ;;!
   e <-! getw ;;
   if String.eqb (manifestEnvVar e) "" then ret tt
   else for_each (SplitChar comma (manifestEnvVar e)) add_definition)%go.
End CSI.

(** ** The commands *)

Section Commands.
Context {W : Type}.

(** The standard streams and the output file. *)
Record outputs := mkOutputs { stdout : string; stderr : string; outfile : option string }.

(** What [opt.Out] and [opt.ErrOut] do, with and without a file. *)
Definition write_Out (mirrored : bool) (x : string) (o : outputs) : outputs :=
  mkOutputs (stdout o +:+ x) (stderr o)
    (if mirrored then (λ f, f +:+ x) <$> outfile o else outfile o).
Definition write_ErrOut (mirrored : bool) (x : string) (o : outputs) : outputs :=
  mkOutputs (stdout o) (stderr o +:+ x)
    (if mirrored then (λ f, f +:+ x) <$> outfile o else outfile o).

(** [fn] is run with the writers; [open_err], [close_err] are the errors of
    opening and closing the file. *)
(* src: cmd/extended-platform-tests/openshift-tests.go 243-263 mirrorToFile *)
Definition mirrorToFile (OutFile : string) (open_err close_err : option error)
    (fn : bool → go (W * outputs) unit) : go (W * outputs) unit :=
  if Nat.eqb (String.length OutFile) 0 then fn false
  else
    match open_err with
    | Some e => fail e
    | None => λ '(w, o),
        let '(r, (w, o)) := fn true (w, mkOutputs (stdout o) (stderr o) (Some "")) in
        let o :=
          match r with
          | Fail e => mkOutputs (stdout o) (stderr o)
                        ((λ f, f +:+ "error: " +:+ err_msg e) <$> outfile o)
          | _ => o
          end in
        let o :=
          match r, close_err with
          | Panic _, _ | _, None => o
          | _, Some _ =>
              mkOutputs (stdout o) (stderr o +:+ "error: Unable to close output file" +:+ nl)
                (outfile o)
          end in
        (r, (w, o))
    end.

(** [initProvider]: decode, CSI tests, annotation, [InitTest]. *)
(* src: cmd/extended-platform-tests/openshift-tests.go 279-298 initProvider *)
Definition initProvider (decode : string → bool → go W unit) (set_defaults : W → W)
    (csi : bool → go W unit) (annotate : go W unit) (init_test : bool → go W unit)
    (provider : string) (dryRun : bool) : go W unit :=
  (decode provider dryRun ;;!
   modw set_defaults ;;!
   csi dryRun ;;!
   annotate ;;!
   init_test dryRun)%go.

(** The steps of the commands work on the program's state and its outputs;
    [run_suite] is told whether the writers are mirrored to the file. *)
Record command_env := mkCommandEnv {
  init_provider : string → bool → go (W * outputs) unit;
  init_upgrade : string → go (W * outputs) unit;
  after_flags : W * outputs → W * outputs;   (* e2e.AfterReadingAllFlags and the log flags *)
  run_suite : bool → list string → go (W * outputs) unit;   (* opt.Run *)
  run_test : list string → go (W * outputs) unit;           (* testOpt.Run *)
  set_suite_options : string → W * outputs → W * outputs
}.
Variable env : command_env.

Definition run_command (provider : string) (dryRun : bool) (args : list string) (mirrored : bool)
  : go (W * outputs) unit :=
  (init_provider env provider dryRun ;;!
   modw (after_flags env) ;;!
   run_suite env mirrored args)%go.

(* src: cmd/extended-platform-tests/openshift-tests.go 123-134 newRunCommand.RunE *)
Definition run_RunE (OutFile : string) (open_err close_err : option error)
    (provider : string) (dryRun : bool) (args : list string) : go (W * outputs) unit :=
  mirrorToFile OutFile open_err close_err (run_command provider dryRun args).

(** [to_env] is [upgradeOpt.ToEnv] once the suite and the directory are set. *)
(* src: cmd/extended-platform-tests/openshift-tests.go 168-197 newRunUpgradeCommand.RunE *)
Definition run_upgrade_RunE (OutFile : string) (open_err close_err : option error)
    (suites : list string) (opt : UpgradeOptions) (JUnitDir : string)
    (to_env : UpgradeOptions → go (W * outputs) string) (provider : string) (dryRun : bool)
    (args : list string) : go (W * outputs) unit :=
  mirrorToFile OutFile open_err close_err (λ mirrored,
    if Nat.eqb (String.length (ToImage opt)) 0
    then fail (Errorf "--to-image must be specified to run an upgrade test")
    else
      (match args with
       | arg :: _ =>
           if bool_decide (arg ∈ suites) then
             value <-! to_env (mkUpgradeOptions arg (ToImage opt) JUnitDir (TestOptions opt)) ;;
             init_upgrade env value ;;!
             modw (set_suite_options env value)
           else ret tt
       | [] => ret tt
       end ;;!
       run_command provider dryRun args mirrored)%go).

(** [test_provider], [suite_options]: the variables the parent sets. *)
(* src: cmd/extended-platform-tests/openshift-tests.go 223-234 newRunTestCommand.RunE *)
Definition run_test_RunE (test_provider suite_options : string) (dryRun : bool)
    (args : list string) : go (W * outputs) unit :=
  (init_provider env test_provider dryRun ;;!
   init_upgrade env suite_options ;;!
   modw (after_flags env) ;;!
   run_test env args)%go.
End Commands.

(** ** Properties *)

Lemma suite_prefix_conformance sub :
  Contains "[Suite:openshift/conformance/parallel" sub = true →
  ∀ name, Contains name "[Suite:openshift/conformance/parallel" = true → Contains name sub = true.
Proof. intros H name Hn. by eapply Contains_trans. Qed.

(** The conformance suites: every test is in exactly one of
    openshift/conformance and openshift/conformance-excluded; the parallel and
    the serial portion and the network stress suite are parts of
    openshift/conformance; every test is in the suite [all]. *)
Theorem staticSuites_conformance (G : Type) (LongDesc : string → string) test :
  let m n := matches (G := G) LongDesc n test in
  m "openshift/conformance-excluded"%string = negb (m "openshift/conformance"%string) ∧
  (m "openshift/conformance/parallel" = true → m "openshift/conformance" = true)%string ∧
  (m "openshift/conformance/serial" = true → m "openshift/conformance" = true)%string ∧
  (m "openshift/network/stress" = true → m "openshift/conformance" = true)%string ∧
  m "all"%string = true.
Proof.
  cbn zeta. unfold matches, suite_named_, staticSuites. cbn [find_first SuiteName suite].
  cbn [String.eqb Ascii.eqb Bool.eqb Matches]. split_and!.
  - done.
  - intros H. eapply Contains_trans; [apply H|reflexivity].
  - intros H. eapply Contains_trans; [apply H|reflexivity].
  - by intros [H _]%andb_true_iff.
  - done.
Qed.

Definition option_text (kv : string * string) : string := kv.1 +:+ "=" +:+ kv.2.

Lemma options_map_spec l m m' :
  options_map l m = inl m' ↔
  ∃ kvs, l = map option_text kvs ∧
    Forall (λ kv, kv.1 ≠ ""%string ∧ str_free equals kv.1 = true) kvs ∧
    NoDup kvs.*1 ∧ (∀ k, k ∈ kvs.*1 → m !! k = None) ∧ m' = list_to_map kvs ∪ m.
Proof.
  revert m. induction l as [|o l IH]; intros m; cbn [options_map].
  - split.
    + intros [= <-]. exists []. split_and!; try done; [constructor|set_solver|].
      cbn. by rewrite (left_id_L ∅ _).
    + intros (kvs & Hl & _ & _ & _ & ->). destruct kvs; [|done]. cbn. by rewrite (left_id_L ∅ _).
  - destruct (SplitN2_inv equals o) as [[-> Hf]|(k & v & -> & -> & Hf)].
    + split; [done|]. intros ([|[k v] kvs] & Hl & Hk & _); [done|]. injection Hl as -> _.
      inv Hk. unfold option_text in Hf. cbn in Hf. rewrite !str_free_app in Hf. cbn in Hf.
      by rewrite andb_false_r in Hf.
    + destruct (Nat.eqb_spec (String.length k) 0) as [E|E].
      { split; [done|]. intros ([|[k' v'] kvs] & Hl & Hk & _); [done|]. injection Hl as Hl _.
        inv Hk. destruct k; [|done]. destruct k'; [naive_solver|].
        destruct H1 as [_ H1]. cbn in H1, Hl. unfold option_text in Hl. cbn [fst snd] in Hl.
        rewrite str_app_cons in Hl. injection Hl as <- _. done. }
      assert (∀ kvs, (k +:+ String equals v) :: l = map option_text kvs →
        Forall (λ kv, kv.1 ≠ ""%string ∧ str_free equals kv.1 = true) kvs →
        ∃ kvs', kvs = (k, v) :: kvs' ∧ l = map option_text kvs') as Hhead.
      { intros [|[k' v'] kvs] Hl Hk; [done|]. injection Hl as Hl ->. inv Hk.
        destruct H1 as [_ H1]. cbn in H1. pose proof (SplitN2_app equals k v Hf) as E1.
        rewrite Hl in E1. unfold option_text in E1. cbn [fst snd] in E1.
        change ("=" +:+ v') with (String equals v') in E1. rewrite SplitN2_app in E1 by done.
        simplify_eq. eauto. }
      destruct (m !! k) as [x|] eqn:Em.
      { split; [done|]. intros (kvs & Hl & Hk & _ & Hd & _).
        destruct (Hhead _ Hl Hk) as (kvs' & -> & _).
        assert (m !! k = None) by (apply Hd; apply elem_of_cons; by left). congruence. }
      rewrite IH. split.
      * intros (kvs & -> & Hk & Hnd & Hd & ->). exists ((k, v) :: kvs). split_and!.
        -- done.
        -- constructor; [|done]. split; [|done]. cbn. intros Ek. by subst k.
        -- cbn. constructor; [|done]. intros Hin. specialize (Hd k Hin).
           by rewrite lookup_insert_eq in Hd.
        -- cbn. intros k' [->|Hin]%elem_of_cons; [done|]. specialize (Hd k' Hin).
           apply lookup_insert_None in Hd. tauto.
        -- cbn. rewrite <- insert_union_r; [by rewrite insert_union_l|].
           apply not_elem_of_list_to_map_1. intros Hin. specialize (Hd k Hin).
           by rewrite lookup_insert_eq in Hd.
      * intros (kvs & Hl & Hk & Hnd & Hd & ->). destruct (Hhead _ Hl Hk) as (kvs' & -> & ->).
        inv Hk. cbn in Hnd. apply NoDup_cons in Hnd as [Hnk Hnd]. exists kvs'. split_and!; try done.
        -- intros k' Hin. apply lookup_insert_None. split; [apply Hd; cbn; set_solver|].
           intros ->. done.
        -- cbn. rewrite <- insert_union_r; [by rewrite insert_union_l|].
           by apply not_elem_of_list_to_map_1.
Qed.

(** The options are accepted exactly when each is KEY=VALUE with a key that is
    not empty and occurs once; the map then holds exactly these pairs, a value
    being everything after the first equal sign. *)
Theorem OptionsMap_spec o m :
  OptionsMap o = inl m ↔
  ∃ kvs, TestOptions o = map option_text kvs ∧
    Forall (λ kv, kv.1 ≠ ""%string ∧ str_free equals kv.1 = true) kvs ∧
    NoDup kvs.*1 ∧ m = list_to_map kvs.
Proof.
  unfold OptionsMap. rewrite options_map_spec. split.
  - intros (kvs & H1 & H2 & H3 & _ & ->). exists kvs. by rewrite (right_id_L ∅ _).
  - intros (kvs & H1 & H2 & H3 & ->). exists kvs. rewrite (right_id_L ∅ _). by split_and!.
Qed.

(** *** The order of the options *)

(** The percentage an accepted policy sets. *)
Definition abort_value (policy : string) : option Z :=
  if String.eqb policy "random" then Some upgradeAbortAtRandom
  else match Atoi policy with
       | Some n => if (n <? 0)%Z || (100 <? n)%Z then None
                   else Some (if (n =? 0)%Z then 1%Z else n)
       | None => None
       end.

Lemma SetUpgradeAbortAt_value s u :
  match abort_value s with
  | Some a => SetUpgradeAbortAt s u =
      (Ret tt, mkVars (upgradeTests u) a (upgradeDisruptRebootPolicy u))
  | None => fst (SetUpgradeAbortAt s u) = Fail abort_at_error
  end.
Proof.
  unfold abort_value, SetUpgradeAbortAt, gobind.
  destruct s as [|c s]; [done|]. cbn [String.length Nat.eqb]. unfold ret.
  destruct (String.eqb (String c s) "random"); [done|].
  destruct (Atoi (String c s)) as [n|]; [|done].
  destruct ((n <? 0)%Z || (100 <? n)%Z); [done|]. by destruct (n =? 0)%Z.
Qed.

(** What an option does, when it is accepted. *)
Definition option_effect (kv : string * string) : option (upgrade_vars → upgrade_vars) :=
  if String.eqb kv.1 "abort-at" then
    (λ a u, mkVars (upgradeTests u) a (upgradeDisruptRebootPolicy u)) <$> abort_value kv.2
  else if String.eqb kv.1 "disrupt-reboot" then
    if String.eqb kv.2 "graceful" || String.eqb kv.2 "force"
    then Some (λ u, mkVars (upgradeTests u) (upgradeAbortAt u) kv.2) else None
  else None.

Definition run_effect (v : cmd_vars) (kv : string * string) : cmd_vars :=
  match option_effect kv with
  | Some f => mkCmdVars (f (c_upgrade v)) (c_target v) (c_image v) (c_report_dir v)
  | None => v
  end.

Definition option_ok (kv : string * string) : Prop := is_Some (option_effect kv).

Lemma init_option_Ret kv v v' :
  init_option kv v = (Ret tt, v') ↔ option_ok kv ∧ v' = run_effect v kv.
Proof.
  destruct kv as [k s]. unfold option_ok, run_effect, option_effect, init_option. cbn [fst snd].
  destruct (String.eqb k "abort-at").
  { unfold on_upgrade. pose proof (SetUpgradeAbortAt_value s (c_upgrade v)) as H.
    destruct (abort_value s) as [a|]; cbn.
    - rewrite H. split; [by intros [= <-]; eauto|by intros [_ ->]].
    - destruct (SetUpgradeAbortAt s (c_upgrade v)) as [o u]. cbn in H. subst o.
      split; [done|]. by intros [[? ?] _]. }
  destruct (String.eqb k "disrupt-reboot").
  { unfold on_upgrade, SetUpgradeDisruptReboot. destruct v as [u t i r].
    destruct (String.eqb s "graceful" || String.eqb s "force"); cbn.
    - split; [by intros [= <-]; eauto|by intros [_ ->]].
    - split; [done|]. by intros [[? ?] _]. }
  split; [done|]. by intros [[? ?] _].
Qed.

Lemma for_each_options_Ret l v v' :
  for_each l init_option v = (Ret tt, v') ↔ Forall option_ok l ∧ v' = fold_left run_effect l v.
Proof.
  revert v. induction l as [|kv l IH]; intros v; cbn [for_each fold_left].
  - unfold ret. rewrite Forall_nil. split; [by intros [= <-]|by intros [_ ->]].
  - rewrite Forall_cons. unfold gobind. destruct (init_option kv v) as [o v1] eqn:E.
    assert (option_ok kv → (o, v1) = (Ret tt, run_effect v kv)) as H.
    { intros Hok. rewrite <- E. by apply init_option_Ret. }
    destruct o as [[]|e|p].
    + apply init_option_Ret in E as [H1 ->]. rewrite IH. tauto.
    + split; [done|]. intros [[Hok _] _]. by apply H in Hok.
    + split; [done|]. intros [[Hok _] _]. by apply H in Hok.
Qed.

(** Options of different keys commute. *)
Lemma run_effect_comm kv kv' v :
  option_ok kv → option_ok kv' → kv.1 ≠ kv'.1 →
  run_effect (run_effect v kv') kv = run_effect (run_effect v kv) kv'.
Proof.
  destruct kv as [k s], kv' as [k' s']. unfold option_ok, run_effect, option_effect. cbn [fst snd].
  destruct (String.eqb_spec k "abort-at"), (String.eqb_spec k' "abort-at"),
    (String.eqb_spec k "disrupt-reboot"), (String.eqb_spec k' "disrupt-reboot");
    intros [f Hf] [f' Hf'] Hne; try congruence; try done.
  - destruct (abort_value s); [|done]. destruct (String.eqb s' _ || _); done.
  - destruct (abort_value s'); [|done]. destruct (String.eqb s _ || _); done.
Qed.

Lemma fold_effects_perm l l' v :
  l ≡ₚ l' → NoDup l.*1 → Forall option_ok l →
  fold_left run_effect l v = fold_left run_effect l' v.
Proof.
  intros Hp. revert v. induction Hp as [|kv l l' Hp IH|kv kv' l|l1 l2 l3 Hp1 IH1 Hp2 IH2];
    intros v Hnd Hok; [done|..].
  - cbn. inv Hok. cbn in Hnd. inv Hnd. by apply IH.
  - cbn. inv Hok. inv H2. cbn in Hnd. rewrite run_effect_comm; [done..|].
    apply NoDup_cons in Hnd as [Hnin _]. cbn in Hnin. set_solver.
  - rewrite IH1 by done. apply IH2; [by rewrite <- Hp1|by rewrite <- Hp1].
Qed.

(** The order in which Go ranges over the map of the options does not matter
    to an upgrade suite that is initialised: another order succeeds too and
    leaves the same variables. *)
Theorem all_Init_order range range' opt v v' :
  (∀ m : gmap string string, range m ≡ₚ map_to_list m) →
  (∀ m : gmap string string, range' m ≡ₚ map_to_list m) →
  all_Init range opt v = (Ret tt, v') → all_Init range' opt v = (Ret tt, v').
Proof.
  intros Hr Hr' H. unfold all_Init in *.
  apply gobind_Ret_inv in H as ([] & v1 & H1 & H2).
  apply for_each_options_Ret in H1 as [Hok ->].
  assert (for_each (range' opt) init_option v =
          (Ret tt, fold_left run_effect (range opt) v)) as E.
  { apply for_each_options_Ret. split; [by rewrite (Hr' opt), <- (Hr opt)|].
    apply fold_effects_perm; [by rewrite (Hr opt), (Hr' opt)| |done].
    rewrite (Hr opt). apply NoDup_fst_map_to_list. }
  unfold gobind. by rewrite E.
Qed.

Definition some_vars : cmd_vars := mkCmdVars (mkVars [] 0 "") "" "" "".
Definition some_options : gmap string string :=
  list_to_map [("abort-at", "random"); ("disrupt-reboot", "force")]%string.

Example OptionsMap_spec_witness :
  ∃ kvs, map option_text kvs = ["abort-at=10"]%string.
Proof.
  assert (∃ m, OptionsMap (mkUpgradeOptions "all" "img" "" ["abort-at=10"%string]) = inl m)
    as [m Hm] by (eexists; vm_compute; reflexivity).
  apply (OptionsMap_spec (mkUpgradeOptions "all" "img" "" ["abort-at=10"%string]) m) in Hm
    as (kvs & E & _). by exists kvs.
Defined.

Example all_Init_order_witness :
  ∃ v', all_Init (λ m, reverse (map_to_list m)) some_options some_vars = (Ret tt, v').
Proof.
  eexists. eapply (all_Init_order map_to_list (λ m, reverse (map_to_list m)) some_options some_vars).
  - done.
  - intros m. by rewrite reverse_Permutation.
  - vm_compute. reflexivity.
Defined.

(** Eight workers and two masters: the number of nodes is the masters'. *)
Example LoadConfig_NumNodes :
  match LoadConfig None (inl (Some POther)) (inl ["a"; "a"]%string) (inl 8) (inl ""%string) with
  | inl (Some (_, cfg)) => NumNodes cfg = 2%Z
  | _ => False
  end.
Proof. vm_compute. reflexivity. Qed.
