(* ===== verification/Annotate.v ===== *)
(** * test/extended/util/test.go: the labels of the tests

    The tables of label patterns, the renamer that annotates every test of the
    ginkgo tree once at start-up, and the preparation of a test's namespace.

    The patterns use three constructs of Go's regular expressions: literal
    bytes (possibly escaped), [.] and [.*]; [parse_re] reads exactly these and
    rejects the rest.  Test names are ASCII, so [.] is a byte other than a
    newline. *)

From S2P Require Import Prelude.
From S2P Require Import GoStrings.
From S2P Require Import GoLib.
From S2P Require Import TestCase.
From S2P Require Import Suites.

(** ** Regular expressions *)

Inductive re_atom := Lit (c : Ascii.ascii) | Any | StarAny.
Definition regex : Type := list re_atom.

Definition star_char : Ascii.ascii := Ascii.ascii_of_nat 42.
Definition dot_char : Ascii.ascii := Ascii.ascii_of_nat 46.

Definition is_alnum (c : Ascii.ascii) : bool :=
  let n := Ascii.nat_of_ascii c in
  (Nat.leb 48 n && Nat.leb n 57) || (Nat.leb 65 n && Nat.leb n 90) || (Nat.leb 97 n && Nat.leb n 122).

(** The metacharacters that are not modelled. *)
Definition is_special (c : Ascii.ascii) : bool :=
  existsb (Ascii.eqb c) (String.list_ascii_of_string "*+?()|[]{}^$").

(** [regexp.MustCompile] on the subset; [None] is an expression outside it. *)
Fixpoint parse_re (s : string) : option regex :=
  match s with
  | EmptyString => Some []
  | String c s' =>
      if Ascii.eqb c backslash_char then
        match s' with
        | String e s'' => if is_alnum e then None else (cons (Lit e)) <$> parse_re s''
        | EmptyString => None
        end
      else if Ascii.eqb c dot_char then
        match s' with
        | String d s'' =>
            if Ascii.eqb d star_char then (cons StarAny) <$> parse_re s''
            else (cons Any) <$> parse_re s'
        | EmptyString => Some [Any]
        end
      else if is_special c then None
      else (cons (Lit c)) <$> parse_re s'
  end.

(** Does the expression match at the start of [s]? *)
Fixpoint match_here (r : regex) : string → bool :=
  match r with
  | [] => λ _, true
  | Lit c :: r' => λ s,
      match s with String a s' => Ascii.eqb a c && match_here r' s' | EmptyString => false end
  | Any :: r' => λ s,
      match s with
      | String a s' => negb (Ascii.eqb a nl_char) && match_here r' s'
      | EmptyString => false
      end
  | StarAny :: r' =>
      fix star s :=
        match_here r' s ||
        match s with
        | String a s' => negb (Ascii.eqb a nl_char) && star s'
        | EmptyString => false
        end
  end.

(** [re.MatchString(s)] *)
Fixpoint MatchString (r : regex) (s : string) : bool :=
  match_here r s || match s with String _ s' => MatchString r s' | EmptyString => false end.

(** [re.LiteralPrefix()]: the literal, when the expression is nothing else. *)
Fixpoint literal (r : regex) : option string :=
  match r with
  | [] => Some ""
  | Lit c :: r' => (String c) <$> literal r'
  | _ => None
  end.

(** ** The tables *)

(* src: test/extended/util/test.go 348-400 testMaps *)
Definition testMaps_disabled : list (string * list string) := [
  ("[Local]", [
    "\[Feature:ImagePrune\]"]);
  ("[Disabled:Alpha]", [
    "\[Feature:Initializers\]";
    "\[Feature:TTLAfterFinished\]";
    "\[Feature:GPUDevicePlugin\]";
    "\[sig-scheduling\] GPUDevicePluginAcrossRecreate \[Feature:Recreate\]";
    "\[Feature:ExpandCSIVolumes\]";
    "\[Feature:DynamicAudit\]";
    "\[NodeAlphaFeature:VolumeSubpathEnvExpansion\]";
    "\[Feature:IPv6DualStack.*\]";
    "version v1 should create Endpoints and EndpointSlices for Pods matching a Service"]);
  ("[Disabled:Unimplemented]", [
    "\[Feature:Networking-IPv6\]";
    "Monitoring";
    "Cluster level logging";
    "Kibana";
    "Ubernetes";
    "kube-ui";
    "Kubernetes Dashboard";
    "\[Feature:ServiceLoadBalancer\]";
    "\[Feature:RuntimeClass\]";
    "NetworkPolicy.*egress";
    "NetworkPolicy.*named port";
    "enforce egress policy";
    "should proxy to cadvisor"]);
  ("[Disabled:SpecialConfig]", [
    "\[Feature:ImageQuota\]";
    "\[Feature:Audit\]";
    "\[Feature:LocalStorageCapacityIsolation\]";
    "\[sig-cluster-lifecycle\]";
    "\[sig-cloud-provider-gcp\]";
    "\[Feature:StatefulUpgrade\]";
    "kube-dns-autoscaler";
    "should check if Kubernetes master services is included in cluster-info";
    "DNS configMap";
    "authentication: OpenLDAP";
    "NodeProblemDetector";
    "Advanced Audit should audit API calls";
    "Firewall rule should have correct firewall rules for e2e cluster"])].

(* src: test/extended/util/test.go 403-446 testMaps *)
Definition testMaps_broken : list (string * list string) := [
  ("[Disabled:Broken]", [
    "mount an API token into pods";
    "ServiceAccounts should ensure a single API token exists";
    "unchanging, static URL paths for kubernetes api services";
    "Simple pod should handle in-cluster config";
    "Services should be able to up and down services";
    "Network should set TCP CLOSE_WAIT timeout";
    "Services should be able to create a functioning NodePort service";
    "\[NodeFeature:Sysctls\]";
    "should check kube-proxy urls";
    "SSH";
    "should implement service.kubernetes.io/service-proxy-name";
    "should idle the service and DeploymentConfig properly";
    "should answer endpoint and wildcard queries for the cluster";
    "should allow ingress access on one named port";
    "ClusterDns \[Feature:Example\] should create pod that uses dns";
    "PreemptionExecutionPath runs ReplicaSets to verify preemption running path";
    "TaintBasedEvictions";
    "recreate nodes and ensure they function upon restart";
    "\[Driver: iscsi\]";
    "\[Feature:VolumeSnapshotDataSource\]";
    "SchedulerPreemption";
    "when the NodeLease feature is enabled";
    "RuntimeClass should reject";
    "should run a Pod requesting a RuntimeClass with a configured handler";
    "should reject a Pod requesting a RuntimeClass with conflicting node selector";
    "should run a Pod requesting a RuntimeClass with scheduling";
    "Services should implement service.kubernetes.io/headless";
    "should allow ingress access from updated pod"]);
  ("[Disabled:Unsupported]", [
    "\[Driver: rbd\]";
    "\[Driver: ceph\]"])].

(* src: test/extended/util/test.go 448-484 testMaps *)
Definition testMaps_slow : list (string * list string) := [
  ("[Slow]", [
    "\[sig-scalability\]";
    "should create and stop a working application";
    "\[Feature:PerformanceDNS\]";
    "should ensure that critical pod is scheduled in case there is no resources available";
    "validates that there exists conflict between pods with same hostPort and protocol but one using 0\.0\.0\.0 hostIP"]);
  ("[Flaky]", [
    "Job should run a job to completion when tasks sometimes fail and are not locally restarted";
    "openshift mongodb replication creating from a template";
    "\[Feature:HPA\] Horizontal pod autoscaling \(scale resource: CPU\) \[sig-autoscaling\] ReplicationController light Should scale from 1 pod to 2 pods"]);
  ("[Serial]", [
    "\[Disruptive\]";
    "\[Exclusive\]";
    "\[Feature:Performance\]";
    "\[Feature:ManualPerformance\]";
    "\[Feature:HighDensityPerformance\]";
    "Service endpoints latency";
    "Clean up pods on node";
    "should allow starting 95 pods per node";
    "DynamicProvisioner should test that deleting a claim before the volume is provisioned deletes the volume";
    "Multi-AZ Clusters should spread the pods";
    "Should be able to support the 1\.7 Sample API Server using the current Aggregator";
    "\[Feature:HPA\] Horizontal pod autoscaling \(scale resource: CPU\) \[sig-autoscaling\] ReplicationController light Should scale from 1 pod to 2 pods"])].

(* src: test/extended/util/test.go 485-525 testMaps *)
Definition testMaps_skipped : list (string * list string) := [
  ("[Skipped:azure]", [
    "Networking should provide Internet connection for containers";
    "\[sig-storage\] In-tree Volumes \[Driver: azure\] \[Testpattern: Inline-volume";
    "\[sig-storage\] In-tree Volumes \[Driver: azure\] \[Testpattern: Pre-provisioned PV"]);
  ("[Skipped:gce]", [
    "\[sig-scheduling\] Multi-AZ Cluster Volumes \[sig-storage\] should only be allowed to provision PDs in zones where nodes exist";
    "\[k8s.io\] \[sig-node\] crictl should be able to run crictl on the node";
    "\[sig-storage\] Flexvolumes should be mountable";
    "\[sig-storage\] Detaching volumes should not work when mount is in progress";
    "\[sig-auth\] Metadata Concealment should run a check-metadata-concealment job to completion";
    "\[sig-api-machinery\] AdmissionWebhook Should be able to deny pod and configmap creation";
    "\[sig-storage\] CSI Volumes \[Driver: pd.csi.storage.gke.io\]\[Serial\]";
    "\[sig-storage\] CSI Volumes CSI Topology test using GCE PD driver \[Serial\]";
    "gce-localssd-scsi-fs";
    "\[HPA\] Horizontal pod autoscaling \(scale resource: Custom Metrics from Stackdriver\)"]);
  ("[Skipped:openstack]", [
    "\[sig-network\] Networking Granular Checks: Services should function for node-Service";
    "\[sig-network\] Networking Granular Checks: Services should function for pod-Service";
    "\[sig-network\] Networking Granular Checks: Services should function for endpoint-Service"])].

(* src: test/extended/util/test.go 528-550 testMaps *)
Definition testMaps_network : list (string * list string) := [
  ("[Skipped:Network/OpenShiftSdn]", [
    "NetworkPolicy between server and client should allow egress access on one named port"]);
  ("[Skipped:Network/OpenShiftSdn/Multitenant]", [
    "\[Feature:NetworkPolicy\]";
    "\[sig-network\] Services should preserve source pod IP for traffic thru service cluster IP"]);
  ("[Skipped:Network/OVNKubernetes]", [
    "\[sig-network\] Networking Granular Checks: Services should function for client IP based session affinity: http";
    "\[sig-network\] Networking Granular Checks: Services should function for client IP based session affinity: udp";
    "\[sig-network\] Services should be able to switch session affinity for NodePort service";
    "\[sig-network\] Services should be able to switch session affinity for service with type clusterIP";
    "\[sig-network\] Services should have session affinity work for NodePort service";
    "\[sig-network\] Services should have session affinity work for service with type clusterIP";
    "\[sig-network\] Services should allow pods to hairpin back to themselves through services";
    "\[sig-network\] Networking Granular Checks: Services should function for endpoint-Service";
    "\[sig-network\] Services should be rejected when no endpoints exist"])].

(* src: test/extended/util/test.go 551-558 testMaps *)
Definition testMaps_suites : list (string * list string) := [
  ("[Suite:openshift/scalability]", []);
  ("[Suite:openshift/test-cmd]", [
    "\[Suite:openshift/test-cmd\]"]);
  ("[Suite:openshift/csi]", [
    "External Storage \[Driver:"])].

(* src: test/extended/util/test.go 346-559 testMaps *)
Definition testMaps : list (string * list string) :=
  testMaps_disabled ++ testMaps_broken ++ testMaps_slow ++ testMaps_skipped ++
  testMaps_network ++ testMaps_suites.

(* src: test/extended/util/test.go 562-562 labelExcludes *)
Definition labelExcludes : list (string * list string) := [].

(* src: test/extended/util/test.go 564-573 excludedTests *)
Definition excludedTests : list string :=
  ["\[Disabled:"; "\[Disruptive\]"; "\[Exclusive\]"; "\[Skipped\]"; "\[Slow\]"; "\[Flaky\]";
   "\[local\]"; "\[Suite:openshift/test-cmd\]"].

(** ** The renamer *)

(** A compiled alternation is the list of its alternatives. *)
(* src: test/extended/util/test.go 197-204 ginkgoTestRenamer *)
Record ginkgoTestRenamer := mkRenamer {
  allLabels : list string;
  stringMatches : string → list string;
  matches_ : string → list regex;
  excludes : string → list regex;
  excludedTestsFilter : list regex
}.

Fixpoint assoc (k : string) (l : list (string * list string)) : list string :=
  match l with
  | [] => []
  | (k', v) :: l' => if String.eqb k k' then v else assoc k l'
  end.

Fixpoint parse_all (l : list string) : option (list regex) :=
  match l with
  | [] => Some []
  | s :: l' =>
      match parse_re s, parse_all l' with
      | Some r, Some rs => Some (r :: rs)
      | _, _ => None
      end
  end.

Definition compiled (items : list string) : list regex := default [] (parse_all items).

(** The excluded tests are a variable of the package: the patterns of the
    provider and of the network are appended to it for good. *)
(* src: test/extended/util/test.go 150-195 newGinkgoTestRenamerFromGlobals *)
Definition newGinkgoTestRenamerFromGlobals (provider : string) (networkSkips : list string)
  : go (list string) ginkgoTestRenamer := λ excluded,
  let excluded :=
    (if String.eqb provider "" then excluded
     else excluded ++ ["\[Skipped:" +:+ provider +:+ "\]"]) ++
    map (λ n, "\[Skipped:Network/" +:+ n +:+ "\]") networkSkips in
  let items l := compiled (sort_Strings (assoc l testMaps)) in
  if forallb (λ '(_, l), bool_decide (is_Some (parse_all l))) (testMaps ++ labelExcludes) then
    match parse_all excluded with
    | None => (Panic "regexp: Compile", excluded)
    | Some filter =>
        (Ret (mkRenamer
           (sort_Strings (map fst testMaps))
           (λ l, omap literal (items l))
           (λ l, bfilter (λ r, match literal r with Some _ => false | None => true end) (items l))
           (λ l, compiled (sort_Strings (assoc l labelExcludes)))
           filter), excluded)
    end
  else (Panic "regexp: Compile", excluded).

(* src: test/extended/util/test.go 141-148 getNetworkSkips *)
Definition getNetworkSkips (kubectl : string + error) : list string :=
  match kubectl with
  | inr _ => []
  | inl out => SplitChar (Ascii.ascii_of_nat 32) out
  end.

Definition re_match (rs : list regex) (s : string) : bool := existsb (λ r, MatchString r s) rs.

Section Rename.
Variable r : ginkgoTestRenamer.

(* src: test/extended/util/test.go 215-226 ginkgoTestRenamer.maybeRenameTest *)
Definition has_label (name label : string) : bool :=
  if existsb (Contains name) (stringMatches r label) then true
  else re_match (matches_ r label) name.

(** One pass over the labels: the labels added, the name with them and their
    number. *)
(* src: test/extended/util/test.go 209-232 ginkgoTestRenamer.maybeRenameTest *)
Fixpoint label_pass (ls : list string) (labels name : string) (count : nat)
  : string * string * nat :=
  match ls with
  | [] => (labels, name, count)
  | label :: ls' =>
      if Contains name label then label_pass ls' labels name count
      else if has_label name label then
        if re_match (excludes r label) name then label_pass ls' labels name count
        else label_pass ls' (labels +:+ " " +:+ label) (name +:+ " " +:+ label) (S count)
      else label_pass ls' labels name count
  end.

(** The outer loop: until a pass adds nothing; [None] when the fuel runs out. *)
(* src: test/extended/util/test.go 207-236 ginkgoTestRenamer.maybeRenameTest *)
Fixpoint label_loop (fuel : nat) (labels name : string) : option (string * string) :=
  match fuel with
  | O => None
  | S f =>
      let '(labels', name', count) := label_pass (allLabels r) labels name 0 in
      if Nat.eqb count 0 then Some (labels', name') else label_loop f labels' name'
  end.

Definition label_fuel : nat := S (length (allLabels r)).

(** The marker of the conformance suites. *)
(* src: test/extended/util/test.go 244-250 ginkgoTestRenamer.maybeRenameTest *)
Definition suite_marker (name : string) : string :=
  let isSerial := Contains name "[Serial]" in
  let isConformance := Contains name "[Conformance]" in
  if isSerial && isConformance then " [Suite:openshift/conformance/serial/minimal]"
  else if isSerial then " [Suite:openshift/conformance/serial]"
  else if isConformance then " [Suite:openshift/conformance/parallel/minimal]"
  else " [Suite:openshift/conformance/parallel]".

(** The new text of the node. *)
(* src: test/extended/util/test.go 206-264 ginkgoTestRenamer.maybeRenameTest *)
Definition maybeRenameTest (name : string) (FileName Text : string) : option string :=
  match label_loop label_fuel "" name with
  | None => None
  | Some (labels, name) =>
      let text := if negb (re_match (excludedTestsFilter r) name)
                  then Text +:+ suite_marker name else Text in
      let text := if Contains FileName "/origin/test/" && negb (Contains text "[Suite:openshift")
                  then text +:+ " [Suite:openshift]" else text in
      let text := if Contains FileName "/kubernetes/test/e2e/"
                  then text +:+ " [Suite:k8s]" else text in
      Some (text +:+ labels)
  end.
End Rename.

(** The walk over the tests: a test is its full name, file and node text. *)
(* src: test/extended/util/test.go 135-139 AnnotateTestSuite *)
Definition AnnotateTestSuite (provider : string) (kubectl : string + error)
    (tests : list (string * string * string)) : go (list string) (list (option string)) :=
  (r <-! newGinkgoTestRenamerFromGlobals provider (getNetworkSkips kubectl) ;;
   ret (map (λ '(n, f, t), maybeRenameTest r n f t) tests))%go.

(** ** Test packages and skips *)

(** The description of the running test. *)
Record test_description := mkDescription { td_FileName : string; FullTestText : string }.

(* src: test/extended/util/test.go 276-278 isPackage *)
Definition isPackage (d : test_description) (pkg : string) : bool := Contains (td_FileName d) pkg.

(* src: test/extended/util/test.go 281-287 isOriginTest, isKubernetesE2ETest *)
Definition isOriginTest (d : test_description) : bool := isPackage d "/origin/test/".
Definition isKubernetesE2ETest (d : test_description) : bool := isPackage d "/kubernetes/test/e2e/".

(* src: test/extended/util/test.go 289-291 testNameContains *)
Definition testNameContains (d : test_description) (n : string) : bool := Contains (FullTestText d) n.

(* src: test/extended/util/test.go 293-295 skipTestNamespaceCustomization *)
Definition skipTestNamespaceCustomization (d : test_description) : bool :=
  isPackage d "/kubernetes/test/e2e/namespace.go" &&
  (testNameContains d "should always delete fast" || testNameContains d "should delete fast enough").

(** The message of the skip, if the test is skipped. *)
(* src: test/extended/util/test.go 583-594 checkSuiteSkips *)
Definition checkSuiteSkips (d : test_description) (SkipString : string) : option string :=
  if isOriginTest d then
    if Contains SkipString "Synthetic Origin" then Some "skipping all openshift/origin tests" else None
  else if isKubernetesE2ETest d then
    if Contains SkipString "Synthetic Kubernetes"
    then Some "skipping all k8s.io/kubernetes tests" else None
  else None.

(** ** Namespaces *)

Record k8s_namespace := mkNS {
  ns_Name : string;
  ns_Terminating : bool;
  ns_Annotations : gmap string string
}.
Record SCC := mkSCC { scc_Name : string; Groups : list string }.

Section Namespaces.
Context {W : Type}.
Variable create_ns : string → go W k8s_namespace.         (* e2e.CreateTestingNS *)
Variable get_ns : string → go W k8s_namespace.
Variable update_ns : k8s_namespace → go W unit.
Variable get_scc : string → go W SCC.
Variable update_scc : SCC → go W unit.
Variable create_binding : string → string → go W unit.    (* namespace, cluster role *)

Definition longRetry : nat := 100.

Definition fatal (m : go W unit) : go W unit :=
  (r <-! try m ;; match r with inl _ => ret tt | inr e => gopanic (err_msg e) end)%go.

(* src: test/extended/util/test.go 599-615 allowAllNodeScheduling *)
Definition allowAllNodeScheduling (namespace : string) : go W unit :=
  fatal (RetryOnConflict longRetry
    (ns <-! get_ns namespace ;;
     update_ns (mkNS (ns_Name ns) (ns_Terminating ns)
                  (<["openshift.io/node-selector"%string := ""%string]> (ns_Annotations ns))))%go).

(* src: test/extended/util/test.go 644-657 isE2ENamespace *)
Definition isE2ENamespace (ns : string) : bool := true.

(* src: test/extended/util/test.go 617-642 addE2EServiceAccountsToSCC *)
Definition addE2EServiceAccountsToSCC (namespaces : list k8s_namespace) (sccName : string)
  : go W unit :=
  fatal (RetryOnConflict longRetry
    (r <-! try (get_scc sccName) ;;
     match r with
     | inr e => if is_kind KNotFound e then ret tt else fail e
     | inl scc =>
         update_scc (mkSCC (scc_Name scc) (Groups scc ++
           map (λ ns, "system:serviceaccounts:" +:+ ns_Name ns)
             (bfilter (λ ns, isE2ENamespace (ns_Name ns)) namespaces)))
     end)%go).

(* src: test/extended/util/test.go 659-683 addRoleToE2EServiceAccounts *)
Definition addRoleToE2EServiceAccounts (namespaces : list k8s_namespace) (roleName : string)
  : go W unit :=
  fatal (RetryOnConflict longRetry
    (for_each namespaces (λ ns,
       if isE2ENamespace (ns_Name ns) && negb (ns_Terminating ns)
       then (try (create_binding (ns_Name ns) roleName) ;;! ret tt)%go
       else ret tt))).

(* src: test/extended/util/test.go 298-343 createTestingNS *)
Definition createTestingNS (d : test_description) (client_config : option error)
    (baseName : string) : go W k8s_namespace :=
  let baseName := if negb (HasPrefix baseName "e2e-") then "e2e-" +:+ baseName else baseName in
  (ns <-! create_ns baseName ;;
   if HasPrefix baseName "e2e-k8s-" ||
      (isKubernetesE2ETest d && negb (skipTestNamespaceCustomization d)) then
     match client_config with
     | Some e => fail e
     | None =>
         addE2EServiceAccountsToSCC [ns] "privileged" ;;!
         addE2EServiceAccountsToSCC [ns] "anyuid" ;;!
         addE2EServiceAccountsToSCC [ns] "hostmount-anyuid" ;;!
         addRoleToE2EServiceAccounts [ns] "view" ;;!
         allowAllNodeScheduling (ns_Name ns) ;;!
         ret ns
     end
   else ret ns)%go.
End Namespaces.

(** ** Properties *)

(** The text of the labels: a space before each one. *)
Fixpoint label_text (ls : list string) : string :=
  match ls with [] => "" | l :: ls' => " " +:+ l +:+ label_text ls' end.

Lemma label_text_app l1 l2 : label_text (l1 ++ l2) = label_text l1 +:+ label_text l2.
Proof. induction l1; cbn -[String.append]; [done|]. by rewrite IHl1, !str_app_assoc. Qed.

Section RenameProps.
Variable r : ginkgoTestRenamer.

(** The labels of [all] that are not in the name. *)
Definition missing (name : string) : list string :=
  bfilter (λ l, negb (Contains name l)) (allLabels r).

(** The label is absent and one of its patterns matches. *)
Definition wanted (name label : string) : bool :=
  negb (Contains name label) && has_label r name label && negb (re_match (excludes r label) name).

(** The labels a run adds to a name: each is new when it is added. *)
Inductive added : string → list string → Prop :=
| added_nil name : added name []
| added_cons name l ls :
    l ∈ allLabels r → wanted name l = true →
    added (name +:+ label_text [l]) ls → added name (l :: ls).

Lemma added_app name l1 l2 :
  added name l1 → added (name +:+ label_text l1) l2 → added name (l1 ++ l2).
Proof.
  induction 1 as [name|name l ls Hl Hw Ha IH]; cbn [app]; intros H2.
  - cbn in H2. by rewrite str_app_nil_r in H2.
  - constructor; [done..|]. apply IH. cbn [label_text] in *.
    by rewrite str_app_nil_r, !str_app_assoc in *.
Qed.

Lemma label_pass_spec ls labels name n :
  Forall (.∈ allLabels r) ls →
  ∃ new, label_pass r ls labels name n =
           (labels +:+ label_text new, name +:+ label_text new, n + length new) ∧
         added name new ∧
         (new = [] → Forall (λ l, wanted name l = false) ls).
Proof.
  intros Hall. revert labels name n. induction Hall as [|l ls Hl _ IH]; intros labels name n.
  { exists []. cbn. rewrite !str_app_nil_r, Nat.add_0_r. repeat constructor. }
  cbn [label_pass].
  destruct (wanted name l) eqn:E; unfold wanted in E.
  - propify. rewrite H, H1, H0. destruct (IH (labels +:+ " " +:+ l) (name +:+ " " +:+ l) (S n))
      as (new & -> & Ha & _).
    exists (l :: new). split_and!; [|constructor; [done|by unfold wanted; rewrite H, H1, H0|]|done].
    + cbn [label_text length]. by rewrite !str_app_assoc, Nat.add_succ_r.
    + cbn [label_text]. by rewrite str_app_nil_r.
  - destruct (IH labels name n) as (new & Hn & Ha & Hw). exists new.
    split_and!; [|done|intros ->; constructor; [done|by apply Hw]].
    destruct (Contains name l), (has_label r name l), (re_match (excludes r l) name); done.
Qed.

Lemma missing_lt name l ls :
  l ∈ allLabels r → Contains name l = false →
  length (missing (name +:+ label_text (l :: ls))) < length (missing name).
Proof.
  unfold missing. intros Hl Hc. set (t := label_text (l :: ls)).
  assert (Contains (name +:+ t) l = true) as Ht.
  { subst t. cbn [label_text].
    by apply Contains_app_r, Contains_app_r, Contains_app_l, Contains_self. }
  clearbody t. induction (allLabels r) as [|x xs IH]; [by apply elem_of_nil in Hl|].
  assert (length (bfilter (λ l, negb (Contains (name +:+ t) l)) xs) ≤
          length (bfilter (λ l, negb (Contains name l)) xs)) as Hle.
  { clear IH Hl. induction xs as [|y ys IHy]; [done|]. cbn.
    destruct (Contains name y) eqn:E; [by rewrite (Contains_app_l _ _ _ E)|].
    cbn. destruct (Contains (name +:+ t) y); cbn; lia. }
  cbn. apply elem_of_cons in Hl as [<-|Hl].
  - rewrite Hc, Ht. cbn. lia.
  - specialize (IH Hl). destruct (Contains name x) eqn:E.
    + by rewrite (Contains_app_l _ _ _ E).
    + cbn. destruct (Contains (name +:+ t) x); cbn; lia.
Qed.

Lemma label_loop_spec fuel labels name :
  length (missing name) < fuel →
  ∃ new, label_loop r fuel labels name =
           Some (labels +:+ label_text new, name +:+ label_text new) ∧
         added name new ∧
         Forall (λ l, wanted (name +:+ label_text new) l = false) (allLabels r).
Proof.
  revert labels name. induction fuel as [|f IH]; intros labels name Hf; [lia|].
  cbn [label_loop]. destruct (label_pass_spec (allLabels r) labels name 0) as (new & -> & Ha & Hn).
  { by apply Forall_forall. }
  destruct new as [|l new]; cbn [length Nat.add Nat.eqb].
  - exists []. cbn. rewrite !str_app_nil_r. auto using added.
  - inversion Ha as [|? ? ? Hl Hw Ha']; subst. pose proof Hw as Hw'.
    unfold wanted in Hw'. propify.
    destruct (IH (labels +:+ label_text (l :: new)) (name +:+ label_text (l :: new)))
      as (new' & -> & Ha2 & Hfix).
    { pose proof (missing_lt name l new Hl ltac:(assumption)). lia. }
    exists ((l :: new) ++ new'). rewrite label_text_app, <- !str_app_assoc.
    split_and!; [done| |done]. by apply added_app.
Qed.

(** The new text of the node, given the labels. *)
Definition annotated (name FileName Text : string) (ls : list string) : string :=
  let full := name +:+ label_text ls in
  let text := if re_match (excludedTestsFilter r) full then Text
              else Text +:+ suite_marker full in
  text +:+
  (if Contains FileName "/origin/test/" && negb (Contains text "[Suite:openshift")
   then " [Suite:openshift]" else "") +:+
  (if Contains FileName "/kubernetes/test/e2e/" then " [Suite:k8s]" else "") +:+
  label_text ls.

Lemma maybeRenameTest_annotated name FileName Text :
  ∃ ls, maybeRenameTest r name FileName Text = Some (annotated name FileName Text ls) ∧
        label_loop r (label_fuel r) "" name = Some (label_text ls, name +:+ label_text ls) ∧
        added name ls ∧
        Forall (λ l, wanted (name +:+ label_text ls) l = false) (allLabels r).
Proof.
  destruct (label_loop_spec (label_fuel r) "" name) as (ls & Hl & Ha & Hf).
  { unfold label_fuel, missing. pose proof (bfilter_length (λ l, negb (Contains name l)) (allLabels r)). lia. }
  rewrite str_app_nil_l in Hl.
  exists ls. split; [|done]. unfold maybeRenameTest. rewrite Hl. unfold annotated. cbn zeta.
  destruct (re_match _ _), (Contains FileName "/kubernetes/test/e2e/"); cbn [negb];
    destr_match; rewrite ?str_app_nil_l, ?str_app_assoc; done.
Qed.
End RenameProps.

Lemma added_spec r name ls :
  added r name ls →
  NoDup ls ∧ ∀ l, l ∈ ls → l ∈ allLabels r ∧ Contains name l = false.
Proof.
  induction 1 as [name|name l ls Hl Hw _ [Hnd IH]].
  { split; [constructor|]. by intros l Hl%elem_of_nil. }
  assert (∀ x, x ∈ ls → Contains (name +:+ label_text [l]) x = false) as Hx by (intros x; apply IH).
  split.
  - constructor; [|done]. intros Hin%Hx. cbn [label_text] in Hin.
    rewrite Contains_app_r in Hin; [done|].
    apply Contains_app_r, Contains_app_l, Contains_self.
  - intros x [->|Hin]%elem_of_cons.
    + unfold wanted in Hw. by propify.
    + split; [by apply IH|]. specialize (Hx x Hin). destruct (Contains name x) eqn:E; [|done].
      by rewrite (Contains_app_l _ _ _ E) in Hx.
Qed.

Lemma label_pass_fixed r ls labels name n :
  Forall (λ l, wanted r name l = false) ls → label_pass r ls labels name n = (labels, name, n).
Proof.
  induction 1 as [|l ls Hl _ IH]; [done|]. cbn [label_pass]. unfold wanted in Hl.
  destruct (Contains name l), (has_label r name l), (re_match (excludes r l) name); done.
Qed.

(** Labelling a test terminates, with a pass per label as the bound: it
    appends labels of the table, each one absent from the name and each one
    once; the result is a fixed point (no label that a pattern asks for is
    missing, unless it is excluded), so labelling it again adds nothing; and
    the new text is the old text, the marker of the conformance suite, the
    markers of the package and the labels, in this order. *)
Theorem maybeRenameTest_labels r name FileName Text :
  ∃ ls, maybeRenameTest r name FileName Text = Some (annotated r name FileName Text ls) ∧
    NoDup ls ∧
    (∀ l, l ∈ ls → l ∈ allLabels r ∧ Contains name l = false) ∧
    let labelled := name +:+ label_text ls in
    (∀ l, l ∈ allLabels r → has_label r labelled l = true →
       Contains labelled l = true ∨ re_match (excludes r l) labelled = true) ∧
    label_loop r (label_fuel r) "" labelled = Some ("", labelled).
Proof.
  destruct (maybeRenameTest_annotated r name FileName Text) as (ls & Hr & _ & Ha & Hf).
  destruct (added_spec _ _ _ Ha) as [Hnd Hls]. exists ls. cbn zeta. split_and!; [done|done|done| |].
  - intros l Hl Hh. rewrite Forall_forall in Hf. specialize (Hf l Hl). unfold wanted in Hf.
    rewrite Hh in Hf. destruct (Contains _ l), (re_match _ _); auto.
  - unfold label_fuel. cbn [label_loop]. by rewrite label_pass_fixed.
Qed.

(** The patterns of the suites have no space. *)
Definition space : Ascii.ascii := Ascii.ascii_of_nat 32.

Lemma Contains_marked a b p :
  str_free space p = true → p ≠ "" →
  Contains (a +:+ " " +:+ b) p = Contains a p || Contains b p.
Proof. apply (Contains_straddle space). Qed.

Lemma Contains_label_text a ls p :
  str_free space p = true → p ≠ "" →
  Contains (a +:+ label_text ls) p = Contains a p || existsb (λ l, Contains l p) ls.
Proof.
  intros Hs Hp. revert a. induction ls as [|l ls IH]; intros a; cbn [label_text existsb].
  - by rewrite str_app_nil_r, orb_false_r.
  - rewrite Contains_marked by done. rewrite IH. by rewrite !orb_assoc.
Qed.

Definition conformance_prefix : string := "[Suite:openshift/conformance/".

(** What the renamer of the globals is made of. *)
Lemma newGinkgoTestRenamer_Ret provider skips excluded r excluded' :
  newGinkgoTestRenamerFromGlobals provider skips excluded = (Ret r, excluded') →
  allLabels r = sort_Strings (map fst testMaps) ∧
  parse_all excluded' = Some (excludedTestsFilter r) ∧
  excluded `prefix_of` excluded'.
Proof.
  unfold newGinkgoTestRenamerFromGlobals. cbn zeta.
  destruct (forallb _ _); [|done]. destruct (parse_all _) eqn:E; [|done].
  intros [= <- <-]. split_and!; [done|done|].
  destruct (String.eqb provider ""); [eexists; done|rewrite <- app_assoc; eexists; done].
Qed.

Lemma labels_not_conformance l : l ∈ map fst testMaps → Contains l conformance_prefix = false.
Proof.
  intros Hl.
  assert (forallb (λ l, negb (Contains l conformance_prefix)) (map fst testMaps) = true) as H
    by (vm_compute; reflexivity).
  rewrite forallb_elem_of in H. specialize (H l Hl). by propify.
Qed.

Lemma sort_Strings_elem l x : x ∈ sort_Strings l ↔ x ∈ l.
Proof. by rewrite (sort_perm (srt := sort_Strings) l). Qed.

Lemma suite_marker_spaced name : ∃ m, suite_marker name = " " +:+ m.
Proof.
  unfold suite_marker.
  destruct (Contains name "[Serial]"), (Contains name "[Conformance]"); by eexists.
Qed.

(** Pieces of text that a space separates, none but the marker of interest. *)
Lemma Contains_annotated r name FileName pre Text ls p :
  name = pre +:+ Text →
  str_free space p = true → p ≠ "" →
  Contains "[Suite:openshift]" p = false → Contains "[Suite:k8s]" p = false →
  Forall (λ l, Contains l p = false) ls →
  Contains (pre +:+ annotated r name FileName Text ls) p =
  Contains name p ||
  (negb (re_match (excludedTestsFilter r) (name +:+ label_text ls)) &&
   Contains (suite_marker (name +:+ label_text ls)) p).
Proof.
  intros -> Hs Hp Ho Hk Hls. unfold annotated. cbn zeta.
  set (full := (pre +:+ Text) +:+ label_text ls). set (t := if re_match _ _ then _ else _).
  rewrite <- !str_app_assoc, Contains_label_text by done.
  replace (existsb (λ l, Contains l p) ls) with false.
  2:{ symmetry. induction Hls as [|l ls Hl _ IH]; [done|]. cbn. by rewrite Hl. }
  rewrite orb_false_r.
  assert (∀ (b : bool) a m, Contains m p = false →
    Contains (a +:+ (if b then " " +:+ m else "")) p = Contains a p) as Hopt.
  { intros [] a m Hm; [|by rewrite str_app_nil_r]. rewrite Contains_marked by done.
    by rewrite Hm, orb_false_r. }
  change " [Suite:k8s]" with (" " +:+ "[Suite:k8s]").
  change " [Suite:openshift]" with (" " +:+ "[Suite:openshift]").
  rewrite !Hopt by done. subst t. destruct (re_match _ full); cbn [negb andb].
  { by rewrite orb_false_r. }
  destruct (suite_marker_spaced full) as [m ->]. rewrite <- (str_app_assoc pre), Contains_marked by done.
  change (" " +:+ m) with ("" +:+ " " +:+ m). rewrite Contains_marked by done. by destruct p.
Qed.

(** *** The patterns *)

Definition item_matches (s item : string) : bool :=
  match parse_re item with Some re => MatchString re s | None => false end.

Lemma parse_all_match l rs s :
  parse_all l = Some rs → re_match rs s = existsb (item_matches s) l.
Proof.
  revert rs. induction l as [|x l IH]; cbn [parse_all]; intros rs H; [by simplify_eq|].
  destruct (parse_re x) as [re|] eqn:Ex, (parse_all l) as [rs'|] eqn:El; simplify_eq.
  cbn [re_match existsb]. unfold item_matches at 1. rewrite Ex. f_equal. by apply IH.
Qed.

Lemma parse_all_is_Some l : is_Some (parse_all l) ↔ ∀ x, x ∈ l → is_Some (parse_re x).
Proof.
  induction l as [|x l IH]; cbn [parse_all].
  { split; [|by eexists]. by intros _ x Hx%elem_of_nil. }
  split.
  - intros [rs H] y. destruct (parse_re x) eqn:Ex, (parse_all l) eqn:El; simplify_eq.
    intros [->|Hy]%elem_of_cons; [by eexists|]. by apply IH.
  - intros H. destruct (H x) as [re ->]; [left|]. destruct (proj2 IH) as [rs ->]; [|by eexists].
    intros y Hy. apply H. by right.
Qed.

Lemma literal_match_here re p s : literal re = Some p → match_here re s = HasPrefix s p.
Proof.
  revert p s. induction re as [|[c| |] re IH]; intros p s H; cbn in H; simplify_eq; [by destruct s|].
  destruct (literal re) as [q|]; simplify_eq/=. destruct s as [|a s]; [done|].
  by rewrite (IH q), Ascii.eqb_sym.
Qed.

Lemma literal_MatchString re p s : literal re = Some p → MatchString re s = Contains s p.
Proof.
  intros H. induction s as [|a s IH]; cbn [MatchString Contains];
    rewrite (literal_match_here re p) by done; [done|by rewrite IH].
Qed.

Lemma existsb_perm {A} (f : A → bool) l l' : l ≡ₚ l' → existsb f l = existsb f l'.
Proof.
  intros H. apply eq_true_iff_eq. rewrite !existsb_elem_of.
  by split; intros (x & Hx & ?); exists x; [rewrite <- H|rewrite H].
Qed.

Lemma literal_split rs s :
  existsb (Contains s) (omap literal rs) ||
  re_match (bfilter (λ r, match literal r with Some _ => false | None => true end) rs) s =
  re_match rs s.
Proof.
  induction rs as [|re rs IH]; [done|]. cbn [omap list_omap bfilter].
  destruct (literal re) as [p|] eqn:E; cbn [existsb re_match].
  - unfold re_match in *. cbn [existsb]. by rewrite (literal_MatchString re p), <- orb_assoc, IH.
  - unfold re_match in *. cbn [existsb]. rewrite <- IH.
    by destruct (MatchString re s), (existsb (Contains s) _).
Qed.

Lemma assoc_elem k l x : x ∈ assoc k l → ∃ v, (k, v) ∈ l ∧ x ∈ v.
Proof.
  induction l as [|[k' v] l IH]; cbn [assoc]; [by intros ?%elem_of_nil|].
  destruct (String.eqb_spec k k') as [->|_].
  - intros Hx. exists v. by split; [left|].
  - intros (w & ? & ?)%IH. exists w. by split; [right|].
Qed.

Lemma testMaps_parse label : is_Some (parse_all (assoc label testMaps)).
Proof.
  assert (forallb (λ '(_, l), bool_decide (is_Some (parse_all l))) testMaps = true) as H
    by (vm_compute; reflexivity).
  apply parse_all_is_Some. intros x (v & Hv & Hx)%assoc_elem.
  rewrite forallb_elem_of in H. specialize (H _ Hv). cbn in H. propify.
  rewrite parse_all_is_Some in H. by apply H.
Qed.

#[local] Arguments assoc : simpl never.

(** C37: the split of the patterns of a label into literals, searched with
    [strings.Contains], and the alternation of the rest, matched as a regular
    expression, decides the same as matching every pattern of the table as a
    regular expression; the exclusion filter is the alternation of the excluded
    patterns, and the labels are those of the table. *)
Theorem newGinkgoTestRenamer_equiv provider skips excluded r excluded' :
  newGinkgoTestRenamerFromGlobals provider skips excluded = (Ret r, excluded') →
  (∀ name label, has_label r name label = existsb (item_matches name) (assoc label testMaps)) ∧
  (∀ name, re_match (excludedTestsFilter r) name = existsb (item_matches name) excluded') ∧
  (∀ label, label ∈ allLabels r ↔ label ∈ map fst testMaps).
Proof.
  intros H. destruct (newGinkgoTestRenamer_Ret _ _ _ _ _ H) as (Hl & Hf & _).
  split_and!.
  - intros name label. revert H. unfold newGinkgoTestRenamerFromGlobals. cbn zeta.
    destruct (forallb _ _); [|done]. destruct (parse_all (_ ++ _)); [|done].
    intros [= <- _]. unfold has_label. cbn [stringMatches matches_].
    rewrite (existsb_perm _ (assoc label testMaps) (sort_Strings (assoc label testMaps)))
      by (by rewrite (sort_perm (srt := sort_Strings))).
    assert (is_Some (parse_all (sort_Strings (assoc label testMaps)))) as [rs Hrs].
    { apply parse_all_is_Some. intros x Hx. rewrite sort_Strings_elem in Hx.
      exact (proj1 (parse_all_is_Some _) (testMaps_parse label) x Hx). }
    rewrite <- (parse_all_match _ _ name Hrs). unfold compiled. rewrite Hrs.
    change (default [] (Some rs)) with rs.
    rewrite <- (literal_split rs). by destruct (existsb (Contains name) (omap literal rs)).
  - intros name. by apply parse_all_match.
  - intros label. by rewrite Hl, sort_Strings_elem.
Qed.

(** C18: a test that carries no conformance marker yet ends, once annotated, in
    openshift/conformance exactly when no exclusion pattern matches its labelled
    name, in exactly one of the parallel and the serial portion then, the
    serial one when the labelled name has [Serial]; otherwise it is in
    openshift/conformance-excluded. *)
Theorem maybeRenameTest_suites (G : Type) (LongDesc : string → string)
    provider skips excluded0 r excluded pre FileName Text :
  newGinkgoTestRenamerFromGlobals provider skips excluded0 = (Ret r, excluded) →
  Contains (pre +:+ Text) conformance_prefix = false →
  ∃ labels text,
    let labelled := (pre +:+ Text) +:+ labels in
    let inside := negb (existsb (item_matches labelled) excluded) in
    let serial := Contains labelled "[Serial]" in
    let m n := matches (G := G) LongDesc n (pre +:+ text) in
    label_loop r (label_fuel r) "" (pre +:+ Text) = Some (labels, labelled) ∧
    maybeRenameTest r (pre +:+ Text) FileName Text = Some text ∧
    m "openshift/conformance"%string = inside ∧
    m "openshift/conformance/serial"%string = inside && serial ∧
    m "openshift/conformance/parallel"%string = inside && negb serial ∧
    m "openshift/conformance-excluded"%string = negb inside.
Proof.
  intros Hr Hc. destruct (newGinkgoTestRenamer_Ret _ _ _ _ _ Hr) as (Hl & Hf & _).
  destruct (maybeRenameTest_annotated r (pre +:+ Text) FileName Text) as (ls & Hren & Hloop & Ha & _).
  exists (label_text ls), (annotated r (pre +:+ Text) FileName Text ls). cbn zeta.
  set (full := (pre +:+ Text) +:+ label_text ls).
  rewrite <- (parse_all_match _ _ full Hf).
  assert (∀ p, Contains p conformance_prefix = true → str_free space p = true → p ≠ "" →
    Contains "[Suite:openshift]" p = false → Contains "[Suite:k8s]" p = false →
    Contains (pre +:+ annotated r (pre +:+ Text) FileName Text ls) p =
    negb (re_match (excludedTestsFilter r) full) && Contains (suite_marker full) p) as Hm.
  { intros p Hp Hs Hne Ho Hk.
    assert (Forall (λ l, Contains l p = false) ls) as Hls.
    { apply Forall_forall. intros l Hin. apply (proj2 (added_spec _ _ _ Ha)) in Hin as [Hin _].
      rewrite Hl, sort_Strings_elem in Hin. apply labels_not_conformance in Hin.
      destruct (Contains l p) eqn:E; [|done]. by rewrite (Contains_trans _ _ _ E Hp) in Hin. }
    rewrite (Contains_annotated _ _ _ pre Text) by done.
    destruct (Contains (pre +:+ Text) p) eqn:E; [|done].
    by rewrite (Contains_trans _ _ _ E Hp) in Hc. }
  unfold matches, suite_named_, staticSuites. cbn [find_first SuiteName suite].
  cbn [String.eqb Ascii.eqb Bool.eqb suite Matches].
  rewrite !Hm by reflexivity || done. unfold suite_marker.
  split; [exact Hloop|]. split; [exact Hren|]. clear.
  destruct (re_match _ full), (Contains full "[Serial]"), (Contains full "[Conformance]");
    repeat split; reflexivity.
Qed.

(** The renamer of a run with the provider azure on OpenShiftSDN, and a test
    it labels. *)
Definition sdn_skips : list string := ["OpenShiftSDN"; "OpenShiftSDN/NetworkPolicy"].
Definition some_renamer (provider : string) (skips : list string) : ginkgoTestRenamer :=
  match newGinkgoTestRenamerFromGlobals provider skips excludedTests with
  | (Ret r, _) => r
  | _ => mkRenamer [] (λ _, []) (λ _, []) (λ _, []) []
  end.

Definition some_excluded (provider : string) (skips : list string) : list string :=
  snd (newGinkgoTestRenamerFromGlobals provider skips excludedTests).

Lemma some_renamer_Ret provider skips :
  match fst (newGinkgoTestRenamerFromGlobals provider skips excludedTests) with
  | Ret _ => True | _ => False end →
  newGinkgoTestRenamerFromGlobals provider skips excludedTests =
  (Ret (some_renamer provider skips), some_excluded provider skips).
Proof.
  unfold some_renamer, some_excluded.
  by destruct (newGinkgoTestRenamerFromGlobals provider skips excludedTests) as [[]].
Qed.

Example newGinkgoTestRenamer_equiv_witness :
  has_label (some_renamer "azure" sdn_skips) "a SSH test" "[Disabled:Broken]" = true.
Proof.
  destruct (newGinkgoTestRenamer_equiv "azure" sdn_skips excludedTests (some_renamer "azure" sdn_skips)
    (some_excluded "azure" sdn_skips)) as (H & _ & _).
  { apply some_renamer_Ret. vm_compute. exact I. }
  rewrite H. by vm_compute.
Defined.

Example maybeRenameTest_suites_witness :
  ∃ labels text,
    maybeRenameTest (some_renamer "" []) "a [Exclusive] b" "" "b" = Some text ∧
    labels = " [Serial]"%string ∧
    matches (G := unit) (λ d, d) "openshift/conformance-excluded" ("a [Exclusive] " +:+ text) = true.
Proof.
  destruct (maybeRenameTest_suites unit (λ d, d) "" [] excludedTests (some_renamer "" [])
    (some_excluded "" []) "a [Exclusive] " "" "b") as (labels & text & Hl & Ht & _ & _ & _ & H).
  { apply some_renamer_Ret. vm_compute. exact I. }
  { reflexivity. }
  exists labels, text. vm_compute in Hl. injection Hl as <-. split_and!; [exact Ht|done|].
  rewrite H. by vm_compute.
Defined.

(** The label of the tests that OpenShift SDN in its multitenant mode cannot
    run spells the network [OpenShiftSdn]; the type of the network, which the
    exclusion pattern is built from, is [OpenShiftSDN] (openshift/api,
    operator/v1): the pattern does not match the label, and the test stays in the
    parallel suite. *)
Example network_label_not_excluded :
  maybeRenameTest (some_renamer "" ["OpenShiftSDN"; "OpenShiftSDN/Multitenant"])
    "[Feature:NetworkPolicy] policies" "" "policies" =
  Some "policies [Suite:openshift/conformance/parallel] [Skipped:Network/OpenShiftSdn/Multitenant]"%string.
Proof. vm_compute. reflexivity. Qed.
