(* ===== verification/Disruption.v ===== *)
(** * test/extended/util/disruption/disruption.go: invariants during a disruption

    [Run] disrupts the cluster (the upgrade, the loss of a quorum) while every
    invariant test runs in a goroutine of its own, under the chaos monkey of
    Kubernetes; the results go to a JUnit suite.

    A goroutine is a program counter with the deferred functions it has pushed;
    a panic is carried through them as Go does, until one recovers it.  How the
    methods of a test end, the clock and the file system are inputs of a step;
    the steps interleave freely.  The panics of ginkgo set the state of the
    running spec ([Failer]) before they unwind. *)

From S2P Require Import Prelude.
From S2P Require Import GoStrings.
From S2P Require Import GoLib.
From S2P Require Import TestCase.

(** ** Ginkgo: failures and panics *)

#[export] Instance SpecState_eq_dec : EqDecision SpecState.
Proof. solve_decision. Defined.

(* src: vendor/github.com/onsi/ginkgo/internal/failer/failer.go 10-14 Failer *)
Record Failer := mkFailer { f_state : SpecState; f_message : string }.

(* src: vendor/github.com/onsi/ginkgo/internal/failer/failer.go 16-21 New *)
Definition Failer_New : Failer := mkFailer SPassed "".

(** The first failure is kept. *)
Definition set_first (st : SpecState) (m : string) (f : Failer) : Failer :=
  match f_state f with SPassed => mkFailer st m | _ => f end.

(* src: vendor/github.com/onsi/ginkgo/internal/failer/failer.go 23-35 Failer.Panic *)
Definition Failer_Panic : Failer → Failer := set_first SPanicked "Test Panicked".
(* src: vendor/github.com/onsi/ginkgo/internal/failer/failer.go 50-61 Failer.Fail *)
Definition Failer_Fail (m : string) : Failer → Failer := set_first SFailed m.
(* src: vendor/github.com/onsi/ginkgo/internal/failer/failer.go 81-92 Failer.Skip *)
Definition Failer_Skip (m : string) : Failer → Failer := set_first SSkipped m.

(** The values [recover] dispatches on. *)
Inductive panic_value :=
| FailurePanic (Message FullStackTrace : string)
| SkipPanic (Filename : string) (Line : Z) (Message : string)
| OtherPanic (v stack : string).

(** How a call of code outside the runner ends: it returns, fails or skips
    through ginkgowrapper, fails through ginkgo itself, or panics. *)
Inductive ending :=
| EReturn
| EFail (message stack : string)
| ESkip (file : string) (line : Z) (message : string)
| EGinkgoFail (message stack : string)
| EPanic (v stack : string).

(* src: vendor/github.com/onsi/ginkgo/ginkgo_dsl.go 37-48 GINKGO_PANIC *)
Definition GINKGO_PANIC : string :=
  Join [""; "Your test failed.";
        "Ginkgo panics to prevent subsequent assertions from running.";
        "Normally Ginkgo rescues this panic so you shouldn't see it."; "";
        "But, if you make an assertion in a goroutine, Ginkgo can't capture the panic.";
        "To circumvent this, you should call"; "";
        String (Ascii.ascii_of_nat 9) "defer GinkgoRecover()"; "";
        "at the top of the goroutine that caused this panic."; ""] nl.

(* src: vendor/k8s.io/kubernetes/test/e2e/framework/ginkgowrapper/wrapper.go 43-106 Fail, Skip *)
Definition ending_panic (e : ending) : option panic_value :=
  match e with
  | EReturn => None
  | EFail m st => Some (FailurePanic m st)
  | ESkip f l m => Some (SkipPanic f l m)
  | EGinkgoFail _ st => Some (OtherPanic GINKGO_PANIC st)
  | EPanic v st => Some (OtherPanic v st)
  end.

(* src: vendor/github.com/onsi/ginkgo/ginkgo_dsl.go 248-267 Skip, Fail *)
Definition ending_failer (e : ending) : Failer → Failer :=
  match e with
  | EFail m _ | EGinkgoFail m _ => Failer_Fail m
  | ESkip _ _ m => Failer_Skip m
  | EReturn | EPanic _ _ => id
  end.

(** ** The report *)

(** An [Error] or a [Failure] of the report: the message, the type, the text. *)
Record Problem := mkProblem { PMessage : string; PType : string; PValue : string }.

(** The time of a case is kept as a duration; the code stores its seconds as a
    float. *)
(* src: vendor/k8s.io/kubernetes/test/utils/junit/junit.go 90-104 TestCase *)
Record ReportCase := mkCase {
  CName : string;
  Classname : string;
  CTime : duration;
  CSkipped : string;
  CErrors : list Problem;
  CFailures : list Problem
}.

(* src: vendor/k8s.io/kubernetes/test/utils/junit/junit.go 26-47 TestSuite *)
Record ReportSuite := mkSuite {
  SName : string;
  SPackage : string;
  STests : Z;
  SErrors : Z;
  SFailures : Z;
  SSkips : Z;
  STime : duration;
  SCases : list ReportCase
}.

Definition new_case (name class : string) : ReportCase := mkCase name class 0 "" [] [].

(* src: vendor/k8s.io/kubernetes/test/utils/junit/junit.go 49-60 TestSuite.Update *)
Definition Update (t : ReportSuite) : ReportSuite :=
  let count (f : ReportCase → nat) (n : Z) := fold_left (λ a c, (a + Z.of_nat (f c))%Z) (SCases t) n in
  mkSuite (SName t) (SPackage t) (Z.of_nat (length (SCases t)))
    (count (λ c, length (CErrors c)) (SErrors t))
    (count (λ c, length (CFailures c)) (SFailures t))
    (count (λ c, if 0 <? String.length (CSkipped c) then 1 else 0)%nat (SSkips t))
    (STime t) (SCases t).

(** The deferred call: [p] is what [recover] returns. *)
(* src: test/extended/util/disruption/disruption.go 122-149 finalizeTest *)
Definition finalizeTest (start now : time) (p : option panic_value) (tc : ReportCase) : ReportCase :=
  let t := Sub now start in
  match p with
  | None => mkCase (CName tc) (Classname tc) t (CSkipped tc) (CErrors tc) (CFailures tc)
  | Some (FailurePanic m st) =>
      mkCase (CName tc) (Classname tc) t (CSkipped tc) (CErrors tc)
        [mkProblem m "Failure" (m +:+ nl +:+ nl +:+ st)]
  | Some (SkipPanic f l m) =>
      mkCase (CName tc) (Classname tc) t (f +:+ ":" +:+ itoa l +:+ " " +:+ Quote m)
        (CErrors tc) (CFailures tc)
  | Some (OtherPanic v st) =>
      mkCase (CName tc) (Classname tc) t (CSkipped tc)
        [mkProblem v "Panic" (v +:+ nl +:+ nl +:+ st)] (CFailures tc)
  end.

(** ** The tests and their frameworks *)

(** What the runner reads of an [upgrades.Test]: its name, the package of its
    type, and whether it is [Skippable]. *)
Record Test := mkTest { TName : string; PkgPath : string; skippable : bool }.

(** [[:word:]] of Go's regular expressions. *)
Definition is_word (c : Ascii.ascii) : bool :=
  let n := Ascii.nat_of_ascii c in
  (48 <=? n) && (n <=? 57) || (65 <=? n) && (n <=? 90) || (97 <=? n) && (n <=? 122) || (n =? 95).

Definition hyphen : Ascii.ascii := Ascii.ascii_of_nat 45.
Definition kept_char (c : Ascii.ascii) : bool := is_word c || Ascii.eqb c hyphen.

(** [nsFilter.ReplaceAllString(s, "-")]: each maximal run of the other bytes
    becomes one hyphen; [in_run] says that the hyphen has been written. *)
Fixpoint replace_runs (in_run : bool) (s : string) : string :=
  match s with
  | EmptyString => ""
  | String c s' =>
      if kept_char c then String c (replace_runs false s')
      else if in_run then replace_runs true s' else String hyphen (replace_runs true s')
  end.

(** [strings.Trim(s, "-")] *)
Fixpoint trim_left_hyphens (s : string) : string :=
  match s with
  | String c s' => if Ascii.eqb c hyphen then trim_left_hyphens s' else s
  | EmptyString => ""
  end.

Fixpoint trim_right_hyphens (s : string) : string :=
  match s with
  | EmptyString => ""
  | String c s' =>
      match trim_right_hyphens s' with
      | EmptyString => if Ascii.eqb c hyphen then "" else String c ""
      | r => String c r
      end
  end.

Definition trim_hyphens (s : string) : string := trim_right_hyphens (trim_left_hyphens s).

Record Framework := mkFramework { BaseName : string; ClientQPS : Z; ClientBurst : Z }.

Definition base_name (t : Test) : string :=
  let ns := trim_hyphens (replace_runs false (TName t)) in
  if Contains (PkgPath t) "/kubernetes/test/e2e/" then "e2e-k8s-" +:+ ns else ns.

(* src: test/extended/util/disruption/disruption.go 152-172 createTestFrameworks *)
Definition createTestFrameworks (tests : list Test) : gmap string Framework :=
  fold_left (λ m t, <[TName t := mkFramework (base_name t) 20 50]> m) tests ∅.

(** ** The goroutine of a test *)

(** The code of a test the runner calls. *)
Inductive call := CSkip | CBeforeEach | CSetup | CTest | CTeardown.

#[export] Instance call_eq_dec : EqDecision call.
Proof. solve_decision. Defined.

(** The deferred functions: those of [chaosMonkeyAdapter.Test], then those of
    the goroutine that [Do] starts. *)
Inductive deferred := DTeardown | DReady | DGinkgoRecover | DFinalize | DDone | DOuterRecover.

Inductive gpc :=
| GStart                                      (* the goroutine has been created *)
| GCall (c : call) (ds : list deferred)       (* inside [c] *)
| GReady (ds : list deferred)                 (* about to call ready() *)
| GUnwind (p : option panic_value) (ds : list deferred).
                                              (* running the deferred functions *)

(* src: vendor/k8s.io/kubernetes/test/e2e/chaosmonkey/chaosmonkey.go 118-131 Semaphore *)
Record goroutine := mkGor {
  g_pc : gpc;
  g_start : time;
  g_once : bool;                     (* the sync.Once has run *)
  g_ready : bool;                    (* readyCh is closed *)
  g_done : bool;                     (* doneCh is closed *)
  g_log : list (call * ending)       (* the calls that ended, in order *)
}.

Definition close_of_closed : panic_value := OtherPanic "close of closed channel" "".

(** [ready()]: [sem.Ready] under the [sync.Once]. *)
(* src: test/extended/util/disruption/disruption.go 100-105 chaosMonkeyAdapter.Test (ready) *)
Definition ready (g : goroutine) : goroutine * option panic_value :=
  if g_once g then (g, None)
  else if g_ready g
  then (mkGor (g_pc g) (g_start g) true true (g_done g) (g_log g), Some close_of_closed)
  else (mkGor (g_pc g) (g_start g) true true (g_done g) (g_log g), None).

(* src: vendor/k8s.io/kubernetes/test/e2e/chaosmonkey/chaosmonkey.go 138-142 Semaphore.done *)
Definition sem_done (g : goroutine) : goroutine * option panic_value :=
  if g_done g then (g, Some close_of_closed)
  else (mkGor (g_pc g) (g_start g) (g_once g) (g_ready g) true (g_log g), None).

Definition goto (pc : gpc) (g : goroutine) : goroutine :=
  mkGor pc (g_start g) (g_once g) (g_ready g) (g_done g) (g_log g).
Definition logged (c : call) (e : ending) (g : goroutine) : goroutine :=
  mkGor (g_pc g) (g_start g) (g_once g) (g_ready g) (g_done g) (g_log g ++ [(c, e)]).

(** A panic of a deferred function replaces the one that unwinds. *)
Definition newest (q p : option panic_value) : option panic_value :=
  match q with Some _ => q | None => p end.

Definition frame : list deferred := [DReady; DGinkgoRecover; DFinalize; DDone; DOuterRecover].

(** One step of a goroutine: the input says how the current call ends, what
    [Skip] answers and what the clock shows.  [may_end] says whether the test
    may return now (see [step]). *)
(* src: test/extended/util/disruption/disruption.go 98-120 chaosMonkeyAdapter.Test *)
Definition gor_step (t : Test) (may_end : bool) (e : ending) (skip : bool) (now : time)
    (g : goroutine) (tc : ReportCase) (f : Failer) : option (goroutine * ReportCase * Failer) :=
  match g_pc g with
  | GStart =>
      let g := mkGor (g_pc g) now (g_once g) (g_ready g) (g_done g) (g_log g) in
      Some (goto (GCall (if skippable t then CSkip else CBeforeEach) frame) g, tc, f)
  | GCall c ds =>
      if match c with CTest => negb may_end | _ => false end then None
      else
        let g := logged c e g in
        let f := ending_failer e f in
        match ending_panic e, c with
        | Some p, _ => Some (goto (GUnwind (Some p) ds) g, tc, f)
        | None, CSkip =>
            if skip
            then Some (goto (GUnwind None ds) g,
                       mkCase (CName tc) (Classname tc) (CTime tc) ("skipping test " +:+ TName t)
                         (CErrors tc) (CFailures tc), f)
            else Some (goto (GCall CBeforeEach ds) g, tc, f)
        | None, CBeforeEach => Some (goto (GCall CSetup ds) g, tc, f)
        | None, CSetup => Some (goto (GReady (DTeardown :: ds)) g, tc, f)
        | None, CTest | None, CTeardown => Some (goto (GUnwind None ds) g, tc, f)
        end
  | GReady ds =>
      match ready g with
      | (g, None) => Some (goto (GCall CTest ds) g, tc, f)
      | (g, Some p) => Some (goto (GUnwind (Some p) ds) g, tc, f)
      end
  | GUnwind p (DTeardown :: ds) =>
      Some (goto (GUnwind (newest (ending_panic e) p) ds) (logged CTeardown e g), tc,
            ending_failer e f)
  | GUnwind p (DReady :: ds) =>
      let '(g, q) := ready g in Some (goto (GUnwind (newest q p) ds) g, tc, f)
  | GUnwind p (DGinkgoRecover :: ds) | GUnwind p (DOuterRecover :: ds) =>
      Some (goto (GUnwind None ds) g, tc, match p with Some _ => Failer_Panic f | None => f end)
  | GUnwind p (DFinalize :: ds) =>
      Some (goto (GUnwind None ds) g, finalizeTest (g_start g) now p tc, f)
  | GUnwind p (DDone :: ds) =>
      let '(g, q) := sem_done g in Some (goto (GUnwind (newest q p) ds) g, tc, f)
  | GUnwind p [] => None
  end.

(** ** The run *)

(** The goroutine that calls [Run]. *)
Inductive mpc :=
| MReady (i : nat)                     (* sems[i].waitForReadyOrDone() *)
| MFn                                  (* inside fn *)
| MFinalize (p : option panic_value)   (* the deferred finalizeTest of the disruption *)
| MClose                               (* about to close(stopCh) *)
| MDone (i : nat)                      (* sems[i].waitForDone() *)
| MReport                              (* the deferred function of runChaosmonkey *)
| MReturn.

Record run := mkRun {
  gors : list goroutine;
  suite : ReportSuite;        (* the case of test i is number i + 1 *)
  failer : Failer;
  stopped : bool;             (* stopCh is closed *)
  started : time;             (* start of runChaosmonkey *)
  fn_started : time;
  fn_end : option ending;
  main : mpc;
  written : option (string * ReportSuite)
}.

Definition set_cases (l : list ReportCase) (s : ReportSuite) : ReportSuite :=
  mkSuite (SName s) (SPackage s) (STests s) (SErrors s) (SFailures s) (SSkips s) (STime s) l.

Definition Unix (t : time) : Z := (t / Second - 62135596800)%Z.

(** The cases and the goroutines are made in the order of the tests; a test
    whose framework is missing panics. *)
(* src: test/extended/util/disruption/disruption.go 52-71 runChaosmonkey (registration) *)
Fixpoint register (frameworks : gmap string Framework) (tests : list Test)
  : outcome (list ReportCase) :=
  match tests with
  | [] => Ret []
  | t :: tests' =>
      match frameworks !! TName t with
      | None => Panic ("can't find test framework for " +:+ Quote (TName t))
      | Some _ =>
          match register frameworks tests' with
          | Ret l => Ret (new_case (TName t) "disruption_tests" :: l)
          | o => o
          end
      end
  end.

Definition new_goroutine : goroutine := mkGor GStart 0 false false false [].

(** [Run] up to the first wait of [Do]: goroutine [i] runs test [i]. *)
(* src: test/extended/util/disruption/disruption.go 34-44 Run *)
Definition Run (description testname : string) (tests : list Test) (now : time) : outcome run :=
  match register (createTestFrameworks tests) tests with
  | Ret cases =>
      Ret (mkRun (replicate (length tests) new_goroutine)
             (mkSuite description testname 0 0 0 0 0 (new_case testname testname :: cases))
             Failer_New false now 0 None (MReady 0) None)
  | Fail e => Fail e
  | Panic m => Panic m
  end.

Section Steps.
(** [tests]: the invariants.  [waits i]: the [Test] method of test [i] returns
    only once [StopCh] is closed.  [ReportDir]: framework.TestContext.ReportDir,
    as [filepath.Join] cleans it. *)
Context (tests : list Test) (waits : nat → bool) (ReportDir : string).

(* src: test/extended/util/disruption/disruption.go 73-86 runChaosmonkey (report) *)
Definition write_report (now : time) (created : bool) (s : run)
  : ReportSuite * option (string * ReportSuite) :=
  let t := Update (suite s) in
  let t := mkSuite (SName t) (SPackage t) (STests t) (SErrors t) (SFailures t) (SSkips t)
             (Sub now (started s)) (SCases t) in
  (t, if (String.length ReportDir =? 0)%nat || negb created then None
      else Some (ReportDir +:+ "/junit_" +:+ SPackage t +:+ "_" +:+ itoa (Unix now) +:+ ".xml", t)).

(** One step of the caller. *)
(* src: vendor/k8s.io/kubernetes/test/e2e/chaosmonkey/chaosmonkey.go 78-113 Chaosmonkey.Do *)
Definition main_step (e : ending) (now : time) (created : bool) (s : run) : option run :=
  let upd su f st fs fe m := mkRun (gors s) su f st (started s) fs fe m (written s) in
  let go m := upd (suite s) (failer s) (stopped s) (fn_started s) (fn_end s) m in
  match main s with
  | MReady i =>
      match gors s !! i with
      | Some g => if g_ready g || g_done g then Some (go (MReady (S i))) else None
      | None => Some (upd (suite s) (failer s) (stopped s) now (fn_end s) MFn)
      end
  | MFn =>
      Some (upd (suite s) (ending_failer e (failer s)) (stopped s) (fn_started s) (Some e)
              (MFinalize (ending_panic e)))
  | MFinalize p =>
      Some (upd (set_cases (alter (finalizeTest (fn_started s) now p) 0%nat (SCases (suite s)))
                   (suite s))
              (failer s) (stopped s) (fn_started s) (fn_end s) MClose)
  | MClose => Some (upd (suite s) (failer s) true (fn_started s) (fn_end s) (MDone 0))
  | MDone i =>
      match gors s !! i with
      | Some g => if g_done g then Some (go (MDone (S i))) else None
      | None => Some (go MReport)
      end
  | MReport =>
      let '(t, w) := write_report now created s in
      Some (mkRun (gors s) t (failer s) (stopped s) (started s) (fn_started s) (fn_end s) MReturn w)
  | MReturn => None
  end.

Definition test_step (i : nat) (e : ending) (skip : bool) (now : time) (s : run) : option run :=
  match tests !! i, gors s !! i, SCases (suite s) !! S i with
  | Some t, Some g, Some tc =>
      match gor_step t (stopped s || negb (waits i)) e skip now g tc (failer s) with
      | Some (g', tc', f') =>
          Some (mkRun (<[i := g']> (gors s)) (set_cases (<[S i := tc']> (SCases (suite s))) (suite s))
                  f' (stopped s) (started s) (fn_started s) (fn_end s) (main s) (written s))
      | None => None
      end
  | _, _, _ => None
  end.

Inductive action :=
| ATest (i : nat) (e : ending) (skip : bool) (now : time)
| AMain (e : ending) (now : time) (created : bool).

(* src: test/extended/util/disruption/disruption.go 46-120 runChaosmonkey, chaosMonkeyAdapter.Test *)
Definition step (a : action) (s : run) : option run :=
  match a with
  | ATest i e skip now => test_step i e skip now s
  | AMain e now created => main_step e now created s
  end.

Definition run_step (s s' : run) : Prop := ∃ a, step a s = Some s'.

Fixpoint run_schedule (l : list action) (s : run) : option run :=
  match l with
  | [] => Some s
  | a :: l' => match step a s with Some s' => run_schedule l' s' | None => None end
  end.
End Steps.

(** ** What a goroutine does *)

(** The calls of a test that has ended: [Skip] when there is one, then the
    framework, [Setup], [Test] and [Teardown], stopping at the first that does
    not return; [Teardown] follows [Test] however it ended. *)
Definition complete_body (l : list (call * ending)) : bool :=
  match l with
  | [(CBeforeEach, e)] => if ending_panic e then true else false
  | [(CBeforeEach, EReturn); (CSetup, e)] => if ending_panic e then true else false
  | [(CBeforeEach, EReturn); (CSetup, EReturn); (CTest, _); (CTeardown, _)] => true
  | _ => false
  end.

Definition complete (t : Test) (l : list (call * ending)) : bool :=
  if skippable t then
    match l with
    | [(CSkip, _)] => true
    | (CSkip, EReturn) :: l' => complete_body l'
    | _ => false
    end
  else complete_body l.

Definition pre (t : Test) : list (call * ending) := if skippable t then [(CSkip, EReturn)] else [].
Definition log_panic (l : list (call * ending)) : option panic_value :=
  fold_left (λ p ce, newest (ending_panic ce.2) p) l None.
Definition fresh (g : goroutine) : Prop := g_once g = false ∧ g_ready g = false ∧ g_done g = false.

(** What holds of a goroutine while its deferred functions run: [k] of those of
    [frame] have run. *)
Definition unwind_ok (t : Test) (g : goroutine) (p : option panic_value) (ds : list deferred) : Prop :=
  g_once g = g_ready g ∧
  ((ds = DTeardown :: frame ∧ g_ready g = true ∧ g_done g = false ∧ ∃ e,
      g_log g = pre t ++ [(CBeforeEach, EReturn); (CSetup, EReturn); (CTest, e)] ∧
      p = ending_panic e) ∨
   ∃ k, k ≤ 5 ∧ ds = drop k frame ∧ complete t (g_log g) = true ∧
     (1 ≤ k → g_ready g = true) ∧ g_done g = (4 <=? k) ∧
     p = (if 2 <=? k then None else log_panic (g_log g))).

Definition gor_ok (t : Test) (g : goroutine) : Prop :=
  match g_pc g with
  | GStart => g_log g = [] ∧ fresh g
  | GCall CSkip ds => ds = frame ∧ skippable t = true ∧ g_log g = [] ∧ fresh g
  | GCall CBeforeEach ds => ds = frame ∧ g_log g = pre t ∧ fresh g
  | GCall CSetup ds => ds = frame ∧ g_log g = pre t ++ [(CBeforeEach, EReturn)] ∧ fresh g
  | GReady ds =>
      ds = DTeardown :: frame ∧ fresh g ∧
      g_log g = pre t ++ [(CBeforeEach, EReturn); (CSetup, EReturn)]
  | GCall CTest ds =>
      ds = DTeardown :: frame ∧ g_once g = true ∧ g_ready g = true ∧ g_done g = false ∧
      g_log g = pre t ++ [(CBeforeEach, EReturn); (CSetup, EReturn)]
  | GCall CTeardown _ => False
  | GUnwind p ds => unwind_ok t g p ds
  end.

(** [Skip] was the only call, and returned. *)
Definition only_skip (l : list (call * ending)) : bool :=
  match l with [(CSkip, EReturn)] => true | _ => false end.

(** [Skip] answered true. *)
Definition skipped (g : goroutine) : bool :=
  match g_pc g with GUnwind _ _ => only_skip (g_log g) | _ => false end.

Definition case_ok (t : Test) (g : goroutine) (tc : ReportCase) : Prop :=
  CName tc = TName t ∧ Classname tc = "disruption_tests" ∧ CErrors tc = [] ∧ CFailures tc = [] ∧
  CSkipped tc = if skipped g then "skipping test " +:+ TName t else "".

Definition returned (ce : call * ending) : Prop := ce.2 = EReturn.

(** A goroutine that has passed [GinkgoRecover] without a failure of the spec
    has seen every call return. *)
Definition quiet (g : goroutine) : Prop :=
  match g_pc g with
  | GUnwind _ ds => DGinkgoRecover ∈ ds ∨ Forall returned (g_log g)
  | _ => True
  end.

Definition rank (pc : gpc) : nat :=
  match pc with
  | GStart => 12
  | GCall CSkip ds => 6 + length ds
  | GCall CBeforeEach ds => 5 + length ds
  | GCall CSetup ds => 4 + length ds
  | GCall _ ds => 1 + length ds
  | GReady ds => 2 + length ds
  | GUnwind _ ds => length ds
  end.

(** Every way a step of a goroutine can go. *)
Ltac gor_cases :=
  unfold gor_step, ready, sem_done; intros;
  repeat match goal with
  | H : context [match ?x with _ => _ end] |- _ => destruct x eqn:?; simplify_eq/=
  end.

Lemma gor_step_rank t b e sk now g tc f g' tc' f' :
  gor_step t b e sk now g tc f = Some (g', tc', f') → rank (g_pc g') < rank (g_pc g).
Proof. gor_cases; try lia; by destr_match; lia. Qed.

Lemma gor_step_mono t b e sk now g tc f g' tc' f' :
  gor_step t b e sk now g tc f = Some (g', tc', f') →
  (g_ready g = true → g_ready g' = true) ∧ (g_done g = true → g_done g' = true) ∧
  g_log g `prefix_of` g_log g'.
Proof. gor_cases; repeat split; try done; by apply prefix_app_r. Qed.

#[local] Arguments log_panic : simpl never.

Lemma log_panic_snoc l c e : log_panic (l ++ [(c, e)]) = newest (ending_panic e) (log_panic l).
Proof. unfold log_panic. by rewrite fold_left_app. Qed.

Lemma newest_None q p : newest q p = None ↔ q = None ∧ p = None.
Proof. destruct q; cbn; naive_solver. Qed.

Lemma ending_panic_None e : ending_panic e = None ↔ e = EReturn.
Proof. by destruct e. Qed.

Lemma log_panic_None l : log_panic l = None ↔ Forall returned l.
Proof.
  induction l as [|[c e] l IH] using rev_ind; [done|].
  rewrite log_panic_snoc, newest_None, ending_panic_None, IH, Forall_app, Forall_singleton.
  unfold returned. cbn. naive_solver.
Qed.

(** The parts of the invariant at a given point of the unwinding. *)
Lemma unwind_at k t g p ds :
  k ≤ 5 → ds = drop k frame → g_once g = g_ready g → complete t (g_log g) = true →
  (1 ≤ k → g_ready g = true) → g_done g = (4 <=? k) →
  p = (if 2 <=? k then None else log_panic (g_log g)) →
  unwind_ok t g p ds.
Proof. intros. split; [done|]. right. exists k. naive_solver. Qed.

Lemma unwind_test t g p ds e :
  ds = DTeardown :: frame → g_once g = true → g_ready g = true → g_done g = false →
  g_log g = pre t ++ [(CBeforeEach, EReturn); (CSetup, EReturn); (CTest, e)] →
  p = ending_panic e → unwind_ok t g p ds.
Proof. intros. split; [congruence|]. left. eauto 10. Qed.

Lemma pre_panic t : log_panic (pre t) = None.
Proof. unfold pre. by destruct (skippable t). Qed.

(** The calls before [Teardown] that do not return end the test. *)
Lemma complete_panic t e l c p :
  ending_panic e = Some p →
  (c = CSkip ∧ skippable t = true ∧ l = []) ∨ (c = CBeforeEach ∧ l = pre t) ∨
  (c = CSetup ∧ l = pre t ++ [(CBeforeEach, EReturn)]) →
  complete t (l ++ [(c, e)]) = true ∧ log_panic (l ++ [(c, e)]) = Some p.
Proof.
  intros He H. rewrite log_panic_snoc, He. split; [|done]. unfold complete, pre in *.
  destruct H as [(-> & -> & ->)|[[-> ->]|[-> ->]]]; cbn; [by destruct e|..];
    destruct (skippable t), e; done.
Qed.

(** The end of a call, by kind of call. *)
Lemma call_ok t b e sk now g tc f c ds g' tc' f' :
  g_pc g = GCall c ds →
  gor_step t b e sk now g tc f = Some (g', tc', f') → gor_ok t g → gor_ok t g'.
Proof.
  intros Hpc. unfold gor_step, gor_ok. rewrite Hpc.
  destruct (match c with CTest => negb b | _ => false end); [done|].
  intros H Hok. unfold fresh in *. destruct (ending_panic e) as [p|] eqn:He.
  - destruct c; simplify_eq/=; destruct Hok; destruct_and?.
    1-3: lazymatch goal with
      | |- context [logged ?c] =>
          destruct (complete_panic t e (g_log g) c p He) as [Hc Hp]; [naive_solver|]
      end; apply (unwind_at 0); cbn; (done || lia || congruence).
    apply (unwind_test _ _ _ _ e); cbn; try done.
    match goal with Hl : g_log g = _ |- _ => by rewrite Hl, <- app_assoc end.
  - apply ending_panic_None in He as ->.
    destruct c; try destruct sk; simplify_eq/=; destruct Hok; destruct_and?;
      repeat match goal with Hl : g_log g = _ |- _ => revert Hl end; intros Hl.
    + apply (unwind_at 0); cbn; rewrite ?Hl; try (done || lia || congruence).
      unfold complete. by destruct (skippable t) eqn:?.
    + split_and!; try done. unfold pre. rewrite Hl. by destruct (skippable t) eqn:?.
    + by rewrite Hl.
    + by rewrite Hl.
    + rewrite Hl, <- app_assoc. split_and!; (done || congruence).
    + rewrite Hl, <- app_assoc. split_and!; (done || congruence).
    + apply (unwind_test _ _ _ _ EReturn); cbn; try done. by rewrite Hl, <- app_assoc.
    + apply (unwind_test _ _ _ _ EReturn); cbn; try done. by rewrite Hl, <- app_assoc.
Qed.

Lemma complete_teardown t e e' :
  complete t (pre t ++ [(CBeforeEach, EReturn); (CSetup, EReturn); (CTest, e); (CTeardown, e')]) = true.
Proof. unfold complete, pre. by destruct (skippable t). Qed.

(** The deferred functions, one after the other. *)
Lemma unwind_step_ok t b e sk now g tc f p ds g' tc' f' :
  g_pc g = GUnwind p ds →
  gor_step t b e sk now g tc f = Some (g', tc', f') → gor_ok t g → gor_ok t g'.
Proof.
  intros Hpc. unfold gor_step, gor_ok, ready, sem_done. rewrite Hpc.
  intros H [Ho [(-> & Hr & Hd & e0 & Hl & ->)|(k & Hk & -> & Hc & Hr & Hd & ->)]].
  - simplify_eq/=. apply (unwind_at 0); cbn; try (done || lia || congruence).
    + rewrite Hl, <- app_assoc. apply complete_teardown.
    + rewrite log_panic_snoc, Hl. f_equal.
      unfold log_panic. rewrite fold_left_app. fold (log_panic (pre t)). rewrite pre_panic.
      cbn. by destruct (ending_panic e0).
  - destruct k as [|[|[|[|[|[|k]]]]]]; cbn in H, Hd; try lia; try done.
    + destruct (g_once g) eqn:Eo; rewrite <- ?Ho in *; simplify_eq/=;
        apply (unwind_at 1); cbn; (done || lia || congruence).
    + simplify_eq. apply (unwind_at 2); cbn; (done || lia || auto).
    + simplify_eq. apply (unwind_at 3); cbn; (done || lia || auto).
    + rewrite Hd in H. simplify_eq. apply (unwind_at 4); cbn; (done || lia || auto).
    + simplify_eq. apply (unwind_at 5); cbn; (done || lia || auto).
Qed.

Lemma gor_step_ok t b e sk now g tc f g' tc' f' :
  gor_step t b e sk now g tc f = Some (g', tc', f') → gor_ok t g → gor_ok t g'.
Proof.
  intros H Hok. destruct (g_pc g) as [|c ds|ds|p ds] eqn:Hpc.
  - unfold gor_step in H. unfold gor_ok in Hok. rewrite Hpc in *. simplify_eq.
    destruct Hok as [Hl Hf]. unfold gor_ok; cbn.
    destruct (skippable t) eqn:E; cbn; split_and!; try done. unfold pre. by rewrite Hl, E.
  - by eapply call_ok.
  - unfold gor_step, ready in H. unfold gor_ok in Hok. rewrite Hpc in *.
    destruct Hok as (-> & (Ho & Hr & Hd) & Hl). rewrite Ho, Hr in H. simplify_eq. done.
  - by eapply unwind_step_ok.
Qed.

Lemma only_skip_snoc l c e : c ≠ CSkip → only_skip (l ++ [(c, e)]) = false.
Proof. destruct l as [|[[] []] [|? ?]], c; done. Qed.

(** Only the answer of [Skip] changes the report of a test. *)
Lemma gor_step_case t b e sk now g tc f g' tc' f' :
  gor_step t b e sk now g tc f = Some (g', tc', f') → gor_ok t g →
  case_ok t g tc → case_ok t g' tc'.
Proof.
  intros H Hok (Hn & Hc & He & Hf & Hs). unfold gor_step, ready, sem_done in H. unfold gor_ok in Hok.
  unfold case_ok, skipped in *.
  destruct (g_pc g) as [|c ds|ds|p ds] eqn:Hpc.
  - by simplify_eq.
  - destruct (match c with CTest => negb b | _ => false end); [done|].
    destruct (decide (c = CSkip)) as [->|Hne].
    + destruct Hok as (-> & Hsk & Hl & _).
      destruct e, sk; simplify_eq/=; rewrite ?Hl; split_and!; done.
    + destruct e, c; simplify_eq/=; rewrite ?only_skip_snoc by done; split_and!; done.
  - destruct Hok as (-> & (Ho & Hr & _) & Hl). rewrite Ho, Hr in H. by simplify_eq.
  - destruct Hok as [Ho [(-> & Hr & _ & e0 & Hl & ->)|(k & Hk & -> & Hcm & Hr & Hd & ->)]].
    + simplify_eq/=. rewrite only_skip_snoc by done. split_and!; try done. rewrite Hs, Hl.
      by unfold pre; destruct (skippable t).
    + destruct k as [|[|[|[|[|[|k]]]]]]; cbn in H, Hd; try lia; try done.
      all: try (rewrite Hd in H); rewrite ?Ho in H; try (destruct (g_ready g)); by simplify_eq/=.
Qed.

(** The failure that is kept is never forgotten. *)
Lemma set_first_failed st m f : st ≠ SPassed → f_state (set_first st m f) ≠ SPassed.
Proof. intros ?. unfold set_first. by destruct (f_state f) eqn:E; rewrite ?E. Qed.

Lemma ending_failer_passed e f :
  f_state (ending_failer e f) = SPassed ↔
  f_state f = SPassed ∧ match e with EReturn | EPanic _ _ => True | _ => False end.
Proof.
  destruct e; cbn; try tauto; (split; [|tauto]); intros H; exfalso; by apply set_first_failed in H.
Qed.

Lemma ending_failer_log c e f l (Q : Prop) :
  Q →
  (f_state (ending_failer e f) = SPassed → f_state f = SPassed ∧ Q) ∧
  (f_state (ending_failer e f) ≠ SPassed → f_state f ≠ SPassed ∨ ¬ Forall returned (l ++ [(c, e)])).
Proof.
  intros HQ. rewrite ending_failer_passed, Forall_app, Forall_singleton. unfold returned. cbn.
  destruct e; naive_solver.
Qed.

(** A failure of the spec comes from a call that did not return, and such a
    call is either still unwinding or has failed the spec. *)
Lemma gor_step_failer t b e sk now g tc f g' tc' f' :
  gor_step t b e sk now g tc f = Some (g', tc', f') → gor_ok t g →
  (f_state f' = SPassed → f_state f = SPassed ∧ (quiet g → quiet g')) ∧
  (f_state f' ≠ SPassed → f_state f ≠ SPassed ∨ ¬ Forall returned (g_log g')).
Proof.
  intros H Hok. unfold gor_step, ready, sem_done in H. unfold gor_ok in Hok. unfold quiet.
  destruct (g_pc g) as [|c ds|ds|p ds] eqn:Hpc.
  - simplify_eq. cbn. destruct (skippable t); cbn; tauto.
  - destruct (match c with CTest => negb b | _ => false end); [done|].
    assert (DGinkgoRecover ∈ ds) as Hds.
    { destruct c; try done; destruct Hok as [-> _]; unfold frame; set_solver. }
    destruct (ending_panic e), c, sk; simplify_eq/=; apply ending_failer_log; auto.
  - destruct Hok as (-> & (Ho & Hr & _) & _). rewrite Ho, Hr in H. simplify_eq/=. tauto.
  - destruct Hok as [Ho [(-> & Hr & _ & e0 & Hl & ->)|(k & Hk & -> & Hcm & Hr & Hd & ->)]].
    + simplify_eq/=. apply ending_failer_log. intros _. left. unfold frame. set_solver.
    + destruct k as [|[|[|[|[|[|k]]]]]]; cbn in H, Hd; try lia; try done;
        try (rewrite Hd in H); rewrite ?Ho in H.
      * destruct (g_ready g); simplify_eq/=; (split; [split; [done|intros _; left; set_solver]|tauto]).
      * simplify_eq/=. destruct (log_panic (g_log g)) as [v|] eqn:Ep.
        -- split; [by intros ?%set_first_failed|]. intros _. right. rewrite <- log_panic_None. congruence.
        -- apply log_panic_None in Ep. tauto.
      * simplify_eq/=. split; [|tauto]. intros ?; split; [done|]. unfold frame. cbn. set_solver.
      * simplify_eq/=. split; [|tauto]. intros ?; split; [done|]. unfold frame. cbn. set_solver.
      * simplify_eq/=. split; [|tauto]. intros ?; split; [done|]. unfold frame. cbn. set_solver.
Qed.

(** ** The invariant of a run *)

Section Invariant.
Context (tests : list Test) (waits : nat → bool) (ReportDir testname : string).

Notation step := (step tests waits ReportDir).
Notation run_step := (run_step tests waits ReportDir).

Definition ready_or_done (g : goroutine) : Prop := g_ready g = true ∨ g_done g = true.

(** What the caller has waited for. *)
Definition main_ok (s : run) : Prop :=
  match main s with
  | MReady i => stopped s = false ∧ fn_end s = None ∧ Forall ready_or_done (take i (gors s))
  | MFn => stopped s = false ∧ fn_end s = None ∧ Forall ready_or_done (gors s)
  | MFinalize p =>
      stopped s = false ∧ Forall ready_or_done (gors s) ∧
      ∃ e, fn_end s = Some e ∧ p = ending_panic e
  | MClose => stopped s = false ∧ is_Some (fn_end s) ∧ Forall ready_or_done (gors s)
  | MDone i =>
      stopped s = true ∧ is_Some (fn_end s) ∧ Forall ready_or_done (gors s) ∧
      Forall (λ g, g_done g = true) (take i (gors s))
  | MReport | MReturn =>
      stopped s = true ∧ is_Some (fn_end s) ∧ Forall ready_or_done (gors s) ∧
      Forall (λ g, g_done g = true) (gors s)
  end.

(** The disruption fails the spec when it fails through ginkgo. *)
Definition fails_spec (e : ending) : bool :=
  match e with EReturn | EPanic _ _ => false | _ => true end.

Definition failer_ok (s : run) : Prop :=
  (f_state (failer s) = SPassed →
     Forall quiet (gors s) ∧ ∀ e, fn_end s = Some e → fails_spec e = false) ∧
  (f_state (failer s) ≠ SPassed →
     Exists (λ g, ¬ Forall returned (g_log g)) (gors s) ∨
     ∃ e, fn_end s = Some e ∧ fails_spec e = true).

(** The first case reports the disruption itself. *)
Definition fn_case_ok (s : run) (tc : ReportCase) : Prop :=
  match main s with
  | MReady _ | MFn | MFinalize _ => tc = new_case testname testname
  | _ => ∃ e now, fn_end s = Some e ∧
           tc = finalizeTest (fn_started s) now (ending_panic e) (new_case testname testname)
  end.

(** The counters of the suite: those of the first case, once they are set. *)
Definition counts_ok (s : run) (tc : ReportCase) : Prop :=
  match main s with
  | MReturn =>
      STests (suite s) = Z.of_nat (S (length tests)) ∧
      SErrors (suite s) = Z.of_nat (length (CErrors tc)) ∧
      SFailures (suite s) = Z.of_nat (length (CFailures tc))
  | _ => SErrors (suite s) = 0%Z ∧ SFailures (suite s) = 0%Z
  end.

Record run_ok (s : run) : Prop := {
  ok_gors : Forall2 gor_ok tests (gors s);
  ok_main : main_ok s;
  ok_failer : failer_ok s;
  ok_cases : ∃ tc cases, SCases (suite s) = tc :: cases ∧ fn_case_ok s tc ∧ counts_ok s tc ∧
    length cases = length tests ∧
    ∀ i t g c, tests !! i = Some t → gors s !! i = Some g → cases !! i = Some c → case_ok t g c
}.

Lemma Forall_set {A} (P : A → Prop) l (i : nat) x y :
  l !! i = Some x → (P x → P y) → Forall P l → Forall P (<[i := y]> l).
Proof. intros Hi HP H. apply Forall_insert; [done|]. apply HP. by eapply Forall_lookup_1. Qed.

Lemma Forall_take_set {A} (P : A → Prop) l (i n : nat) x y :
  l !! i = Some x → (P x → P y) → Forall P (take n l) → Forall P (take n (<[i := y]> l)).
Proof.
  intros Hi HP H. destruct (decide (i < n)).
  - rewrite take_insert_lt by done. apply (Forall_set _ _ _ x); [|done|done].
    by rewrite lookup_take_lt.
  - by rewrite take_insert_ge by lia.
Qed.

Lemma test_step_ok i e sk now s s' :
  test_step tests waits i e sk now s = Some s' → run_ok s → run_ok s'.
Proof.
  unfold test_step. destruct (tests !! i) as [t|] eqn:Ht; [|done].
  destruct (gors s !! i) as [g|] eqn:Hg; [|done].
  destruct (SCases (suite s) !! S i) as [c|] eqn:Hc; [|done].
  destruct gor_step as [[[g' c'] f']|] eqn:Hs; [|done]. intros [= <-] [Hgs Hm Hf Hcs].
  assert (gor_ok t g) as Hok by (by eapply Forall2_lookup_lr).
  destruct (gor_step_mono _ _ _ _ _ _ _ _ _ _ _ Hs) as (Hr & Hd & Hlog).
  assert (ready_or_done g → ready_or_done g') as Hrd by (unfold ready_or_done; tauto).
  destruct (gor_step_failer _ _ _ _ _ _ _ _ _ _ _ Hs Hok) as [Hf1 Hf2].
  split; cbn.
  - rewrite <- (list_insert_id tests i t) by done. apply Forall2_insert; [done|].
    by eapply gor_step_ok.
  - unfold main_ok in *; cbn. destruct (main s); destruct_and?; split_and!; try done;
      first [by eapply Forall_set | by eapply Forall_take_set].
  - split; cbn.
    + intros Hp. destruct (Hf1 Hp) as [Hp' Hq]. apply Hf in Hp' as [Hq' Hfn].
      split; [|done]. by eapply Forall_set.
    + intros Hp. destruct (Hf2 Hp) as [Hp'|Hn].
      * apply Hf in Hp' as [Hex|?]; [|by right]. left.
        apply Exists_exists in Hex as (g0 & Hin & Hb). apply list_elem_of_lookup in Hin as [j Hj].
        apply Exists_exists. destruct (decide (j = i)) as [->|Hne].
        -- exists g'. split; [apply list_elem_of_lookup; exists i; rewrite list_lookup_insert_eq;
             [done|by eapply lookup_lt_Some]|].
           intros Hall. apply Hb. simplify_eq. destruct Hlog as [k Hk]. rewrite Hk in Hall.
           by apply Forall_app in Hall as [? _].
        -- exists g0. split; [|done]. apply list_elem_of_lookup. exists j.
           by rewrite list_lookup_insert_ne.
      * left. apply Exists_exists. exists g'. split; [|done]. apply list_elem_of_lookup. exists i.
        rewrite list_lookup_insert_eq; [done|by eapply lookup_lt_Some].
  - destruct Hcs as (tc & cases & E & Hfn & Hn & Hl & Hcs). rewrite E in *. cbn in Hc |- *.
    exists tc, (<[i := c']> cases). split_and!; [done|done|done|by rewrite length_insert|].
    intros j t0 g0 c0 H1 H2 H3. destruct (decide (j = i)) as [->|Hne].
    + rewrite list_lookup_insert_eq in H2 by (by eapply lookup_lt_Some).
      rewrite list_lookup_insert_eq in H3 by (by eapply lookup_lt_Some). simplify_eq.
      eapply gor_step_case; eauto.
    + rewrite list_lookup_insert_ne in H2 by done. rewrite list_lookup_insert_ne in H3 by done. eauto.
Qed.

Lemma Forall_take_S {A} (P : A → Prop) l (i : nat) x :
  l !! i = Some x → P x → Forall P (take i l) → Forall P (take (S i) l).
Proof. intros Hi Hx H. rewrite (take_S_r _ _ _ Hi), Forall_app. auto. Qed.

Lemma Forall_take_all {A} (P : A → Prop) l (i : nat) :
  l !! i = None → Forall P (take i l) → Forall P l.
Proof. intros Hi%lookup_ge_None_1. by rewrite take_ge. Qed.

(** A step of the caller that leaves the goroutines and their reports alone. *)
Lemma run_ok_main s s' :
  gors s' = gors s → SCases (suite s') = SCases (suite s) →
  (∀ tc, fn_case_ok s tc → fn_case_ok s' tc) →
  (∀ tc, run_ok s → SCases (suite s) !! 0%nat = Some tc → counts_ok s tc → counts_ok s' tc) →
  (failer_ok s → failer_ok s') → main_ok s' →
  run_ok s → run_ok s'.
Proof.
  intros Hg Hc Hfn Hn Hf Hm Hok. destruct (Hok) as [Hgs _ Hf' (tc & cases & E & Ht & Hn' & Hl & Hcs)].
  split; [by rewrite Hg|done|by apply Hf|]. rewrite Hc, Hg. exists tc, cases.
  split_and!; auto. apply Hn; [done|by rewrite E|done].
Qed.

Lemma count_zero (f : ReportCase → nat) l n :
  Forall (λ c, f c = 0) l → fold_left (λ a c, (a + Z.of_nat (f c))%Z) l n = n.
Proof. intros H. revert n. induction H as [|c l Hc _ IH]; intros n; cbn; [done|]. rewrite IH. lia. Qed.

(** The reports of the tests add nothing to the counters. *)
Lemma Update_counts s tc :
  run_ok s → SCases (suite s) !! 0%nat = Some tc →
  SErrors (suite s) = 0%Z ∧ SFailures (suite s) = 0%Z →
  Z.of_nat (length (SCases (suite s))) = Z.of_nat (S (length tests)) ∧
  SErrors (Update (suite s)) = Z.of_nat (length (CErrors tc)) ∧
  SFailures (Update (suite s)) = Z.of_nat (length (CFailures tc)).
Proof.
  intros [Hgs _ _ (tc' & cases & E & _ & _ & Hl & Hcs)] Htc [He Hf]. rewrite E in Htc. simplify_eq/=.
  assert (∀ c, c ∈ cases → CErrors c = [] ∧ CFailures c = []) as Hc.
  { intros c [i Hi]%list_elem_of_lookup.
    destruct (lookup_lt_is_Some_2 tests i) as [t Ht]; [by rewrite <- Hl; eapply lookup_lt_Some|].
    destruct (Forall2_lookup_l _ _ _ _ _ Hgs Ht) as (g & Hg & _).
    by destruct (Hcs i t g c Ht Hg Hi) as (_ & _ & ? & ? & _). }
  rewrite E, He, Hf. cbn. split_and!; [by rewrite Hl|rewrite count_zero; [done|]|rewrite count_zero; [done|]];
    apply Forall_forall; intros c Hin; destruct (Hc c Hin) as [H1 H2]; by rewrite ?H1, ?H2.
Qed.

Lemma main_step_ok e now created s s' :
  main_step ReportDir e now created s = Some s' → run_ok s → run_ok s'.
Proof.
  unfold main_step. intros H Hok. pose proof (ok_main _ Hok) as Hm. unfold main_ok in Hm.
  destruct (main s) as [i| |p| |i| |] eqn:Em; destruct_and?.
  - destruct (gors s !! i) as [g|] eqn:Hg.
    + destruct (g_ready g || g_done g) eqn:Er; simplify_eq.
      apply (run_ok_main s); try done;
        [unfold fn_case_ok; by rewrite Em|unfold counts_ok; by rewrite Em|].
      split_and!; try done. eapply Forall_take_S; [done| |done]. by apply orb_true_iff in Er.
    + simplify_eq. apply (run_ok_main s); try done;
        [unfold fn_case_ok; by rewrite Em|unfold counts_ok; by rewrite Em|].
      split_and!; try done. by eapply Forall_take_all.
  - simplify_eq. apply (run_ok_main s); try done;
      [unfold fn_case_ok; by rewrite Em|unfold counts_ok; by rewrite Em| |].
    + unfold failer_ok. cbn. intros [Hq Hx]. rewrite ending_failer_passed. split.
      * intros [Hp He]. split; [by apply Hq|]. intros e' [= <-]. by destruct e.
      * intros Hp. destruct (fails_spec e) eqn:Ee; [eauto|]. left.
        destruct Hx as [?|(? & ? & _)]; [|done|congruence].
        intros Hp'. apply Hp. split; [done|]. by destruct e.
    + split_and!; try done. by exists e.
  - simplify_eq. destruct_and?.
    match goal with He : ∃ _, _ |- _ => destruct He as (e0 & He & ->) end.
    destruct Hok as [Hgs _ Hf (tc & cases & E & Ht & Hn & Hl & Hcs)].
    split; cbn; [done|split_and!; try done; by eexists|done|].
    unfold fn_case_ok, counts_ok in *. rewrite Em in Ht, Hn. subst tc. rewrite E. cbn.
    do 2 eexists. split; [done|]. split; [by exists e0, now|done].
  - simplify_eq. apply (run_ok_main s); try done; 
      first [unfold fn_case_ok, counts_ok; by rewrite Em|by split_and!].
  - destruct (gors s !! i) as [g|] eqn:Hg.
    + destruct (g_done g) eqn:Er; simplify_eq.
      apply (run_ok_main s); try done;
        [unfold fn_case_ok; by rewrite Em|unfold counts_ok; by rewrite Em|].
      split_and!; try done. by eapply Forall_take_S.
    + simplify_eq. apply (run_ok_main s); try done;
        [unfold fn_case_ok; by rewrite Em|unfold counts_ok; by rewrite Em|].
      split_and!; try done. by eapply Forall_take_all.
  - cbn in H. simplify_eq. apply (run_ok_main s); try done; [unfold fn_case_ok; by rewrite Em|].
    intros tc Hok' Htc Hn. unfold counts_ok in *. rewrite Em in Hn. cbn. by apply Update_counts.
  - done.
Qed.

Lemma step_ok s s' : run_step s s' → run_ok s → run_ok s'.
Proof. intros [[i e sk now|e now created] H]; [by eapply test_step_ok|by eapply main_step_ok]. Qed.
End Invariant.

(** ** The start of a run *)

Lemma frameworks_lookup tests t : t ∈ tests → is_Some (createTestFrameworks tests !! TName t).
Proof.
  unfold createTestFrameworks. generalize (∅ : gmap string Framework).
  assert (∀ l (m : gmap string Framework) k, is_Some (m !! k) →
    is_Some (fold_left (λ m t, <[TName t := mkFramework (base_name t) 20 50]> m) l m !! k)) as Hkeep.
  { induction l as [|u l IH]; intros m k Hk; cbn; [done|]. apply IH.
    destruct (decide (TName u = k)) as [->|?]; [by rewrite lookup_insert_eq|by rewrite lookup_insert_ne]. }
  induction tests as [|u tests IH]; intros m Ht; [by apply elem_of_nil in Ht|].
  apply elem_of_cons in Ht as [->|Ht]; cbn; [|by apply IH].
  apply Hkeep. by rewrite lookup_insert_eq.
Qed.

Definition test_case (t : Test) : ReportCase := new_case (TName t) "disruption_tests".

Lemma register_all frameworks tests :
  (∀ t, t ∈ tests → is_Some (frameworks !! TName t)) →
  register frameworks tests = Ret (map test_case tests).
Proof.
  induction tests as [|t tests IH]; intros H; cbn; [done|].
  destruct (H t) as [f ->]; [left|]. rewrite IH; [done|]. intros u Hu. apply H. by right.
Qed.

(** The run that [Run] starts. *)
Definition start (description testname : string) (tests : list Test) (now : time) : run :=
  mkRun (replicate (length tests) new_goroutine)
    (mkSuite description testname 0 0 0 0 0 (new_case testname testname :: map test_case tests))
    Failer_New false now 0 None (MReady 0) None.

Lemma Run_starts description testname tests now :
  Run description testname tests now = Ret (start description testname tests now).
Proof. unfold Run. rewrite register_all; [done|]. apply frameworks_lookup. Qed.

Lemma start_ok description testname tests now :
  run_ok tests testname (start description testname tests now).
Proof.
  split; cbn.
  - apply Forall2_replicate_r; [done|]. apply Forall_true. done.
  - done.
  - split; cbn; [|done]. intros _. split; [|done]. by apply Forall_replicate.
  - do 2 eexists. do 3 (split; [done|]). split; [by rewrite length_map|].
    intros i t g c Ht [-> _]%lookup_replicate. rewrite list_lookup_fmap, Ht. by intros [= <-].
Qed.

Section Theorems.
Context (tests : list Test) (waits : nat → bool) (ReportDir description testname : string).

Notation run_step := (run_step tests waits ReportDir).

(** The states a run goes through. *)
Definition reachable (s : run) : Prop :=
  ∃ now s0, Run description testname tests now = Ret s0 ∧ rtc run_step s0 s.

Lemma reachable_ok s : reachable s → run_ok tests testname s.
Proof.
  intros (now & s0 & H & Hr). rewrite Run_starts in H. simplify_eq.
  eapply rtc_preserve; [|done|apply start_ok]. intros. by eapply step_ok.
Qed.

(** Once a goroutine has closed its doneCh, only the outer recovery is left. *)
Lemma done_unwound t g :
  gor_ok t g → g_done g = true →
  complete t (g_log g) = true ∧ ∃ k, (k = 4 ∨ k = 5) ∧ g_pc g = GUnwind None (drop k frame).
Proof.
  intros Hok Hd. unfold gor_ok, fresh in Hok.
  destruct (g_pc g) as [|[] ds|ds|p ds]; destruct_and?; try congruence; [done|].
  destruct Hok as [_ [(_ & _ & ? & _)|(k & Hk & -> & Hc & _ & Hk' & ->)]]; [congruence|].
  rewrite Hd in Hk'. symmetry in Hk'. apply Nat.leb_le in Hk'. split; [done|].
  assert (k = 4 ∨ k = 5) as [-> | ->] by lia; eauto.
Qed.

Lemma ended_unwound s i g :
  reachable s → main s = MReport ∨ main s = MReturn → gors s !! i = Some g →
  ∃ t, tests !! i = Some t ∧ g_done g = true ∧ complete t (g_log g) = true ∧
    ∃ k, (k = 4 ∨ k = 5) ∧ g_pc g = GUnwind None (drop k frame).
Proof.
  intros Hr E Hg. apply reachable_ok in Hr as [Hgs Hm _ _].
  destruct (Forall2_lookup_r _ _ _ _ _ Hgs Hg) as (t & Ht & Hok). exists t. split; [done|].
  assert (g_done g = true) as Hd.
  { unfold main_ok in Hm. destruct E as [E|E]; rewrite E in Hm; destruct Hm as (_ & _ & _ & H);
      by eapply (Forall_lookup_1 _ _ _ _ H). }
  split; [done|]. by apply done_unwound.
Qed.

(** C24: the disruption runs only once every invariant test has signalled that
    it is ready or has ended; the tests are told to stop only after it has
    ended, however it ended; and [Run] writes its report only after every test
    has ended, having made its calls in order: [Teardown] after [Test] however
    it ended, and only then. *)
Theorem disruption_barrier s :
  reachable s →
  (main s = MFn → ∀ i g, gors s !! i = Some g → g_ready g = true ∨ g_done g = true) ∧
  (stopped s = true → is_Some (fn_end s)) ∧
  (main s = MReport ∨ main s = MReturn →
    length (gors s) = length tests ∧
    ∀ i g, gors s !! i = Some g →
      ∃ t, tests !! i = Some t ∧ g_done g = true ∧ complete t (g_log g) = true).
Proof.
  intros Hr. split_and!.
  - intros E i g Hg. apply reachable_ok in Hr as [_ Hm _ _]. unfold main_ok in Hm. rewrite E in Hm.
    destruct Hm as (_ & _ & H). by apply (Forall_lookup_1 _ _ _ _ H Hg).
  - intros E. apply reachable_ok in Hr as [_ Hm _ _]. unfold main_ok in Hm.
    destruct (main s); destruct_and?; done || congruence.
  - intros E. split.
    + apply reachable_ok in Hr as [Hgs _ _ _]. symmetry. by eapply Forall2_length.
    + intros i g Hg. destruct (ended_unwound s i g Hr E Hg) as (t & ? & ? & ? & _). eauto.
Qed.

(** At the end every goroutine has recovered its panics. *)
Lemma returned_quiet s g :
  reachable s → main s = MReturn → g ∈ gors s → quiet g ↔ Forall returned (g_log g).
Proof.
  intros Hr E [i Hg]%list_elem_of_lookup.
  destruct (ended_unwound s i g Hr (or_intror E) Hg) as (t & _ & _ & _ & k & Hk & Hpc).
  unfold quiet. rewrite Hpc. destruct Hk as [-> | ->]; unfold frame; cbn; set_solver.
Qed.

Lemma verdict_passed s :
  reachable s → main s = MReturn →
  f_state (failer s) = SPassed ↔
  (∀ i g c e, gors s !! i = Some g → (c, e) ∈ g_log g → e = EReturn) ∧
  ∃ e, fn_end s = Some e ∧ fails_spec e = false.
Proof.
  intros Hr E. pose proof (λ g, returned_quiet s g Hr E) as Hq.
  apply reachable_ok in Hr as [_ Hm [Hf1 Hf2] _].
  unfold main_ok in Hm. rewrite E in Hm. destruct Hm as (_ & [e He] & _).
  split.
  - intros Hp. destruct (Hf1 Hp) as [H1 H2]. split; [|by eauto].
    intros i g c e' Hg Hce. apply list_elem_of_lookup_2 in Hg as Hin.
    rewrite Forall_forall in H1. specialize (H1 _ Hin). apply (Hq _ Hin) in H1.
    rewrite Forall_forall in H1. by apply (H1 _ Hce).
  - intros [H1 (e' & He' & H2)]. destruct (decide (f_state (failer s) = SPassed)) as [|Hn]; [done|].
    destruct (Hf2 Hn) as [Hex|(? & ? & ?)]; [|congruence].
    apply Exists_exists in Hex as (g & [i Hg]%list_elem_of_lookup & Hb).
    destruct Hb. apply Forall_forall. intros [c e0] Hin. by eapply H1.
Qed.

(** A run passes exactly when every call of every invariant test returned
    and the disruption did not fail through ginkgo.  (A plain panic of the
    disruption does not fail the spec.) *)
Theorem disruption_verdict s :
  reachable s → main s = MReturn →
  f_state (failer s) = SPassed ↔
  (∀ i g c e, gors s !! i = Some g → (c, e) ∈ g_log g → e = EReturn) ∧
  ∃ e, fn_end s = Some e ∧ fails_spec e = false.
Proof. apply verdict_passed. Qed.

(** C27: whatever the invariant tests did, the report of [Run] shows no failure
    and no error for them, only the ones that were skipped: GinkgoRecover has
    taken their panics before they are examined.  The first case and the
    counters tell how the disruption ended. *)
Theorem disruption_report s :
  reachable s → main s = MReturn →
  ∃ e now tc cases, fn_end s = Some e ∧ SCases (suite s) = tc :: cases ∧
    tc = finalizeTest (fn_started s) now (ending_panic e) (new_case testname testname) ∧
    STests (suite s) = Z.of_nat (S (length tests)) ∧
    SErrors (suite s) = Z.of_nat (length (CErrors tc)) ∧
    SFailures (suite s) = Z.of_nat (length (CFailures tc)) ∧
    length cases = length tests ∧
    ∀ i t g c, tests !! i = Some t → gors s !! i = Some g → cases !! i = Some c →
      CName c = TName t ∧ CErrors c = [] ∧ CFailures c = [] ∧
      CSkipped c = if only_skip (g_log g) then "skipping test " +:+ TName t else "".
Proof.
  intros Hr E. pose proof (λ i g, ended_unwound s i g Hr (or_intror E)) as Hu.
  apply reachable_ok in Hr as [_ _ _ (tc & cases & Hc & Hfn & Hn & Hl & Hcs)].
  unfold fn_case_ok, counts_ok in *. rewrite E in Hfn, Hn. destruct Hfn as (e & now & He & Ht).
  exists e, now, tc, cases. destruct_and?. split_and!; try done.
  intros i t g c Hi Hg Hc'. destruct (Hcs i t g c Hi Hg Hc') as (? & _ & ? & ? & Hs).
  split_and!; try done. rewrite Hs. unfold skipped.
  by destruct (Hu i g Hg) as (? & _ & _ & _ & k & _ & ->).
Qed.

(** *** Every run ends *)

Definition main_rank (n : nat) (m : mpc) : nat :=
  match m with
  | MReady i => (n - i) + (n + 6)
  | MFn => n + 5
  | MFinalize _ => n + 4
  | MClose => n + 3
  | MDone i => (n - i) + 2
  | MReport => 1
  | MReturn => 0
  end.

Definition measure (s : run) : nat :=
  sum_list_with (λ g, rank (g_pc g)) (gors s) + main_rank (length (gors s)) (main s).

Lemma run_step_measure a s s' : step tests waits ReportDir a s = Some s' → measure s' < measure s.
Proof.
  unfold measure. destruct a as [i e sk now|e now created]; cbn.
  - unfold test_step. destruct (tests !! i) as [t|]; [|done].
    destruct (gors s !! i) as [g|] eqn:Hg; [|done].
    destruct (SCases (suite s) !! S i) as [c|]; [|done].
    destruct gor_step as [[[g' c'] f']|] eqn:Hs; [|done]. intros [= <-]. cbn.
    rewrite length_insert. apply gor_step_rank in Hs.
    pose proof (sum_list_insert (λ g, rank (g_pc g)) _ _ _ g' Hg) as H. cbn in H. lia.
  - unfold main_step. destruct (main s) as [i| |p| |i| |]; intros H; repeat destr_match; simplify_eq/=;
      try match goal with Hg : gors s !! i = Some _ |- _ => apply lookup_lt_Some in Hg end; lia.
Qed.

Lemma gor_progress t b g tc f :
  gor_ok t g → gor_step t b EReturn false 0 g tc f = None →
  g_pc g = GUnwind None [] ∨ (b = false ∧ g_ready g = true).
Proof.
  intros Hok H. unfold gor_step in H. unfold gor_ok in Hok.
  destruct (g_pc g) as [|c ds|ds|p ds] eqn:Hpc.
  - done.
  - destruct (match c with CTest => negb b | _ => false end) eqn:E; [|destruct c; simplify_eq/=; done].
    destruct c, b; try done. destruct_and?. auto.
  - by destruct (ready g) as [? []].
  - destruct Hok as [_ [(-> & _)|(k & Hk & -> & _ & _ & _ & ->)]]; [done|].
    destruct k as [|[|[|[|[|[|k]]]]]]; cbn in H; try lia;
      try destruct (ready g); try destruct (sem_done g); done || auto.
Qed.

Lemma finished_done t g : gor_ok t g → g_pc g = GUnwind None [] → g_done g = true.
Proof.
  unfold gor_ok. intros Hok Hpc. rewrite Hpc in Hok.
  destruct Hok as [_ [(? & _)|(k & Hk & Hf & _ & _ & -> & _)]]; [done|].
  by destruct k as [|[|[|[|[|k]]]]].
Qed.

(** C25: every run ends.  A schedule has at most 14 steps for each invariant test
    and 6 more, and a state in which nothing can move is one where [Run] has
    returned and every goroutine is finished: no wait of the chaos monkey
    blocks for ever, even when tests panic before they are ready or wait for the
    stop. *)
Theorem disruption_ends now s0 :
  Run description testname tests now = Ret s0 →
  (∀ l s, run_schedule tests waits ReportDir l s0 = Some s → length l ≤ 14 * length tests + 6) ∧
  (∀ s, rtc run_step s0 s → (∀ a, step tests waits ReportDir a s = None) →
     main s = MReturn ∧ Forall (λ g, g_pc g = GUnwind None []) (gors s)).
Proof.
  intros H0. split.
  - intros l s Hl. assert (length l + measure s ≤ measure s0) as Hm.
    { clear H0. revert s0 Hl. induction l as [|a l IH]; intros s0 Hl; simplify_eq/=; [done|].
      destruct step as [s1|] eqn:E; [|done]. apply IH in Hl. apply run_step_measure in E. lia. }
    rewrite Run_starts in H0. simplify_eq. unfold measure in Hm at 2. cbn in Hm.
    rewrite length_replicate in Hm.
    assert (∀ n, sum_list_with (λ g, rank (g_pc g)) (replicate n new_goroutine) = 12 * n) as Hr
      by (induction n as [|n IH]; cbn in *; lia).
    rewrite Hr in Hm. lia.
  - intros s Hr Hstuck. assert (reachable s) as Hs by (by exists now, s0).
    pose proof (reachable_ok s Hs) as [Hgs Hm _ (tc & cases & Hc & _ & _ & Hl & _)].
    assert (∀ i g, gors s !! i = Some g →
              (g_pc g = GUnwind None [] ∧ g_done g = true) ∨
              (stopped s = false ∧ g_ready g = true)) as Hg.
    { intros i g Hg. destruct (Forall2_lookup_r _ _ _ _ _ Hgs Hg) as (t & Ht & Hok).
      destruct (lookup_lt_is_Some_2 cases i) as [c Hci]; [rewrite Hl; by eapply lookup_lt_Some|].
      specialize (Hstuck (ATest i EReturn false 0%Z)). cbn in Hstuck. unfold test_step in Hstuck.
      rewrite Ht, Hg, Hc in Hstuck.
      change ((tc :: cases) !! S i) with (cases !! i) in Hstuck. rewrite Hci in Hstuck.
      destruct gor_step as [[[? ?] ?]|] eqn:Hgs'; [done|].
      destruct (gor_progress _ _ _ _ _ Hok Hgs') as [Hpc|[Hb ?]];
        [left; split; [done|by eapply finished_done]|right].
      apply orb_false_iff in Hb as [? _]. done. }
    specialize (Hstuck (AMain EReturn 0%Z true)). cbn in Hstuck.
    unfold main_step, main_ok in *. destruct (main s) as [i| |p| |i| |] eqn:Em; try done.
    + destruct (gors s !! i) as [g|] eqn:Hi; [|done].
      destruct (g_ready g || g_done g) eqn:Er; [done|]. apply orb_false_iff in Er as [? ?].
      destruct (Hg i g Hi) as [[_ ?]|[_ ?]]; congruence.
    + destruct (gors s !! i) as [g|] eqn:Hi; [|done]. destruct (g_done g) eqn:Er; [done|].
      destruct Hm as [? _]. destruct (Hg i g Hi) as [[_ ?]|[? _]]; congruence.
    + split; [done|]. apply Forall_lookup. intros i g Hi. destruct Hm as [? _].
      destruct (Hg i g Hi) as [[? _]|[? _]]; [done|congruence].
Qed.
End Theorems.

Lemma schedule_steps tests waits dir l s s' :
  run_schedule tests waits dir l s = Some s' → rtc (run_step tests waits dir) s s'.
Proof.
  revert s. induction l as [|a l IH]; intros s; cbn; [by intros [= ->]|].
  destruct step eqn:E; [|done]. intros H. eapply rtc_l; [by exists a|by apply IH].
Qed.

(** A schedule leads to a reachable state. *)
Lemma run_reachable tests waits dir description testname now l s :
  run_schedule tests waits dir l (start description testname tests now) = Some s →
  reachable tests waits dir description testname s.
Proof.
  intros H. exists now. eexists. split; [apply Run_starts|by eapply schedule_steps].
Qed.

(** ** An example

    Two invariants: the first fails during the disruption, the second is
    skipped. *)

Module Example.
Definition tests : list Test :=
  [mkTest "service-upgrade [late]" "k8s.io/kubernetes/test/e2e/upgrades" false;
   mkTest "control-plane" "upgrade/controlplane" true].
Definition waits (i : nat) : bool := true.

Definition returns (i : nat) : action := ATest i EReturn false 0.
Definition caller (e : ending) : action := AMain e 0 true.

(** Both tests up to the point where they are ready. *)
Definition prepare : list action :=
  [returns 0; returns 0; returns 0; returns 0; ATest 1 EReturn false 0; ATest 1 EReturn true 0;
   returns 1; caller EReturn; caller EReturn; caller EReturn].
Definition unwind (i n : nat) : list action := replicate n (returns i).
Definition finish : list action :=
  [caller EReturn; caller EReturn; ATest 0 (EFail "service is down" "stack") false 0]
  ++ unwind 0 6 ++ unwind 1 4 ++ replicate 4 (caller EReturn).

Definition schedule (fn : ending) : list action := prepare ++ [caller fn] ++ finish.

Definition outcome_of (s : run) : mpc * SpecState * list nat * list string :=
  (main s, f_state (failer s), map (λ c, length (CFailures c)) (SCases (suite s)),
   map CSkipped (SCases (suite s))).

(** The failure reaches the spec and not the report. *)
Lemma failure_lost :
  outcome_of <$> run_schedule tests waits "/tmp" (schedule EReturn)
                   (start "Cluster upgrade" "upgrade" tests 0) =
  Some (MReturn, SFailed, [0; 0; 0], [""; ""; "skipping test control-plane"]).
Proof. vm_compute. reflexivity. Qed.

Definition final : run :=
  default (start "Cluster upgrade" "upgrade" tests 0)
    (run_schedule tests waits "/tmp" (schedule EReturn) (start "Cluster upgrade" "upgrade" tests 0)).

Lemma final_run :
  run_schedule tests waits "/tmp" (schedule EReturn) (start "Cluster upgrade" "upgrade" tests 0) = Some final.
Proof. vm_compute. reflexivity. Qed.

Lemma final_reachable : reachable tests waits "/tmp" "Cluster upgrade" "upgrade" final.
Proof.
  apply (run_reachable _ _ _ _ _ 0 (schedule EReturn)). apply final_run.
Qed.

Lemma final_main : main final = MReturn.
Proof. vm_compute. reflexivity. Qed.
End Example.

Lemma disruption_barrier_witness :
  stopped Example.final = true ∧ is_Some (fn_end Example.final) ∧
  length (gors Example.final) = 2.
Proof.
  assert (stopped Example.final = true) as Hs by (vm_compute; reflexivity).
  destruct (disruption_barrier _ _ _ _ _ _ Example.final_reachable) as (_ & H1 & H2).
  split; [exact Hs|]. split; [exact (H1 Hs)|]. exact (proj1 (H2 (or_intror Example.final_main))).
Defined.

Lemma disruption_verdict_witness :
  ¬ ((∀ i g c e, gors Example.final !! i = Some g → (c, e) ∈ g_log g → e = EReturn) ∧
     ∃ e, fn_end Example.final = Some e ∧ fails_spec e = false).
Proof.
  intros H. apply (disruption_verdict _ _ _ _ _ _ Example.final_reachable Example.final_main) in H.
  vm_compute in H. discriminate H.
Defined.

Lemma disruption_report_witness :
  ∃ tc cases, SCases (suite Example.final) = tc :: cases ∧ length cases = 2 ∧
    STests (suite Example.final) = 3%Z.
Proof.
  destruct (disruption_report _ _ _ _ _ _ Example.final_reachable Example.final_main)
    as (e & now & tc & cases & _ & H1 & _ & H2 & _ & _ & H3 & _).
  exists tc, cases. split; [exact H1|]. split; [exact H3|exact H2].
Defined.

Lemma disruption_ends_witness :
  length (Example.schedule EReturn) ≤ 34.
Proof.
  apply (proj1 (disruption_ends Example.tests Example.waits "/tmp" "Cluster upgrade" "upgrade" 0
                  (start "Cluster upgrade" "upgrade" Example.tests 0) (Run_starts _ _ _ _))
           (Example.schedule EReturn) Example.final).
  exact Example.final_run.
Defined.
