(* ===== verification/UpgradeSpec.v ===== *)
(** * test/e2e/upgrade/upgrade.go: the spec of the upgrade

    The body of the spec puts the parts together: the context of the upgrade
    (Upgrade), then the upgrade itself as the disruption of a run of the
    invariant tests (Disruption).  The world of the upgrade is what its client
    sees; what the invariant tests do to it is in the answers of the client. *)

From S2P Require Import Prelude.
From S2P Require Import GoStrings.
From S2P Require Import GoLib.
From S2P Require Import KubeTypes.
From S2P Require Import TestCase.
From S2P Require Import Upgrade.
From S2P Require Import Disruption.

Section Spec.
Context `{R : Rendering} {W : Type} (c : client W) (parse : string → string + error).
(** [policy]: upgradeAbortAt; [rand]: what [rand.Int31n] gives. *)
Context (policy rand : Z).

(** [framework.ExpectNoError(err, explain)]: a Gomega assertion. *)
Definition ExpectNoError (err : option error) (explain : string) : ending :=
  match err with
  | None => EReturn
  | Some e => EGinkgoFail (explain +:+ nl +:+ err_msg e) ""
  end.

(** The function given to [disruption.Run]; the context may hold one version
    only. *)
(* src: test/e2e/upgrade/upgrade.go 129-131 Cluster upgrade (disruption) *)
Definition upgrade_fn (vs : list VersionContext) : W → ending * W := λ w,
  match vs !! 1 with
  | None => (EPanic "runtime error: index out of range" "", w)
  | Some v =>
      match clusterUpgrade c policy rand v w with
      | (Ret tt, w') => (ExpectNoError None "during upgrade", w')
      | (Fail e, w') => (ExpectNoError (Some e) "during upgrade", w')
      | (Panic m, w') => (EPanic m "", w')
      end
  end.

Inductive spec_end :=
| Early (e : ending)                             (* the body ended before Run *)
| RanWith (vs : list VersionContext) (e : ending).   (* Run was called; how fn ended *)

(** [clients]: how loading the configuration and making the clients ended. *)
(* src: test/e2e/upgrade/upgrade.go 112-133 Cluster upgrade *)
Definition upgrade_It (clients : ending) (target image : string) : W → spec_end * W := λ w,
  match clients with
  | EReturn =>
      match getUpgradeContext c parse target image w with
      | (Ret vs, w1) => let '(e, w') := upgrade_fn vs w1 in (RanWith vs e, w')
      | (Fail e, w1) =>
          (Early (ExpectNoError (Some e) ("determining what to upgrade to version=" +:+ target
                                          +:+ " image=" +:+ image)), w1)
      | (Panic m, w1) => (Early (EPanic m ""), w1)
      end
  | e => (Early e, w)
  end.

Lemma upgrade_fn_returns vs w e w' :
  upgrade_fn vs w = (e, w') → fails_spec e = false →
  (∃ v, vs !! 1 = Some v ∧ e = EReturn ∧ clusterUpgrade c policy rand v w = (Ret tt, w')) ∨
  ∃ m, e = EPanic m "".
Proof.
  unfold upgrade_fn. destruct (vs !! 1) as [v|]; [|intros [= <- <-] _; eauto].
  destruct (clusterUpgrade c policy rand v w) as [[[]|err|m] w1] eqn:E; intros [= <- <-] H;
    [left; eauto|done|right; eauto].
Qed.

Lemma context_untargeted w vs w' :
  getUpgradeContext c parse "" "" w = (Ret vs, w') → ∃ cur, vs = [cur].
Proof.
  unfold getUpgradeContext. cbn [String.eqb]. intros H.
  apply gobind_Ret_inv in H as (cv & w1 & _ & H).
  destruct (upgrade_refused cv); [done|]. destruct (latestCompleted (History cv)) as [cur|]; [|done].
  apply gobind_Ret_inv in H as (v & w2 & _ & H). cbn in H. unfold ret in H. simplify_eq. eauto.
Qed.

(** C26: when the spec of the upgrade passes, every call of every invariant test
    returned, and either [clusterUpgrade] ran with the second version of the
    context and ended well, or it panicked.  Ending well means, unless it was a
    dry run, that a cluster version was read during the run that had completed
    the update to that second version, or, after the operators had reached the
    abort percentage, the update back to the image the run began with.  With
    neither a target nor an image the spec always panics, since the context has
    no second version. *)
Theorem upgrade_spec_passed tests waits dir target image w vs e w' s :
  upgrade_It EReturn target image w = (RanWith vs e, w') →
  reachable tests waits dir "Cluster upgrade" "upgrade" s →
  main s = MReturn → fn_end s = Some e → f_state (failer s) = SPassed →
  (∀ i g k e', gors s !! i = Some g → (k, e') ∈ g_log g → e' = EReturn) ∧
  ((∃ v w1, e = EReturn ∧
      getUpgradeContext c parse target image w = (Ret vs, w1) ∧ vs !! 1 = Some v ∧
      clusterUpgrade c policy rand v w1 = (Ret tt, w') ∧
      (NodeImage v = "[pause]"%string ∨
       ∃ cv0 wa wb w2 cv w3, get_cv c w1 = (Ret cv0, wa) ∧ rtc (client_step c) wa wb ∧
         rtc (client_step c) wb w2 ∧ get_cv c w2 = (Ret cv, w3) ∧
         rtc (client_step c) w3 w' ∧
         (at_version cv (mkUpdate (Version v) (NodeImage v) true) ∨
          told_to_abort c policy rand (UVersion (CVDesired cv0)) wb w2 ∧
          at_version cv (mkUpdate "" (UImage (CVDesired cv0)) true)))) ∨
   ∃ m, e = EPanic m "") ∧
  (target = "" → image = "" → e = EPanic "runtime error: index out of range" "").
Proof.
  intros Hit Hr Hm He Hp. unfold upgrade_It in Hit.
  destruct (getUpgradeContext c parse target image w) as [[vs'|?|?] w1] eqn:Ec; [|done|done].
  destruct (upgrade_fn vs' w1) as [e1 w2] eqn:Ef. simplify_eq.
  apply (verdict_passed _ _ _ _ _ _ Hr Hm) in Hp as [Hall (e' & He' & Hf)]. simplify_eq.
  split; [done|]. split.
  - destruct (upgrade_fn_returns _ _ _ _ Ef Hf) as [(v & Hv & -> & Hu)|Hpan]; [left|by right].
    exists v, w1. split_and!; try done.
    destruct (decide (NodeImage v = "[pause]"%string)) as [Hn|Hn]; [by left|right].
    destruct (clusterUpgrade_Ret c _ _ _ _ _ Hu Hn)
      as (w2 & w3 & (cv0 & wa & up & wb & w4 & cv & H1 & H2 & H3 & H4 & H5) & Hs & Hw).
    exists cv0, wa, wb, w4, cv, w2. split_and!; try done.
    + apply rtc_once. by eapply step_update_cv.
    + etrans; [done|]. by eapply wait_pools_steps.
  - intros -> ->. apply context_untargeted in Ec as [cur ->]. unfold upgrade_fn in Ef.
    cbn in Ef. by simplify_eq.
Qed.
End Spec.

(** ** Two runs with one invariant, which is skipped *)

#[local] Existing Instance plain.

Definition one_test : list Test := [mkTest "control-plane" "upgrade/controlplane" true].
Definition ending_schedule (e : ending) : list action :=
  replicate 3 (ATest 0 EReturn true 0) ++ replicate 2 (AMain EReturn 0 true)
  ++ [AMain e 0 true] ++ replicate 4 (ATest 0 EReturn true 0)
  ++ replicate 5 (AMain EReturn 0 true).

Definition spec_start : run := start "Cluster upgrade" "upgrade" one_test 0.
Definition spec_run (e : ending) : run :=
  default spec_start (run_schedule one_test (λ _, true) "" (ending_schedule e) spec_start).

Lemma spec_reachable e :
  is_Some (run_schedule one_test (λ _, true) "" (ending_schedule e) spec_start) →
  reachable one_test (λ _, true) "" "Cluster upgrade" "upgrade" (spec_run e).
Proof.
  intros [r Hr]. apply (run_reachable _ _ _ _ _ 0 (ending_schedule e)). unfold spec_run.
  fold spec_start. by rewrite Hr.
Qed.

(** An upgrade to the version asked for: the spec passes. *)
Example upgrade_spec_passed_witness :
  ∃ w', upgrade_It toy (λ v, inl v) 0 0 EReturn "4.2" "img2" healthy =
    (RanWith [mkVC "4.1" "img1"; mkVC "4.2" "img2"] EReturn, w') ∧
  ∃ cv, at_version cv (mkUpdate "4.2" "img2" true) ∨ at_version cv (mkUpdate "" "img1" true).
Proof.
  destruct (upgrade_It toy (λ v, inl v) 0 0 EReturn "4.2" "img2" healthy) as [o w'] eqn:Eu.
  pose proof (f_equal fst Eu) as Eo. vm_compute in Eo. subst o. exists w'. split; [done|].
  destruct (upgrade_spec_passed toy (λ v, inl v) 0 0 one_test (λ _, true) "" "4.2" "img2" healthy
    [mkVC "4.1" "img1"; mkVC "4.2" "img2"] EReturn w' (spec_run EReturn) Eu)
    as (_ & [(v & w1 & _ & Hc & Hv & _ & Hd)|(m & Hm)] & _);
    [apply spec_reachable, (bool_decide_unpack _); vm_compute; exact I|vm_compute; reflexivity..| |done].
  cbn in Hv. injection Hv as <-. destruct Hd as [?|(cv0 & wa & wb & w2 & cv & w3 & H0 & _ & _ & _ & _ & H)];
    [done|]. exists cv. destruct H as [H|[_ H]]; [by left|right].
  vm_compute in Hc. injection Hc as <-. vm_compute in H0. by injection H0 as <- <-.
Defined.

(** An upgrade without a target: the disruption panics, its recovery keeps the
    panic to the report, and the spec passes. *)
Example untargeted_passes :
  let panic := EPanic "runtime error: index out of range" "" in
  (upgrade_It toy (λ v, inl v) 0 0 EReturn "" "" healthy).1 = RanWith [mkVC "4.1" "img1"] panic ∧
  main (spec_run panic) = MReturn ∧ fn_end (spec_run panic) = Some panic ∧
  f_state (failer (spec_run panic)) = SPassed.
Proof. split_and!; vm_compute; reflexivity. Qed.
