(* ===== verification/Builds.v ===== *)
(** * test/extended/util/framework.go: starting a build and waiting for it

    [oc start-build] and the builds of the namespace are operations over a world
    [W]; the [BuildResult] the functions fill in is part of the state, since the
    conditions of the wait are closures that write to it. *)

From S2P Require Import Prelude.
From S2P Require Import GoStrings.
From S2P Require Import GoLib.

(** The name and the phase of a buildv1.Build. *)
Record Build := mkBuild { BName : string; BPhase : string }.

(* src: test/extended/util/framework.go 639-669 BuildResult *)
Record BuildResult := mkResult {
  BuildPath : string;
  BuildName : string;
  StartBuildStdErr : string;
  StartBuildStdOut : string;
  StartBuildErr : option error;
  TheBuild : option Build;          (* Build *)
  BuildAttempt : bool;
  BuildSuccess : bool;
  BuildFailure : bool;
  BuildCancelled : bool;
  BuildTimeout : bool
}.

(* src: test/extended/util/framework.go 631-637 NewBuildResult *)
Definition NewBuildResult (build : Build) : BuildResult :=
  mkResult ("builds/" +:+ BName build) (BName build) "" "" None None false false false false false.

(* src: test/extended/util/framework.go 950-953 CheckBuildSuccess *)
Definition CheckBuildSuccess (b : Build) : bool := String.eqb (BPhase b) "Complete".
(* src: test/extended/util/framework.go 955-958 CheckBuildFailed *)
Definition CheckBuildFailed (b : Build) : bool :=
  String.eqb (BPhase b) "Failed" || String.eqb (BPhase b) "Error".
(* src: test/extended/util/framework.go 960-963 CheckBuildCancelled *)
Definition CheckBuildCancelled (b : Build) : bool := String.eqb (BPhase b) "Cancelled".

(** ** The name of the build *)

(** [\w], [-], [.] and [_] *)
Definition path_char (c : Ascii.ascii) : bool :=
  let n := Ascii.nat_of_ascii c in
  (48 <=? n) && (n <=? 57) || (65 <=? n) && (n <=? 90) || (97 <=? n) && (n <=? 122)
  || (n =? 95) || (n =? 45) || (n =? 46).

Fixpoint str_all (p : Ascii.ascii → bool) (s : string) : bool :=
  match s with EmptyString => true | String c s' => p c && str_all p s' end.

Definition build_prefix : string := "build.build.openshift.io/".

(** The submatch of [buildPathPattern]. *)
(* src: test/extended/util/framework.go 627-627 buildPathPattern *)
Definition build_path_match (s : string) : option string :=
  if HasPrefix s build_prefix then
    let name := drop_str (String.length build_prefix) s in
    if negb (String.eqb name "") && str_all path_char name then Some name else None
  else None.

(** ** Waiting *)

Section WaitForABuild.
Context {S : Type} (get : string → go S Build) (list_named : string → go S (list Build)).
Variables isOK isFailed isCanceled : Build → go S bool.

(** The builds of one answer, in order. *)
(* src: test/extended/util/framework.go 928-939 WaitForABuild (scan) *)
Fixpoint scan_builds (name : string) (l : list Build) : go S bool :=
  match l with
  | [] => ret false
  | b :: rest =>
      (let named := String.eqb name (BName b) in
       done <-! (if named then ok <-! isOK b ;; if ok : bool then ret true else isCanceled b
                 else ret false) ;;
       if done : bool then ret true
       else if negb named
       then fail (Errorf ("While listing builds named " +:+ name +:+ ", found unexpected build "
                          +:+ BName b))
       else failed <-! isFailed b ;;
            if failed : bool
            then fail (Errorf ("The build " +:+ Quote name +:+ " status is " +:+ Quote (BPhase b)))
            else scan_builds name rest)%go
  end.

Definition on_timeout (what : string) (name : string) (e : error) : error :=
  if bool_decide (e = ErrWaitTimeout)
  then Errorf ("Timed out waiting for build " +:+ Quote name +:+ " to " +:+ what) else e.

Definition exists_cond (name : string) : go S bool :=
  (r <-! try (get name) ;; ret (match r with inl _ => true | inr _ => false end))%go.

Definition complete_cond (name : string) : go S bool :=
  (l <-! list_named name ;; scan_builds name l)%go.

(** Two minutes, then ten. *)
(* src: test/extended/util/framework.go 896-948 WaitForABuild *)
Definition WaitForABuild (name : string) : go S unit :=
  (r <-! try (Poll (ticks_of Second (2 * Minute)) (exists_cond name)) ;;
   match r with
   | inr e => fail (on_timeout "be created" name e)
   | inl _ =>
       r <-! try (Poll (ticks_of (5 * Second) (10 * Minute)) (complete_cond name)) ;;
       match r with
       | inr e => fail (on_timeout "complete" name e)
       | inl _ => ret tt
       end
   end)%go.
End WaitForABuild.

Record oc_builds (W : Type) := mkOc {
  start_build : list string → go W (string * string * option error);   (* oc start-build *)
  get_build : string → go W Build;
  list_builds : string → go W (list Build)       (* with the field selector metadata.name *)
}.
Arguments start_build {W}. Arguments get_build {W}. Arguments list_builds {W}.

Section Builds.
Context {W : Type} (oc : oc_builds W).

Definition on_oc {A} (m : go W A) : go (W * BuildResult) A := λ s,
  let '(r, w) := m s.1 in (r, (w, s.2)).
Definition set_result (f : BuildResult → BuildResult) : go (W * BuildResult) unit :=
  modw (λ s, (s.1, f s.2)).

Definition observe (b : Build) (f : BuildResult → BuildResult) : BuildResult → BuildResult := λ r,
  let r := f r in
  mkResult (BuildPath r) (BuildName r) (StartBuildStdErr r) (StartBuildStdOut r) (StartBuildErr r)
    (Some b) (BuildAttempt r) (BuildSuccess r) (BuildFailure r) (BuildCancelled r) (BuildTimeout r).
Definition set_flags (s f c : BuildResult → bool) (r : BuildResult) : BuildResult :=
  mkResult (BuildPath r) (BuildName r) (StartBuildStdErr r) (StartBuildStdOut r) (StartBuildErr r)
    (TheBuild r) (BuildAttempt r) (s r) (f r) (c r) (BuildTimeout r).

(** The three closures of [WaitForBuildResult]. *)
Definition saw_success (b : Build) : go (W * BuildResult) bool :=
  (set_result (observe b (set_flags (λ _, CheckBuildSuccess b) BuildFailure BuildCancelled)) ;;!
   ret (CheckBuildSuccess b))%go.
Definition saw_failure (b : Build) : go (W * BuildResult) bool :=
  (set_result (observe b (set_flags BuildSuccess (λ _, CheckBuildFailed b) BuildCancelled)) ;;!
   ret (CheckBuildFailed b))%go.
Definition saw_cancel (b : Build) : go (W * BuildResult) bool :=
  (set_result (observe b (set_flags BuildSuccess BuildFailure (λ _, CheckBuildCancelled b))) ;;!
   ret (CheckBuildCancelled b))%go.

Definition fmt_error (e : option error) : string :=
  match e with None => "<nil>" | Some e => err_msg e end.

(** The end of the function: [err] is only logged once a build was seen. *)
(* src: test/extended/util/framework.go 884-894 WaitForBuildResult (end) *)
Definition conclude (err : option error) : go (W * BuildResult) unit :=
  (s <-! getw ;;
   match TheBuild s.2 with
   | None => fail (Errorf ("Severe error waiting for build: " +:+ fmt_error err))
   | Some _ =>
       set_result (λ r,
         mkResult (BuildPath r) (BuildName r) (StartBuildStdErr r) (StartBuildStdOut r)
           (StartBuildErr r) (TheBuild r) true (BuildSuccess r) (BuildFailure r) (BuildCancelled r)
           (negb (BuildFailure r || BuildSuccess r || BuildCancelled r)))
   end)%go.

(* src: test/extended/util/framework.go 863-894 WaitForBuildResult *)
Definition WaitForBuildResult : go (W * BuildResult) unit :=
  (s <-! getw ;;
   r <-! try (WaitForABuild (λ n, on_oc (get_build oc n)) (λ n, on_oc (list_builds oc n))
                saw_success saw_failure saw_cancel (BuildName s.2)) ;;
   conclude (match r with inl _ => None | inr e => Some e end))%go.

(** The result replaces the one of the state; it is there with an error too. *)
(* src: test/extended/util/framework.go 813-849 StartBuildResult *)
Definition StartBuildResult (args : list string) : go (W * BuildResult) unit :=
  (out <-! on_oc (start_build oc (args ++ ["-o=name"])) ;;
   let '(stdout, stderr, err) := out in
   let buildPath := TrimSpace (default "" (head (Split stdout nl))) in
   let result name :=
     mkResult buildPath name stderr stdout err None false false false false false in
   match build_path_match buildPath with
   | None =>
       set_result (λ _, result ""%string) ;;!
       fail (Errorf ("Build path output did not match expected format 'build/name' : "
                     +:+ Quote buildPath))
   | Some name => set_result (λ _, result name)
   end)%go.

(* src: test/extended/util/framework.go 851-861 StartBuildAndWait *)
Definition StartBuildAndWait (args : list string) : go (W * BuildResult) unit :=
  (StartBuildResult args ;;! WaitForBuildResult)%go.

(** Gomega assertions: a false flag fails the spec. *)
(* src: test/extended/util/framework.go 795-802 BuildResult.AssertSuccess *)
Definition AssertSuccess (t : BuildResult) : outcome BuildResult :=
  if BuildSuccess t then Ret t else Panic "Expected false to be true".
(* src: test/extended/util/framework.go 804-811 BuildResult.AssertFailure *)
Definition AssertFailure (t : BuildResult) : outcome BuildResult :=
  if BuildFailure t then Ret t else Panic "Expected false to be true".
End Builds.

(** ** What the result says *)

(** The closures have seen no build that ended. *)
Definition open_result (name : string) (r : BuildResult) : Prop :=
  BuildSuccess r = false ∧ BuildFailure r = false ∧ BuildCancelled r = false ∧
  match TheBuild r with
  | None => True
  | Some b => BName b = name ∧ CheckBuildSuccess b = false ∧ CheckBuildFailed b = false ∧
              CheckBuildCancelled b = false
  end.

(** The flags are those of the last build seen. *)
Definition exact_result (name : string) (r : BuildResult) : Prop :=
  match TheBuild r with
  | None => BuildSuccess r = false ∧ BuildFailure r = false ∧ BuildCancelled r = false
  | Some b => BName b = name ∧ BuildSuccess r = CheckBuildSuccess b ∧
              BuildFailure r = CheckBuildFailed b ∧ BuildCancelled r = CheckBuildCancelled b
  end.

Lemma open_exact name r : open_result name r → exact_result name r.
Proof.
  unfold open_result, exact_result. destruct (TheBuild r); intros; destruct_and?; split_and!; congruence.
Qed.

(** The phases exclude each other. *)
Lemma phases_exclusive b :
  (CheckBuildSuccess b = true → CheckBuildFailed b = false ∧ CheckBuildCancelled b = false) ∧
  (CheckBuildCancelled b = true → CheckBuildSuccess b = false ∧ CheckBuildFailed b = false).
Proof.
  unfold CheckBuildSuccess, CheckBuildFailed, CheckBuildCancelled. split; intros H;
    apply String.eqb_eq in H; rewrite H; done.
Qed.

Section Wait.
Context {W : Type} (oc : oc_builds W) (name : string).

Notation open s := (open_result name (snd s)).
Notation exact s := (exact_result name (snd s)).

Lemma scan_builds_post l (s : W * BuildResult) :
  open s → match scan_builds saw_success saw_failure saw_cancel name l s with
           | (Ret false, s') => open s'
           | (_, s') => exact s'
           end.
Proof.
  revert s. induction l as [|b l IH]; intros [w r] Ho; [done|].
  cbn [scan_builds]. unfold gobind, saw_success, saw_cancel, saw_failure, set_result, modw, ret, fail.
  destruct (String.eqb_spec name (BName b)) as [Hn|]; cbn; [|by apply open_exact].
  destruct (phases_exclusive b) as [P1 P2]. destruct Ho as (H1 & H2 & H3 & _).
  destruct (CheckBuildSuccess b) eqn:E1; cbn; [unfold exact_result; cbn; naive_solver|].
  destruct (CheckBuildCancelled b) eqn:E2; cbn; [unfold exact_result; cbn; naive_solver|].
  destruct (CheckBuildFailed b) eqn:E3; cbn; [unfold exact_result; cbn; naive_solver|].
  apply IH. split_and!; done.
Qed.

Lemma on_oc_result {A} (m : go W A) (s : W * BuildResult) : (on_oc m s).2.2 = s.2.
Proof. unfold on_oc. by destruct (m s.1). Qed.

(** The wait ends with flags that are those of the last build it saw. *)
Lemma WaitForABuild_post (s : W * BuildResult) :
  open s →
  exact (WaitForABuild (λ n, on_oc (get_build oc n)) (λ n, on_oc (list_builds oc n))
           saw_success saw_failure saw_cancel name s).2.
Proof.
  intros Ho. unfold WaitForABuild. unfold gobind at 1, try at 1.
  assert (open (Poll (ticks_of Second (2 * Minute))
                  (exists_cond (λ n, on_oc (get_build oc n)) name) s).2) as H1.
  { apply (WaitFor_post (λ s, open s) (λ s, open s)); [|done|done]. intros s0 Hs0.
    unfold exists_cond, gobind, try, ret. pose proof (on_oc_result (get_build oc name) s0) as E.
    destruct (on_oc (get_build oc name) s0) as [[|?|?] s1]; cbn in *; by rewrite E. }
  destruct (Poll (ticks_of Second _) _ s) as [[|e|m] s1]; cbn in H1 |- *; try by apply open_exact.
  unfold gobind, try.
  assert (exact (Poll (ticks_of (5 * Second) (10 * Minute))
                   (complete_cond (λ n, on_oc (list_builds oc n)) saw_success saw_failure saw_cancel
                      name) s1).2) as H2.
  { apply (WaitFor_post (λ s, open s) (λ s, exact s)); [|intros; by apply open_exact|done].
    intros s0 Hs0. unfold complete_cond, gobind.
    pose proof (on_oc_result (list_builds oc name) s0) as E.
    destruct (on_oc (list_builds oc name) s0) as [[l|?|?] s2]; cbn in *;
      [|rewrite E; by apply open_exact..].
    apply scan_builds_post. by rewrite E. }
  destruct (Poll (ticks_of (5 * Second) _) _ s1) as [[|e|m] s2]; cbn in *; done.
Qed.
End Wait.

Definition no_flags (r : BuildResult) : Prop :=
  TheBuild r = None ∧ BuildSuccess r = false ∧ BuildFailure r = false ∧ BuildCancelled r = false.

Lemma no_flags_open name r : no_flags r → open_result name r.
Proof. intros (H1 & H2 & H3 & H4). unfold open_result. by rewrite H1. Qed.

Lemma WaitForBuildResult_post {W} (oc : oc_builds W) (s s' : W * BuildResult) :
  no_flags s.2 → WaitForBuildResult oc s = (Ret tt, s') →
  exact_result (BuildName s.2) s'.2 ∧ is_Some (TheBuild s'.2) ∧ BuildAttempt s'.2 = true ∧
  BuildTimeout s'.2 = negb (BuildFailure s'.2 || BuildSuccess s'.2 || BuildCancelled s'.2).
Proof.
  intros Hn H. apply (no_flags_open (BuildName s.2)) in Hn.
  apply (WaitForABuild_post oc) in Hn. unfold WaitForBuildResult, gobind, try, getw in H.
  destruct (WaitForABuild _ _ _ _ _ _ s) as [[|e|m] s1]; cbn in Hn; [| |done];
    unfold conclude, gobind, getw in H; cbn in H; unfold exact_result in *;
    destruct (TheBuild s1.2) as [b|] eqn:E; cbn in H; unfold fail, set_result, modw in H;
    simplify_eq/=; rewrite ?E; eauto.
Qed.

(** The wait leaves the name and the path alone. *)
Definition named (p n : string) {W} (s : W * BuildResult) : Prop := BuildPath s.2 = p ∧ BuildName s.2 = n.

Lemma scan_builds_keeps {S} (P : S → Prop) isOK isFailed isCanceled name l :
  (∀ b, keeps P (isOK b)) → (∀ b, keeps P (isFailed b)) → (∀ b, keeps P (isCanceled b)) →
  keeps P (scan_builds isOK isFailed isCanceled name l).
Proof.
  intros H1 H2 H3. induction l as [|b l IH]; cbn [scan_builds]; [apply keeps_ret|].
  apply keeps_bind.
  - destruct (String.eqb name (BName b)); [|apply keeps_ret].
    apply keeps_bind; [done|]. intros [|]; [apply keeps_ret|done].
  - intros [|]; [apply keeps_ret|]. destruct (negb _); [apply keeps_fail|].
    apply keeps_bind; [done|]. intros [|]; [apply keeps_fail|done].
Qed.

Lemma WaitForABuild_keeps {S} (P : S → Prop) get l isOK isFailed isCanceled name :
  keeps P (get name) → keeps P (l name) →
  (∀ b, keeps P (isOK b)) → (∀ b, keeps P (isFailed b)) → (∀ b, keeps P (isCanceled b)) →
  keeps P (WaitForABuild get l isOK isFailed isCanceled name).
Proof.
  intros Hg Hl H1 H2 H3. unfold WaitForABuild. apply keeps_bind.
  - apply keeps_try, keeps_WaitFor. apply keeps_bind; [by apply keeps_try|intros; apply keeps_ret].
  - intros [[]|e]; [|apply keeps_fail]. apply keeps_bind.
    + apply keeps_try, keeps_WaitFor. apply keeps_bind; [done|]. intros. by apply scan_builds_keeps.
    + intros [[]|e]; [apply keeps_ret|apply keeps_fail].
Qed.

Lemma on_oc_named {W A} p n (m : go W A) : keeps (named p n) (on_oc m).
Proof. intros s Hs. unfold named. by rewrite on_oc_result. Qed.

Lemma WaitForBuildResult_named {W} (oc : oc_builds W) p n : keeps (named p n) (WaitForBuildResult oc).
Proof.
  apply keeps_bind; [apply keeps_getw|]. intros s. apply keeps_bind.
  - apply keeps_try, WaitForABuild_keeps; try apply on_oc_named; intros b;
      (apply keeps_bind; [by apply keeps_modw|intros; apply keeps_ret]).
  - intros r. apply keeps_bind; [apply keeps_getw|]. intros s0.
    destruct (TheBuild s0.2); [by apply keeps_modw|apply keeps_fail].
Qed.

(** ** What a started build is *)

Lemma build_path_match_spec s name :
  build_path_match s = Some name →
  s = build_prefix +:+ name ∧ name ≠ ""%string ∧ str_all path_char name = true.
Proof.
  unfold build_path_match. destruct (HasPrefix s build_prefix) eqn:E; [|done].
  apply HasPrefix_spec in E as [r ->]. rewrite drop_str_app.
  destruct (String.eqb_spec r ""); [done|]. cbn [negb andb].
  destruct (str_all path_char r) eqn:Er; [|done]. by intros [= <-].
Qed.

Lemma StartBuildResult_Ret {W} (oc : oc_builds W) args (s s' : W * BuildResult) :
  StartBuildResult oc args s = (Ret tt, s') →
  BuildPath s'.2 = build_prefix +:+ BuildName s'.2 ∧
  str_all path_char (BuildName s'.2) = true ∧ no_flags s'.2.
Proof.
  unfold StartBuildResult. intros H. apply gobind_Ret_inv in H as ([[out err] e] & s1 & _ & H).
  destruct (build_path_match _) as [name|] eqn:E.
  - unfold set_result, modw in H. simplify_eq/=. apply build_path_match_spec in E as (-> & _ & ?). done.
  - apply gobind_Ret_inv in H as ([] & s2 & _ & H). done.
Qed.

(** When [StartBuildAndWait] returns without an error, the output of the
    command named a build, a build of that name was seen, and the flags say what
    its last phase was: exactly one of success, failure, cancellation and
    timeout is set. *)
Theorem StartBuildAndWait_verdict {W} (oc : oc_builds W) args (s s' : W * BuildResult) :
  StartBuildAndWait oc args s = (Ret tt, s') →
  let r := s'.2 in
  BuildPath r = build_prefix +:+ BuildName r ∧ BuildAttempt r = true ∧
  ∃ b, TheBuild r = Some b ∧ BName b = BuildName r ∧
    BuildSuccess r = CheckBuildSuccess b ∧ BuildFailure r = CheckBuildFailed b ∧
    BuildCancelled r = CheckBuildCancelled b ∧
    length (bfilter id [BuildSuccess r; BuildFailure r; BuildCancelled r; BuildTimeout r]) = 1.
Proof.
  unfold StartBuildAndWait. intros H. apply gobind_Ret_inv in H as ([] & s1 & H1 & H2).
  apply StartBuildResult_Ret in H1 as (Hp & _ & Hn).
  pose proof (WaitForBuildResult_named oc (BuildPath s1.2) (BuildName s1.2) s1 (conj eq_refl eq_refl))
    as [Hp' Hn'].
  rewrite H2 in Hp', Hn'. cbn in Hp', Hn'. cbn zeta.
  apply WaitForBuildResult_post in H2 as (He & [b Hb] & Ha & Ht); [|done].
  unfold exact_result in He. rewrite Hb in He. destruct He as (E1 & E2 & E3 & E4).
  split; [congruence|]. split; [done|]. exists b. split_and!; try done; [congruence|].
  rewrite Ht, E2, E3, E4. destruct (phases_exclusive b) as [P1 P2].
  destruct (CheckBuildSuccess b); [by destruct P1 as [-> ->]|].
  destruct (CheckBuildCancelled b); [by destruct P2 as [_ ->]|].
  by destruct (CheckBuildFailed b).
Qed.

(** ** Examples *)

(** A namespace that answers each list with the next element: a phase, or the
    error of the list. *)
Definition demo (stdout : string) : oc_builds (list (option string)) :=
  mkOc _ (λ _, ret (stdout, ""%string, None)) (λ n, ret (mkBuild n "New"))
    (λ n w, match w with
            | Some ph :: w' => (Ret [mkBuild n ph], w')
            | None :: w' => (Fail (Errorf "connection refused"), w')
            | [] => (Ret [], [])
            end).

Definition blank : BuildResult := NewBuildResult (mkBuild "" "").

Definition demo_run (phases : list (option string)) : outcome unit * BuildResult :=
  let '(o, (_, r)) := StartBuildAndWait (demo ("build.build.openshift.io/ruby-1" +:+ nl)) ["ruby"%string]
                        (phases, blank) in (o, r).

Example StartBuildAndWait_verdict_witness :
  length (bfilter id (let r := (demo_run [Some "Running"; Some "Complete"]%string).2 in
                      [BuildSuccess r; BuildFailure r; BuildCancelled r; BuildTimeout r])) = 1.
Proof.
  unfold demo_run.
  destruct (StartBuildAndWait (demo ("build.build.openshift.io/ruby-1" +:+ nl)) ["ruby"%string]
              ([Some "Running"; Some "Complete"]%string, blank)) as [o [w r]] eqn:E.
  assert (o = Ret tt) as ->
    by (apply (f_equal fst) in E; vm_compute in E; symmetry; exact E).
  exact (match proj2 (proj2 (StartBuildAndWait_verdict _ _ _ _ E)) with
         | ex_intro _ _ (conj _ (conj _ (conj _ (conj _ (conj _ H))))) => H end).
Defined.

(** A list that fails once the build was seen ends the wait; the result says
    that it timed out and the error is dropped. *)
Lemma list_error_is_timeout :
  demo_run [Some "Running"%string; None] =
  (Ret tt, mkResult "build.build.openshift.io/ruby-1" "ruby-1" ""
             ("build.build.openshift.io/ruby-1" +:+ nl) None (Some (mkBuild "ruby-1" "Running"))
             true false false false true).
Proof. vm_compute. reflexivity. Qed.

(** The output of [oc start-build -o=name] with another kind of name. *)
Lemma unexpected_output :
  (StartBuildAndWait (demo ("build/ruby-1" +:+ nl)) [] ([], blank)).1 =
  Fail (Errorf ("Build path output did not match expected format 'build/name' : "
                +:+ dquote +:+ "build/ruby-1" +:+ dquote)).
Proof. vm_compute. reflexivity. Qed.
