(* ===== verification/Waits.v ===== *)
(** * test/extended/util: waiting for pods, quotas and the registry

    The helpers of framework.go, pods.go, statefulsets.go and
    deploymentconfigs.go that poll the API until a condition holds.  Logging is
    left out. *)

From S2P Require Import Prelude.
From S2P Require Import GoStrings.
From S2P Require Import GoLib.
From S2P Require Import KubeTypes.

(** ** Pods *)

(* src: test/extended/util/framework.go 1284-1287 CheckPodIsRunning *)
Definition CheckPodIsRunning (p : Pod) : bool := String.eqb (Phase p) "Running".
(* src: test/extended/util/framework.go 1289-1292 CheckPodIsSucceeded *)
Definition CheckPodIsSucceeded (p : Pod) : bool := String.eqb (Phase p) "Succeeded".
(** The first condition of type Ready decides. *)
(* src: test/extended/util/framework.go 1294-1306 CheckPodIsReady *)
Definition CheckPodIsReady (p : Pod) : bool :=
  CheckPodIsRunning p &&
  match find_first (λ c, String.eqb c.1 "Ready") (PodConditions p) with
  | Some c => String.eqb c.2 "True"
  | None => false
  end.
(* src: test/extended/util/framework.go 1308-1311 CheckPodNoOp *)
Definition CheckPodNoOp (p : Pod) : bool := true.

(** The reason with which the first container terminated. *)
Definition first_reason (p : Pod) : option string :=
  head (ContainerStatuses p) ≫= λ s, TReason <$> Terminated s.
(* src: test/extended/util/framework.go 1694-1698 podHasCompleted *)
Definition podHasCompleted (p : Pod) : bool := bool_decide (first_reason p = Some "Completed"%string).
(* src: test/extended/util/framework.go 1700-1704 podHasErrored *)
Definition podHasErrored (p : Pod) : bool := bool_decide (first_reason p = Some "Error"%string).

(** The pods of a namespace; [list_pods] takes a label selector. *)
Record pods_api (W : Type) := mkPods {
  list_pods : string → go W (list Pod);
  get_pod : string → go W Pod;
  create_pod : Pod → go W Pod;
  delete_pod : string → go W unit;
  pod_logs : string → go W string
}.
Arguments list_pods {W}. Arguments get_pod {W}. Arguments create_pod {W}.
Arguments delete_pod {W}. Arguments pod_logs {W}.

(** The messages without the repetitions. *)
Fixpoint distinct_messages (seen : list string) (l : list string) : list string :=
  match l with
  | [] => []
  | m :: l' =>
      if bool_decide (m ∈ seen) then distinct_messages seen l'
      else m :: distinct_messages (m :: seen) l'
  end.

(** [kutilerrors.NewAggregate]: nil for no error. *)
(* src: vendor/k8s.io/apimachinery/pkg/util/errors/errors.go 41-89 NewAggregate, aggregate.Error *)
Definition NewAggregate (errs : list error) : option error :=
  match errs with
  | [] => None
  | _ =>
      match distinct_messages [] (map err_msg errs) with
      | [m] => Some (Errorf m)
      | ms => Some (Errorf ("[" +:+ Join ms ", " +:+ "]"))
      end
  end.

Section Pods.
Context {W : Type} (c : pods_api W).

Definition pod_name (p : Pod) : string := Name (PodMeta p).

(* src: test/extended/util/framework.go 1235-1247 GetPodNamesByFilter *)
Definition GetPodNamesByFilter (label : string) (predicate : Pod → bool) : go W (list string) :=
  (l <-! list_pods c label ;; ret (map pod_name (bfilter predicate l)))%go.

(** [podNames] is set when the count is right. *)
(* src: test/extended/util/framework.go 1266-1282 WaitForPods *)
Definition WaitForPods (label : string) (predicate : Pod → bool) (count : nat) (timeout : duration)
  : W → outcome unit * (W * list string) := λ w,
  Poll (ticks_of Second timeout)
    (λ s, match GetPodNamesByFilter label predicate s.1 with
          | (Ret p, w') => if Nat.eqb (length p) count then (Ret true, (w', p)) else (Ret false, (w', s.2))
          | (Fail e, w') => (Fail e, (w', s.2))
          | (Panic m, w') => (Panic m, (w', s.2))
          end) (w, []).

(* src: test/extended/util/framework.go 1313-1325 WaitUntilPodIsGone *)
Definition WaitUntilPodIsGone (podName : string) (timeout : duration) : go W unit :=
  Poll (ticks_of Second timeout)
    (r <-! try (get_pod c podName) ;;
     match r with
     | inl _ => ret false
     | inr e => if Contains (err_msg e) "not found" then ret true else fail e
     end)%go.

(* src: test/extended/util/pods.go 16-27 WaitForNoPodsAvailable *)
Definition WaitForNoPodsAvailable : go W unit :=
  Poll (ticks_of (200 * Millisecond) (3 * Minute))
    (l <-! list_pods c "" ;; ret (Nat.eqb (length l) 0))%go.

(** The errors of a sequence of calls. *)
Fixpoint collect_errors (l : list (go W unit)) : go W (list error) :=
  match l with
  | [] => ret []
  | m :: rest =>
      (r <-! try m ;; errs <-! collect_errors rest ;;
       ret (match r with inl _ => errs | inr e => e :: errs end))%go
  end.

Definition aggregate (errs : list error) : go W unit :=
  match NewAggregate errs with None => ret tt | Some e => fail e end.

(** Every pod of the list is tried, once for each prefix of its name. *)
(* src: test/extended/util/pods.go 29-52 RemovePodsWithPrefixes *)
Definition RemovePodsWithPrefixes (prefixes : list string) : go W unit :=
  (l <-! list_pods c "" ;;
   errs <-! collect_errors
     (map (λ p, delete_pod c (pod_name p))
        (concat (map (λ prefix, bfilter (λ p, HasPrefix (pod_name p) prefix) l) prefixes))) ;;
   aggregate errs)%go.

(** The deletion of a set of objects that own pods: the next one waits for the
    pods of this one, whether its deletion failed or not. *)
(* src: test/extended/util/statefulsets.go 12-47 RemoveStatefulSets *)
Definition RemoveOwners (delete : string → go W unit) (selector : string → string)
    (names : list string) : go W unit :=
  (errs <-! collect_errors
     (concat (map (λ n,
        [delete n;
         PollImmediate (ticks_of (5 * Second) (5 * Minute))
           (l <-! list_pods c (selector n) ;; ret (Nat.eqb (length l) 0))]) names)) ;;
   aggregate errs)%go.

Definition RemoveStatefulSets (delete : string → go W unit) : list string → go W unit :=
  RemoveOwners delete (λ n, "name=" +:+ n).
(* src: test/extended/util/deploymentconfigs.go 12-47 RemoveDeploymentConfigs *)
Definition RemoveDeploymentConfigs (delete : string → go W unit) : list string → go W unit :=
  RemoveOwners delete (λ n, "deploymentconfig=" +:+ n).

(** ** A command in a pod of its own *)

(** The end of the command; errors of the Get are waited out. *)
(* src: test/extended/util/framework.go 1659-1670 RunOneShotCommandPod (completion) *)
Definition completed_cond (podName : string) : go W bool :=
  (r <-! try (get_pod c podName) ;;
   match r with
   | inr _ => ret false
   | inl p =>
       if podHasErrored p then fail (Errorf "the pod errored trying to run the command")
       else ret (podHasCompleted p)
   end)%go.

(** [output] is set by the first logs that are not empty. *)
(* src: test/extended/util/framework.go 1676-1686 RunOneShotCommandPod (logs) *)
Definition logs_cond (podName : string) : W * string → outcome bool * (W * string) := λ s,
  match pod_logs c podName s.1 with
  | (Fail e, w') => (Fail e, (w', s.2))
  | (Panic m, w') => (Panic m, (w', s.2))
  | (Ret logs, w') =>
      if Nat.eqb (String.length logs) 0 then (Ret false, (w', s.2)) else (Ret true, (w', logs))
  end.

Definition wrap_errors (what : error → error) (r : unit + error) : list error :=
  match r with inl _ => [] | inr e => [what e] end.

(** [newCommandPod] makes the pod; the two waits are independent: the logs are
    read even when the command did not complete. *)
(* src: test/extended/util/framework.go 1639-1692 RunOneShotCommandPod *)
Definition RunOneShotCommandPod (newCommandPod : string → list string → Pod) (command : string)
    (timeout : duration) : go W (string * list error) :=
  let cmd := Split command " " in
  (r <-! try (create_pod c (newCommandPod (default ""%string (head cmd)) (tail cmd))) ;;
   match r with
   | inr err => ret (""%string, [err])
   | inl pod =>
       let n := pod_name pod in
       r1 <-! try (PollImmediate (ticks_of Second timeout) (completed_cond n)) ;;
       let errs1 := wrap_errors (λ e, Errorf ("error waiting for the pod '" +:+ n
                                   +:+ "' to complete: " +:+ err_msg e)) r1 in
       λ w, match PollImmediate (ticks_of Second timeout) (logs_cond n) (w, ""%string) with
            | (Ret _, (w', output)) => (Ret (output, errs1), w')
            | (Fail e, (w', output)) =>
                (Ret (output, errs1 ++ [Errorf ("command pod " +:+ n +:+ " did not complete: "
                                                +:+ err_msg e)]), w')
            | (Panic m, (w', _)) => (Panic m, w')
            end
   end)%go.
End Pods.

(** ** Service accounts and jobs *)

(** [get] returns the names of the secrets of the account. *)
(* src: test/extended/util/framework.go 965-986 WaitForServiceAccount *)
Definition WaitForServiceAccount {W} (get : string → go W (list string)) (name : string) : go W unit :=
  Poll (ticks_of (100 * Millisecond) (3 * Minute))
    (r <-! try (get name) ;;
     match r with
     | inr e => if is_kind KNotFound e || is_kind KForbidden e then ret false else fail e
     | inl secrets => ret (existsb (λ s, Contains s "dockercfg") secrets)
     end)%go.

(** [get] returns the conditions of the job, type and status. *)
(* src: test/extended/util/framework.go 1249-1264 WaitForAJob *)
Definition WaitForAJob {W} (get : string → go W (list (string * string))) (name : string)
    (timeout : duration) : go W unit :=
  Poll (ticks_of Second timeout)
    (conds <-! get name ;;
     ret (existsb (λ c, (String.eqb c.1 "Complete" || String.eqb c.1 "Failed")
                        && String.eqb c.2 "True") conds))%go.

(** ** Resource quotas *)

(** A ResourceList; a quantity in its smallest unit. *)
Notation ResourceList := (gmap string Z) (only parsing).

(* src: vendor/k8s.io/kubernetes/pkg/quota/v1/resources.go 149-158 Mask *)
Definition Mask (resources : ResourceList) (names : gset string) : ResourceList :=
  filter (λ kv, kv.1 ∈ names) resources.

(** Only the resources both lists have are compared. *)
(* src: vendor/k8s.io/kubernetes/pkg/quota/v1/resources.go 50-62 LessThanOrEqual *)
Definition LessThanOrEqual (a b : ResourceList) : bool :=
  forallb (λ kv, match a !! kv.1 with Some other => (other <=? kv.2)%Z | None => true end)
    (map_to_list b).

(* src: test/extended/util/framework.go 1160-1176 isUsageSynced *)
Definition isUsageSynced (received expected : ResourceList) (expectedIsUpperLimit : bool) : bool :=
  let masked := Mask received (dom expected) in
  if negb (Nat.eqb (size masked) (size expected)) then false
  else if expectedIsUpperLimit then LessThanOrEqual masked expected
  else LessThanOrEqual expected masked.

(** What the select of the loop receives. *)
Inductive quota_event :=
| QuotaSeen (used : ResourceList)    (* an event with a quota *)
| OtherEvent                         (* an event with another object *)
| ChannelClosed
| TimerFired.

(** One turn of the loop: the time at its head, and what is received.  The
    loop ends with the input when it is still waiting. *)
(* src: test/extended/util/framework.go 1215-1232 WaitForResourceQuotaSync (watch) *)
Fixpoint quota_loop (expected : ResourceList) (upper : bool) (endTime : time)
    (turns : list (time * quota_event)) : option (ResourceList + error) :=
  match turns with
  | [] => None
  | (now, ev) :: rest =>
      if negb (Before now endTime) then Some (inr ErrWaitTimeout)
      else match ev with
           | ChannelClosed | OtherEvent => quota_loop expected upper endTime rest
           | TimerFired => Some (inr ErrWaitTimeout)
           | QuotaSeen u =>
               let used := Mask u (dom expected) in
               if isUsageSynced used expected upper then Some (inl used)
               else quota_loop expected upper endTime rest
           end
  end.

(** [listed]: the used amounts of the quotas of that name; [watch_err]: the
    watch could not be opened. *)
(* src: test/extended/util/framework.go 1178-1233 WaitForResourceQuotaSync *)
Definition WaitForResourceQuotaSync (start : time) (expected : ResourceList) (upper : bool)
    (timeout : duration) (listed : list ResourceList + error) (watch_err : option error)
    (turns : list (time * quota_event)) : option (ResourceList + error) :=
  match listed with
  | inr err => Some (inr err)
  | inl items =>
      match find_first (λ used, isUsageSynced used expected upper)
              (map (λ u, Mask u (dom expected)) items) with
      | Some used => Some (inl used)
      | None =>
          match watch_err with
          | Some err => Some (inr err)
          | None => quota_loop expected upper (start + timeout)%Z turns
          end
      end
  end.

(** ** The hostname of the registry *)

(** What is read of the OpenShiftControllerManager: the hostname of its
    observed configuration, [None] when that cannot be decoded, and the types
    and statuses of its conditions. *)
Record ocm := mkOcm { observed_hostname : option string; ocm_conditions : list (string * string) }.

(** [bufio.ScanLines]: the lines without their ends; a last empty line is not
    one. *)
Definition ScanLines (s : string) : list string :=
  let l := SplitChar nl_char s in
  let l := if bool_decide (List.last l ""%string = ""%string) then removelast l else l in
  map (λ x, TrimSuffix x (String (Ascii.ascii_of_nat 13) "")) l.

(** The build controller was started, and later logged the hostname. *)
(* src: test/extended/util/framework.go 139-152 WaitForInternalRegistryHostname (log) *)
Fixpoint scan_log (hostname : string) (firstLog : bool) (lines : list string) : bool :=
  match lines with
  | [] => false
  | line :: rest =>
      if Contains line "build_controller.go" && Contains line "Starting build controller"
      then scan_log hostname true rest
      else if firstLog && Contains line "build_controller.go" && Contains line hostname then true
      else scan_log hostname firstLog rest
  end.

Section Registry.
Context {W : Type}.
(** The image config (a nil object is [None]), the OCM, the pods of its
    namespace and their logs. *)
Variable get_image_hostname : go W (option string).
Variable get_ocm : go W ocm.
Variable ocm_pods : go W (list Pod).
Variable ocm_log : string → go W string.

(** The variables the closure shares with the function. *)
Record reg := mkReg {
  reg_world : W;
  registryHostname : string;
  foundOCMLogs : bool;
  isOCMProgressing : bool
}.

Definition on_reg {A} (m : go W A) : go reg A := λ s,
  let '(r, w) := m (reg_world s) in
  (r, mkReg w (registryHostname s) (foundOCMLogs s) (isOCMProgressing s)).
Definition set_hostname (h : string) : go reg unit :=
  modw (λ s, mkReg (reg_world s) h (foundOCMLogs s) (isOCMProgressing s)).
Definition set_found : go reg unit :=
  modw (λ s, mkReg (reg_world s) (registryHostname s) true (isOCMProgressing s)).
Definition set_progressing (b : bool) : go reg unit :=
  modw (λ s, mkReg (reg_world s) (registryHostname s) (foundOCMLogs s) b).

(** An object that is not there yet is waited for. *)
Definition or_wait {A} (m : go W A) (k : A → go reg bool) : go reg bool :=
  (r <-! try (on_reg m) ;;
   match r with
   | inl a => k a
   | inr e => if is_kind KNotFound e then ret false else fail e
   end)%go.

(* src: test/extended/util/framework.go 131-157 WaitForInternalRegistryHostname (pods) *)
Definition scan_pods (pods : list Pod) : go reg unit :=
  for_each pods (λ p,
    (r <-! try (on_reg (ocm_log (Name (PodMeta p)))) ;;
     s <-! getw ;;
     match r with
     | inl log => if scan_log (registryHostname s) false (ScanLines log) then set_found else ret tt
     | inr _ => ret tt
     end)%go).

(* src: test/extended/util/framework.go 163-180 WaitForInternalRegistryHostname (progressing) *)
Definition progressing_done (o : ocm) : go reg bool :=
  (s <-! getw ;;
   if negb (isOCMProgressing s) then ret true
   else match find_first (λ c, String.eqb c.1 "Progressing") (ocm_conditions o) with
        | Some c => if String.eqb c.2 "False" then set_progressing true ;;! ret true else ret false
        | None => ret false
        end)%go.

(* src: test/extended/util/framework.go 78-181 WaitForInternalRegistryHostname (condition) *)
Definition hostname_cond : go reg bool :=
  (or_wait get_image_hostname (λ image,
     match image with
     | None => ret false
     | Some h =>
         set_hostname h ;;!
         if Nat.eqb (String.length h) 0 then ret false
         else or_wait get_ocm (λ o,
           match observed_hostname o with
           | None => ret false
           | Some h' =>
               if negb (String.eqb h' h) then ret false
               else or_wait ocm_pods (λ pods,
                 scan_pods pods ;;!
                 s <-! getw ;;
                 if negb (foundOCMLogs s) then ret false else progressing_done o)
           end)
     end))%go.

(* src: test/extended/util/framework.go 72-196 WaitForInternalRegistryHostname *)
Definition WaitForInternalRegistryHostname : go W string := λ w,
  let '(r, s) := Poll (ticks_of (2 * Second) (2 * Minute)) hostname_cond (mkReg w "" false true) in
  (match r with
   | Ret _ => Ret (registryHostname s)
   | Fail e =>
       if bool_decide (e = ErrWaitTimeout)
       then Fail (Errorf "Timed out waiting for internal registry hostname to be published")
       else Fail e
   | Panic m => Panic m
   end, reg_world s).
End Registry.

(** ** Properties *)

Lemma size_dom_subset (a b : gset string) : a ⊆ b → size a = size b → a = b.
Proof. intros H Hs. apply set_subseteq_size_eq; [done|lia]. Qed.

Lemma Mask_lookup u (names : gset string) k :
  Mask u names !! k = (if decide (k ∈ names) then u !! k else None).
Proof.
  unfold Mask. case_decide as Hk.
  - destruct (u !! k) as [v|] eqn:E.
    + apply map_lookup_filter_Some. done.
    + apply map_lookup_filter_None. by left.
  - apply map_lookup_filter_None. right. by intros v _.
Qed.

Lemma LessThanOrEqual_spec a b :
  LessThanOrEqual a b = true ↔ ∀ k x y, a !! k = Some x → b !! k = Some y → (x ≤ y)%Z.
Proof.
  unfold LessThanOrEqual. rewrite forallb_forall. split.
  - intros H k x y Ha Hb. specialize (H (k, y)). cbn in H. rewrite Ha in H.
    apply Z.leb_le, H. apply list_elem_of_In. by apply elem_of_map_to_list.
  - intros H [k y] Hin%list_elem_of_In%elem_of_map_to_list. cbn.
    destruct (a !! k) as [x|] eqn:Ha; [|done]. apply Z.leb_le. by eapply H.
Qed.

(** A usage is in sync when it has every expected resource, on the right side
    of the expected amount. *)
Lemma isUsageSynced_spec received expected upper :
  isUsageSynced received expected upper = true ↔
  ∀ k v, expected !! k = Some v →
    ∃ u, received !! k = Some u ∧ if upper then (u ≤ v)%Z else (v ≤ u)%Z.
Proof.
  unfold isUsageSynced. set (m := Mask received (dom expected)).
  assert (dom m ⊆ dom expected) as Hsub.
  { intros k Hk. apply elem_of_dom in Hk as [v Hv]. unfold m in Hv. rewrite Mask_lookup in Hv.
    by case_decide. }
  assert (∀ k v, expected !! k = Some v → m !! k = received !! k) as Hm.
  { intros k v Hk. unfold m. rewrite Mask_lookup, decide_True; [done|]. by eapply elem_of_dom_2. }
  destruct (Nat.eqb_spec (size m) (size expected)) as [Es|Es]; cbn [negb].
  - assert (dom m = dom expected) as Hd by (apply size_dom_subset; [done|by rewrite (size_dom m), (size_dom expected)]).
    assert (∀ k v, expected !! k = Some v → ∃ u, received !! k = Some u) as Hex.
    { intros k v Hk. assert (k ∈ dom m) as Hi by (rewrite Hd; by eapply elem_of_dom_2).
      apply elem_of_dom in Hi as [u Hu]. rewrite (Hm k v Hk) in Hu. eauto. }
    destruct upper; rewrite LessThanOrEqual_spec; (split; intros H).
    + intros k v Hk. destruct (Hex k v Hk) as [u Hu]. exists u. split; [done|].
      apply (H k); [by rewrite (Hm k v Hk)|done].
    + intros k x y Hx Hy. rewrite (Hm k y Hy) in Hx. destruct (H k y Hy) as (u & Hu & ?). by simplify_eq.
    + intros k v Hk. destruct (Hex k v Hk) as [u Hu]. exists u. split; [done|].
      apply (H k); [done|by rewrite (Hm k v Hk)].
    + intros k x y Hx Hy. rewrite (Hm k x Hx) in Hy. destruct (H k x Hx) as (u & Hu & ?). by simplify_eq.
  - split; [done|]. intros H. destruct Es. rewrite <- (size_dom m), <- (size_dom expected). f_equal. apply set_eq.
    intros k. split; [apply Hsub|]. intros [v Hv]%elem_of_dom. destruct (H k v Hv) as (u & Hu & _).
    apply elem_of_dom. exists u. by rewrite (Hm k v Hv).
Qed.

(** What is returned for a synced usage. *)
Definition synced (expected : ResourceList) (upper : bool) (used : ResourceList) : Prop :=
  dom used = dom expected ∧
  ∀ k v, expected !! k = Some v → ∃ u, used !! k = Some u ∧ if upper then (u ≤ v)%Z else (v ≤ u)%Z.

Lemma Mask_synced u expected upper :
  isUsageSynced (Mask u (dom expected)) expected upper = true →
  synced expected upper (Mask u (dom expected)).
Proof.
  intros H. pose proof (proj1 (isUsageSynced_spec _ _ _) H) as Hs. split; [|done].
  apply set_eq. intros k. split.
  - intros [v Hv]%elem_of_dom. rewrite Mask_lookup in Hv. by case_decide.
  - intros [v Hv]%elem_of_dom. destruct (Hs k v Hv) as (x & Hx & _). by eapply elem_of_dom_2.
Qed.

(** The usage that WaitForResourceQuotaSync returns has exactly the expected
    resources, each at most (or at least) the expected amount; once the channel
    of the watch is closed no usage is ever returned, only a timeout, since the
    loop does not open another one. *)
Theorem WaitForResourceQuotaSync_synced start expected upper timeout listed watch_err turns used :
  WaitForResourceQuotaSync start expected upper timeout listed watch_err turns = Some (inl used) →
  synced expected upper used ∧
  (Forall (λ t, t.2 = ChannelClosed) turns →
   ∃ items u, listed = inl items ∧ u ∈ items ∧ used = Mask u (dom expected)).
Proof.
  unfold WaitForResourceQuotaSync. destruct listed as [items|err]; [|done].
  destruct (find_first _ _) as [u|] eqn:Ef.
  - intros [= ->]. apply find_first_Some in Ef as [Hin Hs].
    apply list_elem_of_fmap in Hin as (v & -> & Hv). split; [by apply Mask_synced|eauto 6].
  - destruct watch_err; [done|]. generalize (start + timeout)%Z. intros endTime H.
    induction turns as [|[now ev] turns IH]; [done|]. cbn in H. destruct (negb _); [done|].
    destruct ev as [v| | |]; try done; rewrite ?Forall_cons; cbn.
    + destruct (isUsageSynced _ expected upper) eqn:Es; simplify_eq.
      * split; [by apply Mask_synced|]. intros [? _]. done.
      * destruct (IH H) as [? _]. split; [done|]. intros [? _]. done.
    + destruct (IH H) as [? _]. split; [done|]. intros [? _]. done.
    + destruct (IH H) as [? Hc]. split; [done|]. intros [_ ?]. auto.
Qed.

Example WaitForResourceQuotaSync_synced_witness :
  synced {[ "pods" := 3%Z ]} true {[ "pods" := 2%Z ]}.
Proof.
  refine (proj1 (WaitForResourceQuotaSync_synced 0 {[ "pods" := 3%Z ]} true Second
    (inl [ {[ "pods" := 5%Z ]} ]) None
    [(1%Z, ChannelClosed); (2%Z, QuotaSeen {[ "pods" := 2%Z; "secrets" := 9%Z ]})] {[ "pods" := 2%Z ]} _)).
  vm_compute. reflexivity.
Defined.

(** ** The pod of a command *)

Lemma logs_cond_Ret {W} (c : pods_api W) n s s' :
  logs_cond c n s = (Ret true, s') → pod_logs c n s.1 = (Ret s'.2, s'.1) ∧ s'.2 ≠ ""%string.
Proof.
  unfold logs_cond. destruct (pod_logs c n s.1) as [[l|?|?] w]; [|done|done].
  destruct (Nat.eqb_spec (String.length l) 0) as [E|E]; [done|]. intros [= <-]. cbn.
  split; [done|]. by intros ->.
Qed.

(** Without an error, the output of RunOneShotCommandPod is what the logs of
    the created pod said in the last call, and is not empty, and the pod had
    been seen completed before. *)
Theorem RunOneShotCommandPod_output {W} (c : pods_api W) mk command timeout w output w' :
  RunOneShotCommandPod c mk command timeout w = (Ret (output, []), w') →
  ∃ pod w1, create_pod c (mk (default ""%string (head (Split command " "))) (tail (Split command " "))) w
            = (Ret pod, w1) ∧
    (∃ w2 w3 p, get_pod c (pod_name pod) w2 = (Ret p, w3) ∧ podHasErrored p = false ∧
       podHasCompleted p = true) ∧
    (∃ w4, pod_logs c (pod_name pod) w4 = (Ret output, w')) ∧ output ≠ ""%string.
Proof.
  unfold RunOneShotCommandPod. intros H. unfold gobind at 1, try at 1 in H.
  destruct (create_pod _ _ w) as [[pod|e|m] w1]; [|unfold ret in H; by simplify_eq|done].
  exists pod, w1. split; [done|]. unfold gobind at 1, try at 1 in H.
  destruct (PollImmediate _ (completed_cond _ _) w1) as [[[]|e|m] w2] eqn:E1; [| |done].
  - destruct (PollImmediate _ (logs_cond _ _) _) as [[[]|e|m] [w3 o]] eqn:E2; cbn in H; simplify_eq.
    apply PollImmediate_Ret in E1 as [w0 E1]. apply PollImmediate_Ret in E2 as [s E2].
    apply logs_cond_Ret in E2 as [Hl Ho]. cbn in Hl, Ho. split; [|eauto].
    unfold completed_cond, gobind, try in E1.
    destruct (get_pod c (pod_name pod) w0) as [[p|?|?] w4] eqn:Eg; cbn in E1; unfold ret, fail in E1;
      [|by simplify_eq|done].
    destruct (podHasErrored p) eqn:Ee; simplify_eq. eauto 8.
  - destruct (PollImmediate _ (logs_cond _ _) _) as [[[]|e'|m] [w3 o]]; cbn in H; by simplify_eq.
Qed.

(** A pod that has completed at once and printed a line. *)
Definition done_pod : Pod :=
  mkPod (meta_of "echo" "ns") "" "Never" "Succeeded" "" "" [] []
    [mkCStatus "main" false 0 (Some (mkTerminated 0 "Completed" "")) false].
Definition one_pod : pods_api unit :=
  mkPods _ (λ _, ret [done_pod]) (λ _, ret done_pod) (λ p, ret p) (λ _, ret tt) (λ _, ret "hello"%string).

Example RunOneShotCommandPod_output_witness : "hello"%string ≠ ""%string.
Proof.
  assert (RunOneShotCommandPod one_pod (λ _ _, done_pod) "echo hello" Minute tt = (Ret ("hello"%string, []), tt))
    as H by (vm_compute; reflexivity).
  destruct (RunOneShotCommandPod_output one_pod (λ _ _, done_pod) "echo hello" Minute tt "hello" tt H)
    as (_ & _ & _ & _ & _ & Ho). exact Ho.
Defined.

(** ** What a published hostname has been checked against *)

Section RegistryProperties.
Context {W : Type}.
Variable get_image_hostname : go W (option string).
Variable get_ocm : go W ocm.
Variable ocm_pods : go W (list Pod).
Variable ocm_log : string → go W string.

Notation hostname_cond := (hostname_cond get_image_hostname get_ocm ocm_pods ocm_log).
Notation scan_pods := (scan_pods ocm_log).

(** Some log read so far shows a start of the build controller after some
    hostname was observed. *)
Definition log_seen : Prop :=
  ∃ h n log w w', ocm_log n w = (Ret log, w') ∧ h ≠ ""%string ∧ scan_log h false (ScanLines log) = true.

Definition reg_inv (s : reg (W := W)) : Prop :=
  (foundOCMLogs s = true → log_seen) ∧ isOCMProgressing s = true.
Definition reg_inv_at (h : string) (s : reg (W := W)) : Prop := reg_inv s ∧ registryHostname s = h.

Lemma keeps_on_reg {A} (P : reg → Prop) (m : go W A) :
  (∀ s w, P s → P (mkReg w (registryHostname s) (foundOCMLogs s) (isOCMProgressing s))) →
  keeps P (on_reg m).
Proof. intros H s Hs. unfold on_reg. destruct (m (reg_world s)) as [r w]. by apply H. Qed.

Lemma keeps_scan_pods h pods : h ≠ ""%string → keeps (reg_inv_at h) (scan_pods pods).
Proof.
  intros Hh. induction pods as [|p pods IH]; [apply keeps_ret|].
  unfold Waits.scan_pods. cbn [for_each]. apply keeps_bind; [|intros _; exact IH].
  intros s [[Hf Hp] Hr]. unfold gobind, try, getw, on_reg.
  destruct (ocm_log (Name (PodMeta p)) (reg_world s)) as [[log|e|m] w] eqn:E; cbn;
    [|by repeat split|by repeat split].
  destruct (scan_log (registryHostname s) false (ScanLines log)) eqn:Es; [|by repeat split].
  split; [|done]. split; [|done]. intros _. exists h, (Name (PodMeta p)), log, (reg_world s), w.
  rewrite Hr in Es. done.
Qed.

Lemma keeps_or_wait {A} (P : reg → Prop) (m : go W A) k :
  keeps P (on_reg m) → (∀ a, keeps P (k a)) → keeps P (or_wait m k).
Proof.
  intros Hm Hk. apply keeps_bind; [by apply keeps_try|].
  intros [a|e]; [done|]. destruct (is_kind KNotFound e); [apply keeps_ret|apply keeps_fail].
Qed.

Lemma keeps_progressing_done h o : keeps (reg_inv_at h) (progressing_done (W := W) o).
Proof.
  apply keeps_bind; [apply keeps_getw|]. intros s. destruct (negb _); [apply keeps_ret|].
  destruct (find_first _ _) as [c|]; [|apply keeps_ret]. destruct (String.eqb _ _); [|apply keeps_ret].
  apply keeps_bind; [|intros; apply keeps_ret]. apply keeps_modw. intros s0 [[? ?] ?]. by repeat split.
Qed.

(** After the hostname has been set. *)
Lemma keeps_hostname_cond : keeps reg_inv hostname_cond.
Proof.
  apply keeps_or_wait; [by apply keeps_on_reg|]. intros [h|]; [|apply keeps_ret].
  intros s Hs. unfold gobind at 1, set_hostname, modw.
  set (s1 := mkReg _ _ _ _). assert (reg_inv_at h s1) as H1 by done.
  cut (∀ m, keeps (reg_inv_at h) m → reg_inv (m s1 : outcome bool * reg).2); [|intros m Hm; by apply Hm].
  intros Hcut. apply Hcut. destruct (Nat.eqb_spec (String.length h) 0) as [E|E]; [apply keeps_ret|].
  apply keeps_or_wait; [by apply keeps_on_reg|]. intros o.
  destruct (observed_hostname o); [|apply keeps_ret]. destruct (negb _); [apply keeps_ret|].
  apply keeps_or_wait; [by apply keeps_on_reg|]. intros pods.
  apply keeps_bind; [apply keeps_scan_pods; by intros ->|]. intros _.
  apply keeps_bind; [apply keeps_getw|]. intros s2. destruct (negb _); [apply keeps_ret|].
  apply keeps_progressing_done.
Qed.

Lemma or_wait_Ret {A} (m : go W A) k s s' :
  or_wait m k s = (Ret true, s') →
  ∃ a w, m (reg_world s) = (Ret a, w) ∧
    k a (mkReg w (registryHostname s) (foundOCMLogs s) (isOCMProgressing s)) = (Ret true, s').
Proof.
  unfold or_wait. intros H. apply gobind_Ret_inv in H as (r & s1 & Ht & H).
  unfold try, on_reg in Ht. destruct (m (reg_world s)) as [[a|e|p] w]; simplify_eq/=.
  - eauto.
  - by destruct (is_kind KNotFound e).
Qed.

(** A hostname that WaitForInternalRegistryHostname returns is not empty, was
    read from the image config, is the one of the observed configuration of a
    controller manager whose first Progressing condition is False, and some log
    that was read shows the build controller started after it had seen a
    hostname (which may be an earlier one). *)
Theorem WaitForInternalRegistryHostname_checked w h w' :
  WaitForInternalRegistryHostname get_image_hostname get_ocm ocm_pods ocm_log w = (Ret h, w') →
  h ≠ ""%string ∧
  (∃ w1 w2, get_image_hostname w1 = (Ret (Some h), w2)) ∧
  (∃ w3 w4 o c, get_ocm w3 = (Ret o, w4) ∧ observed_hostname o = Some h ∧
     find_first (λ c, String.eqb c.1 "Progressing") (ocm_conditions o) = Some c ∧ c.2 = "False"%string) ∧
  log_seen.
Proof.
  unfold WaitForInternalRegistryHostname. intros H.
  destruct (Poll _ _ _) as [[[]|e|m] s] eqn:E; [|destruct (bool_decide _); done|done].
  simplify_eq. apply (WaitFor_Ret_inv reg_inv) in E as (s0 & Hs0 & E);
    [|apply keeps_hostname_cond|done].
  apply or_wait_Ret in E as ([h|] & w1 & Hi & E); [|done].
  unfold gobind at 1, set_hostname, modw in E. cbn [reg_world foundOCMLogs isOCMProgressing] in E.
  destruct (Nat.eqb_spec (String.length h) 0) as [|Hne]; [done|].
  assert (h ≠ ""%string) as Hh by (by intros ->).
  apply or_wait_Ret in E as (o & w2 & Ho & E). destruct (observed_hostname o) as [h'|] eqn:Eh; [|done].
  destruct (String.eqb_spec h' h) as [->|]; [|done]. cbn [negb] in E.
  apply or_wait_Ret in E as (pods & w3 & Hp & E). cbn [reg_world registryHostname foundOCMLogs isOCMProgressing] in *.
  apply gobind_Ret_inv in E as ([] & s2 & Hsc & E).
  set (s1 := mkReg w3 h _ _) in Hsc.
  assert (reg_inv_at h s1) as Hi1 by done.
  pose proof (keeps_scan_pods h pods Hh s1 Hi1) as Hi2. rewrite Hsc in Hi2. cbn [snd] in Hi2.
  unfold gobind at 1, getw in E. destruct (foundOCMLogs s2) eqn:Ef; [|done]. cbn [negb] in E.
  pose proof (keeps_progressing_done h o s2 Hi2) as Hi3. rewrite E in Hi3. destruct Hi3 as [_ Hr].
  destruct Hi2 as [[Hlog Hpr] _]. unfold progressing_done, gobind at 1, getw in E.
  rewrite Hpr in E. cbn [negb] in E.
  destruct (find_first _ (ocm_conditions o)) as [c|] eqn:Ec; [|done].
  destruct (String.eqb_spec c.2 "False") as [Hc|]; [|done].
  cbn in Hr. rewrite Hr. split_and!; [done|eauto| |by apply Hlog].
  exists w1, w2, o, c. done.
Qed.
End RegistryProperties.

(** ** The log of an earlier hostname *)

(** Two ticks: the hostname changes, the log is still that of the first one. *)
Definition changing_image : go nat (option string) := λ n,
  (Ret (Some (if Nat.eqb n 0 then "old:5000" else "new:5000"))%string, n).
Definition changing_ocm : go nat ocm := λ n,
  (Ret (if Nat.eqb n 0 then mkOcm (Some "old:5000") [("Progressing", "True")]
        else mkOcm (Some "new:5000") [("Progressing", "False")])%string, S n).
Definition old_log : string :=
  "build_controller.go:1] Starting build controller" +:+ nl +:+ "build_controller.go:2] old:5000" +:+ nl.

Example WaitForInternalRegistryHostname_checked_witness :
  (WaitForInternalRegistryHostname changing_image changing_ocm (ret [done_pod]) (λ _, ret old_log) 0).1
    = Ret "new:5000"%string ∧
  scan_log "new:5000" false (ScanLines old_log) = false ∧
  log_seen (W := nat) (λ _, ret old_log).
Proof.
  destruct (WaitForInternalRegistryHostname changing_image changing_ocm (ret [done_pod])
              (λ _, ret old_log) 0) as [r n] eqn:E.
  assert (r = Ret "new:5000"%string) as ->
    by (apply (f_equal fst) in E; vm_compute in E; symmetry; exact E).
  split; [reflexivity|]. split; [vm_compute; reflexivity|].
  destruct (WaitForInternalRegistryHostname_checked _ _ _ _ _ _ _ E) as (_ & _ & _ & H). exact H.
Defined.
