(* ===== verification/Streams.v ===== *)
(** * test/extended/util/framework.go: image streams, deployments, endpoints

    The helpers that wait for an image stream, for the samples of the
    openshift namespace, for a deployment config and for an endpoint, and those
    that find an image of the cluster.  The API is a set of operations; a watch
    is the sequence of what it delivers; any operation may move the state on.
    Logging is left out. *)

From S2P Require Import Prelude.
From S2P Require Import GoStrings.
From S2P Require Import GoLib.
From S2P Require Import Waits.

(** ** Image streams *)

(** A tag of the spec with the kind and name of its source; a tag of the
    status with the references of its items. *)
Record spec_tag := mkSpecTag { STName : string; STFrom : option (string * string) }.
Record ImageStream := mkStream {
  ISName : string;
  ISVersion : string;
  ISAnnotations : gmap string string;
  DockerImageRepository : string;
  SpecTags : list spec_tag;
  StatusTags : list (string * list string)
}.

(* src: vendor/github.com/openshift/library-go/pkg/image/imageutil/helpers.go 225-233 StatusHasTag *)
Definition StatusHasTag (s : ImageStream) (name : string) : option (list string) :=
  snd <$> find_first (λ t, String.eqb t.1 name) (StatusTags s).

(* src: test/extended/util/framework.go 1070-1074 CheckImageStreamLatestTagPopulated *)
Definition CheckImageStreamLatestTagPopulated (i : ImageStream) : bool :=
  if StatusHasTag i "latest" then true else false.

Definition check_annotation (i : ImageStream) : string :=
  default "" (ISAnnotations i !! "openshift.io/image.dockerRepositoryCheck"%string).

(* src: test/extended/util/framework.go 1076-1080 CheckImageStreamTagNotFound *)
Definition CheckImageStreamTagNotFound (i : ImageStream) : bool :=
  Contains (check_annotation i) "not" || Contains (check_annotation i) "error".

(** What the loop meets: a list with its answer, and, when nothing in it
    decides, a watch with what it delivers until it is closed ([None]: an
    object that is not an image stream).  Each stream comes with the time at
    which the conditions are evaluated. *)
Record stream_round := mkRound {
  listed : list (time * ImageStream) + error;
  watch_error : option error;
  delivered : list (time * option ImageStream)
}.

Section WaitStream.
Variables isOK isFailed : time → ImageStream → bool.

Definition stream_failed (name : string) (i : ImageStream) : error :=
  Errorf ("The image stream " +:+ Quote name +:+ " status is " +:+ Quote (check_annotation i)).

(** One stream. *)
Definition judge (name : string) (t : time) (i : ImageStream) : option (unit + error) :=
  if isOK t i then Some (inl tt)
  else if isFailed t i then Some (inr (stream_failed name i)) else None.

(* src: test/extended/util/framework.go 997-1005 WaitForAnImageStream (list) *)
Fixpoint scan_list (name : string) (l : list (time * ImageStream)) : option (unit + error) :=
  match l with
  | [] => None
  | (t, i) :: l' => match judge name t i with Some r => Some r | None => scan_list name l' end
  end.

(* src: test/extended/util/framework.go 1014-1029 WaitForAnImageStream (watch) *)
Fixpoint scan_watch (name : string) (l : list (time * option ImageStream)) : option (unit + error) :=
  match l with
  | [] => None
  | (t, Some i) :: l' => match judge name t i with Some r => Some r | None => scan_watch name l' end
  | (_, None) :: l' => scan_watch name l'
  end.

(** A closed watch is followed by another list; the loop ends with the input
    when it is still waiting. *)
(* src: test/extended/util/framework.go 988-1031 WaitForAnImageStream *)
Fixpoint WaitForAnImageStream (name : string) (rounds : list stream_round) : option (unit + error) :=
  match rounds with
  | [] => None
  | r :: rounds' =>
      match listed r with
      | inr e => Some (inr e)
      | inl items =>
          match scan_list name items with
          | Some v => Some v
          | None =>
              match watch_error r with
              | Some e => Some (inr e)
              | None =>
                  match scan_watch name (delivered r) with
                  | Some v => Some v
                  | None => WaitForAnImageStream name rounds'
                  end
              end
          end
      end
  end.

(** What is met, in order: a stream, or an error of the API. *)
Inductive met := Saw (t : time) (i : ImageStream) | Broke (e : error).

Definition met_round (r : stream_round) : list met :=
  match listed r with
  | inr e => [Broke e]
  | inl items =>
      map (λ x, Saw x.1 x.2) items ++
      match watch_error r with
      | Some e => [Broke e]
      | None => omap (λ x, Saw x.1 <$> x.2) (delivered r)
      end
  end.

Definition decides (name : string) (m : met) : option (unit + error) :=
  match m with Saw t i => judge name t i | Broke e => Some (inr e) end.

Lemma head_omap_app {A B} (f : A → option B) l1 l2 :
  head (omap f (l1 ++ l2)) = match head (omap f l1) with Some x => Some x | None => head (omap f l2) end.
Proof. induction l1 as [|a l1 IH]; cbn; [done|]. by destruct (f a). Qed.

Lemma scan_list_met name l : scan_list name l = head (omap (decides name) (map (λ x, Saw x.1 x.2) l)).
Proof. induction l as [|[t i] l IH]; cbn; [done|]. by destruct (judge name t i). Qed.

Lemma scan_watch_met name l :
  scan_watch name l = head (omap (decides name) (omap (λ x, Saw x.1 <$> x.2) l)).
Proof. induction l as [|[t [i|]] l IH]; cbn; [done| |done]. by destruct (judge name t i). Qed.

(** The wait for an image stream ends with the first thing it meets that
    decides, over all the lists and watches: a stream that is right, a stream
    that failed, or an error of the API; a watch that is closed only leads to
    the next list. *)
Theorem WaitForAnImageStream_first name rounds :
  WaitForAnImageStream name rounds = head (omap (decides name) (concat (map met_round rounds))).
Proof.
  induction rounds as [|r rounds IH]; cbn [WaitForAnImageStream map concat]; [done|].
  rewrite head_omap_app, <- IH. unfold met_round.
  destruct (listed r) as [items|e]; [|done]. rewrite head_omap_app, <- scan_list_met.
  destruct (scan_list name items); [done|]. destruct (watch_error r); [done|].
  by rewrite <- scan_watch_met.
Qed.
End WaitStream.

(** The wait runs in a goroutine; the first of its result and of the timer is
    taken, and with [timer_first] the result is not waited for any more. *)
(* src: test/extended/util/framework.go 1033-1068 WaitForAnImageStreamTag, TimedWaitForAnImageStreamTag *)
Definition TimedWaitForAnImageStreamTag (start : time) (waitTimeout : duration) (namespace name tag : string)
    (rounds : list stream_round) (timer_first : bool) : option (unit + error) :=
  if timer_first then
    Some (inr (Errorf ("timed out while waiting of an image stream tag " +:+ namespace +:+ "/" +:+ name +:+ ":" +:+ tag)))
  else
    WaitForAnImageStream
      (λ _ s, match StatusHasTag s tag with Some (_ :: _) => true | _ => false end)
      (λ now _, After now (start + waitTimeout)%Z)
      name rounds.

Section Images.
Context {W : Type}.
Variable get_stream : string → string → go W ImageStream.   (* namespace, name *)

(* src: test/extended/util/framework.go 1327-1339 GetDockerImageReference *)
Definition GetDockerImageReference (ns name tag : string) : go W string :=
  (s <-! get_stream ns name ;;
   match StatusHasTag s tag with
   | None => fail (Errorf ("ImageStream " +:+ Quote name +:+ " does not have tag " +:+ Quote tag))
   | Some [] => gopanic "index out of range"
   | Some (r :: _) => ret r
   end)%go.

(** ** The samples of the openshift namespace *)

Definition langs : list string :=
  ["ruby"; "nodejs"; "perl"; "php"; "python"; "mysql"; "postgresql"; "mongodb"; "jenkins"].

(** A condition of the samples operator, and an import of image streams. *)
Record op_cond := mkCond { OType : string; OStatus : string; OReason : string; OMessage : string }.
Record stream_import := mkImport {
  IName : string; INamespace : string; IVersion : string; Images : list ((string * string) * string)
}.

Variable get_samples : go W (list op_cond).
Variable create_import : stream_import → go W unit.

(* src: test/extended/util/framework.go 225-228 WaitForOpenShiftNamespaceImageStreams (language of a message) *)
Definition names_lang (msg lang : string) : bool :=
  Contains msg (" " +:+ lang +:+ " ") || HasSuffix msg (" " +:+ lang).

(* src: test/extended/util/framework.go 235-249 WaitForOpenShiftNamespaceImageStreams (import) *)
Definition import_of (lang : string) (s : ImageStream) : stream_import :=
  mkImport lang "openshift" (ISVersion s)
    (omap (λ t, match STFrom t with
                | Some (k, n) => if String.eqb k "DockerImage" then Some ((k, n), STName t) else None
                | None => None
                end) (SpecTags s)).

(** The import of the first language of the message is submitted again; its
    error is only logged. *)
(* src: test/extended/util/framework.go 224-256 WaitForOpenShiftNamespaceImageStreams (failed import) *)
Definition retry_import (lang : string) : go W unit :=
  (r <-! try (get_stream "openshift" lang) ;;
   match r with
   | inr _ => ret tt
   | inl s => try (create_import (import_of lang s)) ;;! ret tt
   end)%go.

(** Whether the scan goes on after the conditions. *)
(* src: test/extended/util/framework.go 214-270 WaitForOpenShiftNamespaceImageStreams (conditions) *)
Fixpoint scan_conditions (l : list op_cond) : go W bool :=
  match l with
  | [] => ret true
  | c :: l' =>
      if String.eqb (OType c) "Degraded" && String.eqb (OStatus c) "True" then ret false
      else if String.eqb (OType c) "Progressing" then
        match (if String.eqb (OReason c) "FailedImageImports"
               then find_first (names_lang (OMessage c)) langs else None) with
        | Some lang => (retry_import lang ;;! ret false)%go
        | None => if String.eqb (OStatus c) "True" then ret false else scan_conditions l'
        end
      else if String.eqb (OType c) "Available" && String.eqb (OStatus c) "False" then ret false
      else scan_conditions l'
  end.

Definition stream_imported (registryHostname : string) (s : ImageStream) : bool :=
  HasPrefix (DockerImageRepository s) registryHostname &&
  forallb (λ t, if StatusHasTag s (STName t) then true else false) (SpecTags s).

(* src: test/extended/util/framework.go 271-290 WaitForOpenShiftNamespaceImageStreams (streams) *)
Fixpoint scan_streams (registryHostname : string) (l : list string) : go W bool :=
  match l with
  | [] => ret true
  | lang :: l' =>
      (r <-! try (get_stream "openshift" lang) ;;
       match r with
       | inr _ => ret false
       | inl s => if stream_imported registryHostname s then scan_streams registryHostname l' else ret false
       end)%go
  end.

(* src: test/extended/util/framework.go 207-291 WaitForOpenShiftNamespaceImageStreams (scan) *)
Definition scan (registryHostname : string) : go W bool :=
  (r <-! try get_samples ;;
   match r with
   | inr _ => ret false
   | inl conds =>
       ok <-! scan_conditions conds ;;
       if ok : bool then scan_streams registryHostname langs else ret false
   end)%go.

(** [hostname] is the wait for the hostname of the registry, [dump] the two
    dumps after a failure.  The error of the poll is dropped: what counts is the
    last scan.  Nothing happens between the operations, but an operation may take
    the server to any state, so what others do to the cluster in the meantime is
    part of the operations. *)
(* src: test/extended/util/framework.go 198-312 WaitForOpenShiftNamespaceImageStreams *)
Definition WaitForOpenShiftNamespaceImageStreams (hostname : go W string) (dump : go W unit) : go W unit :=
  (registryHostname <-! hostname ;;
   r <-! try (Poll (ticks_of (10 * Second) (150 * Second)) (scan registryHostname)) ;;
   match r with
   | inl _ => ret tt
   | inr _ => dump ;;! fail (Errorf "Failed to import expected imagestreams")
   end)%go.

(** ** When the samples are ready *)

(** A condition that lets the scan go on. *)
Definition steady (c : op_cond) : bool :=
  negb (String.eqb (OType c) "Degraded" && String.eqb (OStatus c) "True") &&
  negb (String.eqb (OType c) "Available" && String.eqb (OStatus c) "False") &&
  negb (String.eqb (OType c) "Progressing" &&
        (String.eqb (OStatus c) "True" ||
         String.eqb (OReason c) "FailedImageImports" && existsb (names_lang (OMessage c)) langs)).

(** What a steady condition says, with the languages written out. *)
Definition languages : list string :=
  ["ruby"; "nodejs"; "perl"; "php"; "python"; "mysql"; "postgresql"; "mongodb"; "jenkins"].
Definition condition_settled (c : op_cond) : Prop :=
  ¬ (OType c = "Degraded" ∧ OStatus c = "True") ∧
  ¬ (OType c = "Available" ∧ OStatus c = "False") ∧
  (OType c = "Progressing" → OStatus c ≠ "True" ∧
     (OReason c = "FailedImageImports" → ∀ lang, lang ∈ languages →
        Contains (OMessage c) (" " +:+ lang +:+ " ") = false ∧ HasSuffix (OMessage c) (" " +:+ lang) = false)).

(** A stream is in the repository of the registry, and each tag of its spec has
    a tag in its status. *)
Definition imported (registryHostname : string) (s : ImageStream) : Prop :=
  HasPrefix (DockerImageRepository s) registryHostname = true ∧
  ∀ t, t ∈ SpecTags s → ∃ refs, (STName t, refs) ∈ StatusTags s.

(** The streams of a list of names are read one after the other, each in the
    state the read before left. *)
Fixpoint streams_read (names : list string) (w : W) (l : list ImageStream) (w' : W) : Prop :=
  match names, l with
  | [], [] => w' = w
  | n :: names', s :: l' => ∃ v, get_stream "openshift" n w = (Ret s, v) ∧ streams_read names' v l' w'
  | _, _ => False
  end.

Definition samples_ready (registryHostname : string) (w w' : W) : Prop :=
  ∃ conds w1 l, get_samples w = (Ret conds, w1) ∧ Forall condition_settled conds ∧
    streams_read languages w1 l w' ∧ Forall (imported registryHostname) l.

Lemma steady_settled c : steady c = true → condition_settled c.
Proof.
  unfold steady, condition_settled. rewrite !andb_true_iff, !negb_true_iff, !andb_false_iff, !String.eqb_neq.
  intros [[H1 H2] H3]. split_and!; [naive_solver..|]. intros Hp.
  destruct H3 as [H3|H3]; [by rewrite Hp in H3|]. apply orb_false_iff in H3 as [Hs H3].
  apply String.eqb_neq in Hs. split; [done|]. intros Hr lang Hl. rewrite Hr in H3. cbn [andb String.eqb] in H3.
  change (existsb (names_lang (OMessage c)) languages = false) in H3.
  destruct (names_lang (OMessage c) lang) eqn:E.
  - assert (existsb (names_lang (OMessage c)) languages = true) as Ht
      by (apply existsb_exists; exists lang; by rewrite <- list_elem_of_In).
    by rewrite Ht in H3.
  - unfold names_lang in E. by apply orb_false_iff in E.
Qed.

Lemma stream_imported_spec host s : stream_imported host s = true → imported host s.
Proof.
  unfold stream_imported, imported. rewrite andb_true_iff. intros [H1 H2]. split; [done|]. intros t Ht.
  rewrite forallb_elem_of in H2. specialize (H2 t Ht). unfold StatusHasTag in H2.
  destruct (find_first _ (StatusTags s)) as [[n refs]|] eqn:E; [|done].
  apply find_first_Some in E as [Hin He]. apply String.eqb_eq in He. cbn in He. subst n. by exists refs.
Qed.

Lemma find_first_existsb {A} (p : A → bool) l : find_first p l = None → existsb p l = false.
Proof. induction l as [|a l IH]; cbn; [done|]. by destruct (p a). Qed.

Lemma retry_import_true lang w w' : (retry_import lang ;;! ret false)%go w ≠ (Ret true, w').
Proof. intros H. by apply gobind_Ret_inv in H as ([] & w1 & _ & [=]). Qed.

Lemma scan_conditions_true l w w' :
  scan_conditions l w = (Ret true, w') → w' = w ∧ Forall (λ c, steady c = true) l.
Proof.
  revert w. induction l as [|c l IH]; intros w; cbn [scan_conditions].
  { intros [= <-]. split; [done|constructor]. }
  destruct (String.eqb (OType c) "Degraded" && String.eqb (OStatus c) "True") eqn:Ed; [done|].
  destruct (String.eqb (OType c) "Progressing") eqn:Ep.
  - apply String.eqb_eq in Ep.
    destruct (String.eqb (OReason c) "FailedImageImports") eqn:Er;
      [destruct (find_first (names_lang (OMessage c)) langs) eqn:Ef|].
    + intros H. by apply retry_import_true in H.
    + destruct (String.eqb (OStatus c) "True") eqn:Es; [done|]. intros H.
      destruct (IH _ H) as [-> Hl]. split; [done|]. constructor; [|done].
      unfold steady. rewrite Ep, Es, (find_first_existsb _ _ Ef). cbn. by rewrite andb_false_r.
    + destruct (String.eqb (OStatus c) "True") eqn:Es; [done|]. intros H.
      destruct (IH _ H) as [-> Hl]. split; [done|]. constructor; [|done].
      unfold steady. by rewrite Ep, Es, Er.
  - destruct (String.eqb (OType c) "Available" && String.eqb (OStatus c) "False") eqn:Ea; [done|].
    intros H. destruct (IH _ H) as [-> Hl]. split; [done|]. constructor; [|done].
    unfold steady. by rewrite Ed, Ea, Ep.
Qed.

Lemma scan_streams_true host names w w' :
  scan_streams host names w = (Ret true, w') →
  ∃ l, streams_read names w l w' ∧ Forall (imported host) l.
Proof.
  revert w. induction names as [|n names IH]; intros w; cbn [scan_streams].
  { intros [= <-]. by exists []. }
  intros H. apply gobind_Ret_inv in H as (r & w1 & Ht & H). unfold try in Ht.
  destruct (get_stream "openshift" n w) as [[s|e|p] w2] eqn:Es; [|by injection Ht as <- <-|done].
  injection Ht as <- <-. destruct (stream_imported host s) eqn:Ei; [|done].
  destruct (IH _ H) as (l & Hl & Hf). exists (s :: l). split; [by exists w2|].
  constructor; [by apply stream_imported_spec|done].
Qed.

Lemma scan_true host w w' : scan host w = (Ret true, w') → samples_ready host w w'.
Proof.
  unfold scan. intros H. apply gobind_Ret_inv in H as (r & w1 & Ht & H). unfold try in Ht.
  destruct (get_samples w) as [[conds|e|p] w2] eqn:Es; [|by injection Ht as <- <-|done].
  injection Ht as <- <-. apply gobind_Ret_inv in H as (ok & w3 & Hc & H). destruct ok; [|done].
  destruct (scan_conditions_true _ _ _ Hc) as [-> Hs]. destruct (scan_streams_true _ _ _ _ H) as (l & Hl & Hf).
  exists conds, w2, l. split_and!; [done| |exact Hl|done].
  eapply Forall_impl; [exact Hs|]. intros c. apply steady_settled.
Qed.

(** C23: when the wait for the samples succeeds, its last scan, whose last read
    leaves the state the wait ends in, has seen them ready.  It read the
    conditions of the samples operator: none is Degraded, none says it is not
    available, and one of type Progressing is not True and does not report a
    failed import that names one of the nine languages.  It then read the stream
    of each of the nine languages, in this order, and each is in the repository
    of the registry (the hostname the wait was given first) with a tag in its
    status for every tag of its spec.  Each read is in the state the one before
    left, which it may have moved on: nothing says that the cluster stands
    still. *)
Theorem samples_wait_ready hostname dump w w' :
  WaitForOpenShiftNamespaceImageStreams hostname dump w = (Ret tt, w') →
  ∃ host w0 conds w1 l, fst (hostname w) = Ret host ∧
    get_samples w0 = (Ret conds, w1) ∧ Forall condition_settled conds ∧
    streams_read ["ruby"; "nodejs"; "perl"; "php"; "python"; "mysql"; "postgresql"; "mongodb"; "jenkins"]
      w1 l w' ∧
    Forall (λ s, HasPrefix (DockerImageRepository s) host = true ∧
                 ∀ t, t ∈ SpecTags s → ∃ refs, (STName t, refs) ∈ StatusTags s) l.
Proof.
  unfold WaitForOpenShiftNamespaceImageStreams. intros H.
  apply gobind_Ret_inv in H as (host & wh & Hh & H). exists host. rewrite Hh.
  apply gobind_Ret_inv in H as (r & w2 & Ht & H). unfold try in Ht.
  destruct (Poll _ _ wh) as [[[]|e|p] w3] eqn:Ep; [| |done].
  - injection Ht as <- <-. injection H as <-.
    apply (WaitFor_Ret_inv (λ _, True)) in Ep as (w0 & _ & Hs); [|done..].
    apply scan_true in Hs as (conds & w1 & l & Hs). by exists w0, conds, w1, l.
  - injection Ht as <- <-. by apply gobind_Ret_inv in H as ([] & ? & _ & ?).
Qed.

Lemma scan_steady_prefix l1 l2 w :
  Forall (λ c, steady c = true) l1 → scan_conditions (l1 ++ l2) w = scan_conditions l2 w.
Proof.
  induction 1 as [|c l1 Hc _ IH]; [done|]. cbn [app scan_conditions]. unfold steady in Hc.
  rewrite !andb_true_iff, !negb_true_iff in Hc. destruct Hc as [[-> ->] Hp].
  destruct (String.eqb (OType c) "Progressing") eqn:Ep; [|done].
  rewrite andb_true_l in Hp. apply orb_false_iff in Hp as [-> Hp].
  destruct (String.eqb (OReason c) "FailedImageImports"); [|done]. rewrite andb_true_l in Hp.
  assert (find_first (names_lang (OMessage c)) langs = None) as ->; [|done].
  destruct (find_first _ _) as [x|] eqn:Ef; [|done]. apply find_first_Some in Ef as [Hin Hx].
  assert (existsb (names_lang (OMessage c)) langs = true) as E; [|by rewrite E in Hp].
  apply existsb_exists. exists x. by rewrite <- list_elem_of_In.
Qed.

(** A failed import of one of the languages is submitted again once by a scan,
    with the tags of the stream that have an image as their source, and the
    scan fails. *)
Theorem failed_import_resubmitted host w pre c post lang s :
  get_samples w = (Ret (pre ++ c :: post), w) → Forall (λ c, steady c = true) pre →
  OType c = "Progressing" → OReason c = "FailedImageImports" →
  find_first (names_lang (OMessage c)) langs = Some lang →
  get_stream "openshift" lang w = (Ret s, w) →
  (∀ p, fst (create_import (import_of lang s) w) ≠ Panic p) →
  scan host w = (Ret false, snd (create_import (import_of lang s) w)).
Proof.
  intros Hc Hpre Ht Hr Hl Hs Hp. unfold scan. unfold gobind at 1, try at 1. rewrite Hc.
  unfold gobind at 1. rewrite scan_steady_prefix by done. cbn [scan_conditions].
  rewrite Ht, Hr. cbn [String.eqb Ascii.eqb Bool.eqb andb]. rewrite Hl.
  unfold gobind at 1, retry_import, gobind at 1, try at 1. rewrite Hs.
  unfold gobind at 1, try at 1. specialize (Hp). destruct (create_import _ w) as [[[]|e|p] w1]; [done|done|].
  by destruct (Hp p).
Qed.
End Images.

(** ** Deployment configs *)

(** The conditions of a deployment config: type, status and reason. *)
Record dc_state := mkDc {
  DcName : string; LatestVersion : Z; DcConds : list (string * string * string)
}.

(** The last condition of a type. *)
Definition last_cond (ty : string) (l : list (string * string * string)) : option (string * string) :=
  (λ c, (c.1.2, c.2)) <$> last (bfilter (λ c, String.eqb c.1.1 ty) l).

(* src: test/extended/util/framework.go 1101-1140 WaitForDeploymentConfig (condition) *)
Definition dc_available (version : Z) (enforceNotProgressing : bool) (dc : dc_state) : bool + error :=
  if (LatestVersion dc <? version)%Z then inl false
  else
    let progressing := last_cond "Progressing" (DcConds dc) in
    let available := last_cond "Available" (DcConds dc) in
    let not_progressing := match progressing with Some (s, _) => String.eqb s "False" | None => false end in
    if enforceNotProgressing && not_progressing then inr (Errorf "not progressing")
    else match progressing, available with
         | Some (ps, pr), Some (av, _) =>
             inl (String.eqb ps "True" && String.eqb pr "NewReplicationControllerAvailable" &&
                  String.eqb av "True")
         | _, _ => inl false
         end.

Section Deployment.
Context {W : Type}.
Variable get_dc : string → go W dc_state.
Variable get_pods : string → go W (list string).      (* by a label selector *)
Variable dump : string → go W unit.                   (* of the config with that name *)

(** The variable that holds the config is read after the poll. *)
Definition dc_cond (name : string) (version : Z) (enforce : bool) : go (W * dc_state) bool := λ '(w, dc),
  match get_dc name w with
  | (Ret dc', w') =>
      (match dc_available version enforce dc' with inl b => Ret b | inr e => Fail e end, (w', dc'))
  | (Fail e, w') => (Fail e, (w', mkDc "" 0 []))
  | (Panic p, w') => (Panic p, (w', dc))
  end.

(* src: test/extended/util/framework.go 1082-1158 WaitForDeploymentConfig *)
Definition WaitForDeploymentConfig (name : string) (version : Z) (enforce : bool) : go W unit := λ w,
  match Poll (ticks_of Second (15 * Minute)) (dc_cond name version enforce) (w, mkDc "" 0 []) with
  | (Ret _, (w', dc)) =>
      (get_pods ("deployment=" +:+ DcName dc +:+ "-" +:+ itoa (LatestVersion dc)) ;;! ret tt)%go w'
  | (Fail e, (w', dc)) => (dump (DcName dc) ;;! fail e)%go w'
  | (Panic p, (w', _)) => (Panic p, w')
  end.

(** What the wait waits for. *)
Definition rolled_out (version : Z) (dc : dc_state) : Prop :=
  (version ≤ LatestVersion dc)%Z ∧
  last_cond "Progressing" (DcConds dc) = Some ("True", "NewReplicationControllerAvailable")%string ∧
  ∃ r, last_cond "Available" (DcConds dc) = Some ("True"%string, r).

Lemma dc_available_true version enforce dc :
  dc_available version enforce dc = inl true → rolled_out version dc.
Proof.
  unfold dc_available. destruct (Z.ltb_spec (LatestVersion dc) version); [done|].
  destruct (enforce && _); [done|].
  destruct (last_cond "Progressing" _) as [[ps pr]|] eqn:Ep; [|done].
  destruct (last_cond "Available" _) as [[av ar]|] eqn:Ea; [|done].
  intros [= H1]. rewrite !andb_true_iff, !String.eqb_eq in H1. destruct H1 as [[-> ->] ->].
  split_and!; [done|done|by exists ar].
Qed.

Lemma rolled_out_available version enforce dc :
  rolled_out version dc → dc_available version enforce dc = inl true.
Proof.
  intros (Hv & Hp & r & Ha). unfold dc_available. destruct (Z.ltb_spec (LatestVersion dc) version); [lia|].
  rewrite Hp, Ha. cbn. by rewrite andb_false_r.
Qed.

(** The wait for a deployment config ends well only on a config of that name
    that was read with at least the version, its newest controller available;
    the pods that are then listed are those of the version it had. *)
Theorem WaitForDeploymentConfig_rolled_out name version enforce w w' :
  WaitForDeploymentConfig name version enforce w = (Ret tt, w') →
  ∃ w0 dc w1, get_dc name w0 = (Ret dc, w1) ∧ rolled_out version dc ∧
    ∃ pods, get_pods ("deployment=" +:+ DcName dc +:+ "-" +:+ itoa (LatestVersion dc)) w1 = (Ret pods, w').
Proof.
  unfold WaitForDeploymentConfig. intros H.
  destruct (Poll _ _ _) as [[[]|e|p] [w1 dc]] eqn:Ep; [| |done].
  - apply (WaitFor_Ret_inv (λ _, True)) in Ep as ([w0 dc0] & _ & Hc); [|done..]. cbn in Hc.
    destruct (get_dc name w0) as [[dc'|e|p] w2] eqn:Eg; [|done..].
    destruct (dc_available version enforce dc') as [b|e] eqn:Ea; [|done]. injection Hc as -> -> ->.
    apply gobind_Ret_inv in H as (pods & w3 & Hp & [= <-]). exists w0, dc, w1.
    split; [done|]. split; [by eapply dc_available_true|]. by exists pods.
  - by apply gobind_Ret_inv in H as ([] & ? & _ & ?).
Qed.
End Deployment.

(** ** Endpoints *)

(** The subsets of an endpoint: the addresses and the ports. *)
Notation endpoint := (list (list string * list Z)) (only parsing).

(** [len(endpoint.Subsets) == 0 || len(endpoint.Subsets[0].Addresses) == 0] fails. *)
Definition has_address (e : endpoint) : bool :=
  match e with (_ :: _, _) :: _ => true | _ => false end.

(** A turn: the time since the start at the head of the loop, and the answer.
    Any other error than not-found ends the test.  The loop ends with the input
    when it is still polling. *)
(* src: test/extended/util/framework.go 1525-1541 WaitForEndpoint *)
Fixpoint WaitForEndpoint (ns name : string) (turns : list (duration * (endpoint + error)))
  : option (outcome unit) :=
  match turns with
  | [] => None
  | (since, answer) :: turns' =>
      if (since <? 3 * Minute)%Z then
        match answer with
        | inr e => if is_kind KNotFound e then WaitForEndpoint ns name turns' else Some (Panic (err_msg e))
        | inl e => if has_address e then Some (Ret tt) else WaitForEndpoint ns name turns'
        end
      else Some (Fail (Errorf ("Failed to get endpoints for " +:+ ns +:+ "/" +:+ name)))
  end.

(** The endpoint is read again after the wait. *)
(* src: test/extended/util/framework.go 1543-1554 GetEndpointAddress *)
Definition GetEndpointAddress (ns name : string) (turns : list (duration * (endpoint + error)))
    (again : endpoint + error) : option (outcome string) :=
  match WaitForEndpoint ns name turns with
  | None => None
  | Some (Fail e) => Some (Fail e)
  | Some (Panic p) => Some (Panic p)
  | Some (Ret _) =>
      match again with
      | inr e => Some (Fail e)
      | inl ((ip :: _, port :: _) :: _) => Some (Ret (ip +:+ ":" +:+ itoa port))
      | inl _ => Some (Panic "index out of range")
      end
  end.

(** The loop ends: when the time runs out, or at the first answer that
    decides. *)
Lemma WaitForEndpoint_ends ns name l1 since answer l2 :
  (3 * Minute <= since)%Z → is_Some (WaitForEndpoint ns name (l1 ++ (since, answer) :: l2)).
Proof.
  intros Hs. induction l1 as [|[d a] l1 IH]; cbn [app WaitForEndpoint].
  - destruct (Z.ltb_spec since (3 * Minute)); [lia|done].
  - destruct (d <? 3 * Minute)%Z; [|done]. destruct a as [e|e].
    + by destruct (has_address e).
    + by destruct (is_kind KNotFound e).
Qed.

(** An endpoint that is ready may have no port: the wait succeeds and the
    address cannot be taken. *)
Lemma GetEndpointAddress_no_port ns name ip d :
  (d < 3 * Minute)%Z →
  GetEndpointAddress ns name [(d, inl [([ip], [])])] (inl [([ip], [])]) = Some (Panic "index out of range").
Proof. intros Hd. unfold GetEndpointAddress. cbn [WaitForEndpoint]. apply Z.ltb_lt in Hd. by rewrite Hd. Qed.

(** ** Authorization *)

(** The user is allowed: the review is created with the administrator's
    client. *)
(* src: test/extended/util/framework.go 1795-1823 WaitForUserBeAuthorized *)
Definition WaitForUserBeAuthorized {W} (review : go W bool) : go W unit :=
  PollImmediate (ticks_of Second Minute) review.

(** ** The images of a cluster *)

Section Template.
Context {W : Type}.
(** The image of the first container of a deployment config or a deployment. *)
Variable router_image : string → string → string → go W string.   (* kind, namespace, name *)

(** What is looked at in a namespace. *)
Definition candidates : list (string * string * string) :=
  concat (map (λ ns, [("deploymentconfigs", ns, "router"); ("deployments", ns, "router");
                      ("deployments", ns, "router-default")]%string)
            ["default"; "openshift-ingress"; "tectonic-ingress"]%string).

Fixpoint first_found (l : list (string * string * string)) : go W (string * string) :=
  match l with
  | [] => fail (Err KNotFound ("deploymentconfigs.apps.openshift.io " +:+ Quote "router" +:+ " not found"))
  | (kind, ns, name) :: l' =>
      (r <-! try (router_image kind ns name) ;;
       match r with
       | inl t => ret (t, ns)
       | inr e => if is_kind KNotFound e then first_found l' else fail e
       end)%go
  end.

(* src: test/extended/util/framework.go 1825-1854 GetRouterPodTemplate *)
Definition GetRouterPodTemplate : go W (string * string) := first_found candidates.

Definition no_format : string := "openshift/origin-${component}:latest".

(* src: test/extended/util/framework.go 1856-1870 FindImageFormatString *)
Definition FindImageFormatString : go W (string * bool) :=
  (r <-! try GetRouterPodTemplate ;;
   match r with
   | inl (image, _) =>
       if Contains image "haproxy-router" then ret (Replace image "haproxy-router" "${component}", true)
       else ret (no_format, false)
   | inr _ => ret (no_format, false)
   end)%go.

Variable get_cli_stream : go W ImageStream.

(* src: test/extended/util/framework.go 1872-1885 FindCLIImage *)
Definition FindCLIImage : go W (string * bool) :=
  (r <-! try get_cli_stream ;;
   match match r with
         | inl s => find_first (λ t, String.eqb (STName t) "latest" &&
                      match STFrom t with Some (k, _) => String.eqb k "DockerImage" | None => false end)
                      (SpecTags s)
         | inr _ => None
         end with
   | Some t => ret (default "" (snd <$> STFrom t), true)
   | None =>
       f <-! FindImageFormatString ;;
       ret (Replace (fst f) "${component}" "cli", snd f)
   end)%go.
End Template.

(* src: test/extended/util/framework.go 1887-1899 FindRouterImage *)
Definition FindRouterImage {W} (versions : go W (list (string * string))) : go W string :=
  (l <-! versions ;;
   match find_first (λ v, String.eqb v.1 "ingress-controller") l with
   | Some v => ret v.2
   | None => fail (Errorf "expected to find ingress-controller version on clusteroperators/ingress")
   end)%go.

(** A router image that is found is that of the first candidate there is: the
    ones before were not there. *)
Lemma first_found_spec {W} (get : string → string → string → go W string) l w t ns w' :
  first_found get l w = (Ret (t, ns), w') →
  ∃ l1 kind name l2 w1, l = l1 ++ (kind, ns, name) :: l2 ∧ get kind ns name w1 = (Ret t, w') ∧
    Forall (λ c, ∃ v e, fst (get c.1.1 c.1.2 c.2 v) = Fail e ∧ is_kind KNotFound e = true) l1.
Proof.
  revert w. induction l as [|[[kind ns0] name] l IH]; intros w; cbn [first_found]; [done|].
  intros H. apply gobind_Ret_inv in H as (r & w1 & Ht & H). unfold try in Ht.
  destruct (get kind ns0 name w) as [[t0|e|p] w2] eqn:Eg; [| |done]; injection Ht as <- <-.
  - injection H as -> -> ->. exists [], kind, name, l, w. split_and!; [done|done|constructor].
  - destruct (is_kind KNotFound e) eqn:Ek; [|done].
    destruct (IH _ H) as (l1 & k & n & l2 & w3 & -> & Hg & Hl).
    exists ((kind, ns0, name) :: l1), k, n, l2, w3. split_and!; [done|done|].
    constructor; [|done]. exists w, e. cbn. by rewrite Eg.
Qed.

(** ** A cluster whose samples become ready *)

(** The state counts the scans; before the second the operator reports a failed
    import of ruby, which is submitted again. *)
Definition ruby_failed : list op_cond :=
  [mkCond "Available" "True" "" ""; mkCond "Progressing" "False" "FailedImageImports" "imports failed: ruby "].
Definition ready_stream (n : string) : ImageStream :=
  mkStream n "1" ∅ ("registry:5000/openshift/" +:+ n) [mkSpecTag "latest" (Some ("DockerImage", "r"))%string]
    [("latest", ["r"])]%string.
Definition sample_world := list stream_import.

Definition demo_samples : go sample_world (list op_cond) := λ w,
  (Ret (match w with [] => ruby_failed | _ => [mkCond "Progressing" "False" "" ""] end), w).
Definition demo_stream (ns n : string) : go sample_world ImageStream := λ w, (Ret (ready_stream n), w).
Definition demo_import (i : stream_import) : go sample_world unit := λ w, (Ret tt, w ++ [i]).

Example samples_wait_ready_witness :
  let r := WaitForOpenShiftNamespaceImageStreams demo_stream demo_samples demo_import
             (ret "registry:5000"%string) (ret tt) [] in
  r = (Ret tt, [mkImport "ruby" "openshift" "1" [(("DockerImage", "r"), "latest")]])%string ∧
  ∃ l : list ImageStream, length l = 9 ∧
    Forall (λ s, HasPrefix (DockerImageRepository s) "registry:5000" = true) l.
Proof.
  intros r. assert (r = (Ret tt, [mkImport "ruby" "openshift" "1" [(("DockerImage", "r"), "latest")]])%string) as E
    by (vm_compute; reflexivity).
  split; [exact E|].
  destruct (samples_wait_ready demo_stream demo_samples demo_import
    (ret "registry:5000"%string) (ret tt) [] (snd r)) as (host & w0 & conds & w1 & l & Hh & _ & _ & Hl & Hf);
    [rewrite E; exact E|].
  injection Hh as <-. exists l. split.
  - do 9 (destruct l as [|? l]; [cbn in Hl; naive_solver|]). destruct l; [done|cbn in Hl; naive_solver].
  - eapply Forall_impl; [exact Hf|]. by intros s [H _].
Defined.
