(* ===== verification/Deployments.v ===== *)
(** * test/extended/deployments/util.go: rollouts and their invariants

    What the deployment tests assert of a cluster: the invariants of the
    deployer pods and of the replication controllers of a deployment config,
    the conditions a test waits for, the waits on watches, and the checker that
    follows the deployer pods of a namespace through a watch.

    Objects are values: the code never writes to the ones it was given.  An
    assertion of Gomega that fails is a [Panic].  The functions of appsutil
    (openshift/library-go) that read annotations are translated too; its
    generator of pod names and its wait for a deployer pod are parameters. *)

From S2P Require Import Prelude.
From S2P Require Import GoStrings.
From S2P Require Import GoLib.
From S2P Require Import KubeTypes.

(** ** Objects *)

Record ReplicationController := mkRC {
  RCMeta : ObjectMeta;
  RCSpecReplicas : option Z;
  RCStatusReplicas : Z
}.

Record DeploymentTrigger := mkTrigger {
  TType : string;
  LastTriggeredImage : option string   (* None: nil ImageChangeParams *)
}.

Record DeploymentCondition := mkDCond { DCondType : string; DCondReason : string }.

Record DeploymentConfig := mkDC {
  DCMeta : ObjectMeta;
  DCSpecReplicas : Z;
  DCTest : bool;
  Triggers : list DeploymentTrigger;
  LatestVersion : Z;
  DCObservedGeneration : Z;
  DCConditions : list DeploymentCondition
}.

Record OwnerReference := mkOwner {
  APIVersion : string;
  OwnerKind : string;
  OwnerName : string;
  OwnerUID : string;
  OwnerController : option bool;
  BlockOwnerDeletion : option bool
}.
#[export] Instance OwnerReference_eq_dec : EqDecision OwnerReference.
Proof. solve_decision. Defined.

Definition annotation (k : string) (m : ObjectMeta) : string := default "" (Annotations m !! k).

Definition DeploymentStatusFor (rc : ReplicationController) : string :=
  annotation "openshift.io/deployment.phase" (RCMeta rc).
Definition DeploymentStatusReasonFor (rc : ReplicationController) : string :=
  annotation "openshift.io/deployment.status-reason" (RCMeta rc).
Definition DeploymentVersionFor (rc : ReplicationController) : Z :=
  default (-1)%Z (Atoi (annotation "openshift.io/deployment-config.latest-version" (RCMeta rc))).
Definition IsCompleteDeployment (rc : ReplicationController) : bool :=
  String.eqb (DeploymentStatusFor rc) "Complete".
Definition IsFailedDeployment (rc : ReplicationController) : bool :=
  String.eqb (DeploymentStatusFor rc) "Failed".
Definition IsDeploymentCancelled (rc : ReplicationController) : bool :=
  String.eqb (ToLower (annotation "openshift.io/deployment.cancelled" (RCMeta rc))) "true".
Definition HasSynced (dc : DeploymentConfig) (generation : Z) : bool :=
  (generation <=? DCObservedGeneration dc)%Z.

(** ** Deployer pods *)

Definition deployer_label : string := "openshift.io/deployer-pod-for.name".

(* src: test/extended/deployments/util.go 56-66 deploymentPods *)
Fixpoint deploymentPods (pods : list Pod) (deployers : gmap string (list Pod))
  : gmap string (list Pod) :=
  match pods with
  | [] => deployers
  | p :: rest =>
      match Labels (PodMeta p) !! deployer_label with
      | None => deploymentPods rest deployers
      | Some name =>
          deploymentPods rest (<[name := default [] (deployers !! name) ++ [p]]> deployers)
      end
  end.

Definition is_hook (name : string) : bool :=
  HasSuffix name "-pre" || HasSuffix name "-mid" || HasSuffix name "-post".
Definition is_deployer (name : string) : bool := HasSuffix name "-deploy".

Definition pod_name (p : Pod) : string := Name (PodMeta p).

(** The state of the first loop. *)
Record deployer_scan := mkScan {
  sc_running : bool; sc_completed : bool; sc_succeeded : bool; sc_hasDeployer : bool
}.

(** The first loop: the deployment's state. *)
(* src: test/extended/deployments/util.go 76-98 checkDeployerPodInvariants (deployer) *)
Fixpoint scan_deployers (deploymentName : string) (pods : list Pod) (s : deployer_scan)
  : deployer_scan + error :=
  match pods with
  | [] => inl s
  | p :: rest =>
      if is_deployer (pod_name p) then
        if sc_hasDeployer s
        then inr (Errorf ("multiple deployer pods for " +:+ Quote deploymentName))
        else
          scan_deployers deploymentName rest
            (if String.eqb (Phase p) "Succeeded" then mkScan (sc_running s) true true true
             else if String.eqb (Phase p) "Failed" then mkScan (sc_running s) true (sc_succeeded s) true
             else mkScan true (sc_completed s) (sc_succeeded s) true)
      else if is_hook (pod_name p) then scan_deployers deploymentName rest s
      else inr (Errorf ("deployer pod " +:+ Quote (pod_name p) +:+
                        " not recognized as being a valid deployment pod"))
  end.

(** The second loop: the hook pods. *)
(* src: test/extended/deployments/util.go 100-121 checkDeployerPodInvariants (hooks) *)
Fixpoint check_hooks (deploymentName : string) (pods : list Pod) (succeeded : bool) : option error :=
  match pods with
  | [] => None
  | p :: rest =>
      if is_hook (pod_name p) && String.eqb (Phase p) "Failed" && succeeded
      then Some (Errorf ("deployer hook pod " +:+ Quote (pod_name p) +:+
                         " failed but the deployment " +:+ Quote deploymentName +:+ " pod succeeded"))
      else check_hooks deploymentName rest succeeded
  end.

(** isRunning and isCompleted, or the error. *)
(* src: test/extended/deployments/util.go 70-123 checkDeployerPodInvariants *)
Definition checkDeployerPodInvariants (deploymentName : string) (pods : list Pod)
  : (bool * bool) + error :=
  match scan_deployers deploymentName pods (mkScan false false false false) with
  | inr e => inr e
  | inl s =>
      match check_hooks deploymentName pods (sc_succeeded s) with
      | Some e => inr e
      | None => inl (sc_running s, sc_completed s)
      end
  end.

(** [%v] of a list of strings. *)
Definition fmt_strings (l : list string) : string := "[" +:+ Join l " " +:+ "]".

Definition completedStatuses : gset string := {["Complete"%string; "Failed"%string]}.

(** The loop over the deployers, in the order of the range over the map. *)
Fixpoint check_deployers (deployers : list (string * list Pod)) (running : gset string)
    (completed : nat) : (gset string * nat) + error :=
  match deployers with
  | [] => inl (running, completed)
  | (k, v) :: rest =>
      match checkDeployerPodInvariants k v with
      | inr e => inr e
      | inl (isRunning, isCompleted) =>
          check_deployers rest (if isRunning : bool then {[k]} ∪ running else running)
            (if isCompleted : bool then S completed else completed)
      end
  end.

(** The loop over the replication controllers. *)
(* src: test/extended/deployments/util.go 165-190 checkDeploymentInvariants (statuses) *)
Fixpoint check_statuses (rcs : list ReplicationController) (sawStatus : gset string)
    (statuses : list string) : option error :=
  match rcs with
  | [] => None
  | rc :: rest =>
      let status := DeploymentStatusFor rc in
      let name := Name (RCMeta rc) in
      let next := check_statuses rest ({[status]} ∪ sawStatus) (statuses ++ [status]) in
      let not_completed := Some (Errorf ("rc " +:+ name +:+ " was " +:+ status +:+
             ", but earlier RCs were not completed: " +:+ fmt_strings statuses)) in
      if Nat.eqb (size sawStatus) 0 then next
      else if String.eqb status "Complete" || String.eqb status "Failed" then
        if negb (Nat.eqb (size (sawStatus ∖ completedStatuses)) 0) then not_completed else next
      else if String.eqb status "Running" || String.eqb status "Pending" then
        if bool_decide (status ∈ sawStatus)
        then Some (Errorf ("rc " +:+ name +:+ " was " +:+ status +:+ ", but so was an earlier RC: "
                           +:+ fmt_strings statuses))
        else if negb (Nat.eqb (size (sawStatus ∖ completedStatuses)) 0) then not_completed else next
      else if String.eqb status "New" then next
      else Some (Errorf ("rc " +:+ name +:+ " has unexpected status " +:+ status +:+ ": " +:+
                         fmt_strings statuses))
  end.

Section Invariants.
(** The order in which Go ranges over the map of the deployers. *)
Variable range : gmap string (list Pod) → list (string * list Pod).

(** The comparison of the deployers with the controllers only logs anomalies. *)
(* src: test/extended/deployments/util.go 125-191 checkDeploymentInvariants *)
Definition checkDeploymentInvariants (dc : DeploymentConfig) (rcs : list ReplicationController)
    (pods : list Pod) : option error :=
  match check_deployers (range (deploymentPods pods ∅)) ∅ 0 with
  | inr e => Some e
  | inl (running, _) =>
      if Nat.ltb 1 (size running)
      then Some (Errorf ("found multiple running deployments: " +:+
                         fmt_strings (sort_Strings (elements running))))
      else check_statuses rcs ∅ []
  end.
End Invariants.

(** ** Conditions on a rollout

    A condition returns a boolean and an error, and may panic. *)

Definition verdict : Type := outcome (bool * option error).
Definition no : verdict := Ret (false, None).
Definition yes : verdict := Ret (true, None).

(* src: test/extended/deployments/util.go 195-203 GetDeploymentCondition *)
Definition GetDeploymentCondition (conds : list DeploymentCondition) (condType : string)
  : option DeploymentCondition := find_first (λ c, String.eqb (DCondType c) condType) conds.

(** The last controller, if it is that of the latest version. *)
Definition latest_rc (dc : DeploymentConfig) (rcs : list ReplicationController)
  : option ReplicationController :=
  match last rcs with
  | Some rc => if (DeploymentVersionFor rc =? LatestVersion dc)%Z then Some rc else None
  | None => None
  end.

Definition rc_path (rc : ReplicationController) : string :=
  Namespace (RCMeta rc) +:+ "/" +:+ Name (RCMeta rc).

(* src: test/extended/deployments/util.go 205-246 deploymentReachedCompletion *)
Definition deploymentReachedCompletion (dc : DeploymentConfig) (rcs : list ReplicationController)
    (pods : list Pod) : verdict :=
  if negb (DCObservedGeneration dc =? Generation (DCMeta dc))%Z then no
  else match latest_rc dc rcs with
  | None => no
  | Some rc =>
      if IsFailedDeployment rc
      then Ret (true, Some (Errorf ("deployment " +:+ rc_path rc +:+ " failed")))
      else if negb (IsCompleteDeployment rc) then no
      else
        let available :=
          match GetDeploymentCondition (DCConditions dc) "Progressing" with
          | Some c => String.eqb (DCondReason c) "NewReplicationControllerAvailable"
          | None => false
          end in
        if negb available then no
        else
          let expected := if DCTest dc then 0%Z else DCSpecReplicas dc in
          match RCSpecReplicas rc with
          | None => Panic "nil pointer dereference"
          | Some n =>
              if negb (n =? expected)%Z
              then Ret (false, Some (Errorf
                     ("deployment is complete but doesn't have expected spec replicas: " +:+
                      itoa n +:+ " " +:+ itoa expected)))
              else if negb (RCStatusReplicas rc =? expected)%Z then no
              else yes
          end
  end.

(* src: test/extended/deployments/util.go 248-262 deploymentFailed *)
Definition deploymentFailed (dc : DeploymentConfig) (rcs : list ReplicationController)
    (pods : list Pod) : verdict :=
  match latest_rc dc rcs with
  | None => no
  | Some rc =>
      if negb (IsFailedDeployment rc) then no
      else match GetDeploymentCondition (DCConditions dc) "Progressing" with
           | Some c => Ret (String.eqb (DCondReason c) "ProgressDeadlineExceeded", None)
           | None => no
           end
  end.

(* src: test/extended/deployments/util.go 264-294 deploymentRunning *)
Definition deploymentRunning (dc : DeploymentConfig) (rcs : list ReplicationController)
    (pods : list Pod) : verdict :=
  match latest_rc dc rcs with
  | None => no
  | Some rc =>
      let status := annotation "openshift.io/deployment.phase" (RCMeta rc) in
      if String.eqb status "Failed" then
        if IsDeploymentCancelled rc then yes
        else if String.eqb (DeploymentStatusReasonFor rc) "deployer pod no longer exists" then yes
        else Ret (false, Some (Errorf ("deployment failed: " +:+ DeploymentStatusReasonFor rc)))
      else if String.eqb status "Running" || String.eqb status "Complete" then yes
      else no
  end.

(* src: test/extended/deployments/util.go 296-312 deploymentPreHookRetried *)
Definition deploymentPreHookRetried (dc : DeploymentConfig) (rcs : list ReplicationController)
    (pods : list Pod) : verdict :=
  match find_first (λ p, HasSuffix (pod_name p) "-pre") pods with
  | None => no
  | Some preHook =>
      match ContainerStatuses preHook with
      | [] => no
      | c :: _ => Ret ((0 <? RestartCount c)%Z, None)
      end
  end.

Definition image_change : string := "ImageChange".

(** The loop over the triggers; [fmt] is [%#v] of them. *)
(* src: test/extended/deployments/util.go 314-334 deploymentImageTriggersResolved *)
Fixpoint triggers_loop (fmt : string) (n : string) (expectTriggers expect : Z)
    (ts : list DeploymentTrigger) : verdict :=
  match ts with
  | [] => Ret ((expect =? expectTriggers)%Z, None)
  | t :: rest =>
      if negb (String.eqb (TType t) image_change) then triggers_loop fmt n expectTriggers expect rest
      else if (expectTriggers <=? expect)%Z
      then Ret (false, Some (Errorf ("dc " +:+ n +:+ " had too many image change triggers: " +:+ fmt)))
      else match LastTriggeredImage t with
           | None => no
           | Some i => if Nat.eqb (String.length i) 0 then no
                       else triggers_loop fmt n expectTriggers (expect + 1)%Z rest
           end
  end.

Definition deploymentImageTriggersResolved (fmt : list DeploymentTrigger → string)
    (expectTriggers : Z) (dc : DeploymentConfig) (rcs : list ReplicationController)
    (pods : list Pod) : verdict :=
  triggers_loop (fmt (Triggers dc)) (Name (DCMeta dc)) expectTriggers 0 (Triggers dc).

(** ** Waiting *)

(** The API: a [Get] that fails hands back an empty object with the error. *)
Record dc_client (W : Type) := mkDCClient {
  get_dc : string → go W DeploymentConfig;
  create_dc : DeploymentConfig → go W DeploymentConfig;
  update_dc : DeploymentConfig → go W DeploymentConfig;
  list_all_pods : go W (list Pod);
  list_rcs : string → go W (list ReplicationController)   (* of a deployment config *)
}.
Arguments get_dc {W}. Arguments create_dc {W}. Arguments update_dc {W}.
Arguments list_all_pods {W}. Arguments list_rcs {W}.

Definition by_latest_version (a b : ReplicationController) : bool :=
  (DeploymentVersionFor a <? DeploymentVersionFor b)%Z.

Definition empty_dc : DeploymentConfig := mkDC (meta_of "" "") 0 false [] 0 0 [].

Section Waiting.
Context {W : Type} (c : dc_client W).
Variable range : gmap string (list Pod) → list (string * list Pod).
Variable srt : list ReplicationController → list ReplicationController.   (* sort.Sort *)

(** [retry.DefaultBackoff] has four steps. *)
(* src: test/extended/deployments/util.go 40-54 updateConfigWithRetries *)
Definition updateConfigWithRetries (name : string)
    (applyUpdate : DeploymentConfig → DeploymentConfig) : go (W * DeploymentConfig) unit :=
  let on_dc (m : go W DeploymentConfig) : go (W * DeploymentConfig) unit := λ '(w, config),
    match m w with
    | (Ret d, w') => (Ret tt, (w', d))
    | (Fail e, w') => (Fail e, (w', empty_dc))
    | (Panic p, w') => (Panic p, (w', config))
    end in
  RetryOnConflict 4
    (on_dc (get_dc c name) ;;!
     modw (λ '(w, config), (w, applyUpdate config)) ;;!
     s <-! getw ;;
     on_dc (update_dc c (snd s)))%go.

(* src: test/extended/deployments/util.go 336-363 deploymentInfo *)
Definition deploymentInfo (name : string)
  : go W (DeploymentConfig * list ReplicationController * list Pod) :=
  (dc <-! get_dc c name ;;
   pods <-! list_all_pods c ;;
   rcs <-! list_rcs c name ;;
   ret (dc, srt rcs, pods))%go.

Definition deploymentConditionFunc : Type :=
  DeploymentConfig → list ReplicationController → list Pod → verdict.

(** A condition as [wait] sees it: the error comes first. *)
Definition of_verdict (v : verdict) : go W bool := λ w,
  match v with
  | Ret (_, Some e) => (Fail e, w)
  | Ret (b, None) => (Ret b, w)
  | Fail e => (Fail e, w)
  | Panic m => (Panic m, w)
  end.

Definition check_info (name : string)
  : go W (DeploymentConfig * list ReplicationController * list Pod) :=
  (x <-! deploymentInfo name ;;
   let '(dc, rcs, pods) := x in
   match checkDeploymentInvariants range dc rcs pods with
   | Some e => fail e
   | None => ret x
   end)%go.

(* src: test/extended/deployments/util.go 367-378 waitForLatestCondition *)
Definition waitForLatestCondition (name : string) (ticks : nat) (fn : deploymentConditionFunc)
  : go W unit :=
  PollImmediate ticks
    (x <-! check_info name ;; let '(dc, rcs, pods) := x in of_verdict (fn dc rcs pods))%go.

(* src: test/extended/deployments/util.go 380-396 waitForSyncedConfig *)
Definition waitForSyncedConfig (name : string) (ticks : nat) : go W unit :=
  (x <-! check_info name ;;
   let '(dc, rcs, pods) := x in
   let generation := Generation (DCMeta dc) in
   PollImmediate ticks
     (config <-! get_dc c name ;; ret (HasSynced config generation)))%go.

(** The variables of [createDeploymentConfig] the poll assigns. *)
Record create_vars := mkCreate { cv_world : W; cv_dc : DeploymentConfig; cv_pollErr : option error }.

Definition poll_created : go create_vars bool := λ v,
  match get_dc c (Name (DCMeta (cv_dc v))) (cv_world v) with
  | (Ret d, w') => (Ret true, mkCreate w' d (cv_pollErr v))
  | (Fail e, w') => (Ret false, mkCreate w' empty_dc (Some e))
  | (Panic p, w') => (Panic p, mkCreate w' (cv_dc v) (cv_pollErr v))
  end.

(** [fixture]: the object read from the file. *)
(* src: test/extended/deployments/util.go 517-540 createDeploymentConfig *)
Definition createDeploymentConfig (fixture : DeploymentConfig + error) (ticks : nat)
  : go W DeploymentConfig :=
  (d <-! of_sum fixture ;;
   d <-! create_dc c d ;;
   λ w,
   match PollImmediate ticks poll_created (mkCreate w d None) with
   | (Ret _, v) => (Ret (cv_dc v), cv_world v)
   | (Fail e, v) =>
       let err := if bool_decide (e = ErrWaitTimeout) then cv_pollErr v else Some e in
       (match err with Some e => Fail e | None => Ret (cv_dc v) end, cv_world v)
   | (Panic p, v) => (Panic p, cv_world v)
   end)%go.
End Waiting.

(** *** Watches *)

Inductive event_type := EvAdded | EvModified | EvDeleted | EvBookmark | EvError.
#[export] Instance event_type_eq_dec : EqDecision event_type.
Proof. solve_decision. Defined.

(** What ends a watch that delivers no more events. *)
Inductive watch_end := WatchClosed | WatchTimeout.

Definition ErrWatchClosed : error := Err KGeneric "watch closed before UntilWithoutRetry timeout".

(** [watchtools.UntilWithoutRetry(ctx, watcher, condition)] *)
Fixpoint UntilWithoutRetry {E} (events : list E) (fin : watch_end)
    (condition : E → outcome (bool * option error)) : outcome E :=
  match events with
  | [] => Fail (match fin with WatchClosed => ErrWatchClosed | WatchTimeout => ErrWaitTimeout end)
  | e :: rest =>
      match condition e with
      | Ret (_, Some err) => Fail err
      | Ret (true, None) => Ret e
      | Ret (false, None) => UntilWithoutRetry rest fin condition
      | Fail err => Fail err
      | Panic m => Panic m
      end
  end.

(** The type of an event, and its object when it has the type waited for;
    [kind] is the kind named in the messages and [fmt] is [%#v] or [%v] of an
    event. *)
Section Modification.
Context {O : Type} (kind : string) (fmt : event_type * option O → string).

Definition modification_cond (resourceVersion : string) (condition : O → bool * option error)
    (e : event_type * option O) : outcome (bool * option error) :=
  if negb (bool_decide (fst e = EvModified)) &&
     (String.eqb resourceVersion "" && negb (bool_decide (fst e = EvAdded)))
  then Ret (true, Some (Errorf ("different kind of event appeared while waiting for " +:+ kind +:+
                                " modification: event: " +:+ fmt e)))
  else match snd e with
       | Some o => Ret (condition o)
       | None => Panic "interface conversion"
       end.

(** The body that [waitForPodModification] and [waitForDCModification] share. *)
Definition waitForModification (watch : list (event_type * option O) + error) (fin : watch_end)
    (resourceVersion : string) (condition : O → bool * option error) : outcome O :=
  match watch with
  | inr e => Fail e
  | inl events =>
      match UntilWithoutRetry events fin (modification_cond resourceVersion condition) with
      | Ret (_, Some o) => Ret o
      | Ret (_, None) => Panic "interface conversion"
      | Fail e => Fail e
      | Panic m => Panic m
      end
  end.

(** [waitForRCModification] asks in the end for a modification. *)
Definition waitForTrueModification (watch : list (event_type * option O) + error) (fin : watch_end)
    (resourceVersion : string) (condition : O → bool * option error) : outcome O :=
  match watch with
  | inr e => Fail e
  | inl events =>
      match UntilWithoutRetry events fin (modification_cond resourceVersion condition) with
      | Ret (t, o) =>
          if negb (bool_decide (t = EvModified))
          then Fail (Errorf ("waiting for RC modification failed: event: " +:+ fmt (t, o)))
          else match o with Some o => Ret o | None => Panic "interface conversion" end
      | Fail e => Fail e
      | Panic m => Panic m
      end
  end.
End Modification.

(* src: test/extended/deployments/util.go 454-472 waitForPodModification *)
Definition waitForPodModification fmt := waitForModification (O := Pod) "Pod" fmt.
(* src: test/extended/deployments/util.go 474-495 waitForRCModification *)
Definition waitForRCModification fmt := waitForTrueModification (O := ReplicationController) "RC" fmt.
(* src: test/extended/deployments/util.go 497-515 waitForDCModification *)
Definition waitForDCModification fmt := waitForModification (O := DeploymentConfig) "DC" fmt.

(** [waitRunning] is [appsutil.WaitForRunningDeployerPod] for the controller,
    [pod_of] the name of its deployer pod, [logs] the command that follows the
    logs of a pod; [fmt] is [%v] of the object of an error event. *)
(* src: test/extended/deployments/util.go 401-433 waitForDeployerToComplete *)
Definition waitForDeployerToComplete {W}
    (fmt : option ReplicationController → string)
    (watch : list (event_type * option ReplicationController) + error) (fin : watch_end)
    (waitRunning : ReplicationController → go W unit) (pod_of : string → string)
    (logs : string → go W string) (name : string) : go W string :=
  match watch with
  | inr e => fail e
  | inl events =>
      match UntilWithoutRetry events fin (λ '(t, o),
              if bool_decide (t = EvError)
              then Ret (false, Some (Errorf ("error while waiting for replication controller: "
                                             +:+ fmt o)))
              else if bool_decide (t = EvAdded) || bool_decide (t = EvModified)
              then match o with
                   | Some rc => Ret (String.eqb (Name (RCMeta rc)) name, None)
                   | None => Ret (false, None)
                   end
              else Ret (false, None)) with
      | Fail e => fail e
      | Panic m => gopanic m
      | Ret (_, None) => gopanic "nil pointer dereference"
      | Ret (_, Some rc) =>
          (waitRunning rc ;;! logs ("pods/" +:+ pod_of (Name (RCMeta rc))))%go
      end
  end.

(** ** Controller references *)

(** [metav1.GetControllerOf] over the owner references. *)
Definition GetControllerOf (refs : list OwnerReference) : option OwnerReference :=
  find_first (λ r, match OwnerController r with Some b => b | None => false end) refs.

(* src: test/extended/deployments/util.go 435-440 isControllerRefChange *)
Definition isControllerRefChange (controllee : list OwnerReference) (old : option OwnerReference)
  : bool + error :=
  match old with
  | Some r =>
      if bool_decide (OwnerController r = Some false)
      then inr (Errorf "old ownerReference is not a controllerRef")
      else inl (negb (bool_decide (old = GetControllerOf controllee)))
  | None => inl (negb (bool_decide (old = GetControllerOf controllee)))
  end.

(* src: test/extended/deployments/util.go 442-446 controllerRefChangeCondition *)
Definition controllerRefChangeCondition (old : option OwnerReference)
  : list OwnerReference → bool + error := λ controllee, isControllerRefChange controllee old.

(* src: test/extended/deployments/util.go 448-452 rCConditionFromMeta *)
Definition rCConditionFromMeta {RC} (refs_of : RC → list OwnerReference)
    (condition : list OwnerReference → bool + error) : RC → bool + error :=
  λ rc, condition (refs_of rc).

(* src: test/extended/deployments/util.go 634-642 HasValidDCControllerRef *)
Definition HasValidDCControllerRef (dc : ObjectMeta) (controllee : list OwnerReference) : bool :=
  match GetControllerOf controllee with
  | None => false
  | Some ref =>
      String.eqb (OwnerUID ref) (UID dc) &&
      String.eqb (APIVersion ref) "apps.openshift.io/v1" &&
      String.eqb (OwnerKind ref) "DeploymentConfig" &&
      String.eqb (OwnerName ref) (Name dc)
  end.

(** ** The checker of the deployer pods

    The wait group is its counter; the runtime panics when it gets negative. *)

(* src: test/extended/deployments/util.go 644-650 deployerPodInvariantChecker *)
Record checker := mkChecker { c_cache : gmap string (list Pod); c_wg : Z }.

(* src: test/extended/deployments/util.go 652-658 NewDeployerPodInvariantChecker *)
Definition NewDeployerPodInvariantChecker : checker := mkChecker ∅ 0.

Definition dc_annotation : string := "openshift.io/deployment-config.name".

(* src: test/extended/deployments/util.go 660-667 deployerPodInvariantChecker.getCacheKey *)
Definition getCacheKey (pod : Pod) : outcome string :=
  match Annotations (PodMeta pod) !! dc_annotation with
  | None => Panic ("internal error - deployment is missing " +:+ Quote dc_annotation +:+ " annotation")
  | Some dcName =>
      if String.eqb dcName "" then Panic "Expected not to be empty"
      else Ret (Namespace (PodMeta pod) +:+ "/" +:+ dcName)
  end.

Definition same_pod (p pod : Pod) : bool :=
  String.eqb (Name (PodMeta p)) (Name (PodMeta pod)) &&
  String.eqb (Namespace (PodMeta p)) (Namespace (PodMeta pod)).

(* src: test/extended/deployments/util.go 668-680 deployerPodInvariantChecker.getPodIndex *)
Fixpoint getPodIndex (list : list Pod) (pod : Pod) : outcome nat :=
  match list with
  | [] => Panic "couldn't find pod"
  | p :: rest =>
      if same_pod p pod then
        if String.eqb (UID (PodMeta p)) (UID (PodMeta pod)) then Ret 0
        else Panic "Expected UIDs to be equal"
      else match getPodIndex rest pod with Ret i => Ret (S i) | r => r end
  end.

Definition terminated (p : Pod) : bool :=
  String.eqb (Phase p) "Succeeded" || String.eqb (Phase p) "Failed".

Definition unterminated (pods : list Pod) : list Pod := bfilter (λ p, negb (terminated p)) pods.

(* src: test/extended/deployments/util.go 682-695 deployerPodInvariantChecker.checkInvariants *)
Definition checkInvariants (dc : string) (pods : list Pod) : go checker unit :=
  if Nat.leb (length (unterminated pods)) 1 then ret tt
  else gopanic ("Deployer pod invariant broken! More than one unterminated deployer pod exists for DC "
                +:+ dc +:+ "!").

Definition of_out {S A} (o : outcome A) : go S A := λ s, (o, s).

Definition cached (key : string) : go checker (list Pod) :=
  λ c, (Ret (default [] (c_cache c !! key)), c).
Definition set_cached (key : string) (l : list Pod) : go checker unit :=
  modw (λ c, mkChecker (<[key := l]> (c_cache c)) (c_wg c)).

(* src: test/extended/deployments/util.go 697-702 deployerPodInvariantChecker.AddPod *)
Definition AddPod (pod : Pod) : go checker unit :=
  (key <-! of_out (getCacheKey pod) ;;
   l <-! cached key ;;
   set_cached key (l ++ [pod]) ;;!
   checkInvariants key (l ++ [pod]))%go.

(* src: test/extended/deployments/util.go 704-711 deployerPodInvariantChecker.RemovePod *)
Definition RemovePod (pod : Pod) : go checker unit :=
  (key <-! of_out (getCacheKey pod) ;;
   l <-! cached key ;;
   index <-! of_out (getPodIndex l pod) ;;
   set_cached key (take index l ++ drop (S index) l) ;;!
   checkInvariants key (take index l ++ drop (S index) l))%go.

(* src: test/extended/deployments/util.go 713-732 deployerPodInvariantChecker.UpdatePod *)
Definition UpdatePod (pod : Pod) : go checker unit :=
  (key <-! of_out (getCacheKey pod) ;;
   l <-! cached key ;;
   index <-! of_out (getPodIndex l pod) ;;
   match l !! index with
   | None => gopanic "index out of range"
   | Some oldPod =>
       if terminated oldPod && negb (String.eqb (Phase pod) (Phase oldPod))
       then gopanic ("detected deployer pod '" +:+ Namespace (PodMeta pod) +:+ "/" +:+ pod_name pod +:+
                     "' transition from terminated phase: " +:+ Quote (Phase oldPod) +:+ " -> " +:+
                     Quote (Phase pod))
       else
         set_cached key (<[index := pod]> l) ;;!
         checkInvariants key (<[index := pod]> l)
   end)%go.

(** What the [select] of the loop receives, in order. *)
Inductive checker_input :=
| CtxDone
| WatchEvent (t : event_type) (o : option Pod)
| ResultClosed.

Definition handle_event (t : event_type) (pod : Pod) : go checker unit :=
  if negb (is_deployer (pod_name pod)) then ret tt
  else match t with
       | EvAdded => AddPod pod
       | EvModified => UpdatePod pod
       | EvDeleted => RemovePod pod
       | _ => ret tt
       end.

(* src: test/extended/deployments/util.go 742-767 deployerPodInvariantChecker.doChecking (loop) *)
Fixpoint check_loop (inputs : list checker_input) : go checker unit :=
  match inputs with
  | [] | CtxDone :: _ => ret tt
  | ResultClosed :: _ => gopanic "watch closed unexpectedly"
  | WatchEvent t o :: rest =>
      if bool_decide (t = EvBookmark) || bool_decide (t = EvError)
      then gopanic "unexpected event"
      else match o with
           | None => gopanic "interface conversion"
           | Some pod => (handle_event t pod ;;! check_loop rest)%go
           end
  end.

Definition wg_add (n : Z) : go checker unit := λ c,
  (if (c_wg c + n <? 0)%Z then Panic "sync: negative WaitGroup counter" else Ret tt,
   mkChecker (c_cache c) (c_wg c + n)).

(** The goroutine: a failed assertion ends it; the deferred [wg.Done] is set up
    after the assertion on the watch.  [GinkgoRecover], deferred first, hands
    the panic to the test run: it is the result. *)
(* src: test/extended/deployments/util.go 734-768 deployerPodInvariantChecker.doChecking *)
Definition doChecking (watch_err : option error) (inputs : list checker_input) : go checker unit :=
  match watch_err with
  | Some e => gopanic (err_msg e)
  | None => λ c,
      let '(r, c) := check_loop inputs c in
      match wg_add (-1) c with
      | (Ret _, c) => (r, c)
      | (r', c) => (r', c)
      end
  end.

(** [Start] starts the goroutine and then adds to the wait group; the goroutine
    may have ended before ([early]).  The results are those of the goroutine
    and of [Start]. *)
(* src: test/extended/deployments/util.go 770-774 deployerPodInvariantChecker.Start *)
Definition Start (early : bool) (watch_err : option error) (inputs : list checker_input)
    (c : checker) : outcome unit * outcome unit * checker :=
  if early then
    let '(r, c) := doChecking watch_err inputs c in let '(r', c) := wg_add 1 c in (r, r', c)
  else
    let '(r', c) := wg_add 1 c in let '(r, c) := doChecking watch_err inputs c in (r, r', c).

(** [Wait] returns when the counter is 0. *)
(* src: test/extended/deployments/util.go 776-778 deployerPodInvariantChecker.Wait *)
Definition Wait_returns (c : checker) : bool := (c_wg c =? 0)%Z.

(** ** Properties: the pods of a deployment *)

Definition deployers_of (pods : list Pod) : list Pod := bfilter (λ p, is_deployer (pod_name p)) pods.
Definition phase_is (ph : string) (p : Pod) : bool := String.eqb (Phase p) ph.

(** The pods of one deployment are in order: hooks and at most one deployer,
    and no failed hook next to a deployer that succeeded. *)
Definition valid_deployment_pods (pods : list Pod) : Prop :=
  Forall (λ p, is_deployer (pod_name p) || is_hook (pod_name p) = true) pods ∧
  length (deployers_of pods) ≤ 1 ∧
  ¬ (∃ d h, d ∈ deployers_of pods ∧ phase_is "Succeeded" d = true ∧
            h ∈ pods ∧ is_hook (pod_name h) = true ∧ phase_is "Failed" h = true).

Definition deployment_running (pods : list Pod) : bool :=
  existsb (λ p, negb (terminated p)) (deployers_of pods).
Definition deployment_completed (pods : list Pod) : bool := existsb terminated (deployers_of pods).

Lemma scan_deployers_spec n pods s r :
  scan_deployers n pods s = inl r ↔
  Forall (λ p, is_deployer (pod_name p) || is_hook (pod_name p) = true) pods ∧
  length (deployers_of pods) ≤ (if sc_hasDeployer s then 0 else 1) ∧
  r = mkScan (sc_running s || deployment_running pods) (sc_completed s || deployment_completed pods)
        (sc_succeeded s || existsb (phase_is "Succeeded") (deployers_of pods))
        (sc_hasDeployer s || negb (Nat.eqb (length (deployers_of pods)) 0)).
Proof.
  revert s. induction pods as [|p pods IH]; intros s; cbn [scan_deployers].
  { cbn. rewrite !orb_false_r. assert (s = mkScan (sc_running s) (sc_completed s) (sc_succeeded s)
      (sc_hasDeployer s)) as <- by (by destruct s).
    split; [intros [= <-]|by intros (_ & _ & ->)].
    split_and!; [constructor|destruct (sc_hasDeployer s); lia|done]. }
  unfold deployment_running, deployment_completed, deployers_of in *. cbn [bfilter].
  rewrite Forall_cons. destruct (is_deployer (pod_name p)) eqn:Ed; cbn [orb].
  - destruct s as [ru co su []]; cbn [sc_hasDeployer sc_running sc_completed sc_succeeded].
    { split; [done|]. intros (_ & Hl & _). cbn in Hl. lia. }
    set (s' := if String.eqb (Phase p) "Succeeded" then _ else _).
    rewrite (IH s'). assert (sc_hasDeployer s' = true) as -> by (subst s'; by repeat case_match).
    cbn [length existsb]. set (l := bfilter _ pods).
    split; intros (H1 & H2 & ->); (split; [tauto|]); (split; [lia|]);
      assert (length l = 0) as H0 by lia; apply nil_length_inv in H0; rewrite H0; clear -Ed;
      subst s'; unfold terminated, phase_is; cbn;
      destruct (String.eqb_spec (Phase p) "Succeeded") as [->|], (String.eqb (Phase p) "Failed") eqn:E;
      cbn in *; rewrite ?orb_false_r, ?orb_true_r; done.
  - destruct (is_hook (pod_name p)) eqn:Eh; [rewrite IH; intuition|].
    split; [done|]. by intros ([? _] & _).
Qed.

Lemma check_hooks_None n pods b :
  check_hooks n pods b = None ↔
  ¬ (b = true ∧ ∃ h, h ∈ pods ∧ is_hook (pod_name h) = true ∧ phase_is "Failed" h = true).
Proof.
  induction pods as [|p pods IH]; cbn [check_hooks].
  { split; [|done]. by intros _ (_ & h & Hh%elem_of_nil & _). }
  destruct (is_hook (pod_name p) && String.eqb (Phase p) "Failed" && b) eqn:E.
  - propify. split; [done|]. intros H'. exfalso. apply H'. split; [done|]. exists p.
    split_and!; [left|done|]. unfold phase_is. by apply String.eqb_eq.
  - rewrite IH. split; intros Hn (-> & h & Hh & H1 & H2); apply Hn; (split; [done|]).
    + apply elem_of_cons in Hh as [->|Hh]; [|eauto]. unfold phase_is in H2. by rewrite H1, H2 in E.
    + exists h. split_and!; [by right|done|done].
Qed.

Lemma checkDeployerPodInvariants_inl n pods r c :
  checkDeployerPodInvariants n pods = inl (r, c) ↔
  valid_deployment_pods pods ∧ r = deployment_running pods ∧ c = deployment_completed pods.
Proof.
  unfold checkDeployerPodInvariants, valid_deployment_pods.
  destruct (scan_deployers n pods (mkScan false false false false)) as [s|e] eqn:E.
  - apply scan_deployers_spec in E as (H1 & H2 & ->). cbn in *.
    set (b := existsb (phase_is "Succeeded") (deployers_of pods)).
    destruct (check_hooks n pods b) eqn:Eh.
    + split; [done|]. intros ((_ & _ & Hn) & _). exfalso.
      assert (check_hooks n pods b = None) as Hc; [|congruence]. apply check_hooks_None.
      intros (Hb & h & ? & ? & ?). apply existsb_elem_of in Hb as (d & ? & ?).
      apply Hn. by exists d, h.
    + pose proof (proj1 (check_hooks_None n pods b) Eh) as Hn.
      split; [|intros (_ & -> & ->); done]. intros [= <- <-]. split; [|done].
      split_and!; [done|done|]. intros (d & h & Hd & Hs & Hrest). apply Hn. split; [|eauto].
      apply existsb_elem_of. eauto.
  - split; [done|]. intros ((H1 & H2 & _) & _). exfalso.
    pose proof (proj2 (scan_deployers_spec n pods (mkScan false false false false) _)
                  (conj H1 (conj H2 eq_refl))) as Hs. congruence.
Qed.

(** The check of the pods of a deployment accepts exactly the lists of hook
    pods with at most one deployer pod in which no hook failed next to a
    deployer that succeeded; the flags it returns say whether the deployer pod
    is there and still runs, and whether it is there and has terminated. *)
Theorem checkDeployerPodInvariants_spec n pods r c :
  checkDeployerPodInvariants n pods = inl (r, c) ↔
  valid_deployment_pods pods ∧ r = deployment_running pods ∧ c = deployment_completed pods.
Proof. apply checkDeployerPodInvariants_inl. Qed.

(** ** Properties: the controllers of a deployment config *)

(** The pods of the deployment [k]. *)
Definition pods_of (k : string) (pods : list Pod) : list Pod :=
  bfilter (λ p, bool_decide (Labels (PodMeta p) !! deployer_label = Some k)) pods.

Lemma deploymentPods_lookup pods m k :
  deploymentPods pods m !! k =
  match pods_of k pods with [] => m !! k | l => Some (default [] (m !! k) ++ l) end.
Proof.
  revert m. induction pods as [|p pods IH]; intros m; cbn [deploymentPods]; [done|].
  unfold pods_of in *. cbn [bfilter].
  destruct (Labels (PodMeta p) !! deployer_label) as [n|]; [|by rewrite IH].
  rewrite IH. destruct (decide (n = k)) as [->|Hne].
  - rewrite bool_decide_eq_true_2, lookup_insert_eq by done.
    destruct (bfilter _ pods); [done|]. cbn [default from_option id].
    by rewrite <- app_assoc.
  - by rewrite bool_decide_eq_false_2, lookup_insert_ne by congruence.
Qed.

Definition completed (s : string) : Prop := s = "Complete"%string ∨ s = "Failed"%string.

(** The order of the statuses: the completed ones, at most one of any kind that
    a rollout in progress can have (of any kind at all if it is the first), and
    new ones. *)
Definition status_order (l : list string) : Prop :=
  ∃ before rest, l = before ++ rest ∧ Forall completed before ∧
    match rest with
    | [] => True
    | s :: new => Forall (λ x, x = "New"%string) new ∧
        (before = [] ∨ s = "New" ∨ s = "Running" ∨ s = "Pending")%string
    end.

Definition statuses_of : list ReplicationController → list string := map DeploymentStatusFor.

Lemma size_zero (X : gset string) : Nat.eqb (size X) 0 = bool_decide (X = ∅).
Proof.
  destruct (Nat.eqb_spec (size X) 0) as [H|H]; symmetry.
  - apply bool_decide_eq_true_2. by apply leibniz_equiv, size_empty_inv.
  - apply bool_decide_eq_false_2. intros ->. by rewrite size_empty in H.
Qed.

Lemma saw_completed (saw : gset string) : saw ∖ completedStatuses = ∅ ↔ ∀ s, s ∈ saw → completed s.
Proof.
  unfold completedStatuses, completed. rewrite elem_of_equiv_empty_L. split.
  - intros H s Hs. specialize (H s). rewrite elem_of_difference, elem_of_union, !elem_of_singleton in H.
    destruct (decide (s = "Complete"%string)), (decide (s = "Failed"%string)); tauto.
  - intros H s [Hs Hn]%elem_of_difference. apply Hn. apply elem_of_union.
    rewrite !elem_of_singleton. by apply H.
Qed.

(** Once a status is not completed only new ones may follow. *)
Lemma check_statuses_active rcs saw st :
  saw ∖ completedStatuses ≠ ∅ →
  check_statuses rcs saw st = None ↔ Forall (λ x, x = "New"%string) (statuses_of rcs).
Proof.
  unfold statuses_of. revert saw st. induction rcs as [|rc rcs IH]; intros saw st Hs;
    cbn [check_statuses map]; cbn zeta; [done|].
  rewrite !size_zero, (bool_decide_eq_false_2 (saw = ∅)) by set_solver.
  rewrite (bool_decide_eq_false_2 (saw ∖ _ = ∅)) by done. cbn [negb]. rewrite Forall_cons.
  destruct (String.eqb_spec (DeploymentStatusFor rc) "Complete") as [->|]; cbn [orb];
    [split; [done|by intros []]|].
  destruct (String.eqb_spec (DeploymentStatusFor rc) "Failed") as [->|];
    [split; [done|by intros []]|].
  destruct (String.eqb_spec (DeploymentStatusFor rc) "Running") as [->|]; cbn [orb];
    [case_bool_decide; (split; [done|by intros []])|].
  destruct (String.eqb_spec (DeploymentStatusFor rc) "Pending") as [->|];
    [case_bool_decide; (split; [done|by intros []])|].
  destruct (String.eqb_spec (DeploymentStatusFor rc) "New") as [->|]; [|split; [done|by intros []]].
  rewrite IH by set_solver. tauto.
Qed.

(** The shape after completed statuses only. *)
Definition after_completed (l : list string) : Prop :=
  ∃ before rest, l = before ++ rest ∧ Forall completed before ∧
    match rest with
    | [] => True
    | s :: new => Forall (λ x, x = "New"%string) new ∧ (s = "New" ∨ s = "Running" ∨ s = "Pending")%string
    end.

Lemma after_completed_cons s l :
  after_completed (s :: l) ↔
  (completed s ∧ after_completed l) ∨
  ((s = "New" ∨ s = "Running" ∨ s = "Pending")%string ∧ Forall (λ x, x = "New"%string) l).
Proof.
  split.
  - intros ([|b before] & rest & E & Hb & Hr).
    + cbn in E. subst rest. right. tauto.
    + injection E as -> ->. apply Forall_cons in Hb as [Hb1 Hb2]. left.
      split; [done|]. by exists before, rest.
  - intros [[Hs (before & rest & -> & Hb & Hr)]|[Hs Hl]].
    + exists (s :: before), rest. split_and!; [done|by constructor|done].
    + exists [], (s :: l). split_and!; [done|constructor|done|done].
Qed.

Lemma check_statuses_completed rcs saw st :
  saw ≠ ∅ → saw ∖ completedStatuses = ∅ →
  check_statuses rcs saw st = None ↔ after_completed (statuses_of rcs).
Proof.
  unfold statuses_of. revert saw st. induction rcs as [|rc rcs IH]; intros saw st Hne Hs;
    cbn [check_statuses map]; cbn zeta.
  { split; [|done]. intros _. by exists [], []. }
  rewrite !size_zero, (bool_decide_eq_false_2 (saw = ∅)) by done.
  rewrite (bool_decide_eq_true_2 (saw ∖ _ = ∅)) by done. cbn [negb].
  rewrite after_completed_cons. unfold completed at 1.
  pose proof (proj1 (saw_completed saw) Hs) as Hc. unfold completed in Hc.
  destruct (String.eqb_spec (DeploymentStatusFor rc) "Complete") as [->|H1]; cbn [orb].
  { rewrite IH by (unfold completedStatuses in *; set_solver). intuition done. }
  destruct (String.eqb_spec (DeploymentStatusFor rc) "Failed") as [->|H2].
  { rewrite IH by (unfold completedStatuses in *; set_solver). intuition done. }
  destruct (String.eqb_spec (DeploymentStatusFor rc) "Running") as [->|H3]; cbn [orb].
  { rewrite bool_decide_eq_false_2 by (intros [|]%Hc; done).
    rewrite check_statuses_active by (unfold completedStatuses; set_solver). intuition done. }
  destruct (String.eqb_spec (DeploymentStatusFor rc) "Pending") as [->|H4].
  { rewrite bool_decide_eq_false_2 by (intros [|]%Hc; done).
    rewrite check_statuses_active by (unfold completedStatuses; set_solver). intuition done. }
  destruct (String.eqb_spec (DeploymentStatusFor rc) "New") as [->|H5].
  { rewrite check_statuses_active by (unfold completedStatuses; set_solver). intuition done. }
  split; [done|tauto].
Qed.

Lemma check_statuses_spec rcs : check_statuses rcs ∅ [] = None ↔ status_order (statuses_of rcs).
Proof.
  destruct rcs as [|rc rcs]; cbn [check_statuses]; cbn zeta.
  { split; [|done]. intros _. by exists [], []. }
  rewrite size_zero, bool_decide_eq_true_2 by done. cbn [app]. unfold statuses_of. cbn [map].
  set (s := DeploymentStatusFor rc). rewrite union_empty_r_L. fold (statuses_of rcs).
  assert (completed s ∨ ¬ completed s) as [Hs|Hs].
  { unfold completed. destruct (decide (s = "Complete"%string)), (decide (s = "Failed"%string)); tauto. }
  - rewrite check_statuses_completed
      by first [set_solver | apply saw_completed; by intros ? ->%elem_of_singleton].
    split.
    + intros (b & r & -> & Hb & Hr). exists (s :: b), r.
      split_and!; [done|by constructor|]. destruct r; [done|]. tauto.
    + intros ([|x b] & r & E & Hb & Hr).
      * cbn in E. subst r. exists [], (statuses_of rcs). split_and!; [done|constructor|].
        destruct (statuses_of rcs); [done|]. destruct Hr as [Hr _]. inversion Hr; subst. auto.
      * injection E as <- ->. apply Forall_cons in Hb as [_ Hb]. exists b, r.
        split_and!; [done..|]. destruct r; [done|]. destruct Hr as [? [?|?]]; [done|tauto].
  - rewrite check_statuses_active.
    2:{ intros Hc. apply Hs. apply (proj1 (saw_completed _) Hc). set_solver. }
    split.
    + intros Hn. exists [], (s :: statuses_of rcs). by split_and!; [|constructor|..]; auto.
    + intros ([|x b] & r & E & Hb & Hr); [cbn in E; subst r; by destruct Hr|].
      injection E as <- _. by apply Forall_cons in Hb as [? _].
Qed.

Definition running_keys (l : list (string * list Pod)) : list string :=
  omap (λ '(k, v), if deployment_running v then Some k else None) l.

Lemma check_deployers_spec l R n :
  match check_deployers l R n with
  | inl (R', _) => Forall (λ kv, valid_deployment_pods kv.2) l ∧ R' = R ∪ list_to_set (running_keys l)
  | inr _ => ¬ Forall (λ kv, valid_deployment_pods kv.2) l
  end.
Proof.
  revert R n. induction l as [|[k v] l IH]; intros R n; cbn [check_deployers].
  { split; [constructor|]. cbn. by rewrite union_empty_r_L. }
  assert (∀ r c, checkDeployerPodInvariants k v = inl (r, c) ↔
    valid_deployment_pods v ∧ r = deployment_running v ∧ c = deployment_completed v) as Hk
    by (intros; apply checkDeployerPodInvariants_inl).
  destruct (checkDeployerPodInvariants k v) as [[r c]|e].
  - destruct (proj1 (Hk r c) eq_refl) as (Hv & -> & ->).
    specialize (IH (if deployment_running v then {[k]} ∪ R else R)
                  (if deployment_completed v then S n else n)).
    destruct (check_deployers l _ _) as [[R' n']|e'].
    + destruct IH as [Hl ->]. split; [by constructor|]. cbn [running_keys omap list_omap].
      destruct (deployment_running v); cbn; [|done]. set_solver.
    + rewrite Forall_cons. tauto.
  - rewrite Forall_cons. intros [Hv _]. cbn in Hv.
    by pose proof (proj2 (Hk _ _) (conj Hv (conj eq_refl eq_refl))).
Qed.

Lemma elem_of_running_keys k l :
  k ∈ running_keys l ↔ ∃ v, (k, v) ∈ l ∧ deployment_running v = true.
Proof.
  unfold running_keys. rewrite list_elem_of_omap. split.
  - intros ([k' v] & Hin & H). destruct (deployment_running v) eqn:E; simplify_eq. eauto.
  - intros (v & Hin & E). exists (k, v). by rewrite E.
Qed.

Lemma size_at_most_one (X : gset string) :
  size X ≤ 1 ↔ ∀ a b, a ∈ X → b ∈ X → a = b.
Proof.
  split.
  - intros Hs a b Ha Hb. destruct (decide (a = b)) as [|Hne]; [done|].
    assert ({[a; b]} ⊆ X) as Hsub by set_solver.
    apply subseteq_size in Hsub. rewrite size_union, !size_singleton in Hsub by set_solver. lia.
  - intros H. destruct (decide (X = ∅)) as [->|Hne]; [by rewrite size_empty; lia|].
    apply set_choose_L in Hne as [a Ha]. assert (X = {[a]}) as -> by set_solver.
    by rewrite size_singleton.
Qed.

Lemma deploymentPods_elem pods k v :
  deploymentPods pods ∅ !! k = Some v ↔ pods_of k pods = v ∧ v ≠ [].
Proof.
  rewrite deploymentPods_lookup, lookup_empty. destruct (pods_of k pods) as [|p l] eqn:E; cbn.
  - split; [done|]. by intros [<- ?].
  - split; [by intros [= <-]|]. by intros [-> _].
Qed.

(** The invariants of a rollout hold, whatever the order in which Go ranges
    over the map of the deployers, exactly when the pods of every deployment
    are hooks and at most one deployer, in order; the deployer pods of at most
    one deployment run; and the statuses of the controllers, from the oldest
    version on, are completed ones, then at most one that need not be, then
    new ones. *)
Theorem checkDeploymentInvariants_spec range dc rcs pods :
  (∀ m : gmap string (list Pod), range m ≡ₚ map_to_list m) →
  checkDeploymentInvariants range dc rcs pods = None ↔
  (∀ k, valid_deployment_pods (pods_of k pods)) ∧
  (∀ k k', deployment_running (pods_of k pods) = true →
           deployment_running (pods_of k' pods) = true → k = k') ∧
  status_order (statuses_of rcs).
Proof.
  intros Hr. unfold checkDeploymentInvariants. set (l := range _).
  assert (∀ k v, (k, v) ∈ l ↔ pods_of k pods = v ∧ v ≠ []) as Hl.
  { intros k v. unfold l. rewrite Hr, elem_of_map_to_list. apply deploymentPods_elem. }
  assert (Forall (λ kv, valid_deployment_pods kv.2) l ↔ ∀ k, valid_deployment_pods (pods_of k pods)) as Hv.
  { rewrite Forall_forall. split; intros H.
    - intros k. destruct (pods_of k pods) as [|p v] eqn:E; [|by apply (H (k, p :: v)), Hl].
      split; [constructor|]. split; [cbn; lia|]. intros (d & h & _ & _ & Hh & _). by apply elem_of_nil in Hh.
    - intros [k v] [<- _]%Hl. apply H. }
  assert ((∀ a b, a ∈ running_keys l → b ∈ running_keys l → a = b) ↔
          ∀ k k', deployment_running (pods_of k pods) = true →
                  deployment_running (pods_of k' pods) = true → k = k') as Hrun.
  { assert (∀ k, k ∈ running_keys l ↔ deployment_running (pods_of k pods) = true) as Hk.
    { intros k. rewrite elem_of_running_keys. split.
      - by intros (v & [-> _]%Hl & ?).
      - intros H. exists (pods_of k pods). rewrite Hl. split_and!; [done| |done].
        by destruct (pods_of k pods). }
    by setoid_rewrite Hk. }
  pose proof (check_deployers_spec l ∅ 0) as Hc.
  destruct (check_deployers l ∅ 0) as [[R n]|e].
  - destruct Hc as [Hval ->]. rewrite union_empty_l_L.
    rewrite <- Hv, <- Hrun, <- check_statuses_spec.
    pose proof (size_at_most_one (list_to_set (running_keys l))) as Hs.
    setoid_rewrite elem_of_list_to_set in Hs.
    destruct (Nat.ltb_spec 1 (size (list_to_set (C := gset string) (running_keys l)))).
    + split; [done|]. intros (_ & Hu & _). apply Hs in Hu. lia.
    + rewrite <- Hs. intuition lia.
  - split; [done|]. by intros (Ha%Hv & _).
Qed.

(** Two finished rollouts and one in progress, in the order of their versions. *)
Definition rollout_rc (n status : string) : ReplicationController :=
  mkRC (mkMeta n "ns" "" "" 0 0 None None {["openshift.io/deployment.phase" := status]} ∅)
    (Some 1%Z) 1.

Definition rollout_pod (n rc ph : string) : Pod :=
  mkPod (mkMeta n "ns" n "" 0 0 None None ∅ {[deployer_label := rc]}) "" "" ph "" "" [] [] [].

Definition rollout_rcs : list ReplicationController :=
  [rollout_rc "dc-1" "Complete"; rollout_rc "dc-2" "Failed"; rollout_rc "dc-3" "Running"].
Definition rollout_pods : list Pod :=
  [rollout_pod "dc-3-deploy" "dc-3" "Running"; rollout_pod "dc-2-deploy" "dc-2" "Failed"].

Example rollout_invariants :
  checkDeploymentInvariants map_to_list empty_dc rollout_rcs rollout_pods = None.
Proof. vm_compute. reflexivity. Qed.

Example checkDeploymentInvariants_spec_witness :
  (∀ k k', deployment_running (pods_of k rollout_pods) = true →
           deployment_running (pods_of k' rollout_pods) = true → k = k') ∧
  status_order (statuses_of rollout_rcs).
Proof.
  exact (proj2 (proj1 (checkDeploymentInvariants_spec map_to_list empty_dc rollout_rcs rollout_pods
    (λ m, reflexivity (map_to_list m))) rollout_invariants)).
Defined.

(** ** Properties: waiting for a rollout *)

(** What the latest rollout of a deployment config looks like when it is
    complete. *)
Definition rollout_complete (dc : DeploymentConfig) (rc : ReplicationController) : Prop :=
  let expected := if DCTest dc then 0%Z else DCSpecReplicas dc in
  DCObservedGeneration dc = Generation (DCMeta dc) ∧
  DeploymentVersionFor rc = LatestVersion dc ∧
  DeploymentStatusFor rc = "Complete"%string ∧
  (∃ c, GetDeploymentCondition (DCConditions dc) "Progressing" = Some c ∧
        DCondReason c = "NewReplicationControllerAvailable"%string) ∧
  RCSpecReplicas rc = Some expected ∧ RCStatusReplicas rc = expected.

Lemma latest_rc_Some dc rcs rc :
  latest_rc dc rcs = Some rc ↔ last rcs = Some rc ∧ DeploymentVersionFor rc = LatestVersion dc.
Proof.
  unfold latest_rc. destruct (last rcs) as [r|]; [|split; [done|by intros []]].
  destruct (Z.eqb_spec (DeploymentVersionFor r) (LatestVersion dc)); split;
    intros H; simplify_eq; try done; destruct H; by simplify_eq.
Qed.

Lemma deploymentReachedCompletion_yes dc rcs pods :
  deploymentReachedCompletion dc rcs pods = Ret (true, None) →
  ∃ rc, last rcs = Some rc ∧ rollout_complete dc rc.
Proof.
  unfold deploymentReachedCompletion, no, yes. intros H.
  destruct (Z.eqb_spec (DCObservedGeneration dc) (Generation (DCMeta dc))) as [Hg|]; [|done]; cbn in H.
  destruct (latest_rc dc rcs) as [rc|] eqn:El; [|done]. apply latest_rc_Some in El as [Hl Hv].
  destruct (IsFailedDeployment rc); [done|].
  destruct (String.eqb_spec (DeploymentStatusFor rc) "Complete") as [Hc|Hc];
    [|unfold IsCompleteDeployment in H; apply String.eqb_neq in Hc; by rewrite Hc in H].
  unfold IsCompleteDeployment in H. rewrite Hc in H. cbn in H.
  destruct (GetDeploymentCondition _ _) as [c|] eqn:Ec; [|done].
  destruct (String.eqb_spec (DCondReason c) "NewReplicationControllerAvailable") as [Hr|]; [|done].
  cbn in H. destruct (RCSpecReplicas rc) as [n|] eqn:En; [|done].
  destruct (Z.eqb_spec n (if DCTest dc then 0 else DCSpecReplicas dc)%Z) as [->|]; [|done].
  destruct (Z.eqb_spec (RCStatusReplicas rc) (if DCTest dc then 0 else DCSpecReplicas dc)%Z);
    [|done].
  exists rc. split; [done|]. split_and!; try done. by exists c.
Qed.

Section WaitingProofs.
Context {W : Type} (c : dc_client W).
Variable range : gmap string (list Pod) → list (string * list Pod).
Variable srt : list ReplicationController → list ReplicationController.

Lemma keeps_deploymentInfo (P : W → Prop) name :
  keeps P (get_dc c name) → keeps P (list_all_pods c) → keeps P (list_rcs c name) →
  keeps P (deploymentInfo c srt name).
Proof. intros ???. unfold deploymentInfo. eauto 10 with ott. Qed.

Lemma keeps_check_info (P : W → Prop) name :
  keeps P (deploymentInfo c srt name) → keeps P (check_info c range srt name).
Proof.
  intros H. apply keeps_bind; [done|]. intros [[dc rcs] pods].
  destruct (checkDeploymentInvariants _ _ _ _); auto with ott.
Qed.

Lemma check_info_Ret name w w' x :
  check_info c range srt name w = (Ret x, w') →
  deploymentInfo c srt name w = (Ret x, w') ∧
  checkDeploymentInvariants range x.1.1 x.1.2 x.2 = None.
Proof.
  unfold check_info, gobind. destruct (deploymentInfo c srt name w) as [[[[dc rcs] pods]|e|m] w1];
    [|done..].
  destruct (checkDeploymentInvariants range dc rcs pods) eqn:E; intros H; [done|].
  unfold ret in H. by simplify_eq.
Qed.

(** A wait that succeeds has just read a deployment config, controllers and
    pods that satisfy the invariants and the condition. *)
Lemma waitForLatestCondition_inv (P : W → Prop) name ticks fn w w' :
  keeps P (deploymentInfo c srt name) → P w →
  waitForLatestCondition c range srt name ticks fn w = (Ret tt, w') →
  ∃ w0 dc rcs pods, P w0 ∧ deploymentInfo c srt name w0 = (Ret (dc, rcs, pods), w') ∧
    checkDeploymentInvariants range dc rcs pods = None ∧ fn dc rcs pods = Ret (true, None).
Proof.
  intros Hk Hw H. apply (PollImmediate_Ret_inv P) in H as (w0 & HP & H); [|clear H|done].
  - unfold gobind in H. destruct (check_info c range srt name w0) as [[[[dc rcs] pods]|e|m] w1] eqn:E;
      [|done..].
    apply check_info_Ret in E as [Hi Hc]. exists w0, dc, rcs, pods.
    unfold of_verdict in H. destruct (fn dc rcs pods) as [[b [e|]]|e|m]; by simplify_eq/=.
  - apply keeps_bind; [by apply keeps_check_info|]. intros [[dc rcs] pods] w1 H1.
    unfold of_verdict. by destruct (fn dc rcs pods) as [[b [e|]]|e|m].
Qed.

(** When the wait for a rollout succeeds, then in a state the run of the
    wait went through (one where any property [P] the reads keep still holds)
    the deployment config, the controllers sorted by version and the pods were
    read; they satisfied the invariants of deployments; the last controller was
    that of the latest version, complete, with the expected number of replicas
    in its spec and status; and the config was synced, its Progressing
    condition that of an available controller. *)
Theorem waitForLatestCondition_completion (P : W → Prop) name ticks w w' :
  keeps P (get_dc c name) → keeps P (list_all_pods c) → keeps P (list_rcs c name) → P w →
  waitForLatestCondition c range srt name ticks deploymentReachedCompletion w = (Ret tt, w') →
  ∃ w0 dc rcs pods rc, P w0 ∧ deploymentInfo c srt name w0 = (Ret (dc, rcs, pods), w') ∧
    checkDeploymentInvariants range dc rcs pods = None ∧
    last rcs = Some rc ∧ rollout_complete dc rc.
Proof.
  intros ??? Hw H. apply (waitForLatestCondition_inv P) in H as (w0 & dc & rcs & pods & H); auto.
  - destruct H as (HP & Hi & Hc & (rc & Hl & Hr)%deploymentReachedCompletion_yes).
    by exists w0, dc, rcs, pods, rc.
  - by apply keeps_deploymentInfo.
Qed.

Lemma WaitFor_never {S} (I : S → Prop) n (cond : go S bool) s :
  (∀ s, I s → ∃ s', cond s = (Ret false, s') ∧ I s') → I s →
  ∃ s', WaitFor n cond s = (Fail ErrWaitTimeout, s') ∧ I s'.
Proof.
  intros Hc. revert s. induction n as [|n IH]; intros s Hs; cbn; unfold gobind, fail;
    destruct (Hc s Hs) as (s' & -> & Hs'); eauto.
Qed.

(** [createDeploymentConfig] has one try at reading the created object:
    whatever the timeout, it returns what the first [Get] returned if that
    succeeded, and an error otherwise, because a failed [Get] replaces the
    object by an empty one, whose empty name the client refuses from then on. *)
Theorem createDeploymentConfig_one_try d ticks w d1 w1 :
  (∀ w, ∃ e w', get_dc c "" w = (Fail e, w')) →
  create_dc c d w = (Ret d1, w1) →
  match get_dc c (Name (DCMeta d1)) w1 with
  | (Ret d2, w2) => createDeploymentConfig c (inl d) ticks w = (Ret d2, w2)
  | (Fail _, _) => ∃ e w2, createDeploymentConfig c (inl d) ticks w = (Fail e, w2)
  | (Panic m, w2) => createDeploymentConfig c (inl d) ticks w = (Panic m, w2)
  end.
Proof.
  intros Hempty Hd. unfold createDeploymentConfig, gobind, of_sum, ret. cbn. rewrite Hd.
  unfold PollImmediate, gobind, ret, poll_created. cbn.
  destruct (get_dc c (Name (DCMeta d1)) w1) as [[d2|e|m] w2]; [done| |done].
  destruct (WaitFor_never (λ v, cv_dc v = empty_dc ∧ ∃ e, cv_pollErr v = Some e) ticks (poll_created c)
    (mkCreate w2 empty_dc (Some e))) as (v & Hv & _ & e' & He).
  - intros v [Hv _]. unfold poll_created. rewrite Hv. cbn.
    destruct (Hempty (cv_world v)) as (e' & w' & ->). eauto 10.
  - eauto.
  - unfold poll_created in Hv. cbn in Hv. rewrite Hv. rewrite bool_decide_true by done.
    rewrite He. eauto.
Qed.
End WaitingProofs.

(** A client of a cluster whose state is the number of reads so far: the third
    read of the config finds the rollout complete. *)
Definition rollout_dc (complete : bool) : DeploymentConfig :=
  mkDC (meta_of "dc" "ns") 1 false [] 1 0
    (if complete then [mkDCond "Progressing" "NewReplicationControllerAvailable"] else []).

Definition rollout_client : dc_client nat :=
  let rc (status : string) := mkRC (mkMeta "dc-1" "ns" "" "" 0 0 None None
    (<["openshift.io/deployment-config.latest-version" := "1"]>
       {["openshift.io/deployment.phase" := status]}) ∅) (Some 1%Z) 1 in
  mkDCClient nat
    (λ name n, if String.eqb name "" then (Fail (Errorf "resource name may not be empty"), n)
               else (Ret (rollout_dc (Nat.leb 2 n)), S n))
    (λ d n, (Ret d, n)) (λ d n, (Ret d, n)) (λ n, (Ret [], n))
    (λ _ n, (Ret [rc (if Nat.ltb 2 n then "Complete" else "Running")%string], n)).

Example waitForLatestCondition_completion_witness :
  ∃ w0 dc rcs pods rc, w0 = 2 ∧
    deploymentInfo rollout_client (λ l, l) "dc" w0 = (Ret (dc, rcs, pods), 3) ∧
    checkDeploymentInvariants map_to_list dc rcs pods = None ∧
    last rcs = Some rc ∧ rollout_complete dc rc.
Proof.
  destruct (waitForLatestCondition_completion rollout_client map_to_list (λ l, l)
    (λ _, True) "dc" 5 0 3) as (w0 & dc & rcs & pods & rc & _ & H1 & H2);
    [by intros ?..|done|vm_compute; reflexivity|].
  exists w0, dc, rcs, pods, rc. split_and!; try done; [|tauto..].
  unfold deploymentInfo, gobind in H1. cbn in H1. injection H1. lia.
Defined.

(** One transient failure of the read after the creation. *)
Definition flaky_client : dc_client nat :=
  mkDCClient nat
    (λ name n, if String.eqb name "" then (Fail (Errorf "resource name may not be empty"), n)
               else if Nat.eqb n 0 then (Fail (Errorf "etcd leader changed"), 1)
               else (Ret (rollout_dc true), S n))
    (λ d n, (Ret d, n)) (λ d n, (Ret d, n)) (λ n, (Ret [], n)) (λ _ n, (Ret [], n)).

Example createDeploymentConfig_one_try_witness :
  ∃ e w2, createDeploymentConfig flaky_client (inl (rollout_dc false)) 60 0 = (Fail e, w2).
Proof.
  apply (createDeploymentConfig_one_try flaky_client (rollout_dc false) 60 0 (rollout_dc false) 0).
  - intros w. by eexists _, _.
  - done.
Defined.

(** ** Properties: the checker of the deployer pods *)

Definition pod_id (p : Pod) : string * string := (Namespace (PodMeta p), Name (PodMeta p)).

(** The deployment config a deployer pod belongs to, as the checker names it. *)
Definition key_of (p : Pod) : option string :=
  match getCacheKey p with Ret k => Some k | _ => None end.

(** The specification: the deployer pods that exist, by namespace and name. *)
Notation live := (gmap (string * string) Pod).

Definition apply_event (m : live) (t : event_type) (p : Pod) : live :=
  if is_deployer (pod_name p) then
    match t with
    | EvAdded | EvModified => <[pod_id p := p]> m
    | EvDeleted => delete (pod_id p) m
    | _ => m
    end
  else m.

(** The same pod before and after: its UID and its deployment config stay. *)
Definition continues (m : live) (p : Pod) : Prop :=
  ∃ old, m !! pod_id p = Some old ∧ UID (PodMeta old) = UID (PodMeta p) ∧ key_of old = key_of p.

(** What a watch of the API server delivers. *)
Fixpoint wf_history (m : live) (evs : list (event_type * Pod)) : Prop :=
  match evs with
  | [] => True
  | (t, p) :: rest =>
      match t with EvAdded | EvModified | EvDeleted => True | _ => False end ∧
      (is_deployer (pod_name p) = true →
       is_Some (key_of p) ∧
       match t with EvAdded => m !! pod_id p = None | _ => continues m p end) ∧
      wf_history (apply_event m t p) rest
  end.

(** At most one deployer pod of the deployment config has not terminated. *)
Definition at_most_one_active (m : live) (k : option string) : Prop :=
  ∀ i j p q, m !! i = Some p → m !! j = Some q → key_of p = k → key_of q = k →
    terminated p = false → terminated q = false → i = j.

(** No terminated pod changes its phase. *)
Definition phase_kept (m : live) (t : event_type) (p : Pod) : Prop :=
  t = EvModified → ∀ old, m !! pod_id p = Some old → terminated old = true → Phase p = Phase old.

Fixpoint ok_history (m : live) (evs : list (event_type * Pod)) : Prop :=
  match evs with
  | [] => True
  | (t, p) :: rest =>
      (is_deployer (pod_name p) = true →
       phase_kept m t p ∧ at_most_one_active (apply_event m t p) (key_of p)) ∧
      ok_history (apply_event m t p) rest
  end.

(** The pods the cache should hold under a key. *)
Definition live_of (k : string) (m : live) : list Pod :=
  bfilter (λ p, bool_decide (key_of p = Some k)) (map snd (map_to_list m)).

Definition well_keyed (m : live) : Prop := ∀ i p, m !! i = Some p → i = pod_id p.

(** The cache represents the live pods. *)
Definition represents (c : gmap string (list Pod)) (m : live) : Prop :=
  well_keyed m ∧ ∀ k, default [] (c !! k) ≡ₚ live_of k m.

Lemma live_of_elem k m p : p ∈ live_of k m ↔ key_of p = Some k ∧ ∃ i, m !! i = Some p.
Proof.
  unfold live_of. rewrite elem_of_bfilter, bool_decide_eq_true, list_elem_of_fmap.
  split.
  - intros [([i q] & -> & Hin) ?]. apply elem_of_map_to_list in Hin. eauto.
  - intros [? [i ?]]. split; [|done]. exists (i, p). split; [done|]. by apply elem_of_map_to_list.
Qed.

Lemma live_of_insert k m p :
  m !! pod_id p = None →
  live_of k (<[pod_id p := p]> m) ≡ₚ
  (if bool_decide (key_of p = Some k) then [p] else []) ++ live_of k m.
Proof.
  intros Hn. unfold live_of.
  rewrite (bfilter_perm _ _ _ (Permutation_map snd (map_to_list_insert m _ p Hn))). cbn.
  by destruct (bool_decide _).
Qed.

Lemma live_of_delete k m i p :
  m !! i = Some p →
  live_of k m ≡ₚ (if bool_decide (key_of p = Some k) then [p] else []) ++ live_of k (delete i m).
Proof.
  intros Hs. unfold live_of.
  rewrite <- (bfilter_perm _ _ _ (Permutation_map snd (map_to_list_delete m i p Hs))). cbn.
  by destruct (bool_decide _).
Qed.

Lemma at_most_one_list (h : Pod → bool) (L : list ((string * string) * Pod)) :
  NoDup (map fst L) →
  length (bfilter h (map snd L)) ≤ 1 ↔
  ∀ i j p q, (i, p) ∈ L → (j, q) ∈ L → h p = true → h q = true → i = j.
Proof.
  induction L as [|[i p] L IH]; cbn.
  { intros _. split; [|intros; lia]. by intros _ ? ? ? ? ?%elem_of_nil. }
  intros [Hi Hnd]%NoDup_cons. specialize (IH Hnd). destruct (h p) eqn:Ep.
  - assert (∀ j q, (j, q) ∈ L → j ≠ i) as Hne.
    { intros j q Hin ->. apply Hi. apply list_elem_of_fmap. by exists (i, q). }
    cbn [length]. split.
    + intros Hl. assert (bfilter h (map snd L) = []) as H0 by (apply nil_length_inv; lia).
      assert (∀ j q, (j, q) ∈ L → h q = true → False) as Hno.
      { intros j q Hin Hq. assert (q ∈ bfilter h (map snd L)) as Hf.
        { apply elem_of_bfilter. split; [|done]. apply list_elem_of_fmap. by exists (j, q). }
        rewrite H0 in Hf. by apply elem_of_nil in Hf. }
      intros a b q r [?|Ha]%elem_of_cons [?|Hb]%elem_of_cons Hq Hr; simplify_eq; try done; exfalso;
        first [by apply (Hno b r) | by apply (Hno a q)].
    + intros H. destruct (bfilter h (map snd L)) as [|q l] eqn:E; [cbn; lia|]. exfalso.
      assert (q ∈ bfilter h (map snd L)) as Hq by (rewrite E; left).
      apply elem_of_bfilter in Hq as [([j r] & -> & Hin)%list_elem_of_fmap Hq]. cbn in *.
      apply (Hne j r Hin). symmetry. apply (H i j p r); [left|by right|done|done].
  - rewrite IH. split; intros H a b q r Ha Hb Hq Hr.
    + apply elem_of_cons in Ha as [?|Ha], Hb as [?|Hb]; simplify_eq; try congruence; eauto.
    + apply (H a b q r); [by right|by right|done|done].
Qed.

Lemma unterminated_live k m :
  length (unterminated (live_of k m)) ≤ 1 ↔ at_most_one_active m (Some k).
Proof.
  unfold unterminated, live_of. rewrite bfilter_bfilter, at_most_one_list
    by apply NoDup_fst_map_to_list.
  unfold at_most_one_active. split.
  - intros H i j p q Hi Hj Hkp Hkq Hp Hq. apply (H i j p q); [by apply elem_of_map_to_list..| |];
      cbn beta; by rewrite bool_decide_eq_true_2, ?Hp, ?Hq.
  - intros H i j p q Hi%elem_of_map_to_list Hj%elem_of_map_to_list Hp Hq. cbn beta in Hp, Hq. propify.
    by apply (H i j p q).
Qed.

Lemma getPodIndex_found l p old :
  old ∈ l → (∀ q, q ∈ l → same_pod q p = true → q = old) → same_pod old p = true →
  UID (PodMeta old) = UID (PodMeta p) →
  ∃ i, getPodIndex l p = Ret i ∧ l !! i = Some old.
Proof.
  intros Hin Hu Hs HU. induction l as [|q l IH]; [by apply elem_of_nil in Hin|].
  cbn [getPodIndex]. destruct (same_pod q p) eqn:E.
  - rewrite (Hu q) by (done || left). rewrite (proj2 (String.eqb_eq _ _) HU). by exists 0.
  - apply elem_of_cons in Hin as [->|Hin]; [congruence|].
    destruct IH as (i & -> & Hi); [done|by intros r Hr; apply Hu; right|].
    by exists (S i).
Qed.

Lemma same_pod_id q p : same_pod q p = true ↔ pod_id q = pod_id p.
Proof.
  unfold same_pod, pod_id. rewrite andb_true_iff, !String.eqb_eq. split; [|by intros [= -> ->]].
  by intros [-> ->].
Qed.

(** Looking up a pod that continues a live one. *)
Lemma getPodIndex_live c m p k :
  represents c m → key_of p = Some k → continues m p →
  ∃ i old, getPodIndex (default [] (c !! k)) p = Ret i ∧ default [] (c !! k) !! i = Some old ∧
    m !! pod_id p = Some old ∧ key_of old = Some k.
Proof.
  intros [Hwk Hr] Hk (old & Hold & HU & Hko). specialize (Hr k).
  destruct (getPodIndex_found (default [] (c !! k)) p old) as (i & Hi & Hl); [| | |done|].
  - rewrite Hr, live_of_elem. split; [congruence|eauto].
  - intros q Hq Hs. rewrite Hr, live_of_elem in Hq. destruct Hq as [_ [j Hj]].
    apply same_pod_id in Hs. apply Hwk in Hj as Ej. subst j. rewrite Hs in Hj. congruence.
  - apply same_pod_id. symmetry. by apply Hwk.
  - exists i, old. split_and!; [done..|congruence].
Qed.

Lemma getCacheKey_Some p k : key_of p = Some k → getCacheKey p = Ret k.
Proof. unfold key_of. destruct (getCacheKey p); intros; by simplify_eq. Qed.

(** The outcome of the check that ends each operation. *)
Lemma checkInvariants_outcome k l m c :
  l ≡ₚ live_of k m →
  fst (checkInvariants k l c) = Ret tt ↔ at_most_one_active m (Some k).
Proof.
  intros Hl. rewrite <- unterminated_live. unfold checkInvariants.
  assert (length (unterminated l) = length (unterminated (live_of k m))) as ->.
  { unfold unterminated. by rewrite (bfilter_perm _ _ _ Hl). }
  destruct (Nat.leb_spec (length (unterminated (live_of k m))) 1); cbn; [by split|].
  split; [done|lia].
Qed.

Lemma represents_insert c m k l m' :
  represents c m → well_keyed m' → l ≡ₚ live_of k m' →
  (∀ k', k' ≠ k → live_of k' m' ≡ₚ live_of k' m) →
  represents (<[k := l]> c) m'.
Proof.
  intros [_ Hr] Hwk Hl Ho. split; [done|]. intros k'. destruct (decide (k' = k)) as [->|Hne].
  - by rewrite lookup_insert_eq.
  - by rewrite lookup_insert_ne, Hr, Ho.
Qed.

Lemma well_keyed_insert m p : well_keyed m → well_keyed (<[pod_id p := p]> m).
Proof. intros H i q. rewrite lookup_insert_Some. intros [[<- ->]|[_ ?]]; auto. Qed.
Lemma well_keyed_delete m i : well_keyed m → well_keyed (delete i m).
Proof. intros H j q. rewrite lookup_delete_Some. intros [_ ?]. auto. Qed.

(** How an operation on the cache answers to an event. *)
Definition step_ok (m m' : live) (ok : Prop) (op : go checker unit) : Prop := ∀ c,
  represents (c_cache c) m →
  (fst (op c) = Ret tt ↔ ok) ∧
  (fst (op c) = Ret tt → represents (c_cache (snd (op c))) m').

Lemma end_check k l m' ok c :
  represents (<[k := l]> (c_cache c)) m' → l ≡ₚ live_of k m' →
  (ok ↔ at_most_one_active m' (Some k)) →
  let r := (set_cached k l ;;! checkInvariants k l)%go c in
  (fst r = Ret tt ↔ ok) ∧ (fst r = Ret tt → represents (c_cache (snd r)) m').
Proof.
  intros Hr Hl Hok. cbn. unfold gobind, set_cached, modw.
  set (c' := mkChecker _ _). split.
  - rewrite Hok. by apply checkInvariants_outcome.
  - unfold checkInvariants. destruct (Nat.leb _ _); [|done]. by intros _.
Qed.

Lemma AddPod_step m p k :
  key_of p = Some k → m !! pod_id p = None →
  step_ok m (<[pod_id p := p]> m) (at_most_one_active (<[pod_id p := p]> m) (key_of p)) (AddPod p).
Proof.
  intros Hk Hn c Hr. unfold AddPod, gobind, of_out, cached. rewrite (getCacheKey_Some p k Hk).
  set (l := default [] (c_cache c !! k) ++ [p]).
  assert (l ≡ₚ live_of k (<[pod_id p := p]> m)) as Hl.
  { unfold l. rewrite live_of_insert, bool_decide_eq_true_2, (proj2 Hr) by done.
    by rewrite Permutation_app_comm. }
  apply end_check; [|done|by rewrite Hk].
  eapply represents_insert; [done|by apply well_keyed_insert, Hr|done|].
  intros k' Hne. rewrite live_of_insert, bool_decide_eq_false_2 by congruence. done.
Qed.

Lemma RemovePod_step m p k :
  key_of p = Some k → continues m p →
  step_ok m (delete (pod_id p) m) (at_most_one_active (delete (pod_id p) m) (key_of p)) (RemovePod p).
Proof.
  intros Hk Hc c Hr. unfold RemovePod, gobind, of_out, cached. rewrite (getCacheKey_Some p k Hk).
  destruct (getPodIndex_live _ _ _ _ Hr Hk Hc) as (i & old & -> & Hi & Hold & Hko).
  set (l := default [] (c_cache c !! k)) in *. rewrite <- delete_take_drop.
  pose proof (proj2 Hr k) as Hp. fold l in Hp.
  assert (delete i l ≡ₚ live_of k (delete (pod_id p) m)) as Hl.
  { rewrite (live_of_delete k m _ old Hold), bool_decide_eq_true_2 in Hp by done.
    rewrite (delete_Permutation l i old Hi) in Hp. by apply Permutation.Permutation_cons_inv in Hp. }
  apply end_check; [|done|by rewrite Hk].
  eapply represents_insert; [done|by apply well_keyed_delete, Hr|done|].
  intros k' Hne. rewrite (live_of_delete k' m _ old Hold), bool_decide_eq_false_2 by congruence. done.
Qed.

Lemma UpdatePod_step m p k :
  key_of p = Some k → continues m p →
  step_ok m (<[pod_id p := p]> m)
    (phase_kept m EvModified p ∧ at_most_one_active (<[pod_id p := p]> m) (key_of p)) (UpdatePod p).
Proof.
  intros Hk Hc c Hr. unfold UpdatePod, gobind, of_out, cached. rewrite (getCacheKey_Some p k Hk).
  destruct (getPodIndex_live _ _ _ _ Hr Hk Hc) as (i & old & -> & Hi & Hold & Hko).
  set (l := default [] (c_cache c !! k)) in *. rewrite Hi.
  assert (phase_kept m EvModified p ↔
          terminated old && negb (String.eqb (Phase p) (Phase old)) = false) as Hph.
  { unfold phase_kept. rewrite Hold. destruct (terminated old) eqn:Et; cbn.
    - rewrite negb_false_iff, String.eqb_eq. split; [by intros H; apply H|]. by intros ? _ ? [= <-].
    - split; [done|]. intros _ _ o [= <-]. by rewrite Et. }
  destruct (terminated old && _) eqn:E.
  { split; [|done]. split; [done|]. intros [H%Hph _]. done. }
  pose proof (proj2 Hr k) as Hp. fold l in Hp.
  assert (<[i := p]> l ≡ₚ live_of k (<[pod_id p := p]> m)) as Hl.
  { rewrite <- insert_delete_eq, live_of_insert, bool_decide_eq_true_2
      by (done || apply lookup_delete_eq).
    rewrite (live_of_delete k m _ old Hold), bool_decide_eq_true_2 in Hp by done.
    rewrite (delete_Permutation l i old Hi) in Hp. apply Permutation.Permutation_cons_inv in Hp.
    rewrite insert_take_drop by (by eapply lookup_lt_Some).
    rewrite <- Permutation_middle, <- delete_take_drop. by rewrite Hp. }
  apply end_check; [|done|rewrite Hk; tauto].
  eapply represents_insert; [done|by apply well_keyed_insert, Hr|done|].
  intros k' Hne. rewrite <- insert_delete_eq, live_of_insert, bool_decide_eq_false_2
    by (congruence || apply lookup_delete_eq).
  rewrite (live_of_delete k' m _ old Hold), bool_decide_eq_false_2 by congruence. done.
Qed.

Definition inputs_of (evs : list (event_type * Pod)) : list checker_input :=
  map (λ e, WatchEvent e.1 (Some e.2)) evs ++ [CtxDone].

Lemma handle_event_step m t p rest :
  wf_history m ((t, p) :: rest) →
  step_ok m (apply_event m t p)
    (is_deployer (pod_name p) = true →
     phase_kept m t p ∧ at_most_one_active (apply_event m t p) (key_of p)) (handle_event t p).
Proof.
  intros (Ht & Hd & _) c Hr. unfold handle_event, apply_event.
  destruct (is_deployer (pod_name p)) eqn:E; cbn [negb]; [|by split].
  destruct (Hd eq_refl) as [[k Hk] Hc].
  assert (∀ P : Prop, (true = true → P) ↔ P) as Htrue by (intros P; split; auto). rewrite Htrue.
  destruct t; try done.
  - destruct (AddPod_step m p k Hk Hc c Hr) as [H1 H2]. split; [|done]. rewrite H1.
    unfold phase_kept. split; [by split|tauto].
  - by apply (UpdatePod_step m p k).
  - destruct (RemovePod_step m p k Hk Hc c Hr) as [H1 H2]. split; [|done]. rewrite H1.
    unfold phase_kept. split; [by split|tauto].
Qed.

Lemma check_loop_spec evs m c :
  represents (c_cache c) m → wf_history m evs →
  fst (check_loop (inputs_of evs) c) = Ret tt ↔ ok_history m evs.
Proof.
  revert m c. induction evs as [|[t p] evs IH]; intros m c Hr Hwf; [done|].
  pose proof (handle_event_step m t p evs Hwf c Hr) as [H1 H2].
  destruct Hwf as (Ht & _ & Hwf). unfold inputs_of in *. cbn [map app check_loop fst snd ok_history].
  destruct (bool_decide (t = EvBookmark) || bool_decide (t = EvError)) eqn:E; [by destruct t|].
  rewrite <- H1. unfold gobind. destruct (handle_event t p c) as [[[]|e|x] c']; cbn [fst snd] in *.
  - rewrite (IH _ _ (H2 eq_refl) Hwf). tauto.
  - split; [done|]. by intros [? _].
  - split; [done|]. by intros [? _].
Qed.

Lemma keeps_wg_event t p n : keeps (λ c, c_wg c = n) (handle_event t p).
Proof.
  assert (∀ A (o : outcome A), keeps (λ c, c_wg c = n) (of_out o)) as Ho by (by intros A o c).
  assert (∀ k, keeps (λ c, c_wg c = n) (cached k)) as Hc by (by intros k c).
  assert (∀ k l, keeps (λ c, c_wg c = n) (set_cached k l)) as Hs by (by intros k l c).
  assert (∀ m, keeps (A := unit) (λ c, c_wg c = n) (gopanic m)) as Hp by (by intros m c).
  unfold handle_event, AddPod, UpdatePod, RemovePod, checkInvariants.
  repeat first [ apply keeps_ret | apply Ho | apply Hc | apply Hs | apply Hp
               | apply keeps_bind; intros | destr_match ].
Qed.

Lemma keeps_wg_loop inputs n : keeps (λ c, c_wg c = n) (check_loop inputs).
Proof.
  induction inputs as [|[|t o|] inputs IH]; cbn [check_loop]; [apply keeps_ret..| |by intros c].
  destruct (_ || _); [by intros c|]. destruct o as [p|]; [|by intros c].
  apply keeps_bind; [apply keeps_wg_event|]. intros. apply IH.
Qed.

Lemma represents_empty : represents ∅ ∅.
Proof.
  split; [intros i p; by rewrite lookup_empty|]. intros k. unfold live_of.
  by rewrite lookup_empty, map_to_list_empty.
Qed.

(** C36: fed with what a watch delivers of the pods of a namespace until the
    context is done, the checker reports a failure exactly when, at some
    event, two deployer pods of one deployment config have not terminated, or
    a terminated deployer pod changes its phase; whatever the verdict, the
    goroutine leaves the wait group and [Wait] returns. *)
Theorem deployerPodInvariantChecker_verdict evs :
  wf_history ∅ evs →
  let '(goroutine, start, c) := Start false None (inputs_of evs) NewDeployerPodInvariantChecker in
  (goroutine = Ret tt ↔ ok_history ∅ evs) ∧ start = Ret tt ∧ Wait_returns c = true.
Proof.
  intros Hwf. unfold Start. cbn [wg_add NewDeployerPodInvariantChecker c_wg c_cache].
  change (0 + 1 <? 0)%Z with false. cbn iota. change (0 + 1)%Z with 1%Z.
  set (c := mkChecker ∅ 1). unfold doChecking.
  pose proof (check_loop_spec evs ∅ c represents_empty Hwf) as Hs.
  pose proof (keeps_wg_loop (inputs_of evs) 1 c eq_refl) as Hw.
  destruct (check_loop (inputs_of evs) c) as [r c']. cbn [fst snd] in *.
  unfold wg_add. rewrite Hw. cbn. done.
Qed.

(** When the watch cannot be opened the goroutine ends before it registers the
    deferred [wg.Done]: [Wait] never returns. *)
Example Wait_after_failed_watch e :
  let '(_, start, c) := Start false (Some e) [] NewDeployerPodInvariantChecker in
  start = Ret tt ∧ Wait_returns c = false.
Proof. done. Qed.

(** A goroutine that ends before [Start] has counted it makes the counter
    negative. *)
Example Done_before_Add :
  let '(goroutine, _, _) := Start true None [CtxDone] NewDeployerPodInvariantChecker in
  goroutine = Panic "sync: negative WaitGroup counter".
Proof. done. Qed.

(** *** A history *)

Definition deploy_pod (dc n ph : string) : Pod :=
  mkPod (mkMeta (n +:+ "-deploy") "ns" n "" 0 0 None None {[dc_annotation := dc]} ∅)
    "" "" ph "" "" [] [] [].

Definition two_rollouts : list (event_type * Pod) :=
  [(EvAdded, deploy_pod "dc" "dc-1" "Pending"); (EvModified, deploy_pod "dc" "dc-1" "Succeeded");
   (EvAdded, deploy_pod "dc" "dc-2" "Running"); (EvDeleted, deploy_pod "dc" "dc-1" "Succeeded");
   (EvModified, deploy_pod "dc" "dc-2" "Failed")]%string.

Example deployerPodInvariantChecker_verdict_witness : ok_history ∅ two_rollouts.
Proof.
  assert (wf_history ∅ two_rollouts) as Hwf.
  { unfold two_rollouts. cbn -[insert delete lookup]. split_and!; try done; intros _;
      (split; [by eexists|]); try (vm_compute; reflexivity);
      (eexists; split; [vm_compute; reflexivity|split; vm_compute; reflexivity]). }
  pose proof (deployerPodInvariantChecker_verdict two_rollouts Hwf) as H.
  destruct (Start false None (inputs_of two_rollouts) NewDeployerPodInvariantChecker)
    as [[g s] c] eqn:E.
  apply (proj1 H). vm_compute in E. by simplify_eq.
Defined.
