(* ===== verification/GoNet.v ===== *)
(** * Go's [net/http] headers, [net/url] queries and [encoding/base64]

    The part of these packages the OAuth token requests use.  A byte slice and
    a string are both Rocq's [string]; the base64 decoder reports the offsets of
    [CorruptInputError] that Go's does. *)

From S2P Require Import Prelude.
From S2P Require Import GoStrings.
From Stdlib Require Import Ascii ZifyNat.

(** Linear arithmetic with division and remainder by constants. *)
Ltac div_lia := zify; Z.div_mod_to_equations; lia.

(** ** Headers *)

(** [http.Header]: the keys are canonical, a nil header is an empty one. *)
Notation Header := (gmap string (list string)).

Definition ascii_in (c : Ascii.ascii) (lo hi : nat) : bool :=
  let n := Ascii.nat_of_ascii c in Nat.leb lo n && Nat.leb n hi.
Definition is_upper (c : Ascii.ascii) : bool := ascii_in c 65 90.
Definition is_lower (c : Ascii.ascii) : bool := ascii_in c 97 122.
Definition is_digit (c : Ascii.ascii) : bool := ascii_in c 48 57.

Fixpoint any_char (p : Ascii.ascii → bool) (s : string) : bool :=
  match s with EmptyString => false | String c s' => p c || any_char p s' end.
Definition index_byte (c : Ascii.ascii) (s : string) : bool := any_char (Ascii.eqb c) s.

(** The bytes of a token of RFC 7230. *)
Definition header_byte (c : Ascii.ascii) : bool :=
  is_upper c || is_lower c || is_digit c || index_byte c "!#$%&'*+-.^_`|~".

Fixpoint canonical_from (upper : bool) (s : string) : string :=
  match s with
  | EmptyString => EmptyString
  | String c s' =>
      let n := Ascii.nat_of_ascii c in
      let c' := if upper && is_lower c then Ascii.ascii_of_nat (n - 32)
                else if negb upper && is_upper c then Ascii.ascii_of_nat (n + 32) else c in
      String c' (canonical_from (Ascii.eqb c' "-"%char) s')
  end.

(** [http.CanonicalHeaderKey(s)] *)
Definition CanonicalHeaderKey (s : string) : string :=
  if any_char (λ c, negb (header_byte c)) s then s else canonical_from true s.

(** [h[http.CanonicalHeaderKey(k)]], [h.Get(k)], [h.Set(k, v)] *)
Definition header_values (h : Header) (k : string) : list string :=
  default [] (h !! CanonicalHeaderKey k).
Definition header_Get (h : Header) (k : string) : string :=
  match header_values h k with v :: _ => v | [] => "" end.
Definition header_Set (h : Header) (k v : string) : Header := <[CanonicalHeaderKey k := [v]]> h.

Lemma header_values_Set h k v : header_values (header_Set h k v) k = [v].
Proof. unfold header_values, header_Set. by rewrite lookup_insert_eq. Qed.

Lemma header_values_Set_ne h k k' v :
  CanonicalHeaderKey k ≠ CanonicalHeaderKey k' →
  header_values (header_Set h k v) k' = header_values h k'.
Proof. intros H. unfold header_values, header_Set. by rewrite lookup_insert_ne. Qed.

(** ** Base64, the standard encoding with padding *)

Definition b64_alphabet : string :=
  "ABCDEFGHIJKLMNOPQRSTUVWXYZabcdefghijklmnopqrstuvwxyz0123456789+/".
Definition b64_char (n : nat) : Ascii.ascii := default "A"%char (String.get n b64_alphabet).

(** [decodeMap] *)
Definition b64_val (c : Ascii.ascii) : option nat :=
  let n := Ascii.nat_of_ascii c in
  if is_upper c then Some (n - 65)
  else if is_lower c then Some (n - 71)
  else if is_digit c then Some (n + 4)
  else if Nat.eqb n 43 then Some 62
  else if Nat.eqb n 47 then Some 63
  else None.

Definition byte (n : nat) : Ascii.ascii := Ascii.ascii_of_nat n.
Notation bval := Ascii.nat_of_ascii.

(** [base64.StdEncoding.EncodeToString(s)] *)
Fixpoint EncodeToString (s : string) : string :=
  match s with
  | EmptyString => ""
  | String a EmptyString =>
      String (b64_char (bval a / 4)) (String (b64_char (bval a mod 4 * 16)) "==")
  | String a (String b EmptyString) =>
      String (b64_char (bval a / 4))
        (String (b64_char (bval a mod 4 * 16 + bval b / 16))
           (String (b64_char (bval b mod 16 * 4)) "="))
  | String a (String b (String c r)) =>
      String (b64_char (bval a / 4))
        (String (b64_char (bval a mod 4 * 16 + bval b / 16))
           (String (b64_char (bval b mod 16 * 4 + bval c / 64))
              (String (b64_char (bval c mod 64)) (EncodeToString r))))
  end.

Definition is_newline (c : Ascii.ascii) : bool :=
  Nat.eqb (bval c) 10 || Nat.eqb (bval c) 13.

Fixpoint skip_newlines (si : nat) (s : string) : nat * string :=
  match s with
  | String c s' => if is_newline c then skip_newlines (S si) s' else (si, s)
  | EmptyString => (si, s)
  end.

(** After the last padding byte only newlines may follow. *)
Definition b64_end (si : nat) (s : string) (out : string) : string + nat :=
  match skip_newlines si s with
  | (_, EmptyString) => inl out
  | (si', _) => inr si'
  end.

Definition quad1 (x y : nat) : string := String (byte ((x * 4 + y / 16) mod 256)) "".
Definition quad2 (x y z : nat) : string :=
  String (byte ((x * 4 + y / 16) mod 256)) (String (byte (((y mod 16) * 16 + z / 4) mod 256)) "").

(** [decodeQuantum], one byte at a time: [si] is the offset, [dbuf] the values
    of the quantum read so far. *)
Fixpoint b64_scan (si : nat) (dbuf : list nat) (s : string) : string + nat :=
  match s with
  | EmptyString => match dbuf with [] => inl "" | _ => inr (si - length dbuf) end
  | String ch s' =>
      match b64_val ch with
      | Some v =>
          match dbuf with
          | [x; y; z] =>
              match b64_scan (S si) [] s' with
              | inl rest =>
                  inl (quad2 x y z +:+ String (byte (((z mod 4) * 64 + v) mod 256)) rest)
              | inr e => inr e
              end
          | _ => b64_scan (S si) (dbuf ++ [v]) s'
          end
      | None =>
          if is_newline ch then b64_scan (S si) dbuf s'
          else if negb (Ascii.eqb ch "="%char) then inr si
          else match dbuf with
          | [x; y] =>
              match skip_newlines (S si) s' with
              | (si', EmptyString) => inr si'
              | (si', String p s'') =>
                  if Ascii.eqb p "="%char then b64_end (S si') s'' (quad1 x y) else inr (si' - 1)
              end
          | [x; y; z] => b64_end (S si) s' (quad2 x y z)
          | _ => inr si
          end
      end
  end.

(** [base64.StdEncoding.DecodeString(s)] *)
Definition DecodeString (s : string) : string + error :=
  match b64_scan 0 [] s with
  | inl b => inl b
  | inr off => inr (Errorf ("illegal base64 data at input byte " +:+ itoa (Z.of_nat off)))
  end.

(** The values of the alphabet are inverse to its characters. *)
Lemma b64_val_char n : n < 64 → b64_val (b64_char n) = Some n.
Proof. intros H. do 64 (destruct n as [|n]; [reflexivity|]). lia. Qed.

Lemma bval_lt (c : ascii) : bval c < 256.
Proof. apply nat_ascii_bounded. Qed.

Lemma b64_scan_quad si x y z v s :
  x < 64 → y < 64 → z < 64 → v < 64 →
  b64_scan si [] (String (b64_char x) (String (b64_char y)
    (String (b64_char z) (String (b64_char v) s)))) =
  match b64_scan (4 + si) [] s with
  | inl rest => inl (quad2 x y z +:+ String (byte (((z mod 4) * 64 + v) mod 256)) rest)
  | inr e => inr e
  end.
Proof. intros. cbn [b64_scan]. by do 4 (rewrite b64_val_char by done; cbn [app b64_scan]). Qed.

Lemma b64_scan_pad2 si x y : x < 64 → y < 64 →
  b64_scan si [] (String (b64_char x) (String (b64_char y) "==")) = inl (quad1 x y).
Proof. intros. cbn [b64_scan]. by do 2 (rewrite b64_val_char by done; cbn [app b64_scan]). Qed.

Lemma b64_scan_pad1 si x y z : x < 64 → y < 64 → z < 64 →
  b64_scan si [] (String (b64_char x) (String (b64_char y) (String (b64_char z) "="))) =
  inl (quad2 x y z).
Proof. intros. cbn [b64_scan]. by do 3 (rewrite b64_val_char by done; cbn [app b64_scan]). Qed.

Lemma byte_bval (c : ascii) n : n = bval c → byte (n mod 256) = c.
Proof.
  intros ->. rewrite Nat.mod_small by apply bval_lt. apply ascii_nat_embedding.
Qed.

(** Strings by groups of three bytes. *)
Lemma string_ind3 (P : string → Prop) :
  P "" → (∀ a, P (String a "")) → (∀ a b, P (String a (String b ""))) →
  (∀ a b c s, P s → P (String a (String b (String c s)))) → ∀ s, P s.
Proof.
  intros H0 H1 H2 H3 s. enough (P s ∧ (∀ a, P (String a s)) ∧ ∀ a b, P (String a (String b s))) by tauto.
  induction s as [|c s (IH0 & IH1 & IH2)]; split_and!; auto.
Qed.

Lemma b64_scan_Encode s : ∀ si, b64_scan si [] (EncodeToString s) = inl s.
Proof.
  induction s as [|a|a b|a b c s IH] using string_ind3; intros si; [done|..].
  all: pose proof (bval_lt a).
  all: try pose proof (bval_lt b).
  all: try pose proof (bval_lt c).
  - cbn [EncodeToString]. rewrite b64_scan_pad2 by div_lia.
    unfold quad1. do 2 f_equal. apply byte_bval. div_lia.
  - cbn [EncodeToString]. rewrite b64_scan_pad1 by div_lia.
    unfold quad2. by rewrite (byte_bval a), (byte_bval b) by div_lia.
  - cbn [EncodeToString]. rewrite b64_scan_quad by (div_lia).
    rewrite IH. unfold quad2. cbn [String.append].
    by rewrite (byte_bval a), (byte_bval b), (byte_bval c) by div_lia.
Qed.

Lemma Decode_Encode s : DecodeString (EncodeToString s) = inl s.
Proof. unfold DecodeString. by rewrite b64_scan_Encode. Qed.

(** ** Queries *)

(** [url.Values] *)
Notation Values := (gmap string (list string)).
Definition values_Get (m : Values) (k : string) : string :=
  match m !! k with Some (v :: _) => v | _ => "" end.

Definition EscapeError (s : string) : error := Errorf ("invalid URL escape " +:+ Quote s).

Definition cons_byte (c : ascii) (r : string + error) : string + error :=
  match r with inl s => inl (String c s) | inr e => inr e end.

(** [url.QueryUnescape(s)] *)
Fixpoint QueryUnescape (s : string) : string + error :=
  match s with
  | EmptyString => inl ""
  | String c rest =>
      if Ascii.eqb c "%" then
        match rest with
        | String a (String b r) =>
            match hex_val a, hex_val b with
            | Some x, Some y => cons_byte (byte_of (x * 16 + y)) (QueryUnescape r)
            | _, _ => inr (EscapeError (take_str 3 s))
            end
        | _ => inr (EscapeError s)
        end
      else cons_byte (if Ascii.eqb c "+" then " "%char else c) (QueryUnescape rest)
  end.

(** The pieces between the separators [&] and [;]. *)
Definition is_separator (c : ascii) : bool := Ascii.eqb c "&" || Ascii.eqb c ";".
Fixpoint split_params (s : string) : list string :=
  match s with
  | EmptyString => [EmptyString]
  | String c s' =>
      if is_separator c then EmptyString :: split_params s'
      else match split_params s' with
           | w :: ws => String c w :: ws
           | [] => [String c EmptyString]
           end
  end.

Definition cut_equals (s : string) : string * string :=
  match SplitN2 "=" s with k :: v :: _ => (k, v) | _ => (s, "") end.

Definition add_value (k v : string) (m : Values) : Values :=
  <[k := default [] (m !! k) ++ [v]]> m.

(** The first error is kept, the pairs that parse are collected. *)
Fixpoint parse_params (ps : list string) (m : Values) (err : option error)
  : Values * option error :=
  match ps with
  | [] => (m, err)
  | p :: rest =>
      if String.eqb p "" then parse_params rest m err
      else
        let keep (e : error) := Some (default e err) in
        match QueryUnescape (cut_equals p).1 with
        | inr e => parse_params rest m (keep e)
        | inl k =>
            match QueryUnescape (cut_equals p).2 with
            | inr e => parse_params rest m (keep e)
            | inl v => parse_params rest (add_value k v m) err
            end
        end
  end.

(** [url.ParseQuery(query)] *)
Definition ParseQuery (query : string) : Values * option error :=
  parse_params (split_params query) ∅ None.

(** [strings.SplitN(s, "c", 2)] as a pair: the second part is empty when the
    byte does not occur. *)
Definition cut (c : ascii) (s : string) : string * string :=
  match SplitN2 c s with a :: b :: _ => (a, b) | _ => (s, "") end.

(** The [RawQuery] of a URL that parses: the scheme of a URL has no [?]. *)
Definition RawQuery (location : string) : string := (cut "?" (cut "#" location).1).2.

(** [u.Query()] *)
Definition URL_Query (location : string) : Values := (ParseQuery (RawQuery location)).1.

(** Text that needs no escape in a value. *)
Definition plain_char (c : ascii) : bool :=
  negb (is_separator c) && negb (Ascii.eqb c "%") && negb (Ascii.eqb c "+").
Definition plain (s : string) : bool := negb (any_char (λ c, negb (plain_char c)) s).

Lemma plain_cons c s : plain (String c s) = plain_char c && plain s.
Proof. unfold plain. cbn. by destruct (plain_char c). Qed.

Lemma QueryUnescape_plain s : plain s = true → QueryUnescape s = inl s.
Proof.
  induction s as [|c s IH]; [done|]. rewrite plain_cons. intros H. propify.
  unfold plain_char in H. propify. cbn. rewrite IH by done.
  destruct (Ascii.eqb c "%"), (Ascii.eqb c "+"); done.
Qed.

Lemma split_params_plain s : plain s = true → split_params s = [s].
Proof.
  induction s as [|c s IH]; [done|]. rewrite plain_cons. intros H. propify.
  unfold plain_char in H. propify. cbn. rewrite IH by done. by destruct (is_separator c).
Qed.

Lemma split_params_app s t : plain s = true →
  split_params (s +:+ String "&" t) = s :: split_params t.
Proof.
  induction s as [|c s IH]; [done|]. rewrite plain_cons. intros H. propify.
  unfold plain_char in H. propify. rewrite str_app_cons. cbn [split_params]. rewrite IH by done. by destruct (is_separator c).
Qed.

(** A key with a value in plain text. *)
Lemma plain_app s t : plain (s +:+ t) = plain s && plain t.
Proof. induction s as [|c s IH]; [done|]. rewrite str_app_cons, !plain_cons, IH. by rewrite andb_assoc. Qed.

Lemma cut_equals_app k v : str_free "=" k = true → cut_equals (k +:+ String "=" v) = (k, v).
Proof. intros H. unfold cut_equals. by rewrite SplitN2_app. Qed.

Lemma parse_params_pair k v rest m err :
  plain k = true → plain v = true → str_free "=" k = true →
  parse_params ((k +:+ String "=" v) :: rest) m err = parse_params rest (add_value k v m) err.
Proof.
  intros Hk Hv He. cbn [parse_params].
  destruct (String.eqb_spec (k +:+ String "=" v) "") as [E|_]; [by destruct k|].
  rewrite cut_equals_app by done. cbn [fst snd]. by rewrite !QueryUnescape_plain.
Qed.

Lemma values_Get_add k v m : m !! k = None → values_Get (add_value k v m) k = v.
Proof. intros H. unfold values_Get, add_value. by rewrite lookup_insert_eq, H. Qed.

Lemma cut_app c s t : str_free c s = true → cut c (s +:+ String c t) = (s, t).
Proof. intros H. unfold cut. by rewrite SplitN2_app. Qed.
Lemma cut_free c s : str_free c s = true → cut c s = (s, "").
Proof. intros H. unfold cut. by rewrite SplitN2_free. Qed.

Lemma DecodeString_length s b : DecodeString s = inl b → 4 * String.length b <= 3 * String.length s.
Proof.
  unfold DecodeString. assert (∀ si' s' out b', b64_end si' s' out = inl b' → b' = out) as He.
  { unfold b64_end. intros si' s' out b'. destruct (skip_newlines si' s') as [? []]; naive_solver. }
  assert (∀ s si d b', length d < 4 → b64_scan si d s = inl b' →
          4 * String.length b' <= 3 * (String.length s + length d)) as H.
  { clear s b. induction s as [|c s IH]; intros si d b' Hd; cbn [b64_scan String.length].
    - destruct d; naive_solver.
    - destruct (b64_val c) as [v|].
      + destruct d as [|x [|y [|z [|]]]]; cbn [length] in *; try lia.
        1-3: cbn [app]; intros H'; apply IH in H'; cbn [length] in *; lia.
        destruct (b64_scan (S si) [] s) as [r|] eqn:E; [|done]. apply IH in E; [|cbn; lia].
        intros [= <-]. rewrite str_length_app. cbn in *. lia.
      + destruct (is_newline c).
        { intros H'. apply IH in H'; lia. }
        destruct (negb (Ascii.eqb c "=")); [done|].
        destruct d as [|x [|y [|z [|]]]]; cbn [length] in *; try done; try lia.
        * destruct (skip_newlines (S si) s) as [si' [|p s'']] eqn:E; [done|].
          destruct (Ascii.eqb p "="); [|done]. intros H'. apply He in H'. subst. cbn.
          destruct s; [cbn in E; by simplify_eq|]. cbn. lia.
        * intros H'. apply He in H'. subst. cbn. lia. }
  destruct (b64_scan 0 [] s) as [r|] eqn:E; intros [= <-]. apply H in E; cbn in *; lia.
Qed.
