(* ===== verification/TokenHandlers.v ===== *)
(** * test/extended/util/oauthserver/tokencmd: the challenge handlers

    basicauth.go, negotiate.go, negotiate_helpers.go, the two unsupported
    negotiators and multi.go.  A handler is the record of the operations of the
    Go interface over the state [H] of the handlers; [focus] lets a handler
    work on its own part of a larger state, and the handlers a [MultiHandler]
    holds pointers to are named by their position in [allHandlers].  A nil
    header is an empty one. *)

From S2P Require Import Prelude.
From S2P Require Import GoStrings.
From S2P Require Import GoLib.
From S2P Require Import GoNet.
From Stdlib Require Import Ascii.

(* src: test/extended/util/oauthserver/tokencmd/request_token.go 48-64 ChallengeHandler *)
Record ChallengeHandler (H : Type) := mkHandler {
  CanHandle : Header → go H bool;
  HandleChallenge : string → Header → go H (Header * bool);
  CompleteChallenge : string → Header → go H unit;
  Release : go H unit
}.
Arguments mkHandler {H}.
Arguments CanHandle {H}. Arguments HandleChallenge {H}.
Arguments CompleteChallenge {H}. Arguments Release {H}.

(** ** Parts of a state *)

Section Focus.
Context {H S : Type} (get : H → S) (set : S → H → H).

Definition focus {A} (m : go S A) : go H A := λ h,
  let '(r, s) := m (get h) in (r, set s h).

Definition focus_handler (c : ChallengeHandler S) : ChallengeHandler H :=
  mkHandler (λ hd, focus (CanHandle c hd)) (λ u hd, focus (HandleChallenge c u hd))
    (λ u hd, focus (CompleteChallenge c u hd)) (focus (Release c)).
End Focus.

(** ** Basic authentication *)

Module Basic.
(* src: test/extended/util/oauthserver/tokencmd/basicauth.go 14-32 BasicChallengeHandler *)
Record BasicChallengeHandler := mkBasic {
  Host : string;
  Reader : bool;          (* the reader is not nil *)
  Username : string;
  Password : string;
  handled : bool;
  prompted : bool
}.

Definition set_handled (c : BasicChallengeHandler) : BasicChallengeHandler :=
  mkBasic (Host c) (Reader c) (Username c) (Password c) true (prompted c).

(** *** The regular expressions *)

(** [\s] *)
Definition re_space (c : ascii) : bool :=
  let n := nat_of_ascii c in Nat.eqb n 9 || Nat.eqb n 10 || Nat.eqb n 12 || Nat.eqb n 13 || Nat.eqb n 32.

(** [\s*] before something that is no space *)
Fixpoint skip_space (s : string) : string :=
  match s with
  | String c s' => if re_space c then skip_space s' else s
  | EmptyString => EmptyString
  end.

(** [\s+] *)
Definition skip_space1 (s : string) : option string :=
  match s with String c s' => if re_space c then Some (skip_space s') else None | _ => None end.

Definition lower (c : ascii) : ascii :=
  if is_upper c then ascii_of_nat (nat_of_ascii c + 32) else c.

(** A literal of lower-case letters under [(?i)]: the folding of [s] has the
    long s (U+017F) as a third member; [k] does not occur. *)
Fixpoint match_fold (lit s : string) : option string :=
  match lit, s with
  | EmptyString, _ => Some s
  | String l lit', String c s' =>
      if Ascii.eqb (lower c) l then match_fold lit' s'
      else if Ascii.eqb l "s" && Nat.eqb (nat_of_ascii c) 197 then
        match s' with
        | String d s'' => if Nat.eqb (nat_of_ascii d) 191 then match_fold lit' s'' else None
        | EmptyString => None
        end
      else None
  | String _ _, EmptyString => None
  end.

Definition match_char (c : ascii) (s : string) : option string :=
  match s with String d s' => if Ascii.eqb c d then Some s' else None | EmptyString => None end.

(** [\s*(,|$)] *)
Definition at_end (s : string) : bool :=
  match skip_space s with EmptyString => true | String c _ => Ascii.eqb c "," end.

(** [(.*?)] followed by what [k] accepts *)
Fixpoint lazy_group (k : string → bool) (s : string) : option string :=
  if k s then Some EmptyString
  else match s with
       | EmptyString => None
       | String c s' =>
           if Ascii.eqb c nl_char then None
           else match lazy_group k s' with Some g => Some (String c g) | None => None end
       end.

(** [^\s*basic] *)
Definition match_basic (s : string) : option string := match_fold "basic" (skip_space s).

(** [^\s*basic\s+realm\s*=\s*] *)
Definition match_realm (s : string) : option string :=
  r ← match_basic s; r ← skip_space1 r; r ← match_fold "realm" r;
  r ← match_char "=" (skip_space r); Some (skip_space r).

(** The three expressions; the submatch of the last one is absent. *)
(* src: test/extended/util/oauthserver/tokencmd/basicauth.go 84-91 basicRegexes *)
Definition basicRegexes : list (string → option string) :=
  [λ s, r ← match_realm s; r ← match_char quote_char r;
        lazy_group (λ t, match t with
                         | String q t' => Ascii.eqb q quote_char && at_end t'
                         | EmptyString => false
                         end) r;
   λ s, r ← match_realm s; lazy_group at_end r;
   λ s, r ← match_basic s;
        if String.eqb r "" then Some "" else _ ← skip_space1 r; Some ""].

Fixpoint first_match (rs : list (string → option string)) (s : string) : option string :=
  match rs with
  | [] => None
  | r :: rs' => match r s with Some m => Some m | None => first_match rs' s end
  end.

Fixpoint basic_realm_of (values : list string) : bool * string :=
  match values with
  | [] => (false, "")
  | v :: vs => match first_match basicRegexes v with Some m => (true, m) | None => basic_realm_of vs end
  end.

(* src: test/extended/util/oauthserver/tokencmd/basicauth.go 93-107 basicRealm *)
Definition basicRealm (headers : Header) : bool * string :=
  basic_realm_of (header_values headers "WWW-Authenticate").

(* src: test/extended/util/oauthserver/tokencmd/basicauth.go 108-110 getBasicHeader *)
Definition getBasicHeader (username password : string) : string :=
  "Basic " +:+ EncodeToString (username +:+ ":" +:+ password).

(** *** The handler *)

(* src: test/extended/util/oauthserver/tokencmd/basicauth.go 34-37 BasicChallengeHandler.CanHandle *)
Definition CanHandle (headers : Header) : go BasicChallengeHandler bool := ret (basicRealm headers).1.

(* src: test/extended/util/oauthserver/tokencmd/basicauth.go 38-73 BasicChallengeHandler.HandleChallenge *)
Definition HandleChallenge (requestURL : string) (headers : Header)
  : go BasicChallengeHandler (Header * bool) :=
  (c <-! getw ;;
   if prompted c then ret (∅, false)
   else if handled c then ret (∅, false)
   else
     let username := Username c in
     let password := Password c in
     let missingUsername := String.eqb username "" in
     let missingPassword := String.eqb password "" in
     if (missingUsername || missingPassword) && Reader c then gopanic "unsupported"
     else if negb missingUsername || negb missingPassword then
       if Contains username ":"
       then fail (Errorf ("username " +:+ username +:+ " is invalid for basic auth"))
       else
         modw set_handled ;;!
         ret (header_Set ∅ "Authorization" (getBasicHeader username password), true)
     else ret (∅, false))%go.

(* src: test/extended/util/oauthserver/tokencmd/basicauth.go 74-76 BasicChallengeHandler.CompleteChallenge *)
Definition CompleteChallenge (requestURL : string) (headers : Header)
  : go BasicChallengeHandler unit := ret tt.

(* src: test/extended/util/oauthserver/tokencmd/basicauth.go 78-80 BasicChallengeHandler.Release *)
Definition Release : go BasicChallengeHandler unit := ret tt.

Definition handler : ChallengeHandler BasicChallengeHandler :=
  mkHandler CanHandle HandleChallenge CompleteChallenge Release.
End Basic.

(** ** Negotiation *)

Module Negotiate.
(** The state of the GSSAPI library is [S]; a nil token is an empty one. *)
(* src: test/extended/util/oauthserver/tokencmd/negotiate.go 12-26 Negotiator *)
Record Negotiator (S : Type) := mkNegotiator {
  Load : go S unit;
  InitSecContext : string → string → go S string;
  IsComplete : go S bool;
  NRelease : go S unit
}.

Definition negotiateScheme : string := "negotiate".

Fixpoint negotiate_token_of (values : list string) : (bool * string) + error :=
  match values with
  | [] => inl (false, "")
  | challengeHeader :: rest =>
      let caseInsensitiveHeader := ToLower challengeHeader in
      if String.eqb caseInsensitiveHeader negotiateScheme then inl (true, "")
      else if HasPrefix caseInsensitiveHeader (negotiateScheme +:+ " ") then
        let payload := drop_str (String.length negotiateScheme) challengeHeader in
        let payload := Replace payload " " "" in
        match DecodeString payload with
        | inr err => inr err
        | inl data => inl (true, data)
        end
      else negotiate_token_of rest
  end.

(* src: test/extended/util/oauthserver/tokencmd/negotiate.go 101-121 getNegotiateToken *)
Definition getNegotiateToken (headers : Header) : (bool * string) + error :=
  negotiate_token_of (header_values headers "WWW-Authenticate").

Section Handler.
Context {S : Type} (negotiator : Negotiator S).

(* src: test/extended/util/oauthserver/tokencmd/negotiate.go 38-48 NegotiateChallengeHandler.CanHandle *)
Definition CanHandle (headers : Header) : go S bool :=
  match getNegotiateToken headers with
  | inr _ | inl (false, _) => ret false
  | inl (true, _) =>
      (r <-! try (Load S negotiator) ;;
       ret (match r with inl _ => true | inr _ => false end))%go
  end.

(* src: test/extended/util/oauthserver/tokencmd/negotiate.go 50-68 NegotiateChallengeHandler.HandleChallenge *)
Definition HandleChallenge (requestURL : string) (headers : Header) : go S (Header * bool) :=
  match getNegotiateToken headers with
  | inr err => fail err
  | inl (_, incomingToken) =>
      (outgoingToken <-! InitSecContext S negotiator requestURL incomingToken ;;
       ret (header_Set ∅ "Authorization" ("Negotiate " +:+ EncodeToString outgoingToken), true))%go
  end.

(* src: test/extended/util/oauthserver/tokencmd/negotiate.go 70-95 NegotiateChallengeHandler.CompleteChallenge *)
Definition CompleteChallenge (requestURL : string) (headers : Header) : go S unit :=
  (complete <-! IsComplete S negotiator ;;
   if complete : bool then ret tt
   else match getNegotiateToken headers with
   | inr err => fail err
   | inl (isNegotiate, incomingToken) =>
       if negb isNegotiate
       then fail (Errorf "client requires final negotiate token, none provided")
       else
         InitSecContext S negotiator requestURL incomingToken ;;!
         complete <-! IsComplete S negotiator ;;
         if complete : bool then ret tt
         else fail (Errorf "InitSecContext did not indicate final negotiation completed")
   end)%go.

(* src: test/extended/util/oauthserver/tokencmd/negotiate.go 28-36 NewNegotiateChallengeHandler *)
Definition NewNegotiateChallengeHandler : ChallengeHandler S :=
  mkHandler CanHandle HandleChallenge CompleteChallenge (NRelease S negotiator).
End Handler.

(** A negotiator that has no state and always fails. *)
(* src: test/extended/util/oauthserver/tokencmd/negotiate_helpers.go 17-39 newUnsupportedNegotiator *)
Definition newUnsupportedNegotiator {S} (name : string) : Negotiator S :=
  let error := Errorf (name +:+ " support is not enabled") in
  mkNegotiator S (fail error) (λ _ _, fail error) (ret false) (fail error).

(** [url.Parse] and [Hostname] are one function here; [sep] is a rune. *)
(* src: test/extended/util/oauthserver/tokencmd/negotiate_helpers.go 8-15 getServiceName *)
Definition getServiceName (parse_Hostname : string → string + error) (sep : Z) (requestURL : string)
  : string + error :=
  match parse_Hostname requestURL with
  | inl host => inl ("HTTP" +:+ EncodeRune sep +:+ host)
  | inr err => inr err
  end.

(* src: test/extended/util/oauthserver/tokencmd/negotiator_gssapi_unsupported.go 3-5 GSSAPIEnabled *)
Definition GSSAPIEnabled : bool := false.
(* src: test/extended/util/oauthserver/tokencmd/negotiator_gssapi_unsupported.go 7-9 NewGSSAPINegotiator *)
Definition NewGSSAPINegotiator {S} (name : string) : Negotiator S := newUnsupportedNegotiator "GSSAPI".
(* src: test/extended/util/oauthserver/tokencmd/negotiator_sspi_unsupported.go 5-7 SSPIEnabled *)
Definition SSPIEnabled : bool := false.
(* src: test/extended/util/oauthserver/tokencmd/negotiator_sspi_unsupported.go 9-11 NewSSPINegotiator *)
Definition NewSSPINegotiator {S} (username password host : string) (reader : bool) : Negotiator S :=
  newUnsupportedNegotiator "SSPI".
End Negotiate.

(** ** Several handlers *)

Module Multi.
(** [handler] is a pointer to one of the handlers, or nil. *)
(* src: test/extended/util/oauthserver/tokencmd/multi.go 14-28 MultiHandler *)
Record MultiHandler := mkMulti {
  handler : option nat;
  possibleHandlers : list nat
}.

Section Multi.
Context {H : Type} (allHandlers : list (ChallengeHandler H)).

(** A method call through a pointer to a handler. *)
Definition call {A} (i : nat) (method : ChallengeHandler H → go H A) : go (H * MultiHandler) A :=
  match allHandlers !! i with
  | Some c => focus fst (λ s h, (s, h.2)) (method c)
  | None => gopanic "nil pointer dereference"
  end.

Definition select (i : nat) : go (H * MultiHandler) unit :=
  modw (λ h, (h.1, mkMulti (Some i) (possibleHandlers h.2))).
Definition set_possible (l : list nat) : go (H * MultiHandler) unit :=
  modw (λ h, (h.1, mkMulti (handler h.2) l)).

Fixpoint any_can_handle (l : list nat) (headers : Header) : go (H * MultiHandler) bool :=
  match l with
  | [] => ret false
  | i :: rest =>
      (b <-! call i (λ c, CanHandle c headers) ;;
       if b : bool then ret true else any_can_handle rest headers)%go
  end.

(* src: test/extended/util/oauthserver/tokencmd/multi.go 37-51 MultiHandler.CanHandle *)
Definition CanHandle (headers : Header) : go (H * MultiHandler) bool :=
  (h <-! getw ;;
   match handler h.2 with
   | Some i => call i (λ c, TokenHandlers.CanHandle c headers)
   | None => any_can_handle (possibleHandlers h.2) headers
   end)%go.

(* src: test/extended/util/oauthserver/tokencmd/multi.go 59-66 MultiHandler.HandleChallenge (filter) *)
Fixpoint applicable (l : list nat) (headers : Header) : go (H * MultiHandler) (list nat) :=
  match l with
  | [] => ret []
  | i :: rest =>
      (b <-! call i (λ c, TokenHandlers.CanHandle c headers) ;;
       js <-! applicable rest headers ;;
       ret (if b : bool then i :: js else js))%go
  end.

(* src: test/extended/util/oauthserver/tokencmd/multi.go 68-87 MultiHandler.HandleChallenge (selection) *)
Fixpoint try_handlers (l : list nat) (requestURL : string) (headers : Header)
  : go (H * MultiHandler) (Header * bool) :=
  match l with
  | [] => fail (Err KUnauthorized "unhandled challenge")
  | i :: rest =>
      (r <-! try (call i (λ c, HandleChallenge c requestURL headers)) ;;
       match r with
       | inl x => select i ;;! ret x
       | inr err =>
           match rest with
           | [] => select i ;;! fail err
           | _ => try_handlers rest requestURL headers
           end
       end)%go
  end.

(* src: test/extended/util/oauthserver/tokencmd/multi.go 53-88 MultiHandler.HandleChallenge *)
Definition HandleChallenge (requestURL : string) (headers : Header)
  : go (H * MultiHandler) (Header * bool) :=
  (h <-! getw ;;
   match handler h.2 with
   | Some i => call i (λ c, HandleChallenge c requestURL headers)
   | None =>
       l <-! applicable (possibleHandlers h.2) headers ;;
       set_possible l ;;!
       try_handlers l requestURL headers
   end)%go.

(* src: test/extended/util/oauthserver/tokencmd/multi.go 90-95 MultiHandler.CompleteChallenge *)
Definition CompleteChallenge (requestURL : string) (headers : Header) : go (H * MultiHandler) unit :=
  (h <-! getw ;;
   match handler h.2 with
   | Some i => call i (λ c, CompleteChallenge c requestURL headers)
   | None => ret tt
   end)%go.

Fixpoint release_all (l : list (ChallengeHandler H)) : go (H * MultiHandler) (list error) :=
  match l with
  | [] => ret []
  | c :: rest =>
      (r <-! try (focus fst (λ s h, (s, h.2)) (Release c)) ;;
       errs <-! release_all rest ;;
       ret (match r with inl _ => errs | inr e => e :: errs end))%go
  end.

(** The message of an aggregate prints each message once. *)
Definition aggregate_error (errs : list error) : error :=
  match errs with
  | [e] => Errorf (err_msg e)
  | _ =>
      let seen := foldl (λ seen m, if bool_decide (m ∈ seen) then seen else seen ++ [m]) []
                    (map err_msg errs) in
      Errorf (match seen with [m] => m | _ => "[" +:+ Join seen ", " +:+ "]" end)
  end.

(* src: test/extended/util/oauthserver/tokencmd/multi.go 97-105 MultiHandler.Release *)
Definition Release : go (H * MultiHandler) unit :=
  (errs <-! release_all allHandlers ;;
   match errs with [] => ret tt | _ => fail (aggregate_error errs) end)%go.

(* src: test/extended/util/oauthserver/tokencmd/multi.go 30-35 NewMultiHandler *)
Definition NewMultiHandler : ChallengeHandler (H * MultiHandler) * MultiHandler :=
  (mkHandler CanHandle HandleChallenge CompleteChallenge Release,
   mkMulti None (seq 0 (length allHandlers))).
End Multi.
End Multi.

(** ** The interface of the request loop: a budget of challenges

    A handler with a budget answers only so many challenges with new headers:
    no operation raises the budget and each answer lowers it. *)

Class Bounded {H} (c : ChallengeHandler H) (budget : H → nat) : Prop := {
  bounded_can hd s : budget (CanHandle c hd s).2 ≤ budget s;
  bounded_handle u hd s : budget (HandleChallenge c u hd s).2 ≤ budget s;
  bounded_retry u hd s r s' :
    HandleChallenge c u hd s = (Ret (r, true), s') → budget s' < budget s;
  bounded_complete u hd s : budget (CompleteChallenge c u hd s).2 ≤ budget s
}.

(** Basic authentication answers one challenge. *)
Definition basic_budget (c : Basic.BasicChallengeHandler) : nat := if Basic.handled c then 0 else 1.

#[export] Instance basic_bounded : Bounded Basic.handler basic_budget.
Proof.
  split; cbn; auto.
  all: unfold Basic.HandleChallenge, gobind, getw, modw, ret, fail, gopanic, basic_budget.
  - intros u hd s. destruct (Basic.prompted s), (Basic.handled s) eqn:E; cbn; rewrite ?E; try lia.
    repeat destr_match; cbn; rewrite ?E; lia.
  - intros u hd s r s' H. destruct (Basic.prompted s), (Basic.handled s) eqn:E; cbn in H; try done.
    repeat destr_match; simplify_eq/=; lia.
Qed.

(** A negotiator whose [InitSecContext] always fails never answers. *)
#[export] Instance unsupported_bounded {S} name (budget : S → nat) :
  Bounded (Negotiate.NewNegotiateChallengeHandler (Negotiate.newUnsupportedNegotiator name)) budget.
Proof.
  split; cbn; unfold Negotiate.CanHandle, Negotiate.HandleChallenge, Negotiate.CompleteChallenge,
    gobind, try, ret, fail; cbn; intros; repeat destr_match; simplify_eq/=; auto.
Qed.

(** A handler on its part of a larger state; [rest] is what the other parts
    contribute. *)
Lemma focus_bounded {H S} (get : H → S) (set : S → H → H) c budget (rest : H → nat) :
  (∀ s h, get (set s h) = s) → (∀ s h, rest (set s h) = rest h) →
  Bounded c budget → Bounded (focus_handler get set c) (λ h, budget (get h) + rest h).
Proof.
  intros Hg Hr [H1 H2 H3 H4]. split; cbn; unfold focus; intros.
  - specialize (H1 hd (get s)). destruct (CanHandle c hd (get s)); cbn in *. rewrite Hg, Hr. lia.
  - specialize (H2 u hd (get s)). destruct (HandleChallenge c u hd (get s)); cbn in *. rewrite Hg, Hr. lia.
  - specialize (H3 u hd (get s)). destruct (HandleChallenge c u hd (get s)); cbn in *. simplify_eq.
    rewrite Hg, Hr. specialize (H3 _ _ eq_refl). lia.
  - specialize (H4 u hd (get s)). destruct (CompleteChallenge c u hd (get s)); cbn in *. rewrite Hg, Hr. lia.
Qed.

Section MultiBounded.
Context {H : Type} (allHandlers : list (ChallengeHandler H)) (budget : H → nat).
Context (Hall : ∀ i c, allHandlers !! i = Some c → Bounded c budget).
Notation multi := (Multi.NewMultiHandler allHandlers).1.

(** What every step of the handler keeps: the budget does not rise. *)
Definition within (n : nat) (h : H * Multi.MultiHandler) : Prop := budget h.1 ≤ n.

Lemma keeps_call {A} n i (method : ChallengeHandler H → go H A) :
  (∀ c s, Bounded c budget → budget (method c s).2 ≤ budget s) →
  keeps (within n) (Multi.call allHandlers i method).
Proof.
  intros Hm. unfold Multi.call. destruct (allHandlers !! i) as [c|] eqn:E; [|by intros w].
  intros [s m] Hw. unfold focus, within in *. cbn in *.
  specialize (Hm c s (Hall i c E)). destruct (method c s). cbn in *. lia.
Qed.

Lemma keeps_select n i : keeps (within n) (Multi.select i).
Proof. by intros [s m]. Qed.
Lemma keeps_set_possible n l : keeps (within n) (Multi.set_possible l).
Proof. by intros [s m]. Qed.

Lemma keeps_can n i hd : keeps (within n) (Multi.call allHandlers i (λ c, CanHandle c hd)).
Proof. apply keeps_call. intros c s []. auto. Qed.
Lemma keeps_handle n i u hd :
  keeps (within n) (Multi.call allHandlers i (λ c, HandleChallenge c u hd)).
Proof. apply keeps_call. intros c s []. auto. Qed.
Lemma keeps_complete n i u hd :
  keeps (within n) (Multi.call allHandlers i (λ c, CompleteChallenge c u hd)).
Proof. apply keeps_call. intros c s []. auto. Qed.

Lemma keeps_any n l hd : keeps (within n) (Multi.any_can_handle allHandlers l hd).
Proof.
  induction l; cbn [Multi.any_can_handle]; [apply keeps_ret|].
  apply keeps_bind; [apply keeps_can|]. intros []; [apply keeps_ret|done].
Qed.

Lemma keeps_applicable n l hd : keeps (within n) (Multi.applicable allHandlers l hd).
Proof.
  induction l; cbn [Multi.applicable]; [apply keeps_ret|].
  apply keeps_bind; [apply keeps_can|]. intros b. apply keeps_bind; [done|]. intros; apply keeps_ret.
Qed.

Lemma keeps_try_handlers n l u hd : keeps (within n) (Multi.try_handlers allHandlers l u hd).
Proof.
  induction l as [|i l IH]; cbn [Multi.try_handlers]; [apply keeps_fail|].
  apply keeps_bind; [apply keeps_try, keeps_handle|]. intros [x|e].
  - apply keeps_bind; [apply keeps_select|]. intros; apply keeps_ret.
  - destruct l; [|done]. apply keeps_bind; [apply keeps_select|]. intros; apply keeps_fail.
Qed.

Lemma keeps_can_handle n hd : keeps (within n) (Multi.CanHandle allHandlers hd).
Proof.
  apply keeps_bind; [apply keeps_getw|]. intros h.
  destruct (Multi.handler h.2); [apply keeps_can|apply keeps_any].
Qed.

Lemma keeps_handle_challenge n u hd : keeps (within n) (Multi.HandleChallenge allHandlers u hd).
Proof.
  apply keeps_bind; [apply keeps_getw|]. intros h.
  destruct (Multi.handler h.2); [apply keeps_handle|].
  apply keeps_bind; [apply keeps_applicable|]. intros l.
  apply keeps_bind; [apply keeps_set_possible|]. intros _. apply keeps_try_handlers.
Qed.

Lemma keeps_complete_challenge n u hd : keeps (within n) (Multi.CompleteChallenge allHandlers u hd).
Proof.
  apply keeps_bind; [apply keeps_getw|]. intros h.
  destruct (Multi.handler h.2); [apply keeps_complete|apply keeps_ret].
Qed.

Lemma call_retry i u hd h r h' :
  Multi.call allHandlers i (λ c, HandleChallenge c u hd) h = (Ret (r, true), h') →
  budget h'.1 < budget h.1.
Proof.
  unfold Multi.call. destruct (allHandlers !! i) as [c|] eqn:E; [|done].
  unfold focus. intros Hc. destruct (HandleChallenge c u hd h.1) as [r' s'] eqn:E'. simplify_eq.
  destruct (Hall i c E) as [_ _ H3 _]. by apply H3 in E'.
Qed.

Lemma try_handlers_retry l u hd h r h' :
  Multi.try_handlers allHandlers l u hd h = (Ret (r, true), h') → budget h'.1 < budget h.1.
Proof.
  revert h. induction l as [|i l IH]; intros h; cbn [Multi.try_handlers]; [done|].
  unfold gobind, try.
  pose proof (keeps_handle (budget h.1) i u hd h ltac:(unfold within; lia)) as Hk.
  destruct (Multi.call allHandlers i _ h) as [[x|e|m] h1] eqn:E; cbn; [| |done].
  - unfold ret. intros [= -> <-]. by apply call_retry in E.
  - destruct l as [|j l]; [done|]. intros Ht. apply IH in Ht. unfold within in Hk. cbn in Hk. lia.
Qed.

#[export] Instance multi_bounded : Bounded multi (λ h, budget h.1).
Proof.
  split.
  - intros hd h. exact (keeps_can_handle (budget h.1) hd h (le_n _)).
  - intros u hd h. exact (keeps_handle_challenge (budget h.1) u hd h (le_n _)).
  - intros u hd h r h'. change (HandleChallenge multi) with (Multi.HandleChallenge allHandlers).
    unfold Multi.HandleChallenge, gobind at 1, getw.
    destruct (Multi.handler h.2) as [i|]; [by apply call_retry|].
    unfold gobind.
    pose proof (keeps_applicable (budget h.1) (Multi.possibleHandlers h.2) hd h (le_n _)) as Hk.
    destruct (Multi.applicable _ _ _ h) as [[l|e|m] h1]; cbn in *; [|done..].
    intros Ht%try_handlers_retry. unfold within in Hk. cbn in Ht. lia.
  - intros u hd h. exact (keeps_complete_challenge (budget h.1) u hd h (le_n _)).
Qed.
End MultiBounded.

(** ** Properties of the handlers *)

(** What makes a header value a basic challenge: the scheme is followed by
    white space or the end. *)
Definition is_basic_scheme (v : string) : bool :=
  match Basic.match_basic v with
  | Some EmptyString => true
  | Some (String c _) => Basic.re_space c
  | None => false
  end.

Lemma first_match_scheme v :
  match Basic.first_match Basic.basicRegexes v with Some _ => true | None => false end =
  is_basic_scheme v.
Proof.
  unfold Basic.first_match, Basic.basicRegexes, Basic.match_realm, is_basic_scheme.
  destruct (Basic.match_basic v) as [[|c r]|]; cbn; [done| |done].
  destruct (Basic.re_space c); cbn; [|done].
  destruct (_ ≫= _); [done|]. by destruct (_ ≫= _).
Qed.

(** The three regular expressions of the basic challenge together recognise
    exactly the headers one of whose WWW-Authenticate values starts, after
    white space and regardless of case, with the scheme "basic" as a whole
    word: the realm is optional and the form of the parameters is irrelevant. *)
Theorem basicRealm_scheme headers :
  (Basic.basicRealm headers).1 = existsb is_basic_scheme (header_values headers "WWW-Authenticate").
Proof.
  unfold Basic.basicRealm. generalize (header_values headers "WWW-Authenticate"). intros l.
  induction l as [|v l IH]; [done|]. cbn [Basic.basic_realm_of existsb].
  rewrite <- first_match_scheme, <- IH. by destruct (Basic.first_match _ v).
Qed.


(** The cases of the unit test of [basicRealm]. *)
Example basicRealm_cases :
  map (λ v, Basic.basicRealm {["Www-Authenticate" := [v]]})
    ["basicrealm=" +:+ Quote "myrealm"; "digest basic=" +:+ Quote "realm"; "basic";
     "basic otherparam=" +:+ Quote "othervalue"; "basic realm=Foo Bar "; "BASIC REALM=" +:+ Quote "Foo";
     "basic realm=" +:+ dquote +:+ "F" +:+ backslash +:+ dquote +:+ "oo" +:+ dquote +:+ ", otherparam=" +:+ Quote "value";
     "basic realm=" +:+ Quote "Foo, bar" +:+ ", otherparam=" +:+ Quote "value"]%string =
  [(false, ""); (false, ""); (true, ""); (true, ""); (true, "Foo Bar"); (true, "Foo");
   (true, "F" +:+ backslash +:+ dquote +:+ "oo"); (true, "Foo, bar")]%string.
Proof. vm_compute. reflexivity. Qed.

(** *** Negotiation tokens *)

Definition no_space (s : string) : bool := str_free " " s.

Lemma Encode_no_space s : no_space (EncodeToString s) = true.
Proof.
  assert (∀ n, Ascii.eqb (b64_char n) " " = false) as Hc.
  { intros n. destruct (Nat.lt_ge_cases n 64) as [Hn|Hn].
    - do 64 (destruct n as [|n]; [reflexivity|]). lia.
    - do 64 (destruct n as [|n]; [lia|]). reflexivity. }
  unfold no_space.
  induction s as [|a|a b|a b c s IH] using string_ind3; cbn [EncodeToString str_free];
    rewrite ?Hc, ?IH; done.
Qed.

Lemma split_aux_free s : no_space s = true → split_aux " " 0 s = [s].
Proof.
  unfold no_space. induction s as [|c s IH]; [done|]. cbn [str_free split_aux]. intros H. propify.
  rewrite IH by done. cbn [HasPrefix]. rewrite Ascii.eqb_sym. by destruct (Ascii.eqb c " ").
Qed.

Lemma Replace_space s : no_space s = true → Replace (String " " s) " " "" = s.
Proof.
  intros H. unfold Replace, Split. cbn [split_aux].
  assert (HasPrefix (String " " s) " " = true) as -> by by destruct s.
  change (String.length " " - 1) with 0. by rewrite split_aux_free.
Qed.

(** A token travels through a header unchanged: the challenge "Negotiate"
    followed by the standard base64 of any bytes is read back as a negotiation
    with exactly these bytes, whatever other challenges follow it. *)
Theorem getNegotiateToken_roundtrip data headers :
  Negotiate.getNegotiateToken
    (<["Www-Authenticate" := ("Negotiate " +:+ EncodeToString data) :: headers]> ∅) = inl (true, data).
Proof.
  unfold Negotiate.getNegotiateToken, header_values.
  change (CanonicalHeaderKey "WWW-Authenticate") with "Www-Authenticate"%string.
  rewrite lookup_insert_eq.
  set (v := "Negotiate " +:+ EncodeToString data).
  change (default [] (Some (v :: headers))) with (v :: headers). cbn [Negotiate.negotiate_token_of].
  destruct (String.eqb_spec (ToLower v) Negotiate.negotiateScheme) as [E|_];
    [by apply (f_equal String.length) in E|].
  assert (HasPrefix (ToLower v) (Negotiate.negotiateScheme +:+ " ") = true) as ->.
  { apply HasPrefix_spec. by exists (ToLower (EncodeToString data)). }
  change (drop_str _ v) with (String " " (EncodeToString data)).
  rewrite Replace_space by apply Encode_no_space. by rewrite Decode_Encode.
Qed.

(** *** The selected handler *)

Section Selection.
Context {H : Type} (allHandlers : list (ChallengeHandler H)).
Notation multi := (Multi.NewMultiHandler allHandlers).1.

(** All operations go to handler [c]: the handler with the choice made. *)
Definition delegates (c : ChallengeHandler H) (m : Multi.MultiHandler) : Prop := ∀ u hd s,
  CanHandle multi hd (s, m) = ((CanHandle c hd s).1, ((CanHandle c hd s).2, m)) ∧
  HandleChallenge multi u hd (s, m) = ((HandleChallenge c u hd s).1, ((HandleChallenge c u hd s).2, m)) ∧
  CompleteChallenge multi u hd (s, m) =
    ((CompleteChallenge c u hd s).1, ((CompleteChallenge c u hd s).2, m)).

Lemma call_eq {A} i c (method : ChallengeHandler H → go H A) s m :
  allHandlers !! i = Some c →
  Multi.call allHandlers i method (s, m) = ((method c s).1, ((method c s).2, m)).
Proof. intros E. unfold Multi.call. rewrite E. unfold focus. cbn. by destruct (method c s). Qed.

Lemma selected_delegates i c m :
  Multi.handler m = Some i → allHandlers !! i = Some c → delegates c m.
Proof.
  intros Hm Hi u hd s. cbn.
  unfold Multi.CanHandle, Multi.HandleChallenge, Multi.CompleteChallenge, gobind, getw. cbn.
  rewrite Hm. by rewrite !(call_eq i c).
Qed.

(** The first handler of [l] that does not fail, or the last. *)
Lemma try_handlers_selects l u hd s m x h' :
  Multi.try_handlers allHandlers l u hd (s, m) = (Ret x, h') →
  ∃ l1 i l2 c s0, l = l1 ++ i :: l2 ∧ allHandlers !! i = Some c ∧
    Multi.handler h'.2 = Some i ∧ HandleChallenge c u hd s0 = (Ret x, h'.1) ∧
    Forall (λ j, ∃ cj sj e, allHandlers !! j = Some cj ∧ (HandleChallenge cj u hd sj).1 = Fail e) l1.
Proof.
  revert s. induction l as [|i l IH]; intros s; cbn [Multi.try_handlers]; [done|].
  destruct (allHandlers !! i) as [c|] eqn:Ei;
    [|unfold gobind, try, Multi.call; by rewrite Ei].
  unfold gobind, try. rewrite (call_eq i c) by done.
  destruct (HandleChallenge c u hd s) as [[y|e|p] s1] eqn:E; cbn; [| |done].
  - unfold ret. intros [= -> <-]. by exists [], i, l, c, s.
  - destruct l as [|j l]; [done|]. intros Ht.
    apply IH in Ht as (l1 & k & l2 & c' & s0 & Hl & Hk & Hh & Hc & Hf).
    exists (i :: l1), k, l2, c', s0. rewrite Hl. split_and!; try done.
    constructor; [|done]. exists c, s, e. by rewrite E.
Qed.

Lemma try_handlers_possible l u hd h :
  Multi.possibleHandlers (Multi.try_handlers allHandlers l u hd h).2.2 =
  Multi.possibleHandlers h.2.
Proof.
  revert h. induction l as [|i l IH]; intros [s m]; cbn [Multi.try_handlers]; [done|].
  destruct (allHandlers !! i) as [c|] eqn:Ei;
    [|unfold gobind, try, Multi.call; by rewrite Ei].
  unfold gobind, try. rewrite (call_eq i c) by done.
  destruct (HandleChallenge c u hd s) as [[y|e|p] s1]; cbn; try done.
  destruct l; [done|]. by rewrite IH.
Qed.

Lemma applicable_spec l hd s m :
  ∃ o s1, Multi.applicable allHandlers l hd (s, m) = (o, (s1, m)) ∧
          ∀ l', o = Ret l' → l' `sublist_of` l.
Proof.
  revert s. induction l as [|i l IH]; intros s; cbn [Multi.applicable].
  { exists (Ret []), s. split; [done|]. intros ? [= <-]. done. }
  destruct (allHandlers !! i) as [c|] eqn:Ei;
    [|unfold gobind, Multi.call; rewrite Ei; by eexists _, s].
  unfold gobind. rewrite (call_eq i c) by done.
  destruct (CanHandle c hd s) as [[b|e|p] s1]; cbn; [|by eexists _, s1..].
  destruct (IH s1) as (o & s2 & -> & Ho).
  destruct o as [l'|e|p]; [|by eexists _, s2..].
  specialize (Ho l' eq_refl). eexists _, s2. split; [done|]. intros ? [= <-].
  destruct b; [by apply sublist_skip|by apply sublist_cons].
Qed.

(** A multi-handler that answers a challenge has chosen one of its possible
    handlers, in their order: one that could handle the challenge and returned
    the answer, all the ones tried before it having failed; from then on every
    operation is that handler's alone, with the choice kept for good. *)
Theorem MultiHandler_selection u hd s m x s' m' :
  Multi.handler m = None →
  HandleChallenge multi u hd (s, m) = (Ret x, (s', m')) →
  ∃ l1 i l2 c s0, Multi.possibleHandlers m' = l1 ++ i :: l2 ∧
    Multi.possibleHandlers m' `sublist_of` Multi.possibleHandlers m ∧
    allHandlers !! i = Some c ∧ HandleChallenge c u hd s0 = (Ret x, s') ∧
    Forall (λ j, ∃ cj sj e, allHandlers !! j = Some cj ∧ (HandleChallenge cj u hd sj).1 = Fail e) l1 ∧
    delegates c m'.
Proof.
  intros Hm. cbn. unfold Multi.HandleChallenge, gobind at 1, getw. cbn. rewrite Hm.
  unfold gobind. destruct (applicable_spec (Multi.possibleHandlers m) hd s m) as (o & s1 & -> & Ho).
  destruct o as [l|e|p]; [|done..]. cbn. intros Ht.
  pose proof (try_handlers_possible l u hd (s1, Multi.mkMulti (Multi.handler m) l)) as Hp.
  apply try_handlers_selects in Ht as Hs.
  destruct Hs as (l1 & i & l2 & c & s0 & -> & Hi & Hh & Hc & Hf). cbn in *.
  rewrite Ht in Hp. cbn in Hp. subst.
  exists l1, i, l2, c, s0. rewrite Hp. split_and!; try done; [by apply (Ho _ eq_refl)|].
  by eapply selected_delegates.
Qed.
End Selection.
