(* ===== verification/TokenCmd.v ===== *)
(** * test/extended/util/oauthserver/tokencmd/request_token.go

    The request of an OAuth token: the request loop with its challenges and
    redirects, the two flows that read the token, the defaults of the client and
    the choice of the transport.

    The state is the pair of the network [N] (the server, as a round tripper)
    and the handlers [H].  Parameters: the round trippers of the configuration,
    the verdict of [url.Parse] (its query is computed), the JSON decoder, the
    PKCE generator, and of the vendored osincli the authorisation URL and the
    exchange of the code for a token.  The bodies of the responses are closed
    by deferred calls, which have no other effect. *)

From S2P Require Import Prelude.
From S2P Require Import GoStrings.
From S2P Require Import GoLib.
From S2P Require Import GoNet.
From S2P Require Import TokenHandlers.
From Stdlib Require Import Ascii.

(** ** HTTP *)

Record Request := mkRequest { Method : string; URL : string; ReqHeader : Header }.
Record Response := mkResponse { StatusCode : Z; RespHeader : Header; Body : string + error }.

(** [http.RoundTripper] *)
Definition RoundTripper (N : Type) : Type := Request → go N Response.

Definition StatusOK : Z := 200.
Definition StatusFound : Z := 302.
Definition StatusUnauthorized : Z := 401.

(** [restclient.Config], the fields the code reads or unsets. *)
Record restConfig := mkRest { RHost : string; CAFile : string; CAData : string }.

(** osincli.ClientConfig *)
Record OsinConfig := mkOsin {
  ClientId : string;
  AuthorizeUrl : string;
  TokenUrl : string;
  RedirectUrl : string;
  CodeChallenge : string;
  CodeChallengeMethod : string;
  CodeVerifier : string
}.

(** oauthdiscovery.OauthAuthorizationServerMetadata *)
Record Metadata := mkMetadata {
  MIssuer : string;
  AuthorizationEndpoint : string;
  TokenEndpoint : string;
  CodeChallengeMethodsSupported : list string
}.

(** What a failed round trip can be, by dynamic type or value. *)
Inductive probe_error :=
| UnknownAuthorityError | HostnameError | CertificateInvalidError | SystemRootsError
| RecordHeaderError | OpError
| EOF | UnexpectedEOF | NoProgress
| OtherError.

(** osincli.Error *)
Record OsinError := mkOsinError { Id : string; Description : string }.

(** ** Errors *)

Definition NewUnauthorized (reason : string) : error :=
  Err KUnauthorized (if String.eqb reason "" then "not authorized" else reason).
Definition NewInternalError (e : error) : error :=
  Err KInternal ("Internal error occurred: " +:+ err_msg e).

(* src: test/extended/util/oauthserver/tokencmd/request_token.go 381-383 createOAuthError *)
Definition createOAuthError (errorCode errorDescription : string) : error :=
  Errorf (errorCode +:+ " " +:+ errorDescription).

(* src: test/extended/util/oauthserver/tokencmd/request_token.go 373-379 oauthErrFromValues *)
Definition oauthErrFromValues (values : Values) : option error :=
  let errorCode := values_Get values "error" in
  if negb (String.eqb errorCode "")
  then Some (createOAuthError errorCode (values_Get values "error_description"))
  else None.

(* src: test/extended/util/oauthserver/tokencmd/request_token.go 365-371 osinToOAuthError *)
Definition osinToOAuthError (err : OsinError + error) : error :=
  match err with
  | inl osinErr => createOAuthError (Id osinErr) (Description osinErr)
  | inr e => e
  end.

(** ** Options *)

(* src: test/extended/util/oauthserver/tokencmd/request_token.go 66-72 RequestTokenOptions *)
Record RequestTokenOptions := mkOptions {
  ClientConfig : restConfig;
  Osin : option OsinConfig;       (* OsinConfig *)
  Issuer : string;
  TokenFlow : bool
}.

(** The handler of [NewRequestTokenOptions]: with both negotiators disabled the
    list has one element. *)
(* src: test/extended/util/oauthserver/tokencmd/request_token.go 80-109 NewRequestTokenOptions *)
Definition NewRequestTokenOptions (clientCfg : restConfig) (reader : bool)
    (defaultUsername defaultPassword : string) (tokenFlow : bool)
  : RequestTokenOptions *
    ChallengeHandler (Basic.BasicChallengeHandler * Multi.MultiHandler) *
    (Basic.BasicChallengeHandler * Multi.MultiHandler) :=
  let handlers : list (ChallengeHandler Basic.BasicChallengeHandler) :=
    (if Negotiate.GSSAPIEnabled
     then [Negotiate.NewNegotiateChallengeHandler (Negotiate.NewGSSAPINegotiator defaultUsername)]
     else []) ++
    (if Negotiate.SSPIEnabled
     then [Negotiate.NewNegotiateChallengeHandler
             (Negotiate.NewSSPINegotiator defaultUsername defaultPassword (RHost clientCfg) reader)]
     else []) ++
    [Basic.handler] in
  let basic := Basic.mkBasic (RHost clientCfg) reader defaultUsername defaultPassword false false in
  let '(multi, m) := Multi.NewMultiHandler handlers in
  let handler :=
    match handlers with
    | [c] => focus_handler fst (λ s h, (s, h.2)) c
    | _ => multi
    end in
  (mkOptions clientCfg None "" tokenFlow, handler, (basic, m)).

(** ** Requests *)

Definition csrfTokenHeader : string := "X-CSRF-Token".
Definition oauthMetadataEndpoint : string := "/.well-known/oauth-authorization-server".
Definition openShiftCLIClientID : string := "openshift-challenging-client".
Definition pkce_s256 : string := "S256".

(** [strings.TrimRight(s, "/")] *)
Fixpoint trim_slashes (s : string) : string :=
  match s with
  | EmptyString => EmptyString
  | String c s' =>
      match trim_slashes s' with
      | EmptyString => if Ascii.eqb c "/" then EmptyString else String c EmptyString
      | t => String c t
      end
  end.

(** oauthdiscovery.OpenShiftOAuthTokenImplicitURL *)
Definition OpenShiftOAuthTokenImplicitURL (masterAddr : string) : string :=
  trim_slashes masterAddr +:+ "/oauth/token/implicit".

(** A computation on one part of the state. *)
Definition on_net {N H A} (m : go N A) : go (N * H) A := focus fst (λ n s, (n, s.2)) m.
Definition on_handler {N H A} (m : go H A) : go (N * H) A := focus snd (λ h s, (s.1, h)) m.

Section Requests.
Context {N : Type}.
(** The error of [url.Parse], if any. *)
Variable url_Parse_err : string → option error.

(** [http.NewRequest(method, url, nil)] of a known method. *)
Definition NewRequest (method url : string) : Request + error :=
  match url_Parse_err url with
  | Some e => inr e
  | None => inl (mkRequest method url ∅)
  end.

(* src: test/extended/util/oauthserver/tokencmd/request_token.go 385-398 request *)
Definition request (rt : RoundTripper N) (requestURL : string) (requestHeaders : Header)
  : go N Response :=
  (req <-! of_sum (NewRequest "GET" requestURL) ;;
   let h := requestHeaders ∪ ReqHeader req in
   rt (mkRequest (Method req) (URL req) (header_Set h csrfTokenHeader "1")))%go.

(** *** The transport *)

Section Transport.
Variable TransportFor : restConfig → RoundTripper N + error.
Variable classify : error → probe_error.

(* src: test/extended/util/oauthserver/tokencmd/request_token.go 400-451 transportWithSystemRoots *)
Definition transportWithSystemRoots (issuer : string) (clientConfig : restConfig)
  : go N (RoundTripper N) :=
  let configWithSystemRoots := mkRest (RHost clientConfig) "" "" in
  (systemRootsRT <-! of_sum (TransportFor configWithSystemRoots) ;;
   req <-! of_sum (NewRequest "HEAD" issuer) ;;
   r <-! try (systemRootsRT req) ;;
   match r with
   | inl _ => ret systemRootsRT
   | inr err =>
       match classify err with
       | UnknownAuthorityError | HostnameError | CertificateInvalidError | SystemRootsError
       | RecordHeaderError | OpError => of_sum (TransportFor clientConfig)
       | EOF | UnexpectedEOF | NoProgress => of_sum (TransportFor clientConfig)
       | OtherError => fail err
       end
   end)%go.

(** *** The defaults of the client *)

Variable decode_metadata : string + error → Metadata + error.
Variable GeneratePKCE : go N (string * string * string).   (* challenge, method, verifier *)
Variable fmt_osin : OsinConfig → string.                    (* %#v *)

(** osincli.PopulatePKCE *)
Definition PopulatePKCE (c : OsinConfig) : go N OsinConfig :=
  (x <-! GeneratePKCE ;;
   let '(challenge, method, verifier) := x in
   ret (mkOsin (ClientId c) (AuthorizeUrl c) (TokenUrl c) (RedirectUrl c) challenge method verifier))%go.

(** The options with the two fields set. *)
(* src: test/extended/util/oauthserver/tokencmd/request_token.go 111-157 RequestTokenOptions.SetDefaultOsinConfig *)
Definition SetDefaultOsinConfig (o : RequestTokenOptions) : go N RequestTokenOptions :=
  match Osin o with
  | Some c => fail (Errorf ("osin config is already set to: " +:+ fmt_osin c))
  | None =>
      (rt <-! of_sum (TransportFor (ClientConfig o)) ;;
       let requestURL := trim_slashes (RHost (ClientConfig o)) +:+ oauthMetadataEndpoint in
       resp <-! request rt requestURL ∅ ;;
       if negb (StatusCode resp =? StatusOK)%Z
       then fail (Errorf ("couldn't get " +:+ requestURL +:+ ": unexpected response status " +:+
                          itoa (StatusCode resp)))
       else
         metadata <-! of_sum (decode_metadata (Body resp)) ;;
         let config := mkOsin openShiftCLIClientID (AuthorizationEndpoint metadata)
           (TokenEndpoint metadata) (OpenShiftOAuthTokenImplicitURL (MIssuer metadata)) "" "" "" in
         config <-! (if negb (TokenFlow o) &&
                        bool_decide (pkce_s256 ∈ CodeChallengeMethodsSupported metadata)
                     then PopulatePKCE config else ret config) ;;
         ret (mkOptions (ClientConfig o) (Some config) (MIssuer metadata) (TokenFlow o)))%go
  end.
End Transport.

(** *** The two flows *)

(* src: test/extended/util/oauthserver/tokencmd/request_token.go 302-328 oauthTokenFlow *)
Definition oauthTokenFlow (location : string) : string + error :=
  match url_Parse_err location with
  | Some err => inr err
  | None =>
      match oauthErrFromValues (URL_Query location) with
      | Some oauthErr => inr oauthErr
      | None =>
          let fragment := (cut "#" location).2 in
          match ParseQuery fragment with
          | (_, Some err) => inr err
          | (fragmentValues, None) => inl (values_Get fragmentValues "access_token")
          end
      end
  end.

(** osincli: [HandleRequest] of an authorisation request of type [code]. *)
Definition HandleRequest (form : Values) : (string * string) + (OsinError + error) :=
  if negb (String.eqb (values_Get form "error") "")
  then inr (inl (mkOsinError (values_Get form "error") (values_Get form "error_description")))
  else if String.eqb (values_Get form "code") ""
  then inr (inr (Errorf "Requested parameter not sent"))
  else inl (values_Get form "code", values_Get form "state").

(** [GetToken]: the access request of the client with the code and the state. *)
Variable GetToken : OsinConfig → RoundTripper N → string * string → go N (string + (OsinError + error)).

(** The error of [ParseForm] is ignored: the pairs that parse are used. *)
(* src: test/extended/util/oauthserver/tokencmd/request_token.go 330-363 oauthCodeFlow *)
Definition oauthCodeFlow (client : OsinConfig) (transport : RoundTripper N) (location : string)
  : go N string :=
  match url_Parse_err location with
  | Some err => fail err
  | None =>
      let form := URL_Query location in
      match oauthErrFromValues form with
      | Some oauthErr => fail oauthErr
      | None =>
          if String.eqb (values_Get form "code") "" then ret ""
          else match HandleRequest form with
          | inr err => fail (osinToOAuthError err)
          | inl authorizeData =>
              (r <-! GetToken client transport authorizeData ;;
               match r with
               | inr err => fail (osinToOAuthError err)
               | inl token => ret token
               end)%go
          end
      end
  end.

(** *** The request loop *)

Section Loop.
Context {H : Type}.
Variable handler : ChallengeHandler H.
(** A status error with the body as its cause. *)
Variable with_cause : error → string → error.

(** The variables of the loop. *)
Record loop_vars := mkVars {
  requestURL : string;
  requestHeaders : Header;
  requestedURLSet : gset string;
  requestedURLList : list string;
  handledChallenge : bool
}.

(** Unauthorized with no challenge: the body is the detail. *)
Definition unauthorized (body : string + error) : error :=
  match body with
  | inl details =>
      if String.eqb details "" then NewUnauthorized "" else with_cause (NewUnauthorized "") details
  | inr _ => NewUnauthorized ""
  end.

(** A challenge: the headers of the next request. *)
(* src: test/extended/util/oauthserver/tokencmd/request_token.go 229-248 RequestTokenOptions.RequestToken (challenge) *)
Definition answer_challenge (v : loop_vars) (hd : Header) : go (N * H) loop_vars :=
  (can <-! on_handler (CanHandle handler hd) ;;
   if negb can then fail (NewUnauthorized "unhandled challenge")
   else
     r <-! on_handler (HandleChallenge handler (requestURL v) hd) ;;
     let '(newRequestHeaders, shouldRetry) := r in
     if negb shouldRetry
     then fail (NewUnauthorized "challenger chose not to retry the request")
     else ret (mkVars (requestURL v) newRequestHeaders ∅ [] true))%go.

(** A redirect: the token of the URL, or the URL to request next. *)
(* src: test/extended/util/oauthserver/tokencmd/request_token.go 273-295 RequestTokenOptions.RequestToken (redirect) *)
Definition follow_redirect (oauthTokenFunc : string → go N string) (v : loop_vars)
    (redirectURL : string) : go (N * H) (string + loop_vars) :=
  (accessToken <-! on_net (oauthTokenFunc redirectURL) ;;
   if negb (String.eqb accessToken "") then ret (inl accessToken)
   else
     let requestedURLList := requestedURLList v ++ [redirectURL] in
     if negb (bool_decide (redirectURL ∈ requestedURLSet v))
     then ret (inr (mkVars redirectURL (requestHeaders v) ({[redirectURL]} ∪ requestedURLSet v)
                      requestedURLList (handledChallenge v)))
     else fail (NewInternalError (Errorf ("redirect loop: " +:+ Join requestedURLList " -> "))))%go.

(** One round: a token, or the variables of the next round. *)
(* src: test/extended/util/oauthserver/tokencmd/request_token.go 219-299 RequestTokenOptions.RequestToken (round) *)
Definition round (rt : RoundTripper N) (oauthTokenFunc : string → go N string) (v : loop_vars)
  : go (N * H) (string + loop_vars) :=
  (resp <-! on_net (request rt (requestURL v) (requestHeaders v)) ;;
   if (StatusCode resp =? StatusUnauthorized)%Z then
     if negb (String.eqb (header_Get (RespHeader resp) "WWW-Authenticate") "")
     then v' <-! answer_challenge v (RespHeader resp) ;; ret (inr v')
     else fail (unauthorized (Body resp))
   else
     (if handledChallenge v
      then on_handler (CompleteChallenge handler (requestURL v) (RespHeader resp))
      else ret tt) ;;!
     if (StatusCode resp =? StatusFound)%Z
     then follow_redirect oauthTokenFunc v (header_Get (RespHeader resp) "Location")
     else fail (NewInternalError (Errorf ("unexpected response: " +:+ itoa (StatusCode resp)))))%go.

(** At most [fuel] rounds; [None]: the loop has not returned yet. *)
Fixpoint rounds (fuel : nat) (rt : RoundTripper N) (oauthTokenFunc : string → go N string)
    (v : loop_vars) : go (N * H) (option string) :=
  match fuel with
  | O => ret None
  | S n =>
      (r <-! round rt oauthTokenFunc v ;;
       match r with
       | inl token => ret (Some token)
       | inr v' => rounds n rt oauthTokenFunc v'
       end)%go
  end.

Definition initial_vars (url : string) : loop_vars := mkVars url ∅ ∅ [] false.

(** [defer]: the handler is released whatever the outcome, its error is logged. *)
Definition deferred_release {A} (m : go (N * H) A) : go (N * H) A := λ s,
  let '(r, s1) := m s in
  match on_handler (Release handler) s1 with
  | (Panic p, s2) => (Panic p, s2)
  | (_, s2) => (r, s2)
  end.

Variable TransportFor : restConfig → RoundTripper N + error.
Variable classify : error → probe_error.
Variable decode_metadata : string + error → Metadata + error.
Variable GeneratePKCE : go N (string * string * string).
Variable fmt_osin : OsinConfig → string.
(** osincli: the URL of an authorisation request of a type. *)
Variable GetAuthorizeUrl : OsinConfig → string → string.

(** osincli.NewClient *)
Definition NewClient (config : OsinConfig) : OsinConfig + error :=
  if String.eqb (ClientId config) "" || String.eqb (AuthorizeUrl config) "" ||
     String.eqb (TokenUrl config) "" || String.eqb (RedirectUrl config) ""
  then inr (Errorf "Missing configuration")
  else match url_Parse_err (AuthorizeUrl config) with
  | Some err => inr err
  | None =>
      match url_Parse_err (TokenUrl config) with
      | Some err => inr err
      | None => inl config
      end
  end.

(** A nil [OsinConfig] at [NewClient] cannot be: it has been set. *)
(* src: test/extended/util/oauthserver/tokencmd/request_token.go 159-300 RequestTokenOptions.RequestToken *)
Definition RequestToken (fuel : nat) (o : RequestTokenOptions) : go (N * H) (option string) :=
  deferred_release
    (o <-! (match Osin o with
            | None => on_net (SetDefaultOsinConfig TransportFor decode_metadata GeneratePKCE fmt_osin o)
            | Some _ => ret o
            end) ;;
     rt <-! on_net (transportWithSystemRoots TransportFor classify (Issuer o) (ClientConfig o)) ;;
     match Osin o with
     | None => gopanic "nil pointer dereference"
     | Some config =>
         client <-! of_sum (NewClient config) ;;
         let oauthTokenFunc :=
           if TokenFlow o then (λ redirectURL, of_sum (oauthTokenFlow redirectURL))
           else oauthCodeFlow client rt in
         let url := GetAuthorizeUrl client (if TokenFlow o then "token" else "code")%string in
         rounds fuel rt oauthTokenFunc (initial_vars url)
     end)%go.
End Loop.
End Requests.

(** The function of the package that the commands call: the code flow with the
    handlers of [NewRequestTokenOptions]. *)
(* src: test/extended/util/oauthserver/tokencmd/request_token.go 74-78 RequestToken *)
Definition RequestTokenFor {N} url_Parse_err GetToken with_cause TransportFor classify
    decode_metadata GeneratePKCE fmt_osin GetAuthorizeUrl (fuel : nat)
    (clientCfg : restConfig) (reader : bool) (defaultUsername defaultPassword : string)
  : go N (option string) := λ n,
  let '(o, handler, h) :=
    NewRequestTokenOptions clientCfg reader defaultUsername defaultPassword false in
  let '(r, (n', _)) :=
    RequestToken url_Parse_err GetToken handler with_cause TransportFor classify decode_metadata
      GeneratePKCE fmt_osin GetAuthorizeUrl fuel o (n, h) in
  (r, n').
