(* ===== verification/TokenProofs.v ===== *)
(** * The token request: termination, authentication, credentials

    Properties of the loop of TokenCmd against the interface [Bounded] of the
    handlers (TokenHandlers), and of the two flows. *)

From S2P Require Import Prelude.
From S2P Require Import GoStrings.
From S2P Require Import GoLib.
From S2P Require Import GoNet.
From S2P Require Import TokenHandlers.
From S2P Require Import TokenCmd.
From Stdlib Require Import Ascii.

Lemma focus_Ret {H S A} (get : H → S) (set : S → H → H) (m : go S A) h a h' :
  focus get set m h = (Ret a, h') → ∃ s', m (get h) = (Ret a, s') ∧ h' = set s' h.
Proof. unfold focus. destruct (m (get h)) as [r s'] eqn:E. intros [= -> <-]. eauto. Qed.

Section Loop.
Context {N H : Type} (url_Parse_err : string → option error).
Context (handler : ChallengeHandler H) (with_cause : error → string → error).
Context (rt : RoundTripper N) (oauthTokenFunc : string → go N string).

Notation round := (round url_Parse_err handler with_cause rt oauthTokenFunc).
Notation rounds fuel := (rounds url_Parse_err handler with_cause fuel rt oauthTokenFunc).
Notation request := (request url_Parse_err rt).

(** ** What one round does *)

Inductive round_result (v : loop_vars) (n : N) (h : H) : string + loop_vars → N → H → Prop :=
| round_challenge resp n' b h1 hd h' :
    request (requestURL v) (requestHeaders v) n = (Ret resp, n') →
    StatusCode resp = StatusUnauthorized →
    CanHandle handler (RespHeader resp) h = (Ret b, h1) → b = true →
    HandleChallenge handler (requestURL v) (RespHeader resp) h1 = (Ret (hd, true), h') →
    round_result v n h (inr (mkVars (requestURL v) hd ∅ [] true)) n' h'
| round_token resp n1 h' t n' :
    request (requestURL v) (requestHeaders v) n = (Ret resp, n1) →
    StatusCode resp = StatusFound →
    (if handledChallenge v
     then CompleteChallenge handler (requestURL v) (RespHeader resp) h = (Ret tt, h') else h' = h) →
    oauthTokenFunc (header_Get (RespHeader resp) "Location") n1 = (Ret t, n') → t ≠ ""%string →
    round_result v n h (inl t) n' h'
| round_redirect resp n1 h' n' :
    request (requestURL v) (requestHeaders v) n = (Ret resp, n1) →
    StatusCode resp = StatusFound →
    (if handledChallenge v
     then CompleteChallenge handler (requestURL v) (RespHeader resp) h = (Ret tt, h') else h' = h) →
    let url := header_Get (RespHeader resp) "Location" in
    oauthTokenFunc url n1 = (Ret "", n')%string → url ∉ requestedURLSet v →
    round_result v n h (inr (mkVars url (requestHeaders v) ({[url]} ∪ requestedURLSet v)
      (requestedURLList v ++ [url]) (handledChallenge v))) n' h'.

Lemma round_inv v n h r n' h' : round v (n, h) = (Ret r, (n', h')) → round_result v n h r n' h'.
Proof.
  unfold TokenCmd.round. intros (resp & s1 & Hreq & Hk)%gobind_Ret_inv.
  apply focus_Ret in Hreq as (n1 & Hreq & ->). cbn [fst snd] in *.
  destruct (Z.eqb_spec (StatusCode resp) StatusUnauthorized) as [Hs|Hs].
  - destruct (negb _); [|done]. apply gobind_Ret_inv in Hk as (v' & s2 & Ha & Hk).
    unfold ret in Hk. simplify_eq.
    unfold answer_challenge in Ha. apply gobind_Ret_inv in Ha as (b & s3 & Hc & Ha).
    apply focus_Ret in Hc as (h1 & Hc & ->). cbn [fst snd] in *.
    destruct b; [|done]. apply gobind_Ret_inv in Ha as ([hd retry] & s4 & Hh & Ha).
    apply focus_Ret in Hh as (h2 & Hh & ->). cbn [fst snd] in *.
    destruct retry; [|done]. unfold ret in Ha. cbn in Ha. simplify_eq. by econstructor.
  - apply gobind_Ret_inv in Hk as ([] & [n2 h2] & Hc & Hk).
    assert (n2 = n1 ∧ if handledChallenge v
      then CompleteChallenge handler (requestURL v) (RespHeader resp) h = (Ret tt, h2) else h2 = h)
      as [-> Hc'].
    { destruct (handledChallenge v).
      - apply focus_Ret in Hc as (h3 & Hc & Heq). cbn in *. by simplify_eq.
      - unfold ret in Hc. by simplify_eq. }
    destruct (Z.eqb_spec (StatusCode resp) StatusFound) as [Hf|]; [|done].
    unfold follow_redirect in Hk. apply gobind_Ret_inv in Hk as (t & s3 & Ht & Hk).
    apply focus_Ret in Ht as (n3 & Ht & ->). cbn [fst snd] in *.
    destruct (String.eqb_spec t "") as [->|Hne]; cbn in Hk.
    + destruct (bool_decide_reflect (header_Get (RespHeader resp) "Location" ∈ requestedURLSet v));
        [done|]. cbn in Hk. unfold ret in Hk. simplify_eq. by econstructor.
    + unfold ret in Hk. simplify_eq. by econstructor.
Qed.

(** The rounds an execution goes through. *)
Definition round_step (x y : loop_vars * (N * H)) : Prop :=
  round x.1 x.2 = (Ret (inr y.1), y.2).

(** ** Termination *)

Section Termination.
Context (budget : H → nat) `{HB : !Bounded handler budget}.
(** The URLs the server redirects to. *)
Context (urls : gset string).
Context (Hurls : ∀ req n resp n', rt req n = (Ret resp, n') →
  StatusCode resp = StatusFound → header_Get (RespHeader resp) "Location" ∈ urls).

Definition rounds_left (v : loop_vars) (h : H) : nat :=
  budget h * S (size urls) + (size urls - size (requestedURLSet v)).

Lemma request_location url hd n resp n' :
  request url hd n = (Ret resp, n') → StatusCode resp = StatusFound →
  header_Get (RespHeader resp) "Location" ∈ urls.
Proof.
  intros Hr. apply gobind_Ret_inv in Hr as (req & n1 & _ & Hr). exact (Hurls _ _ _ _ Hr).
Qed.

Lemma complete_budget_le (v : loop_vars) hd h h' :
  (if handledChallenge v
   then CompleteChallenge handler (requestURL v) hd h = (Ret tt, h') else h' = h) →
  budget h' ≤ budget h.
Proof.
  destruct (handledChallenge v); [|by intros ->]. intros E.
  pose proof (bounded_complete (requestURL v) hd h) as Hb. by rewrite E in Hb.
Qed.

Lemma round_decreases v n h v' n' h' :
  requestedURLSet v ⊆ urls → round v (n, h) = (Ret (inr v'), (n', h')) →
  requestedURLSet v' ⊆ urls ∧ rounds_left v' h' < rounds_left v h.
Proof.
  intros Hv Hr%round_inv. unfold rounds_left. inversion Hr; subst; clear Hr; cbn [requestedURLSet].
  - split; [set_solver|]. rewrite size_empty.
    pose proof (bounded_can (RespHeader resp) h) as Hc.
    match goal with E : CanHandle _ _ _ = _ |- _ => rewrite E in Hc end. cbn in Hc.
    match goal with E : HandleChallenge _ _ _ _ = _ |- _ => apply bounded_retry in E end. nia.
  - subst url.
    match goal with E : if _ then _ else _ |- _ => apply complete_budget_le in E as Hb end.
    match goal with E : request _ _ _ = _ |- _ => apply request_location in E as Hu; [|done] end.
    assert ({[header_Get (RespHeader resp) "Location"]} ∪ requestedURLSet v ⊆ urls) as Hs by set_solver.
    split; [done|].
    apply subseteq_size in Hs. rewrite size_union, size_singleton in * by set_solver. nia.
Qed.

Lemma rounds_return fuel v s :
  requestedURLSet v ⊆ urls → rounds_left v s.2 < fuel → (rounds fuel v s).1 ≠ Ret None.
Proof.
  revert v s. induction fuel as [|fuel IH]; intros v [n h] Hv Hf; [lia|].
  cbn [TokenCmd.rounds]. unfold gobind.
  destruct (round v (n, h)) as [[[t|v']|e|p] [n' h']] eqn:E; cbn; try done.
  apply round_decreases in E as [Hv' Hd]; [|done]. apply IH; cbn in *; [done|lia].
Qed.
End Termination.

(** ** What a token means *)

(** A token comes from the last response of a run of rounds: a redirect whose
    URL the flow turned into the token, accepted by the handler first when a
    challenge had been handled. *)
Lemma rounds_Some fuel v s t s' :
  rounds fuel v s = (Ret (Some t), s') →
  ∃ v1 n1 h1 resp n2, rtc round_step (v, s) (v1, (n1, h1)) ∧
    request (requestURL v1) (requestHeaders v1) n1 = (Ret resp, n2) ∧
    StatusCode resp = StatusFound ∧
    (if handledChallenge v1
     then CompleteChallenge handler (requestURL v1) (RespHeader resp) h1 = (Ret tt, s'.2)
     else s'.2 = h1) ∧
    oauthTokenFunc (header_Get (RespHeader resp) "Location") n2 = (Ret t, s'.1) ∧ t ≠ ""%string.
Proof.
  revert v s. induction fuel as [|fuel IH]; intros v [n h]; [done|].
  cbn [TokenCmd.rounds]. intros (r & [n' h'] & Hr & Hk)%gobind_Ret_inv.
  destruct r as [t'|v'].
  - unfold ret in Hk. simplify_eq. apply round_inv in Hr. inversion Hr; subst.
    exists v, n, h, resp, n1. split_and!; try done.
  - apply IH in Hk as (v1 & n1 & h1 & resp & n2 & Hs & Hk).
    exists v1, n1, h1, resp, n2. split; [|done]. by apply (rtc_l _ _ (v', (n', h'))).
Qed.

(** An invariant of the rounds. *)
Lemma rounds_inv (I : loop_vars → N → H → Prop) v s v' s' :
  (∀ v n h v' n' h', I v n h → round_result v n h (inr v') n' h' → I v' n' h') →
  rtc round_step (v, s) (v', s') → I v s.1 s.2 → I v' s'.1 s'.2.
Proof.
  intros Hstep Hr. remember (v, s) as x eqn:Ex. remember (v', s') as y eqn:Ey.
  revert v s Ex. induction Hr as [x|x [v1 [n1 h1]] z Hxy Hyz IH]; intros v [n h] ->; [by simplify_eq|].
  intros HI. apply (IH Ey v1 (n1, h1)); [done|]. cbn in *.
  eapply Hstep; [done|]. by apply round_inv.
Qed.

(** Until a challenge is handled the requests carry no header of a handler. *)
Lemma no_headers_yet url s v s' :
  rtc round_step (initial_vars url, s) (v, s') → handledChallenge v = false → requestHeaders v = ∅.
Proof.
  intros Hs.
  refine (rounds_inv (λ v _ _, handledChallenge v = false → requestHeaders v = ∅) _ _ _ _ _ Hs _);
    [|done].
  intros v1 n1 h1 v2 n2 h2 HI Hres. inversion Hres; subst; cbn; [done|]. apply HI.
Qed.
End Loop.

(** ** The whole request *)

Section Request.
Context {N H : Type} (url_Parse_err : string → option error).
Context (handler : ChallengeHandler H) (with_cause : error → string → error).
Context (TransportFor : restConfig → RoundTripper N + error) (classify : error → probe_error).
Context (decode_metadata : string + error → Metadata + error).
Context (GeneratePKCE : go N (string * string * string)) (fmt_osin : OsinConfig → string).
Context (GetToken : OsinConfig → RoundTripper N → string * string → go N (string + (OsinError + error))).
Context (GetAuthorizeUrl : OsinConfig → string → string).

Notation RequestToken := (RequestToken url_Parse_err GetToken handler with_cause TransportFor
  classify decode_metadata GeneratePKCE fmt_osin GetAuthorizeUrl).
Notation flow o config rt :=
  (if TokenFlow o then (λ redirectURL, of_sum (oauthTokenFlow url_Parse_err redirectURL))
   else oauthCodeFlow url_Parse_err GetToken config rt).

Lemma deferred_release_Ret {A} (m : go (N * H) A) s a s' :
  deferred_release handler m s = (Ret a, s') →
  ∃ s1, m s = (Ret a, s1) ∧ s' = (s1.1, (Release handler s1.2).2).
Proof.
  unfold deferred_release. destruct (m s) as [r [n1 h1]]. unfold on_handler, focus. cbn.
  destruct (Release handler h1) as [[] h2] eqn:ER; intros; simplify_eq; exists (n1, h1); cbn;
    by rewrite ER.
Qed.

Lemma transport_is issuer cfg n rt n' :
  transportWithSystemRoots url_Parse_err TransportFor classify issuer cfg n = (Ret rt, n') →
  ∃ cfg' : restConfig, TransportFor cfg' = inl (rt : RoundTripper N).
Proof.
  unfold transportWithSystemRoots. intros (rt1 & n1 & H1 & (req & n2 & _ & H3)%gobind_Ret_inv)%gobind_Ret_inv.
  assert (∀ cfg (r : RoundTripper N) (m m' : N), of_sum (TransportFor cfg) m = (Ret r, m') →
    TransportFor cfg = inl r) as Hof.
  { intros c r m m'. destruct (TransportFor c); cbn; unfold ret, fail; by intros [= -> _]. }
  apply Hof in H1. apply gobind_Ret_inv in H3 as ([resp|err] & n3 & _ & H3).
  - unfold ret in H3. simplify_eq. eauto.
  - destruct (classify err); try done; apply Hof in H3; eauto.
Qed.

(** A request that ends in its loop has run it with one of the transports. *)
Lemma RequestToken_loop fuel o n h a s' :
  RequestToken fuel o (n, h) = (Ret a, s') →
  ∃ o' config rt n1 s1 cfg, TransportFor cfg = inl rt ∧
    rounds url_Parse_err handler with_cause fuel rt (flow o' config rt)
      (initial_vars (GetAuthorizeUrl config (if TokenFlow o' then "token" else "code")%string))
      (n1, h) = (Ret a, s1) ∧ s' = (s1.1, (Release handler s1.2).2).
Proof.
  unfold TokenCmd.RequestToken. intros (s1 & Hb & Hs)%deferred_release_Ret.
  apply gobind_Ret_inv in Hb as (o' & [n1 h1] & Ho & Hb).
  assert (h1 = h) as ->.
  { destruct (Osin o); [unfold ret in Ho; by simplify_eq|].
    apply focus_Ret in Ho as (n2 & _ & Heq). by simplify_eq/=. }
  apply gobind_Ret_inv in Hb as (rt & s2 & Ht & Hb).
  apply focus_Ret in Ht as (n2 & Ht & ->). apply transport_is in Ht as [cfg Ht].
  destruct (Osin o') as [config|]; [|done].
  apply gobind_Ret_inv in Hb as (client & s3 & Hc & Hb).
  assert (s3 = (n2, h)) as ->.
  { destruct (NewClient url_Parse_err config); unfold of_sum, ret, fail in Hc; cbn in Hc; by simplify_eq. }
  by exists o', client, rt, n2, s1, cfg.
Qed.

(** C28: the request of a token returns.  When the handlers have a budget of
    challenges and the server redirects within a finite set of URLs, the loop
    ends after at most (budget + 1) times (URLs + 1) rounds, with a token or an
    error: each challenge uses the budget up and forgets the redirects, and
    between two challenges no URL is followed twice. *)
Theorem RequestToken_terminates (budget : H → nat) `{HB : !Bounded handler budget}
    (urls : gset string) fuel o n h :
  (∀ cfg rt req n resp n', TransportFor cfg = inl rt → rt req n = (Ret resp, n') →
     StatusCode resp = StatusFound → header_Get (RespHeader resp) "Location" ∈ urls) →
  S (budget h) * S (size urls) ≤ fuel →
  (RequestToken fuel o (n, h)).1 ≠ Ret None.
Proof.
  intros Hurls Hf. destruct (RequestToken fuel o (n, h)) as [r s'] eqn:E. cbn. intros ->.
  apply RequestToken_loop in E as (o' & config & rt & n1 & s1 & cfg & Ht & E & _).
  pose proof (rounds_return url_Parse_err handler with_cause rt (flow o' config rt) budget urls
    (λ req n resp n', Hurls cfg rt req n resp n' Ht) fuel (initial_vars (GetAuthorizeUrl config
      (if TokenFlow o' then "token" else "code")%string)) (n1, h)) as Hr.
  rewrite E in Hr. cbn in Hr. apply Hr; [set_solver| |done].
  unfold rounds_left. cbn. rewrite size_empty. lia.
Qed.

(** C29: what a returned token is.  The rounds reached a request answered by a
    redirect; the flow made the token, not empty, of its Location; if a
    challenge had been handled on the way the handler has accepted this very
    response, and otherwise no header of a handler was ever sent; the handler is
    released last. *)
Theorem RequestToken_token fuel o n h t s' :
  RequestToken fuel o (n, h) = (Ret (Some t), s') →
  ∃ o' config cfg rt n0 v1 n1 h1 resp n2 h2, TransportFor cfg = inl rt ∧
    rtc (round_step url_Parse_err handler with_cause rt (flow o' config rt))
      (initial_vars (GetAuthorizeUrl config (if TokenFlow o' then "token" else "code")%string), (n0, h))
      (v1, (n1, h1)) ∧
    request url_Parse_err rt (requestURL v1) (requestHeaders v1) n1 = (Ret resp, n2) ∧
    StatusCode resp = StatusFound ∧
    (flow o' config rt) (header_Get (RespHeader resp) "Location") n2 = (Ret t, s'.1) ∧
    t ≠ ""%string ∧
    (if handledChallenge v1
     then CompleteChallenge handler (requestURL v1) (RespHeader resp) h1 = (Ret tt, h2)
     else h2 = h1 ∧ requestHeaders v1 = ∅) ∧
    s'.2 = (Release handler h2).2.
Proof.
  intros (o' & config & rt & n0 & [n3 h3] & cfg & Ht & E & ->)%RequestToken_loop.
  apply rounds_Some in E as (v1 & n1 & h1 & resp & n2 & Hs & Hr & Hf & Hc & Ho & Hne).
  exists o', config, cfg, rt, n0, v1, n1, h1, resp, n2, h3. split_and!; try done.
  cbn in Hc. destruct (handledChallenge v1) eqn:Ev; [done|]. split; [done|].
  by eapply no_headers_yet.
Qed.
End Request.

(** *** Mutual authentication *)

Lemma negotiate_complete {S} (g : Negotiate.Negotiator S) u hd h h' :
  Negotiate.CompleteChallenge g u hd h = (Ret tt, h') →
  ∃ h0, Negotiate.IsComplete S g h0 = (Ret true, h').
Proof.
  unfold Negotiate.CompleteChallenge. intros ([] & h1 & Hc & Hk)%gobind_Ret_inv.
  { unfold ret in Hk. simplify_eq. eauto. }
  destruct (Negotiate.getNegotiateToken hd) as [[[] tok]|e]; cbn in Hk; [|done..].
  apply gobind_Ret_inv in Hk as (tok' & h2 & _ & Hk).
  apply gobind_Ret_inv in Hk as ([] & h3 & Hc' & Hk); [|done].
  unfold ret in Hk. simplify_eq. eauto.
Qed.

(** With negotiation a token is only returned when either no challenge was
    ever answered, so that no credentials left the client, or the negotiator
    has last said that the negotiation is complete: a server that redirects
    with a token in the middle of a negotiation is refused. *)
Theorem RequestToken_negotiated {N S} (g : Negotiate.Negotiator S) parse_err GetToken with_cause
    TransportFor classify decode_metadata GeneratePKCE fmt_osin GetAuthorizeUrl
    fuel o (n : N) h t s' :
  RequestToken parse_err GetToken (Negotiate.NewNegotiateChallengeHandler g) with_cause TransportFor
    classify decode_metadata GeneratePKCE fmt_osin GetAuthorizeUrl fuel o (n, h) = (Ret (Some t), s') →
  ∃ h1 h2, s'.2 = (Negotiate.NRelease S g h2).2 ∧
    (Negotiate.IsComplete S g h1 = (Ret true, h2) ∨
     ∃ (rt : RoundTripper N) f url n0 v n1, requestHeaders v = ∅ ∧ handledChallenge v = false ∧
       rtc (round_step parse_err (Negotiate.NewNegotiateChallengeHandler g) with_cause rt f)
         (initial_vars url, (n0, h)) (v, (n1, h2))).
Proof.
  intros (o' & config & rt & n0 & [n3 h3] & cfg & Ht & E & ->)%RequestToken_loop.
  apply rounds_Some in E as (v1 & n1 & h1 & resp & n2 & Hs & Hr & Hf & Hc & Ho & Hne). cbn in Hc.
  destruct (handledChallenge v1) eqn:Ev.
  - apply negotiate_complete in Hc as [h0 Hc]. exists h0, h3. split; [done|]. by left.
  - subst h3. exists h1, h1. split; [done|]. right. eexists rt, _, _, n0, v1, n1.
    split_and!; [|done..]. by eapply no_headers_yet.
Qed.

(** *** Credentials *)

Section Credentials.
Context {N : Type} (url_Parse_err : string → option error) (with_cause : error → string → error).
Context (rt : RoundTripper N) (oauthTokenFunc : string → go N string).

(** The same server, writing down every exchange. *)
Definition logged : RoundTripper (N * list (Request * outcome Response)) := λ req s,
  let '(o, n) := rt req s.1 in (o, (n, s.2 ++ [(req, o)])).
Definition logged_flow (u : string) : go (N * list (Request * outcome Response)) string :=
  focus fst (λ n s, (n, s.2)) (oauthTokenFunc u).

Definition authorization (req : Request) : list string :=
  header_values (ReqHeader req) "Authorization".

(** An answer 401 with a basic challenge. *)
Definition basic_challenged (o : outcome Response) : Prop :=
  ∃ resp, o = Ret resp ∧ StatusCode resp = StatusUnauthorized ∧
          (Basic.basicRealm (RespHeader resp)).1 = true.

Definition authorized_after_challenge (user pass : string) (log : list (Request * outcome Response))
  : Prop := ∀ i req o, log !! i = Some (req, o) → authorization req ≠ [] →
    authorization req = [Basic.getBasicHeader user pass] ∧
    ∃ j req' o', j < i ∧ log !! j = Some (req', o') ∧ basic_challenged o'.

Definition creds (c : Basic.BasicChallengeHandler) : string * string := (Basic.Username c, Basic.Password c).

Lemma keeps_creds_handle u hd p : keeps (λ c, creds c = p) (Basic.HandleChallenge u hd).
Proof.
  unfold Basic.HandleChallenge. apply keeps_bind; [apply keeps_getw|]. intros c.
  repeat first [ apply keeps_ret | apply keeps_fail | by intros w
               | apply keeps_bind; [apply keeps_modw|]; [by intros w|intros _] | destr_match ].
Qed.

Lemma basic_answer u hd c r c' :
  Basic.HandleChallenge u hd c = (Ret (r, true), c') →
  r = header_Set ∅ "Authorization" (Basic.getBasicHeader (Basic.Username c) (Basic.Password c)) ∧
  creds c' = creds c.
Proof.
  unfold Basic.HandleChallenge, gobind, getw, modw, ret, fail, gopanic. intros H.
  repeat destr_match; by simplify_eq/=.
Qed.

Notation round := (round url_Parse_err Basic.handler with_cause logged logged_flow).
Notation rounds fuel := (rounds url_Parse_err Basic.handler with_cause fuel logged logged_flow).
Notation request := (request url_Parse_err logged).

Lemma request_logged url hd n l : ∃ o n' l', request url hd (n, l) = (o, (n', l')) ∧
  (l' = l ∧ (∀ resp, o ≠ Ret resp) ∨
   ∃ req, l' = l ++ [(req, o)] ∧ authorization req = header_values hd "Authorization").
Proof.
  unfold TokenCmd.request, gobind, of_sum, NewRequest.
  destruct (url_Parse_err url) as [e|]; cbn; unfold fail, ret; [by eexists _, _, _; split; [|left]|].
  unfold logged. cbn. destruct (rt _ n) as [o n'] eqn:E.
  eexists _, _, _. split; [done|]. right. eexists. split; [done|].
  unfold authorization. cbn. rewrite header_values_Set_ne by done. by rewrite (right_id_L ∅ (∪)).
Qed.

Section Invariant.
Variables user pass : string.
Notation good := (authorized_after_challenge user pass).

Definition headers_ok (v : loop_vars) (l : list (Request * outcome Response)) : Prop :=
  header_values (requestHeaders v) "Authorization" = [] ∨
  header_values (requestHeaders v) "Authorization" = [Basic.getBasicHeader user pass] ∧
  ∃ req o, (req, o) ∈ l ∧ basic_challenged o.

Lemma good_snoc l v req o :
  good l → headers_ok v l → authorization req = header_values (requestHeaders v) "Authorization" →
  good (l ++ [(req, o)]).
Proof.
  intros Hg Hv Ha i req1 o1 Hi Hne.
  apply lookup_app_Some in Hi as [Hi|[Hl Hi]].
  - destruct (Hg _ _ _ Hi Hne) as (? & j & r & o' & ? & Hj & ?). split; [done|].
    exists j, r, o'. split_and!; [done| |done]. by apply lookup_app_l_Some.
  - apply list_lookup_singleton_Some in Hi as [Hi [= -> ->]]. rewrite Ha in Hne |- *.
    destruct Hv as [Hv|[-> (r & o' & Hin & Hb)]]; [by rewrite Hv in Hne|]. split; [done|].
    apply list_elem_of_lookup_1 in Hin as [j Hj]. exists j, r, o'.
    apply lookup_lt_Some in Hj as Hlt. split_and!; [lia| |done]. by apply lookup_app_l_Some.
Qed.

Definition kept (l : list (Request * outcome Response))
    (s : N * list (Request * outcome Response) * Basic.BasicChallengeHandler) : Prop :=
  s.1.2 = l ∧ creds s.2 = (user, pass).

Lemma keeps_on_handler {A} l (m : go Basic.BasicChallengeHandler A) :
  keeps (λ c, creds c = (user, pass)) m → keeps (kept l) (on_handler m).
Proof.
  intros Hm [x c] [Hl Hc]. unfold on_handler, focus. specialize (Hm c Hc). cbn in *.
  by destruct (m c).
Qed.

Lemma keeps_flow l u : keeps (kept l) (on_net (logged_flow u)).
Proof.
  intros [[n l'] c] Hk. unfold on_net, logged_flow, focus. cbn. by destruct (oauthTokenFunc u n).
Qed.

(** Whatever the outcome of a round, it makes at most its one request. *)
Lemma round_good v n l c r n' l' c' :
  good l → headers_ok v l → creds c = (user, pass) →
  round v ((n, l), c) = (r, ((n', l'), c')) → good l' ∧ creds c' = (user, pass).
Proof.
  intros Hg Hv Hc. unfold TokenCmd.round, gobind at 1, on_net at 1, focus at 1. cbn [fst snd].
  destruct (request_logged (requestURL v) (requestHeaders v) n l) as (o & n1 & l1 & -> & Hl1).
  assert (good l1) as Hg1.
  { destruct Hl1 as [[-> _]|(req & -> & Ha)]; [done|by eapply good_snoc]. }
  destruct o as [resp|e|p]; [|by intros [= <- <- <- <-]..].
  match goal with |- ?m ((n1, l1), c) = _ → _ => assert (keeps (kept l1) m) as Hk end.
  { destruct (_ =? _)%Z.
    - destruct (negb _); [|apply keeps_fail]. apply keeps_bind; [|intros; apply keeps_ret].
      unfold answer_challenge. apply keeps_bind; [apply keeps_on_handler, keeps_ret|]. intros b.
      destruct (negb b); [apply keeps_fail|]. apply keeps_bind.
      { apply keeps_on_handler, keeps_creds_handle. }
      intros [hd retry]. destruct (negb retry); [apply keeps_fail|apply keeps_ret].
    - apply keeps_bind; [|intros _].
      { destruct (handledChallenge v); [apply keeps_on_handler, keeps_ret|apply keeps_ret]. }
      destruct (_ =? _)%Z; [|apply keeps_fail].
      unfold follow_redirect. apply keeps_bind; [apply keeps_flow|]. intros t.
      repeat first [apply keeps_ret | apply keeps_fail | destr_match]. }
  specialize (Hk ((n1, l1), c) (conj eq_refl Hc)). intros E. rewrite E in Hk.
  destruct Hk as [Hk1 Hk2]. cbn in *. by subst.
Qed.

Lemma round_headers v n l c v' n' l' c' :
  headers_ok v l → creds c = (user, pass) →
  round v ((n, l), c) = (Ret (inr v'), ((n', l'), c')) → headers_ok v' l'.
Proof.
  intros Hv Hc Hr%round_inv.
  destruct (request_logged (requestURL v) (requestHeaders v) n l) as (o & n1 & l1 & Hreq & Hl1).
  inversion Hr as [resp ? b h1 hd ? E Hs Hcan Hb Hh|
                  |resp n2 ? ? E Hs Hcomp url Hflow Hnew]; subst; rewrite Hreq in E; simplify_eq;
    destruct Hl1 as [[-> Hno]|(req & -> & Ha)]; try (by edestruct Hno).
  - apply basic_answer in Hh as [-> _]. unfold Basic.CanHandle, ret in Hcan.
    cbn in Hcan. unfold Basic.CanHandle, ret in Hcan. simplify_eq. right.
    cbn [requestHeaders]. rewrite header_values_Set. unfold creds in Hc. simplify_eq.
    split; [congruence|]. exists req, (Ret resp). split; [set_solver|]. by exists resp.
  - unfold logged_flow, focus in Hflow. cbn in Hflow. destruct (oauthTokenFunc _ _). simplify_eq.
    unfold headers_ok in *. cbn [requestHeaders].
    destruct Hv as [Hv|[Hv (r & o' & Hin & Hb)]]; [by left|right]. split; [done|].
    exists r, o'. split; [set_solver|done].
Qed.

Lemma rounds_good fuel v n l c r n' l' c' :
  good l → headers_ok v l → creds c = (user, pass) →
  rounds fuel v ((n, l), c) = (r, ((n', l'), c')) → good l'.
Proof.
  revert v n l c. induction fuel as [|fuel IH]; intros v n l c Hg Hv Hc; cbn [TokenCmd.rounds].
  { by intros [= <- <- <- <-]. }
  unfold gobind. destruct (round v ((n, l), c)) as [o [[n1 l1] c1]] eqn:E.
  destruct (round_good _ _ _ _ _ _ _ _ Hg Hv Hc E) as [Hg1 Hc1].
  destruct o as [[t|v1]|e|p]; cbn; unfold ret; intros Er; try (by simplify_eq).
  eapply IH, Er; [done| |done]. exact (round_headers _ _ _ _ _ _ _ _ Hv Hc E).
Qed.
End Invariant.

(** Basic credentials are only sent on demand.  Whatever the server answers
    and however the loop ends, every request that carries an Authorization
    header carries exactly the encoding of the configured user and password,
    and an earlier response of the same run was a 401 with a basic challenge. *)
Theorem basic_credentials_on_demand fuel url n c :
  let '(_, ((_, log), _)) := rounds fuel (initial_vars url) ((n, []), c) in
  authorized_after_challenge (Basic.Username c) (Basic.Password c) log.
Proof.
  destruct (rounds fuel (initial_vars url) ((n, []), c)) as [r [[n' log] c']] eqn:E.
  revert E. apply rounds_good; [|by left|done]. intros i req o Hi. done.
Qed.
End Credentials.

(** ** The token flow *)

(** The first value of a key stays the first. *)
Lemma values_Get_add_ne k k' v m : k ≠ k' → values_Get (add_value k v m) k' = values_Get m k'.
Proof. intros H. unfold values_Get, add_value. by rewrite lookup_insert_ne. Qed.

Lemma values_Get_add_some k v w m :
  (∃ l, m !! k = Some (w :: l)) → ∃ l, add_value k v m !! k = Some (w :: l).
Proof. intros [l E]. unfold add_value. rewrite lookup_insert_eq, E. by eexists. Qed.

Lemma parse_params_keeps ps m err k w :
  (∃ l, m !! k = Some (w :: l)) → ∃ l, (parse_params ps m err).1 !! k = Some (w :: l).
Proof.
  revert m err. induction ps as [|p ps IH]; intros m err Hm; cbn [parse_params]; [done|].
  destruct (String.eqb p ""); [auto|].
  destruct (QueryUnescape (cut_equals p).1) as [k'|]; [|auto].
  destruct (QueryUnescape (cut_equals p).2) as [v|]; [|auto].
  apply IH. destruct (decide (k' = k)) as [->|Hne]; [by apply values_Get_add_some|].
  unfold add_value. by rewrite lookup_insert_ne.
Qed.

(** Whether the pieces parse does not depend on what was collected. *)
Lemma parse_params_err ps m m' err :
  (parse_params ps m err).2 = (parse_params ps m' err).2.
Proof.
  revert m m' err. induction ps as [|p ps IH]; intros m m' err; cbn [parse_params]; [done|].
  destruct (String.eqb p ""); [auto|].
  destruct (QueryUnescape (cut_equals p).1) as [k'|]; [|auto].
  destruct (QueryUnescape (cut_equals p).2) as [v|]; auto.
Qed.

(** The token flow reads the token back.  From a URL without an OAuth error
    in its query, whose fragment starts with the access token in plain text and
    goes on with any parameters that parse, the flow returns exactly the token,
    even if a later parameter has the same name. *)
Theorem oauthTokenFlow_token parse_err location token rest :
  parse_err (location +:+ "#access_token=" +:+ token +:+ "&" +:+ rest) = None →
  str_free "#" location = true → plain token = true →
  values_Get (URL_Query location) "error" = ""%string → (ParseQuery rest).2 = None →
  oauthTokenFlow parse_err (location +:+ "#access_token=" +:+ token +:+ "&" +:+ rest) = inl token.
Proof.
  intros Hp Hl Ht He Hr. unfold oauthTokenFlow. rewrite Hp.
  assert (cut "#" (location +:+ "#access_token=" +:+ token +:+ "&" +:+ rest) =
    (location, "access_token" +:+ String "=" (token +:+ String "&" rest))) as Hc
    by exact (cut_app _ _ _ Hl).
  unfold URL_Query, RawQuery. rewrite Hc. cbn [fst snd].
  unfold URL_Query, RawQuery in He. rewrite (cut_free "#") in He by done. cbn [fst] in He.
  unfold oauthErrFromValues. rewrite He. cbn [String.eqb negb].
  unfold ParseQuery.
  replace ("access_token" +:+ String "=" (token +:+ String "&" rest)) with
    (("access_token" +:+ String "=" token) +:+ String "&" rest) by reflexivity.
  rewrite split_params_app by by rewrite plain_app, (plain_cons "=" token), Ht.
  rewrite parse_params_pair by done.
  set (m := add_value "access_token" token ∅).
  assert (∃ l, m !! "access_token"%string = Some (token :: l)) as Hm by (by exists []).
  pose proof (parse_params_keeps (split_params rest) m None "access_token" token Hm) as [l Hk].
  pose proof (parse_params_err (split_params rest) m ∅ None) as Hq.
  unfold ParseQuery in Hr. rewrite Hr in Hq.
  destruct (parse_params (split_params rest) m None) as [vs o]. cbn in *. subst o.
  unfold values_Get. by rewrite Hk.
Qed.

(** An OAuth error in the redirect ends both flows with the same error,
    whatever else the URL contains: no code is exchanged, no token read. *)
Theorem oauth_error_first {N} parse_err GetToken config (rt : RoundTripper N) location n e :
  parse_err location = None →
  values_Get (URL_Query location) "error" = e → e ≠ ""%string →
  let err := createOAuthError e (values_Get (URL_Query location) "error_description") in
  oauthTokenFlow parse_err location = inr err ∧
  oauthCodeFlow parse_err GetToken config rt location n = (Fail err, n).
Proof.
  intros Hp <- Hne. unfold oauthTokenFlow, oauthCodeFlow. rewrite Hp.
  assert (oauthErrFromValues (URL_Query location) = Some (createOAuthError
    (values_Get (URL_Query location) "error")
    (values_Get (URL_Query location) "error_description"))) as ->; [|done].
  unfold oauthErrFromValues. by destruct (String.eqb_spec (values_Get (URL_Query location) "error") "").
Qed.
