(* ===== verification/TokenExamples.v ===== *)
(** * The unit tests of tokencmd, replayed, and the witnesses

    [run_case] is the server of request_token_test.go: it checks the method and
    the Authorization header of each request against a script and answers with
    the scripted response; the negotiators are those of the test. *)

From S2P Require Import Prelude.
From S2P Require Import GoStrings.
From S2P Require Import GoLib.
From S2P Require Import GoNet.
From S2P Require Import TokenHandlers.
From S2P Require Import TokenCmd.
From S2P Require Import TokenProofs.
From Stdlib Require Import Ascii.

Definition script : Type := list (string * string * Response).   (* method, authorization, response *)

Definition scripted : RoundTripper script := λ req s,
  match s with
  | [] => (Panic "more requests received than expected", s)
  | (method, auth, resp) :: rest =>
      if String.eqb (Method req) method &&
         String.eqb (header_Get (ReqHeader req) "Authorization") auth
      then (Ret resp, rest)
      else (Panic "unexpected request", rest)
  end.

Definition no_parse_error (s : string) : option error := None.
Definition server : string := "https://127.0.0.1:1234".
Definition test_options : RequestTokenOptions :=
  mkOptions (mkRest server "" "")
    (Some (mkOsin openShiftCLIClientID (server +:+ "/oauth/authorize") (server +:+ "/oauth/token")
       (OpenShiftOAuthTokenImplicitURL server) "" "" "")) server true.

Definition run_case {H} (handler : ChallengeHandler H) (h : H) (s : script)
  : outcome (option string) * (script * H) :=
  RequestToken no_parse_error (λ _ _ _, ret (inl ""%string)) handler (λ e _, e)
    (λ _, inl scripted) (λ _, OtherError) (λ _, inr (Errorf "no metadata"))
    (fail (Errorf "no PKCE")) (λ _, ""%string) (λ c _, AuthorizeUrl c) 20 test_options (s, h).

Definition response (status : Z) (location : string) (challenges : list string) : Response :=
  let h : Header := if String.eqb location "" then ∅ else {["Location" := [location]]} in
  mkResponse status (match challenges with [] => h | _ => <["Www-Authenticate" := challenges]> h end)
    (inl "").

Definition initial_head : string * string * Response := ("HEAD", "", response 500 "" [])%string.
Definition get (auth : string) (r : Response) : string * string * Response := ("GET"%string, auth, r).

Definition basicChallenge1 := response 401 "" ["Basic realm=foo"%string].
Definition basicChallenge2 := response 401 "" ["Basic realm=seriously...foo"%string].
Definition basicRequest1 : string := "Basic bXl1c2VyOm15cGFzc3dvcmQ=".
Definition negotiateChallenge1 := response 401 "" ["Negotiate"%string].
Definition negotiateChallenge2 := response 401 "" ["Negotiate Y2hhbGxlbmdlMg=="%string].
Definition negotiateRequest1 : string := "Negotiate cmVzcG9uc2Ux".
Definition negotiateRequest2 : string := "Negotiate cmVzcG9uc2Uy".
Definition doubleChallenge := response 401 "" ["Negotiate"; "Basic realm=foo"]%string.
Definition success := response 302 "/#access_token=12345" [].
Definition successWithNegotiate :=
  response 302 "/#access_token=12345" ["Negotiate Y2hhbGxlbmdlMg=="%string].

Definition basic (user pass : string) : Basic.BasicChallengeHandler :=
  Basic.mkBasic "" false user pass false false.
Definition with_reader : Basic.BasicChallengeHandler := Basic.mkBasic "" true "" "" false false.

(** The verdict of a case: the token or the error, with the script used up. *)
Definition verdict {H} (r : outcome (option string) * (script * H)) : option (string + string) :=
  match r with
  | (Ret (Some t), ([], _)) => Some (inl t)
  | (Fail e, ([], _)) => Some (inr (err_msg e))
  | _ => None
  end.
Definition basic_case (c : Basic.BasicChallengeHandler) (s : list (string * string * Response)) :=
  verdict (run_case Basic.handler c (initial_head :: s)).

Example basic_cases :
  let c := basic "myuser" "mypassword" in
  basic_case c [get "" success] = Some (inl "12345"%string) ∧
  basic_case c [get "" basicChallenge1; get basicRequest1 success] = Some (inl "12345"%string) ∧
  basic_case c [get "" doubleChallenge; get basicRequest1 success] = Some (inl "12345"%string) ∧
  basic_case c [get "" basicChallenge1; get basicRequest1 basicChallenge2] =
    Some (inr "challenger chose not to retry the request"%string) ∧
  basic_case c [get "" negotiateChallenge1] = Some (inr "unhandled challenge"%string) ∧
  basic_case (basic "" "") [get "" basicChallenge1] =
    Some (inr "challenger chose not to retry the request"%string).
Proof. vm_compute. done. Qed.

(** A handler with a reader panics at the first challenge, where the test
    expects it to read the credentials. *)
Example prompting_basic_panics :
  (run_case Basic.handler with_reader [initial_head; get "" basicChallenge1; get basicRequest1 success]).1
  = Panic "unsupported".
Proof. vm_compute. done. Qed.

(** *** The negotiators of the test *)

Record session := mkSession { loads : nat; calls : nat; releases : nat }.

Definition successfulNegotiator (total : nat) : Negotiate.Negotiator session :=
  Negotiate.mkNegotiator session
    (modw (λ s, mkSession (S (loads s)) (calls s) (releases s)))
    (λ _ tok, s <-! getw ;;
       let n := S (calls s) in
       let expected := ("challenge" +:+ itoa (Z.of_nat n))%string in
       modw (λ s, mkSession (loads s) n (releases s)) ;;!
       if Nat.ltb total n
       then fail (Errorf ("InitSecContext: expected " +:+ itoa (Z.of_nat total) +:+ " calls, saw " +:+
                          itoa (Z.of_nat n)))
       else if Nat.eqb n 1 && negb (String.eqb tok "")
       then fail (Errorf "expected empty token for first challenge")
       else if negb (Nat.eqb n 1) && negb (String.eqb tok expected)
       then fail (Errorf ("expected challenge token '" +:+ expected +:+ "', got '" +:+ tok +:+ "'"))
       else ret ("response" +:+ itoa (Z.of_nat n))%string)%go
    (s <-! getw ;; ret (Nat.eqb (calls s) total))%go
    (modw (λ s, mkSession (loads s) (calls s) (S (releases s)))).
Definition failingNegotiator : Negotiate.Negotiator session :=
  Negotiate.mkNegotiator session (ret tt) (λ _ _, fail (Errorf "InitSecContext failed")) (ret false)
    (modw (λ s, mkSession (loads s) (calls s) (S (releases s))) ;;! fail (Errorf "Release failed"))%go.

Definition fresh : session := mkSession 0 0 0.
Definition negotiate_case (g : Negotiate.Negotiator session) (s : list (string * string * Response)) :=
  let r := run_case (Negotiate.NewNegotiateChallengeHandler g) fresh (initial_head :: s) in
  (verdict r, releases (snd (snd r))).

Example negotiate_cases :
  negotiate_case (successfulNegotiator 1) [get "" success] = (Some (inl "12345"%string), 1) ∧
  negotiate_case (successfulNegotiator 1) [get "" negotiateChallenge1; get negotiateRequest1 success] =
    (Some (inl "12345"%string), 1) ∧
  negotiate_case (successfulNegotiator 2) [get "" negotiateChallenge1;
    get negotiateRequest1 negotiateChallenge2; get negotiateRequest2 success] =
    (Some (inl "12345"%string), 1) ∧
  negotiate_case (successfulNegotiator 2) [get "" negotiateChallenge1;
    get negotiateRequest1 successWithNegotiate] = (Some (inl "12345"%string), 1) ∧
  negotiate_case (successfulNegotiator 2) [get "" negotiateChallenge1; get negotiateRequest1 success] =
    (Some (inr "client requires final negotiate token, none provided"%string), 1) ∧
  negotiate_case failingNegotiator [get "" negotiateChallenge1] =
    (Some (inr "InitSecContext failed"%string), 1) ∧
  negotiate_case failingNegotiator [get "" basicChallenge1] =
    (Some (inr "unhandled challenge"%string), 1).
Proof. vm_compute. done. Qed.

(** *** Fallback with two handlers *)

Definition both (g : Negotiate.Negotiator session)
  : list (ChallengeHandler (session * Basic.BasicChallengeHandler)) :=
  [focus_handler fst (λ s h, (s, h.2)) (Negotiate.NewNegotiateChallengeHandler g);
   focus_handler snd (λ c h, (h.1, c)) Basic.handler].
Definition multi_case (g : Negotiate.Negotiator session) (c : Basic.BasicChallengeHandler)
    (s : list (string * string * Response)) :=
  let '(multi, m) := Multi.NewMultiHandler (both g) in
  verdict (run_case multi ((fresh, c), m) (initial_head :: s)).

Example multi_cases :
  let c := basic "myuser" "mypassword" in
  multi_case failingNegotiator c [get "" success] = Some (inl "12345"%string) ∧
  multi_case failingNegotiator c [get "" doubleChallenge; get basicRequest1 success] =
    Some (inl "12345"%string) ∧
  multi_case (successfulNegotiator 2) (basic "" "") [get "" doubleChallenge;
    get negotiateRequest1 negotiateChallenge2; get negotiateRequest2 success] =
    Some (inl "12345"%string) ∧
  multi_case (successfulNegotiator 2) c [get "" doubleChallenge;
    get negotiateRequest1 negotiateChallenge2; get negotiateRequest2 doubleChallenge] =
    Some (inr "InitSecContext: expected 2 calls, saw 3"%string).
Proof. vm_compute. done. Qed.

(** ** Witnesses *)

(** A server that redirects between two pages for ever, after a challenge. *)
Definition ping_pong : RoundTripper unit := λ req n,
  (Ret (if String.eqb (header_Get (ReqHeader req) "Authorization") "" then basicChallenge1
        else response 302 (if String.eqb (URL req) "/a" then "/b" else "/a") []), n).

Definition run_ping_pong (fuel : nat) :=
  RequestToken no_parse_error (λ _ _ _, ret (inl ""%string)) Basic.handler (λ e _, e)
    (λ _, inl ping_pong) (λ _, OtherError) (λ _, inr (Errorf "no metadata"))
    (fail (Errorf "no PKCE")) (λ _, ""%string) (λ c _, AuthorizeUrl c) fuel test_options
    (tt, basic "user" "secret").

Definition ping_pong_urls : gset string := {["/a"%string; "/b"%string]}.

Example RequestToken_terminates_witness : (run_ping_pong 6).1 ≠ Ret None.
Proof.
  apply (RequestToken_terminates no_parse_error Basic.handler (λ e _, e)
    (λ _, inl ping_pong) (λ _, OtherError) (λ _, inr (Errorf "no metadata"))
    (fail (Errorf "no PKCE")) (λ _, ""%string) (λ _ _ _, ret (inl ""%string)) (λ c _, AuthorizeUrl c)
    basic_budget ping_pong_urls
    6 test_options tt (basic "user" "secret")).
  - intros cfg rt req n resp n' [= <-]. unfold ping_pong. intros [= <- _].
    destruct (String.eqb _ ""); [done|]. intros _.
    destruct (String.eqb (URL req) "/a"); vm_compute; intuition; by eexists.
  - vm_compute. lia.
Defined.

Example ping_pong_error :
  (run_ping_pong 6).1 =
  Fail (NewInternalError (Errorf "redirect loop: /a -> /b -> /a")).
Proof. vm_compute. done. Qed.

Definition negotiated_script : script :=
  [initial_head; get "" negotiateChallenge1; get negotiateRequest1 successWithNegotiate].
Definition run_negotiated :=
  run_case (Negotiate.NewNegotiateChallengeHandler (successfulNegotiator 2)) fresh negotiated_script.

Example RequestToken_negotiated_witness :
  ∃ h1 h2, Negotiate.IsComplete session (successfulNegotiator 2) h1 = (Ret true, h2) ∨
    ∃ v, requestHeaders v = ∅ ∧ handledChallenge v = false.
Proof.
  destruct (RequestToken_negotiated (successfulNegotiator 2) no_parse_error
    (λ _ _ _, ret (inl ""%string)) (λ e _, e)
    (λ _, inl scripted) (λ _, OtherError) (λ _, inr (Errorf "no metadata"))
    (fail (Errorf "no PKCE")) (λ _, ""%string) (λ c _, AuthorizeUrl c) 20 test_options
    negotiated_script fresh "12345" ([], mkSession 1 2 1))
    as (h1 & h2 & _ & [H|(rt & f & url & n0 & v & n1 & H1 & H2 & _)]).
  - vm_compute. reflexivity.
  - exists h1, h2. by left.
  - exists h1, h2. right. by exists v.
Defined.

Example RequestToken_token_witness :
  ∃ (v : loop_vars) (resp : Response), StatusCode resp = StatusFound.
Proof.
  destruct (RequestToken_token no_parse_error Basic.handler (λ e _, e)
    (λ _, inl scripted) (λ _, OtherError) (λ _, inr (Errorf "no metadata"))
    (fail (Errorf "no PKCE")) (λ _, ""%string) (λ _ _ _, ret (inl ""%string))
    (λ c _, AuthorizeUrl c) 20 test_options
    [initial_head; get "" basicChallenge1; get basicRequest1 success] (basic "myuser" "mypassword")
    "12345" ([], Basic.mkBasic "" false "myuser" "mypassword" true false))
    as (o & c & cfg & rt & n0 & v1 & n1 & h1 & resp & n2 & h2 & _ & _ & _ & Hs & _).
  - vm_compute. reflexivity.
  - by exists v1, resp.
Defined.

Example MultiHandler_selection_witness :
  let '(multi, m) := Multi.NewMultiHandler (both failingNegotiator) in
  let hd := RespHeader doubleChallenge in
  ∃ c s0 x, HandleChallenge c "" hd s0 = (Ret x, (fresh, Basic.set_handled (basic "myuser" "mypassword"))).
Proof.
  cbn. destruct (MultiHandler_selection (both failingNegotiator) "" (RespHeader doubleChallenge)
    (fresh, basic "myuser" "mypassword") (Multi.mkMulti None [0; 1])
    (header_Set ∅ "Authorization" basicRequest1, true)
    (fresh, Basic.set_handled (basic "myuser" "mypassword")) (Multi.mkMulti (Some 1) [0; 1]))
    as (l1 & i & l2 & c & s0 & _ & _ & _ & H & _).
  - reflexivity.
  - vm_compute. reflexivity.
  - eauto.
Defined.

Example oauthTokenFlow_token_witness :
  oauthTokenFlow no_parse_error "/cb?x=1#access_token=12345&expires_in=10" = inl "12345"%string.
Proof.
  apply (oauthTokenFlow_token no_parse_error "/cb?x=1" "12345" "expires_in=10"); vm_compute; reflexivity.
Defined.

Example oauth_error_first_witness :
  oauthTokenFlow no_parse_error "/cb?error=access_denied#access_token=1" =
  inr (createOAuthError "access_denied" "").
Proof.
  apply (oauth_error_first no_parse_error (λ _ _ _, ret (inl ""%string))
    (mkOsin "" "" "" "" "" "" "") ping_pong "/cb?error=access_denied#access_token=1" tt "access_denied");
    [reflexivity|vm_compute; reflexivity|discriminate].
Defined.

(** *** Endless redirects

    Without a bound on the URLs the loop does not end: a server that redirects
    to a longer URL each time is followed for ever. *)

Definition stairs : RoundTripper nat := λ req n,
  (Ret (response 302 (repeat_str (S n) "/") []), S n).

Lemma repeat_str_length n : String.length (repeat_str n "/") = n.
Proof. induction n as [|n IH]; [done|]. cbn [repeat_str]. by rewrite str_length_app, IH. Qed.

Lemma endless_redirects fuel url n set l :
  (∀ u, u ∈ set → String.length u ≤ n) →
  (rounds no_parse_error Basic.handler (λ e _, e) fuel stairs (λ _, ret ""%string)
     (mkVars url ∅ set l false) (n, basic "user" "secret")).1 = Ret None.
Proof.
  revert url n set l. induction fuel as [|fuel IH]; intros url n set l Hs; [done|].
  assert (round no_parse_error Basic.handler (λ e _, e) stairs (λ _, ret ""%string)
    (mkVars url ∅ set l false) (n, basic "user" "secret") =
    (Ret (inr (mkVars (repeat_str (S n) "/") ∅ ({[repeat_str (S n) "/"]} ∪ set)
       (l ++ [repeat_str (S n) "/"]) false)), (S n, basic "user" "secret"))) as Hr.
  { assert (repeat_str (S n) "/" ∉ set) as Hn.
    { intros Hin%Hs. rewrite repeat_str_length in Hin. lia. }
    unfold TokenCmd.round, gobind, on_net, focus, TokenCmd.request, follow_redirect.
    cbn -[repeat_str header_Get]. unfold ret at 1. cbn -[repeat_str header_Get].
    change (header_Get {["Location" := [repeat_str (S n) "/"]]} "Location") with (repeat_str (S n) "/").
    by rewrite bool_decide_false. }
  cbn [TokenCmd.rounds]. unfold gobind. rewrite Hr. apply IH.
  intros u [->%elem_of_singleton|Hu%Hs]%elem_of_union; [by rewrite repeat_str_length|lia].
Qed.
