(* ===== verification/GoSlice.v ===== *)
(** * Go's slices, with the arrays they share

    A slice that starts at the beginning of its array: the array and the
    length, or nil.  The heap holds the arrays, each as long as its capacity.
    [append] writes into the array when the capacity allows it, so two slices of
    one array may see each other's elements; otherwise it moves to a new array
    whose spare capacity is the runtime's choice. *)

From S2P Require Import Prelude.

Section Slice.
Context {A : Type} (zero : A) (spare : nat → nat → nat).

Notation arrays := (list (list A)).
Notation slice := (option (nat * nat)).

Definition arr_at (h : arrays) (a : nat) : list A :=
  match h !! a with Some arr => arr | None => [] end.

Lemma arr_at_Some h a arr : h !! a = Some arr → arr_at h a = arr.
Proof. unfold arr_at. by intros ->. Qed.

(** The elements of a slice. *)
Definition elems (h : arrays) (s : slice) : list A :=
  match s with
  | None => []
  | Some (a, n) => take n (arr_at h a)
  end.

(** A composite literal: an array of its own, without spare capacity. *)
Definition literal (xs : list A) (h : arrays) : slice * arrays :=
  (Some (length h, length xs), h ++ [xs]).

(** [append(s, xs...)]; [spare] is given the old capacity and the length
    needed. *)
Definition append (s : slice) (xs : list A) (h : arrays) : slice * arrays :=
  match xs, s with
  | [], _ => (s, h)
  | _, None =>
      (Some (length h, length xs), h ++ [xs ++ replicate (spare 0 (length xs)) zero])
  | _, Some (a, n) =>
      let arr := arr_at h a in
      let need := n + length xs in
      if Nat.leb need (length arr)
      then (Some (a, need), <[a := take n arr ++ xs ++ drop need arr]> h)
      else (Some (length h, need),
            h ++ [take n arr ++ xs ++ replicate (spare (length arr) need) zero])
  end.

(** The slice points into an array that is long enough. *)
Definition slice_ok (h : arrays) (s : slice) : Prop :=
  match s with
  | None => True
  | Some (a, n) => ∃ arr, h !! a = Some arr ∧ n ≤ length arr
  end.

Definition array_of (s : slice) : option nat := fst <$> s.
Definition slice_len (s : slice) : nat := from_option snd 0 s.

Lemma elems_length h s : slice_ok h s → length (elems h s) = slice_len s.
Proof.
  destruct s as [[a n]|]; [|done]. intros (arr & Ha & Hn). cbn. rewrite (arr_at_Some _ _ _ Ha), length_take. lia.
Qed.

Lemma lookup_new (h : arrays) arr : (h ++ [arr]) !! length h = Some arr.
Proof. by apply list_lookup_middle. Qed.

Lemma literal_spec xs h s' h' :
  literal xs h = (s', h') →
  elems h' s' = xs ∧ slice_ok h' s' ∧ array_of s' = Some (length h) ∧ h' = h ++ [xs].
Proof.
  intros [= <- <-]. cbn. rewrite (arr_at_Some _ _ _ (lookup_new h xs)).
  split_and!; [by rewrite firstn_all|by exists xs; rewrite lookup_new|done|done].
Qed.

(** What [append] does to the arrays: a new one is added, or only the elements
    after the slice change. *)
Definition grows (s : slice) (h h' : arrays) : Prop :=
  length h ≤ length h' ∧
  ∀ a arr, h !! a = Some arr → ∃ arr', h' !! a = Some arr' ∧ length arr' = length arr ∧
    (array_of s ≠ Some a → arr' = arr) ∧ take (slice_len s) arr' = take (slice_len s) arr.

Lemma grows_refl s h : grows s h h.
Proof. split; [done|]. intros a arr Ha. by exists arr. Qed.

Lemma grows_new s h arr : grows s h (h ++ [arr]).
Proof.
  split; [rewrite length_app; lia|]. intros a arr0 Ha. exists arr0.
  split_and!; try done. by apply lookup_app_l_Some.
Qed.

Lemma append_spec s xs h s' h' :
  append s xs h = (s', h') → slice_ok h s →
  elems h' s' = elems h s ++ xs ∧ slice_ok h' s' ∧ grows s h h' ∧
  (array_of s' = array_of s ∨ array_of s' = Some (length h)) ∧
  slice_len s' = slice_len s + length xs.
Proof.
  unfold append. destruct xs as [|x xs]; [|generalize (x :: xs); intros ys].
  { intros [= <- <-] Hs. rewrite app_nil_r. cbn [length]. rewrite Nat.add_0_r. split_and!; try done; [apply grows_refl|by left]. }
  destruct s as [[a n]|]; cbn [slice_ok array_of].
  - intros Ha (arr & Harr & Hn). rewrite (arr_at_Some _ _ _ Harr) in Ha.
    unfold elems at 2. rewrite (arr_at_Some _ _ _ Harr).
    assert (length (take n arr) = n) as Hl by (rewrite length_take; lia).
    destruct (Nat.leb_spec (n + length ys) (length arr)) as [Hle|Hgt]; injection Ha as <- <-.
    + set (arr' := take n arr ++ ys ++ drop (n + length ys) arr).
      assert (length arr' = length arr) as Hl'
        by (unfold arr'; rewrite !length_app, length_take, length_drop; lia).
      assert (<[a:=arr']> h !! a = Some arr') as Hnew
        by (apply list_lookup_insert_eq; by eapply lookup_lt_Some).
      cbn [elems]. rewrite (arr_at_Some _ _ _ Hnew).
      split_and!; [|exists arr'; split; [done|rewrite Hl'; lia]| |by left|done].
      * unfold arr'. rewrite app_assoc, take_app_length'; [done|]. rewrite length_app. lia.
      * split; [by rewrite length_insert|]. intros b brr Hb.
        destruct (decide (a = b)) as [<-|Hne].
        -- simplify_eq. exists arr'.
           split_and!; [done|done|by intros []|]. cbn. unfold arr'. by rewrite take_app_length'.
        -- exists brr. rewrite list_lookup_insert_ne by done. done.
    + cbn [elems]. rewrite (arr_at_Some _ _ _ (lookup_new _ _)). split_and!; [|eexists; split; [apply lookup_new|rewrite !length_app; lia]|apply grows_new|by right|done].
      rewrite app_assoc, take_app_length'; [done|]. rewrite length_app. lia.
  - intros [= <- <-] _. cbn [elems]. rewrite (arr_at_Some _ _ _ (lookup_new _ _)).
    split_and!; [by apply take_app_length|eexists; split; [apply lookup_new|rewrite !length_app; cbn; lia]|apply grows_new|by right|done].
Qed.

(** A slice that [append] cannot touch: one of another array, or one that is
    not longer. *)
Lemma grows_elems s t h h' :
  grows s h h' → slice_ok h t → array_of t ≠ array_of s ∨ slice_len t ≤ slice_len s →
  elems h' t = elems h t ∧ slice_ok h' t.
Proof.
  destruct t as [[a n]|]; [|done]. intros [_ Hg] (arr & Ha & Hn) Ht.
  destruct (Hg a arr Ha) as (arr' & Ha' & Hl & Ho & Hp). cbn [elems slice_ok].
  rewrite (arr_at_Some _ _ _ Ha), (arr_at_Some _ _ _ Ha'). split; [|exists arr'; split; [done|lia]].
  destruct Ht as [Ht|Ht]; [by rewrite Ho by (cbn in Ht; congruence)|].
  cbn in Ht.
  assert (∀ l : list A, take n l = take n (take (slice_len s) l)) as E
    by (intros l; rewrite take_take; f_equal; lia).
  by rewrite (E arr'), (E arr), Hp.
Qed.
End Slice.
