(* ===== verification/Cli.v ===== *)
(** * test/extended/util/client.go: the oc command line

    Clients are pointers that the tests share and copy: [AsAdmin] and
    [WithoutNamespace] copy the struct, so a copy shares the framework (and
    with it the namespace), the arrays behind its argument slices and its list
    of resources with the client it was made from.  The state keeps the clients,
    the frameworks, the arrays and the stdin buffers; a command that is run is
    a parameter.  Log lines of the test framework are kept where the code makes
    them depend on a flag. *)

From S2P Require Import Prelude.
From S2P Require Import GoStrings.
From S2P Require Import GoLib.
From S2P Require Import GoSlice.

(** ** Data *)

(* src: test/extended/util/client.go 90-94 resourceRef *)
Record resourceRef := mkRef { Resource : string; RNamespace : string; RName : string }.

Notation slice := (option (nat * nat)).

(** The buffers of stdin are pointers; of a writer what was last put in it
    matters. *)
(* src: test/extended/util/client.go 69-88 CLI *)
Record CLI := mkCLI {
  execPath : string;
  verb : string;
  configPath : string;
  adminConfigPath : string;
  username : string;
  globalArgs : slice;
  commandArgs : slice;
  finalArgs : slice;
  stdin : option nat;
  stdout : option string;
  verbose : bool;
  showInfo : bool;
  withoutNamespace : bool;
  kubeFramework : nat;
  resourcesToDelete : slice
}.

(** What the clients use of the framework of Kubernetes. *)
Record framework := mkFramework {
  BaseName : string;
  FNamespace : option string;
  SkipNamespaceCreation : bool;
  namespacesToDelete : list string
}.

(** The functions registered with ginkgo, in the order of registration. *)
Inductive hook := AfterEach_Teardown (c : nat) | Framework_hooks (f : nat) | BeforeEach_Setup (c : nat).

Section World.
Context {W K : Type}.   (* the server, a kubeconfig file *)

Record world := mkW {
  clis : list CLI;
  frameworks : list framework;
  arg_arrays : list (list string);
  ref_arrays : list (list resourceRef);
  buffers : list string;
  files : gmap string K;
  term : list string;        (* printed and logged lines *)
  hooks : list hook;
  server : W
}.

Definition set_clis (l : list CLI) (w : world) : world :=
  mkW l (frameworks w) (arg_arrays w) (ref_arrays w) (buffers w) (files w) (term w) (hooks w) (server w).
Definition set_frameworks (l : list framework) (w : world) : world :=
  mkW (clis w) l (arg_arrays w) (ref_arrays w) (buffers w) (files w) (term w) (hooks w) (server w).
Definition set_args (l : list (list string)) (w : world) : world :=
  mkW (clis w) (frameworks w) l (ref_arrays w) (buffers w) (files w) (term w) (hooks w) (server w).
Definition set_refs (l : list (list resourceRef)) (w : world) : world :=
  mkW (clis w) (frameworks w) (arg_arrays w) l (buffers w) (files w) (term w) (hooks w) (server w).
Definition set_buffers (l : list string) (w : world) : world :=
  mkW (clis w) (frameworks w) (arg_arrays w) (ref_arrays w) l (files w) (term w) (hooks w) (server w).
Definition set_files (l : gmap string K) (w : world) : world :=
  mkW (clis w) (frameworks w) (arg_arrays w) (ref_arrays w) (buffers w) l (term w) (hooks w) (server w).
Definition print (x : string) (w : world) : world :=
  mkW (clis w) (frameworks w) (arg_arrays w) (ref_arrays w) (buffers w) (files w) (term w ++ [x])
    (hooks w) (server w).
Definition register (l : list hook) (w : world) : world :=
  mkW (clis w) (frameworks w) (arg_arrays w) (ref_arrays w) (buffers w) (files w) (term w)
    (hooks w ++ l) (server w).
Definition set_server (v : W) (w : world) : world :=
  mkW (clis w) (frameworks w) (arg_arrays w) (ref_arrays w) (buffers w) (files w) (term w) (hooks w) v.

(** Reading and writing through a pointer. *)
Definition get_cli (c : nat) : go world CLI := λ w,
  match clis w !! c with
  | Some x => (Ret x, w)
  | None => (Panic "invalid memory address or nil pointer dereference", w)
  end.
Definition put_cli (c : nat) (x : CLI) : go world unit :=
  modw (λ w, set_clis (<[c := x]> (clis w)) w).
Definition new_cli (x : CLI) : go world nat := λ w,
  (Ret (length (clis w)), set_clis (clis w ++ [x]) w).
Definition get_framework (f : nat) : go world framework := λ w,
  match frameworks w !! f with
  | Some x => (Ret x, w)
  | None => (Panic "invalid memory address or nil pointer dereference", w)
  end.
Definition on_server {A} (m : go W A) : go world A := λ w,
  let '(r, v) := m (server w) in (r, set_server v w).

(** [e2e.Failf]: the test ends. *)
(* src: test/extended/util/client.go 651-656 FatalErr *)
Definition FatalErr {A} (msg : string) : go world A := gopanic msg.

(** ** Slices of the arguments and of the resources *)

Variable spare : nat → nat → nat.   (* the spare capacity of a new array *)

Definition args_literal (xs : list string) : go world slice := λ w,
  let '(s, h) := literal xs (arg_arrays w) in (Ret s, set_args h w).
Definition args_append (s : slice) (xs : list string) : go world slice := λ w,
  let '(s', h) := append EmptyString spare s xs (arg_arrays w) in (Ret s', set_args h w).
Definition args_read (s : slice) : go world (list string) := λ w, (Ret (elems (arg_arrays w) s), w).

(** ** Clients *)

Definition blank_cli (f : nat) (admin : string) : CLI :=
  mkCLI "oc" "" "" admin "admin" None None None None None false true false f None.

(** [e2e.NewDefaultFramework(project)] with [SkipNamespaceCreation] set. *)
Definition new_framework (project : string) : go world nat := λ w,
  (Ret (length (frameworks w)),
   set_frameworks (frameworks w ++ [mkFramework project None true []]) w).

(** The pointer of the client is known before the framework registers its
    functions. *)
(* src: test/extended/util/client.go 96-115 NewCLI *)
Definition NewCLI (project admin : string) : go world nat :=
  (f <-! new_framework project ;;
   c <-! new_cli (blank_cli f admin) ;;
   modw (register [AfterEach_Teardown c; Framework_hooks f; BeforeEach_Setup c]) ;;!
   ret c)%go.

(** [kube_config] is [KubeConfigPath()]. *)
(* src: test/extended/util/client.go 117-132 NewCLIWithoutNamespace *)
Definition NewCLIWithoutNamespace (kube_config project : string) : go world nat :=
  (f <-! new_framework project ;;
   c <-! new_cli (blank_cli f kube_config) ;;
   modw (register [AfterEach_Teardown c; Framework_hooks f]) ;;!
   ret c)%go.

Definition with_configPath (p : string) (x : CLI) : CLI :=
  mkCLI (execPath x) (verb x) p (adminConfigPath x) (username x) (globalArgs x) (commandArgs x)
    (finalArgs x) (stdin x) (stdout x) (verbose x) (showInfo x) (withoutNamespace x)
    (kubeFramework x) (resourcesToDelete x).
Definition with_username (u : string) (x : CLI) : CLI :=
  mkCLI (execPath x) (verb x) (configPath x) (adminConfigPath x) u (globalArgs x) (commandArgs x)
    (finalArgs x) (stdin x) (stdout x) (verbose x) (showInfo x) (withoutNamespace x)
    (kubeFramework x) (resourcesToDelete x).
Definition with_args (ca fa : slice) (x : CLI) : CLI :=
  mkCLI (execPath x) (verb x) (configPath x) (adminConfigPath x) (username x) (globalArgs x) ca
    fa (stdin x) (stdout x) (verbose x) (showInfo x) (withoutNamespace x)
    (kubeFramework x) (resourcesToDelete x).
Definition with_stdout (o : option string) (x : CLI) : CLI :=
  mkCLI (execPath x) (verb x) (configPath x) (adminConfigPath x) (username x) (globalArgs x)
    (commandArgs x) (finalArgs x) (stdin x) o (verbose x) (showInfo x) (withoutNamespace x)
    (kubeFramework x) (resourcesToDelete x).
Definition with_flags (v i n : bool) (x : CLI) : CLI :=
  mkCLI (execPath x) (verb x) (configPath x) (adminConfigPath x) (username x) (globalArgs x)
    (commandArgs x) (finalArgs x) (stdin x) (stdout x) v i n
    (kubeFramework x) (resourcesToDelete x).
Definition with_refs (s : slice) (x : CLI) : CLI :=
  mkCLI (execPath x) (verb x) (configPath x) (adminConfigPath x) (username x) (globalArgs x)
    (commandArgs x) (finalArgs x) (stdin x) (stdout x) (verbose x) (showInfo x)
    (withoutNamespace x) (kubeFramework x) s.

(* src: test/extended/util/client.go 146-151 CLI.AsAdmin *)
Definition AsAdmin (c : nat) : go world nat :=
  (x <-! get_cli c ;; new_cli (with_configPath (adminConfigPath x) x))%go.

(* src: test/extended/util/client.go 177-185 CLI.SetNamespace *)
Definition SetNamespace (c : nat) (ns : string) : go world nat :=
  (x <-! get_cli c ;;
   f <-! get_framework (kubeFramework x) ;;
   modw (λ w, set_frameworks
     (<[kubeFramework x := mkFramework (BaseName f) (Some ns) (SkipNamespaceCreation f)
                             (namespacesToDelete f)]> (frameworks w)) w) ;;!
   ret c)%go.

(* src: test/extended/util/client.go 187-191 CLI.NotShowInfo *)
Definition NotShowInfo (c : nat) : go world nat :=
  (x <-! get_cli c ;; put_cli c (with_flags (verbose x) true (withoutNamespace x) x) ;;! ret c)%go.

(** The receiver is a value: the copy is changed and returned. *)
(* src: test/extended/util/client.go 193-197 CLI.WithoutNamespace *)
Definition WithoutNamespace (c : nat) : go world nat :=
  (x <-! get_cli c ;; new_cli (with_flags (verbose x) (showInfo x) true x))%go.

(* src: test/extended/util/client.go 323-327 CLI.Verbose *)
Definition Verbose (c : nat) : go world nat :=
  (x <-! get_cli c ;; put_cli c (with_flags true (showInfo x) (withoutNamespace x) x) ;;! ret c)%go.

(* src: test/extended/util/client.go 140-144 CLI.Username *)
Definition Username (c : nat) : go world string := (x <-! get_cli c ;; ret (username x))%go.

(* src: test/extended/util/client.go 457-464 CLI.Namespace *)
Definition Namespace (c : nat) : go world string :=
  (x <-! get_cli c ;; f <-! get_framework (kubeFramework x) ;; ret (default "" (FNamespace f)))%go.

(** ** Commands *)

Definition new_buffer : go world nat := λ w,
  (Ret (length (buffers w)), set_buffers (buffers w ++ [""]) w).

(** The output of the new client is the writer of this one, not the buffer. *)
(* src: test/extended/util/client.go 466-493 CLI.setOutput, CLI.Run *)
Definition Run (c : nat) (commands : list string) : go world nat :=
  (x <-! get_cli c ;;
   b <-! new_buffer ;;
   match commands with
   | [] => gopanic "index out of range"
   | v :: _ =>
       g <-! args_literal ["--kubeconfig=" +:+ configPath x] ;;
       g <-! args_append g commands ;;
       g <-! (if withoutNamespace x then ret g
              else ns <-! Namespace c ;;
                   n <-! args_literal ["--namespace=" +:+ ns] ;;
                   l <-! args_read g ;;
                   args_append n l) ;;
       new_cli (mkCLI (execPath x) v (configPath x) (adminConfigPath x) (username x) g None None
                  (Some b) (stdout x) false false false (kubeFramework x) None)
   end)%go.

(* src: test/extended/util/client.go 495-505 CLI.Template *)
Definition Template (c : nat) (t : string) : go world nat :=
  (x <-! get_cli c ;;
   if negb (String.eqb (verb x) "get") then FatalErr "Cannot use Template() for non-get verbs."
   else
     ca <-! args_append (commandArgs x) ["--output=template"; "--template=" +:+ t] ;;
     l <-! args_read ca ;;
     fa <-! args_append (globalArgs x) l ;;
     put_cli c (with_args (commandArgs x) fa x) ;;!
     ret c)%go.

(* src: test/extended/util/client.go 507-511 CLI.InputString *)
Definition InputString (c : nat) (input : string) : go world nat :=
  (x <-! get_cli c ;;
   match stdin x with
   | None => gopanic "invalid memory address or nil pointer dereference"
   | Some b =>
       modw (λ w, set_buffers (alter (λ s, s +:+ input) b (buffers w)) w) ;;! ret c
   end)%go.

(** [args] is the slice of the variadic parameter: a literal of its own, or the
    caller's slice when the call is [Args(l...)]. *)
(* src: test/extended/util/client.go 513-518 CLI.Args *)
Definition Args_slice (c : nat) (args : slice) : go world nat :=
  (x <-! get_cli c ;;
   l <-! args_read args ;;
   fa <-! args_append (globalArgs x) l ;;
   put_cli c (with_args args fa x) ;;!
   ret c)%go.
Definition Args (c : nat) (args : list string) : go world nat :=
  (s <-! (match args with [] => ret None | _ => args_literal args end) ;; Args_slice c s)%go.

Definition final_args (c : nat) : go world (list string) :=
  (x <-! get_cli c ;; args_read (finalArgs x))%go.

(* src: test/extended/util/client.go 520-522 CLI.printCmd *)
Definition printCmd (c : nat) : go world string := (l <-! final_args c ;; ret (Join l " "))%go.

(** ** Execution *)

Inductive exec_error := ExOk | ExExit (status : Z) | ExOther (msg : string).

(** What a process wrote to stdout, to stderr, and to both when they are the
    same writer. *)
Record exec_result := mkExecResult {
  x_out : string; x_err : string; x_both : string; x_status : exec_error
}.

(** The process: its path, arguments and stdin; the text of a command. *)
Variable process : string → list string → string → go W exec_result.
Variable cmd_String : string → list string → string.

(** [cmd.Stdin = c.stdin]: the buffer is read to its end; a nil buffer cannot be
    read. *)
Definition run_process (x : CLI) : go world exec_result :=
  (match stdin x with
   | None => gopanic "invalid memory address or nil pointer dereference"
   | Some b =>
       l <-! args_read (finalArgs x) ;;
       w <-! getw ;;
       modw (λ w, set_buffers (<[b := ""]> (buffers w)) w) ;;!
       on_server (process (execPath x) l (default "" (buffers w !! b)))
   end)%go.

Definition debug (c : nat) : go world unit :=
  (x <-! get_cli c ;;
   if verbose x then l <-! printCmd c ;; modw (print ("DEBUG: oc " +:+ l +:+ nl)) else ret tt)%go.

Definition command_line (x : CLI) (l : list string) : string := execPath x +:+ " " +:+ Join l " ".
Definition running (x : CLI) (l : list string) : string := "Running '" +:+ command_line x l +:+ "'".

(** The message of the exit error is that of the process; [Cmd] and [StdErr]
    are the fields of the wrapper. *)
(* src: test/extended/util/client.go 524-528 ExitError *)
Record ExitError := mkExit { Cmd : string; StdErr : string; ExitStatus : Z }.

(** The trimmed output, and the error if the process failed. *)
(* src: test/extended/util/client.go 530-554 CLI.Output *)
Definition Output (c : nat) : go world (string * option ExitError) :=
  (debug c ;;!
   x <-! get_cli c ;;
   l <-! final_args c ;;
   (if showInfo x then modw (print (running x l)) else ret tt) ;;!
   r <-! run_process x ;;
   let trimmed := TrimSpace (x_both r) in
   match x_status r with
   | ExOk => put_cli c (with_stdout (Some (x_both r)) x) ;;! ret (trimmed, None)
   | ExExit z =>
       modw (print ("Error running " +:+ cmd_String (execPath x) l +:+ ":" +:+ nl +:+ trimmed)) ;;!
       ret (trimmed, Some (mkExit (command_line x l) trimmed z))
   | ExOther m => FatalErr ("unable to execute " +:+ Quote (execPath x) +:+ ": " +:+ m)
   end)%go.

(** The error is the status of the process. *)
(* src: test/extended/util/client.go 556-587 CLI.Outputs *)
Definition Outputs (c : nat) : go world (string * string * option Z) :=
  (debug c ;;!
   x <-! get_cli c ;;
   l <-! final_args c ;;
   modw (print (running x l)) ;;!
   r <-! run_process x ;;
   let out := TrimSpace (x_out r) in
   let err := TrimSpace (x_err r) in
   match x_status r with
   | ExOk => put_cli c (with_stdout (Some (x_out r)) x) ;;! ret (out, err, None)
   | ExExit z =>
       modw (print ("Error running " +:+ cmd_String (execPath x) l +:+ ":" +:+ nl +:+ "StdOut>" +:+ nl +:+ out +:+
                    nl +:+ "StdErr>" +:+ nl +:+ err +:+ nl)) ;;!
       ret (out, err, Some z)
   | ExOther m => FatalErr ("unable to execute " +:+ Quote (execPath x) +:+ ": " +:+ m)
   end)%go.

(** [write] is [ioutil.WriteFile]; a relative name is joined to the output
    directory. *)
(* src: test/extended/util/client.go 630-638 CLI.OutputToFile *)
Definition OutputToFile (output_dir : string) (write : string → string → go W (option error))
    (c : nat) (filename : string) : go world (string * option (ExitError + error)) :=
  (r <-! Output c ;;
   match r with
   | (_, Some e) => ret ("", Some (inl e))
   | (content, None) =>
       ns <-! Namespace c ;;
       let path := output_dir +:+ "/" +:+ ns +:+ "-" +:+ filename in
       e <-! on_server (write path content) ;;
       ret (path, inr <$> e)
   end)%go.

(** The output is copied to the writer of ginkgo. *)
(* src: test/extended/util/client.go 640-649 CLI.Execute *)
Definition Execute (c : nat) : go world (option ExitError) :=
  (r <-! Output c ;; modw (print (fst r +:+ nl)) ;;! ret (snd r))%go.

(** ** The operations of a test *)

Inductive cli_op :=
| ORun (c : nat) (commands : list string)
| OArgs (c : nat) (args : list string)
| OTemplate (c : nat) (t : string)
| OInputString (c : nat) (input : string)
| OOutput (c : nat)
| OOutputs (c : nat)
| OExecute (c : nat)
| OAsAdmin (c : nat)
| OWithoutNamespace (c : nat)
| OSetNamespace (c : nat) (ns : string)
| ONotShowInfo (c : nat)
| OVerbose (c : nat).

Definition void {A} (m : go world A) : go world unit := (m ;;! ret tt)%go.

Definition run_op (o : cli_op) : go world unit :=
  match o with
  | ORun c l => void (Run c l)
  | OArgs c l => void (Args c l)
  | OTemplate c t => void (Template c t)
  | OInputString c i => void (InputString c i)
  | OOutput c => void (Output c)
  | OOutputs c => void (Outputs c)
  | OExecute c => void (Execute c)
  | OAsAdmin c => void (AsAdmin c)
  | OWithoutNamespace c => void (WithoutNamespace c)
  | OSetNamespace c ns => void (SetNamespace c ns)
  | ONotShowInfo c => void (NotShowInfo c)
  | OVerbose c => void (Verbose c)
  end.

(** The arguments as values: those of [Run], those of [Args], the command
    line. *)
Definition arg_view : Type := list string * list string * list string.

Definition view_of (w : world) (x : CLI) : arg_view :=
  (elems (arg_arrays w) (globalArgs x), elems (arg_arrays w) (commandArgs x),
   elems (arg_arrays w) (finalArgs x)).

Definition template_args (t : string) : list string := ["--output=template"; "--template=" +:+ t].

(** What an operation means for the arguments of the client [d]. *)
Definition op_effect (d : nat) (o : cli_op) (v : arg_view) : arg_view :=
  let '(g, ca, fa) := v in
  match o with
  | OArgs c l => if Nat.eqb c d then (g, l, g ++ l) else v
  | OTemplate c t => if Nat.eqb c d then (g, ca, g ++ ca ++ template_args t) else v
  | _ => v
  end.

(** ** Who owns which array *)

Definition owned (x : CLI) : list nat :=
  omap array_of [globalArgs x; commandArgs x; finalArgs x].

Definition cli_ok (h : list (list string)) (x : CLI) : Prop :=
  slice_ok h (globalArgs x) ∧ slice_ok h (commandArgs x) ∧ slice_ok h (finalArgs x) ∧
  ∀ a, array_of (globalArgs x) = Some a → array_of (commandArgs x) ≠ Some a.

Record args_inv (w : world) : Prop := {
  ai_ok : ∀ c x, clis w !! c = Some x → cli_ok (arg_arrays w) x;
  ai_separate : ∀ c d x y a, c ≠ d → clis w !! c = Some x → clis w !! d = Some y →
    a ∈ owned x → a ∉ owned y
}.

(** Only the base clients are copied. *)
Definition op_allowed (w : world) (o : cli_op) : Prop :=
  match o with
  | OAsAdmin c | OWithoutNamespace c => ∀ x, clis w !! c = Some x → owned x = []
  | _ => True
  end.

Lemma elem_of_owned x a :
  a ∈ owned x ↔ array_of (globalArgs x) = Some a ∨ array_of (commandArgs x) = Some a ∨
                array_of (finalArgs x) = Some a.
Proof.
  unfold owned. rewrite list_elem_of_omap. split.
  - intros (s & Hs & Ha). rewrite !elem_of_cons, elem_of_nil in Hs. naive_solver.
  - intros [H|[H|H]]; eexists; (split; [|exact H]); rewrite !elem_of_cons; tauto.
Qed.

Lemma owned_lt h x a : cli_ok h x → a ∈ owned x → a < length h.
Proof.
  intros (H1 & H2 & H3 & _) Ha%elem_of_owned.
  assert (∀ s, slice_ok h s → array_of s = Some a → a < length h) as H.
  { intros [[b n]|] Hs [= ->]. destruct Hs as (arr & ?%lookup_lt_Some & _). done. }
  naive_solver.
Qed.

(** The arrays that are not in [l] are untouched. *)
Definition keeps_arrays (l : list nat) (h h' : list (list string)) : Prop :=
  length h ≤ length h' ∧ ∀ a arr, h !! a = Some arr → a ∉ l → h' !! a = Some arr.

Lemma keeps_arrays_slice l h h' s :
  keeps_arrays l h h' → slice_ok h s → (∀ a, array_of s = Some a → a ∉ l) →
  elems h' s = elems h s ∧ slice_ok h' s.
Proof.
  intros [_ H] Hs Ha. destruct s as [[a n]|]; [|done]. destruct Hs as (arr & Harr & Hn).
  pose proof (H a arr Harr (Ha a eq_refl)) as Harr'. cbn.
  rewrite (arr_at_Some _ _ _ Harr), (arr_at_Some _ _ _ Harr'). split; [done|by exists arr].
Qed.

Lemma keeps_arrays_cli l h h' x :
  keeps_arrays l h h' → cli_ok h x → (∀ a, a ∈ owned x → a ∉ l) →
  cli_ok h' x ∧ ∀ w w', arg_arrays w = h → arg_arrays w' = h' → view_of w' x = view_of w x.
Proof.
  intros Hk (H1 & H2 & H3 & H4) Ho. setoid_rewrite elem_of_owned in Ho.
  destruct (keeps_arrays_slice l h h' (globalArgs x) Hk H1) as [E1 ?]; [naive_solver|].
  destruct (keeps_arrays_slice l h h' (commandArgs x) Hk H2) as [E2 ?]; [naive_solver|].
  destruct (keeps_arrays_slice l h h' (finalArgs x) Hk H3) as [E3 ?]; [naive_solver|].
  split; [by split_and!|]. intros w w' <- <-. unfold view_of. by rewrite E1, E2, E3.
Qed.

(** A client is changed in place. *)
Lemma args_inv_update w w' c x x' :
  args_inv w → clis w !! c = Some x → clis w' = <[c := x']> (clis w) →
  keeps_arrays (owned x) (arg_arrays w) (arg_arrays w') → cli_ok (arg_arrays w') x' →
  (∀ a, a ∈ owned x' → ∀ d y, d ≠ c → clis w !! d = Some y → a ∉ owned y) →
  args_inv w' ∧
  ∀ d y, d ≠ c → clis w !! d = Some y → clis w' !! d = Some y ∧ view_of w' y = view_of w y.
Proof.
  intros [Hok Hsep] Hc Hcl Hk Hx' Hown.
  assert (∀ d y, d ≠ c → clis w !! d = Some y →
    cli_ok (arg_arrays w') y ∧ view_of w' y = view_of w y) as Hother.
  { intros d y Hd Hy. destruct (keeps_arrays_cli _ _ _ y Hk (Hok d y Hy)) as [? Hv].
    - intros a Ha. by apply (Hsep d c y x a).
    - split; [done|by apply Hv]. }
  assert (∀ d y, clis w' !! d = Some y → (d = c ∧ y = x') ∨ (d ≠ c ∧ clis w !! d = Some y)) as Hcases.
  { intros d y. rewrite Hcl, list_lookup_insert. case_decide as Hdec.
    - destruct Hdec as [-> _]. intros [= <-]. by left.
    - intros Hy. right. split; [|done]. intros ->. apply Hdec. split; [done|by eapply lookup_lt_Some]. }
  split; [split|].
  - intros d y [[-> ->]|[Hd Hy]]%Hcases; [done|by apply (Hother d)].
  - intros d e y z a Hde [[-> ->]|[Hd Hy]]%Hcases [[-> ->]|[He Hz]]%Hcases Ha Ha'; [done|..].
    + by apply (Hown a Ha e z).
    + by apply (Hown a Ha' d y).
    + by apply (Hsep d e y z a).
  - intros d y Hd Hy. rewrite Hcl, list_lookup_insert_ne by done. split; [done|by apply (Hother d)].
Qed.

(** A client is added. *)
Lemma args_inv_add w w' x' :
  args_inv w → clis w' = clis w ++ [x'] →
  keeps_arrays [] (arg_arrays w) (arg_arrays w') → cli_ok (arg_arrays w') x' →
  (∀ a, a ∈ owned x' → length (arg_arrays w) ≤ a) →
  args_inv w' ∧
  ∀ d y, clis w !! d = Some y → clis w' !! d = Some y ∧ view_of w' y = view_of w y.
Proof.
  intros [Hok Hsep] Hcl Hk Hx' Hown.
  assert (∀ d y, clis w !! d = Some y →
    cli_ok (arg_arrays w') y ∧ view_of w' y = view_of w y) as Hother.
  { intros d y Hy. destruct (keeps_arrays_cli _ _ _ y Hk (Hok d y Hy)) as [? Hv].
    - intros a Ha. apply not_elem_of_nil.
    - split; [done|by apply Hv]. }
  assert (∀ d y a, clis w !! d = Some y → a ∈ owned x' → a ∉ owned y) as Hx.
  { intros d y a Hy Ha%Hown Hay. pose proof (owned_lt _ _ _ (Hok d y Hy) Hay). lia. }
  split; [split|].
  - intros d y. rewrite Hcl. intros [[_ Hy]|[_ <-]]%lookup_snoc_Some; [by apply (Hother d)|done].
  - intros d e y z a Hde. rewrite Hcl.
    intros [[_ Hy]|[-> <-]]%lookup_snoc_Some [[_ Hz]|[-> <-]]%lookup_snoc_Some Ha Ha'; [..|done].
    + by apply (Hsep d e y z a).
    + by apply (Hx d y a).
    + by apply (Hx e z a).
  - intros d y Hy. rewrite Hcl. split; [by apply lookup_app_l_Some|by apply (Hother d)].
Qed.

(** The arrays and the slices stay. *)
Lemma args_inv_same w w' :
  arg_arrays w' = arg_arrays w →
  (∀ d, (λ x, (globalArgs x, commandArgs x, finalArgs x)) <$> clis w' !! d =
        (λ x, (globalArgs x, commandArgs x, finalArgs x)) <$> clis w !! d) →
  args_inv w →
  args_inv w' ∧ ∀ d y, clis w !! d = Some y →
    ∃ y', clis w' !! d = Some y' ∧ view_of w' y' = view_of w y.
Proof.
  intros Ha Hs [Hok Hsep].
  assert (∀ d x, clis w' !! d = Some x → ∃ y, clis w !! d = Some y ∧ globalArgs x = globalArgs y ∧
    commandArgs x = commandArgs y ∧ finalArgs x = finalArgs y) as Hback.
  { intros d x Hx. specialize (Hs d). rewrite Hx in Hs. destruct (clis w !! d) as [y|]; [|done].
    cbn in Hs. injection Hs as H1 H2 H3. eauto. }
  assert (∀ x y, globalArgs x = globalArgs y → commandArgs x = commandArgs y →
    finalArgs x = finalArgs y → owned x = owned y) as Hown.
  { intros x y H1 H2 H3. unfold owned. by rewrite H1, H2, H3. }
  split; [split|].
  - intros c x Hx. destruct (Hback c x Hx) as (y & Hy & H1 & H2 & H3). unfold cli_ok.
    rewrite Ha, H1, H2, H3. by apply (Hok c y).
  - intros c d x y a Hcd Hx Hy. destruct (Hback c x Hx) as (x0 & Hx0 & ? & ? & ?),
      (Hback d y Hy) as (y0 & Hy0 & ? & ? & ?).
    rewrite (Hown x x0), (Hown y y0) by done. by apply (Hsep c d).
  - intros d y Hy. specialize (Hs d). rewrite Hy in Hs. destruct (clis w' !! d) as [x|]; [|done].
    cbn in Hs. injection Hs as H1 H2 H3. exists x. split; [done|]. unfold view_of.
    by rewrite Ha, H1, H2, H3.
Qed.

Lemma grows_keeps l (g : slice) h h' :
  grows g h h' → (∀ a, array_of g = Some a → a ∈ l) → keeps_arrays l h h'.
Proof.
  intros [Hl H] Hg. split; [done|]. intros a arr Ha Hn.
  destruct (H a arr Ha) as (arr' & Ha' & _ & He & _). rewrite Ha', He; [done|]. by intros E%Hg.
Qed.

Lemma keeps_arrays_trans l h1 h2 h3 :
  keeps_arrays l h1 h2 → keeps_arrays l h2 h3 → keeps_arrays l h1 h3.
Proof. intros [? H1] [? H2]. split; [lia|]. intros a arr Ha Hn. apply H2; auto. Qed.

Lemma keeps_arrays_new l h arr : keeps_arrays l h (h ++ [arr]).
Proof. split; [rewrite length_app; lia|]. intros a b Hb _. by apply lookup_app_l_Some. Qed.

Lemma array_lt (h : list (list string)) (s : slice) a : slice_ok h s → array_of s = Some a → a < length h.
Proof. destruct s as [[b n]|]; [|done]. intros (arr & ?%lookup_lt_Some & _) [= ->]. done. Qed.

(** The command line is set to the global arguments followed by [l], where the
    arguments [ca] are in an array apart from the global ones. *)
Lemma set_final_args w c x ca l :
  args_inv w → clis w !! c = Some x →
  slice_ok (arg_arrays w) ca → (∀ a, array_of (globalArgs x) = Some a → array_of ca ≠ Some a) →
  ∃ fa h, args_append (globalArgs x) l w = (Ret fa, set_args h w) ∧
    keeps_arrays (owned x) (arg_arrays w) h ∧ cli_ok h (with_args ca fa x) ∧
    elems h (globalArgs x) = elems (arg_arrays w) (globalArgs x) ∧
    elems h ca = elems (arg_arrays w) ca ∧
    elems h fa = elems (arg_arrays w) (globalArgs x) ++ l ∧
    (array_of fa = array_of (globalArgs x) ∨ array_of fa = Some (length (arg_arrays w))).
Proof.
  intros Hinv Hc Hca Hne. destruct (ai_ok _ Hinv c x Hc) as (Hg & _ & _ & _).
  unfold args_append. destruct (append _ spare (globalArgs x) l (arg_arrays w)) as [fa h] eqn:Ea.
  destruct (append_spec _ _ _ _ _ _ _ Ea Hg) as (He & Hok & Hgr & Harr & _).
  exists fa, h. split; [done|].
  destruct (grows_elems _ (globalArgs x) _ _ Hgr Hg) as [Eg Hg']; [by right|].
  destruct (grows_elems _ ca _ _ Hgr Hca) as [Ec Hc'].
  { destruct (array_of ca) as [a|] eqn:E1, (array_of (globalArgs x)) as [b|] eqn:E2; try (by left).
    - left. specialize (Hne b eq_refl). congruence.
    - right. destruct ca as [[]|]; [done|cbn; lia]. }
  split; [|split_and!; try done].
  eapply grows_keeps; [done|]. intros a Ha. apply elem_of_owned. by left.
Qed.

(** What an operation on the client [c] leaves. *)
Definition op_result (w : world) (c : nat) (v : arg_view) (w' : world) : Prop :=
  args_inv w' ∧ (∃ x', clis w' !! c = Some x' ∧ view_of w' x' = v) ∧
  ∀ d y, d ≠ c → clis w !! d = Some y → ∃ y', clis w' !! d = Some y' ∧ view_of w' y' = view_of w y.

Lemma literal_step w c x (l : list string) :
  args_inv w → clis w !! c = Some x →
  let w1 := set_args (arg_arrays w ++ [l]) w in
  let s := Some (length (arg_arrays w), length l) in
  args_inv w1 ∧ clis w1 = clis w ∧ slice_ok (arg_arrays w1) s ∧ elems (arg_arrays w1) s = l ∧
  (∀ d y, clis w !! d = Some y → view_of w1 y = view_of w y) ∧
  ∀ a, array_of (globalArgs x) = Some a → array_of s ≠ Some a.
Proof.
  intros Hinv Hc w1 s.
  assert (∀ d y, clis w !! d = Some y → cli_ok (arg_arrays w1) y ∧ view_of w1 y = view_of w y) as H.
  { intros d y Hy. destruct (keeps_arrays_cli [] (arg_arrays w) (arg_arrays w1) y) as [? Hv];
      [apply keeps_arrays_new|by apply (ai_ok _ Hinv d)|intros; apply not_elem_of_nil|].
    split; [done|by apply Hv]. }
  destruct (literal_spec l (arg_arrays w) s _ eq_refl) as (He & Hok & _ & _).
  split; [split; [by intros d y Hy; apply (H d)|apply Hinv]|]. split_and!; try done.
  - intros d y Hy. by apply (H d).
  - intros a Ha Hs. cbn in Hs. injection Hs as <-.
    destruct (ai_ok _ Hinv c x Hc) as (Hg & _). pose proof (array_lt _ _ _ Hg Ha). lia.
Qed.

Lemma view_global w w' x :
  view_of w' x = view_of w x → elems (arg_arrays w') (globalArgs x) = elems (arg_arrays w) (globalArgs x).
Proof. intros H. exact (f_equal (λ v : arg_view, v.1.1) H). Qed.

Lemma get_cli_Some w c x : clis w !! c = Some x → get_cli c w = (Ret x, w).
Proof. unfold get_cli. by intros ->. Qed.

(** [Args] and [Template] once the slice of the arguments is known. *)
Lemma set_final_step w c x ca l fa0 :
  args_inv w → clis w !! c = Some x →
  slice_ok (arg_arrays w) ca → (∀ a, array_of (globalArgs x) = Some a → array_of ca ≠ Some a) →
  (∀ a, array_of ca = Some a → a ∈ owned x ∨ ∀ d y, clis w !! d = Some y → a ∉ owned y) →
  l = fa0 →
  ∃ w', (fa <-! args_append (globalArgs x) l ;; put_cli c (with_args ca fa x) ;;! ret c)%go w =
          (Ret c, w') ∧
    op_result w c (elems (arg_arrays w) (globalArgs x), elems (arg_arrays w) ca,
                   elems (arg_arrays w) (globalArgs x) ++ fa0) w'.
Proof.
  intros Hinv Hc Hca Hne Hown ->.
  destruct (set_final_args w c x ca fa0 Hinv Hc Hca Hne) as (fa & h & Ha & Hk & Hx & Eg & Ec & Ef & Hfa).
  unfold gobind at 1. rewrite Ha. eexists. split; [reflexivity|].
  assert (∀ a, a ∈ owned (with_args ca fa x) → ∀ d y, d ≠ c → clis w !! d = Some y → a ∉ owned y) as Hsep.
  { intros a [Hg|[Hc'|Hf]]%elem_of_owned d y Hd Hy;
      cbn [with_args globalArgs commandArgs finalArgs] in *.
    - apply (ai_separate _ Hinv c d x y a); [done..|]. apply elem_of_owned. by left.
    - destruct (Hown a Hc') as [Ho|Ho]; [|by apply (Ho d)]. by apply (ai_separate _ Hinv c d x y a).
    - destruct Hfa as [E|E].
      + apply (ai_separate _ Hinv c d x y a); [done..|]. apply elem_of_owned. left. congruence.
      + assert (a = length (arg_arrays w)) as -> by congruence.
        intros Hay. pose proof (owned_lt _ _ _ (ai_ok _ Hinv d y Hy) Hay). lia. }
  match goal with |- op_result _ _ _ ?u => set (w' := u) end.
  assert (clis w' = <[c := with_args ca fa x]> (clis w)) as Hcl by done.
  destruct (args_inv_update w w' c x (with_args ca fa x) Hinv Hc Hcl Hk Hx Hsep) as [Hinv' Ho].
  split; [done|]. split.
  - exists (with_args ca fa x). split.
    + rewrite Hcl. apply list_lookup_insert_eq. by eapply lookup_lt_Some.
    + unfold view_of. cbn. by rewrite Eg, Ec, Ef.
  - intros d y Hd Hy. destruct (Ho d y Hd Hy). eauto.
Qed.

Lemma Args_step w c x l :
  args_inv w → clis w !! c = Some x →
  ∃ w', Args c l w = (Ret c, w') ∧
    op_result w c (elems (arg_arrays w) (globalArgs x), l, elems (arg_arrays w) (globalArgs x) ++ l) w'.
Proof.
  intros Hinv Hc. unfold Args, Args_slice. destruct l as [|a l].
  - rewrite gobind_ret. unfold gobind at 1. rewrite (get_cli_Some _ _ _ Hc).
    unfold args_read. unfold gobind at 1. cbn [elems].
    destruct (set_final_step w c x None [] [] Hinv Hc) as (w' & E & H); try done. by exists w'.
  - generalize (a :: l). clear a l. intros l.
    destruct (literal_step w c x l Hinv Hc) as (Hinv1 & Hcl & Hs & He & Hv & Hne).
    set (w1 := set_args _ w) in *. set (s := Some (length (arg_arrays w), length l)) in *.
    unfold gobind at 1. change (args_literal l w) with (Ret (A := slice) s, w1). cbn beta match.
    assert (clis w1 !! c = Some x) as Hc1 by by rewrite Hcl.
    unfold gobind at 1. rewrite (get_cli_Some _ _ _ Hc1).
    unfold args_read. unfold gobind at 1. rewrite He.
    destruct (set_final_step w1 c x s l l Hinv1 Hc1 Hs Hne) as (w' & E & Hi & Hx & Ho); [|done|].
    { intros b [= <-]. right. intros d y Hy Hb.
      pose proof (owned_lt _ _ _ (ai_ok _ Hinv d y Hy) Hb). lia. }
    exists w'. split; [done|]. split; [done|]. pose proof (view_global _ _ x (Hv c x Hc)) as Hg. rewrite He, Hg in Hx. split; [done|].
    intros d y Hd Hy. destruct (Ho d y Hd) as (y' & Hy' & Hvy); [by rewrite Hcl|].
    exists y'. split; [done|]. by rewrite Hvy, (Hv d y Hy).
Qed.

Lemma grows_ok (s t : slice) (h h' : list (list string)) :
  grows s h h' → slice_ok h t → slice_ok h' t.
Proof.
  intros [_ Hg]. destruct t as [[a n]|]; [|done]. intros (arr & Ha & Hn).
  destruct (Hg a arr Ha) as (arr' & Ha' & Hl & _). exists arr'. split; [done|lia].
Qed.

Lemma Template_step w c x t :
  args_inv w → clis w !! c = Some x → verb x = "get"%string →
  ∃ w', Template c t w = (Ret c, w') ∧
    op_result w c (elems (arg_arrays w) (globalArgs x), elems (arg_arrays w) (commandArgs x),
      elems (arg_arrays w) (globalArgs x) ++ elems (arg_arrays w) (commandArgs x) ++ template_args t) w'.
Proof.
  intros Hinv Hc Hv. destruct (ai_ok _ Hinv c x Hc) as (Hg & Hca & Hfa & Hne).
  unfold Template. unfold gobind at 1. rewrite (get_cli_Some _ _ _ Hc), Hv. cbn [negb String.eqb Ascii.eqb Bool.eqb].
  unfold gobind at 1. unfold args_append at 1.
  destruct (append _ spare (commandArgs x) _ (arg_arrays w)) as [ca h] eqn:Ea.
  destruct (append_spec _ _ _ _ _ _ _ Ea Hca) as (He & Hok & Hgr & Harr & _).
  unfold args_read. unfold gobind at 1. set (w1 := set_args h w).
  change (elems (arg_arrays w1) ca) with (elems h ca). rewrite He.
  assert (keeps_arrays (owned x) (arg_arrays w) (arg_arrays w1)) as Hk.
  { eapply grows_keeps; [exact Hgr|]. intros a Ha. apply elem_of_owned. by right; left. }
  destruct (args_inv_update w w1 c x x Hinv Hc) as [Hinv1 Ho].
  { by rewrite list_insert_id. }
  { done. }
  { split_and!; try done; by eapply grows_ok. }
  { intros a Ha d y Hd Hy. by apply (ai_separate _ Hinv c d x y a). }
  destruct (grows_elems _ (commandArgs x) _ _ Hgr Hca) as [Ec Hc1]; [by right|].
  destruct (grows_elems _ (globalArgs x) _ _ Hgr Hg) as [Eg Hg1].
  { destruct (array_of (globalArgs x)) as [b|] eqn:E2.
    - left. intros E. by apply (Hne b).
    - right. destruct (globalArgs x) as [[]|]; [done|cbn; lia]. }
  destruct (set_final_step w1 c x (commandArgs x) (elems (arg_arrays w) (commandArgs x) ++ template_args t)
              (elems (arg_arrays w) (commandArgs x) ++ template_args t) Hinv1 Hc Hc1 Hne)
    as (w' & E & Hi & Hx & Hrest); [|done|].
  { intros a Ha. left. apply elem_of_owned. by right; left. }
  exists w'. split; [exact E|]. split; [done|].
  change (arg_arrays w1) with h in Hx. rewrite Eg, Ec in Hx. split; [done|].
  intros d y Hd Hy. destruct (Hrest d y Hd Hy) as (y' & Hy' & Hvy).
  exists y'. split; [done|]. rewrite Hvy. by apply (Ho d y Hd Hy).
Qed.

Lemma Namespace_Ret c w w' ns : Namespace c w = (Ret ns, w') → w' = w.
Proof.
  unfold Namespace, gobind, get_cli, get_framework, ret. intros H. repeat destr_match; by simplify_eq.
Qed.

Lemma Namespace_ext c w w' :
  clis w = clis w' → frameworks w = frameworks w' → fst (Namespace c w) = fst (Namespace c w').
Proof.
  intros Hc Hf. unfold Namespace, gobind, get_cli, get_framework, ret. rewrite <- Hc.
  destruct (clis w !! c); [|done]. rewrite <- Hf. by destruct (frameworks w !! _).
Qed.

(** A literal and an [append] to it. *)
Lemma fresh_args w xs ys :
  ∃ s0 h0 s h, args_literal xs w = (Ret s0, set_args h0 w) ∧
    args_append s0 ys (set_args h0 w) = (Ret s, set_args h (set_args h0 w)) ∧
    elems h s = xs ++ ys ∧ slice_ok h s ∧
    (∀ a, array_of s = Some a → length (arg_arrays w) ≤ a) ∧ keeps_arrays [] (arg_arrays w) h ∧
    h0 = arg_arrays w ++ [xs].
Proof.
  unfold args_literal, args_append.
  destruct (literal xs (arg_arrays w)) as [s0 h0] eqn:El. exists s0, h0.
  destruct (literal_spec _ _ _ _ El) as (He0 & Hok0 & Ha0 & ->).
  cbn [set_args arg_arrays].
  destruct (append _ spare s0 ys _) as [s h] eqn:Ea. exists s, h.
  destruct (append_spec _ _ _ _ _ _ _ Ea Hok0) as (He & Hok & Hgr & Harr & _).
  rewrite He0 in He. split_and!; try done.
  - intros a Ha. rewrite Ha in Harr. destruct Harr as [E|E]; [rewrite Ha0 in E|]; injection E as ->;
      rewrite ?length_app; lia.
  - destruct Hgr as [Hl Hgr]. rewrite length_app in Hl. split; [lia|]. intros a arr Ha' _.
    destruct (Hgr a arr) as (arr' & Hlook & _ & Hsame & _); [by apply lookup_app_l_Some|].
    rewrite Hlook, Hsame; [done|]. rewrite Ha0. intros [= <-]. apply lookup_lt_Some in Ha'. lia.
Qed.

Lemma lookup_snoc_new {A} (l : list A) x : (l ++ [x]) !! length l = Some x.
Proof. by apply list_lookup_middle. Qed.

Lemma Run_add w w' x' :
  args_inv w → clis w' = clis w ++ [x'] → keeps_arrays [] (arg_arrays w) (arg_arrays w') →
  slice_ok (arg_arrays w') (globalArgs x') → commandArgs x' = None → finalArgs x' = None →
  (∀ a, array_of (globalArgs x') = Some a → length (arg_arrays w) ≤ a) →
  args_inv w' ∧
  ∀ d y, clis w !! d = Some y → clis w' !! d = Some y ∧ view_of w' y = view_of w y.
Proof.
  intros Hinv Hcl Hk Hg Hca Hfa Ha. apply (args_inv_add w w' x'); try done.
  - unfold cli_ok. by rewrite Hca, Hfa.
  - intros a Hx%elem_of_owned. rewrite Hca, Hfa in Hx. naive_solver.
Qed.

(** [Run] makes a new client, whose arrays are its own. *)
Lemma Run_step w c x commands w' p :
  args_inv w → clis w !! c = Some x → Run c commands w = (Ret p, w') →
  p = length (clis w) ∧ args_inv w' ∧
  (∃ x' ns, clis w' !! p = Some x' ∧
     (withoutNamespace x = false → fst (Namespace c w) = Ret ns) ∧
     view_of w' x' =
       ((if withoutNamespace x then [] else ["--namespace=" +:+ ns]) ++
        ["--kubeconfig=" +:+ configPath x] ++ commands, [], []) ∧
     Some (verb x') = head commands ∧ withoutNamespace x' = false) ∧
  ∀ d y, clis w !! d = Some y → clis w' !! d = Some y ∧ view_of w' y = view_of w y.
Proof.
  intros Hinv Hc Hrun. unfold Run in Hrun. unfold gobind at 1 in Hrun.
  rewrite (get_cli_Some _ _ _ Hc) in Hrun. unfold gobind at 1 in Hrun. unfold new_buffer at 1 in Hrun.
  set (w0 := set_buffers _ w) in Hrun.
  destruct (fresh_args w0 ["--kubeconfig=" +:+ configPath x] commands) as (s0 & h0 & g & h & El & Ea & Hg & Hok & Harr & Hk & _).
  destruct commands as [|v commands]; [done|].
  unfold gobind at 1 in Hrun. rewrite El in Hrun. unfold gobind at 1 in Hrun. rewrite Ea in Hrun.
  set (w1 := set_args h w0) in Hrun.
  destruct (withoutNamespace x) eqn:Ens.
  - rewrite gobind_ret in Hrun. unfold new_cli in Hrun. injection Hrun as <- <-. split; [done|].
    match goal with |- args_inv ?u ∧ _ => set (w' := u) end.
    destruct (Run_add w w' _ Hinv eq_refl Hk Hok eq_refl eq_refl Harr) as [Hinv' Ho].
    split; [done|]. split; [|done]. eexists _, ""%string. split; [apply lookup_snoc_new|].
    split; [done|]. split; [|done]. unfold view_of. cbn -[elems]. change (arg_arrays w') with h. by rewrite Hg.
  - apply gobind_Ret_inv in Hrun as (g2 & w4 & Hrun & Hnew).
    apply gobind_Ret_inv in Hrun as (ns & w2 & En & Hrun).
    apply Namespace_Ret in En as Hw2. subst w2.
    change (set_args h (set_args h0 w0)) with w1 in *.
    destruct (fresh_args w1 ["--namespace=" +:+ ns] (elems h g))
      as (s1 & h1 & g2' & h2 & El2 & Ea2 & Hg2 & Hok2 & Harr2 & Hk2 & Hh1).
    apply gobind_Ret_inv in Hrun as (n & w5 & En2 & Hrun). rewrite El2 in En2. injection En2 as <- <-.
    apply gobind_Ret_inv in Hrun as (l & w6 & El3 & Hrun). unfold args_read in El3.
    injection El3 as <- <-. change (arg_arrays (set_args h1 w1)) with h1 in Hrun.
    destruct (keeps_arrays_slice [] h h1 g) as [Eg _];
      [rewrite Hh1; apply keeps_arrays_new|done|intros; apply not_elem_of_nil|].
    rewrite Eg, Ea2 in Hrun. injection Hrun as <- <-.
    unfold new_cli in Hnew. injection Hnew as <- <-. split; [done|].
    match goal with |- args_inv ?u ∧ _ => set (w' := u) end.
    assert (keeps_arrays [] (arg_arrays w) (arg_arrays w')) as Hk'
      by (eapply keeps_arrays_trans; [exact Hk|exact Hk2]).
    destruct (Run_add w w' _ Hinv eq_refl Hk' Hok2 eq_refl eq_refl) as [Hinv' Ho].
    { intros a Ha%Harr2. destruct Hk as [Hl _]. change (length h ≤ a) in Ha.
      change (length (arg_arrays w) ≤ length h) in Hl. lia. }
    split; [done|]. split; [|done]. eexists _, ns. split; [apply lookup_snoc_new|].
    split; [intros _; by rewrite (Namespace_ext c w w1), En|]. split; [|done].
    unfold view_of. cbn -[elems]. change (arg_arrays w') with h2. by rewrite Hg2, Hg.
Qed.

(** ** The operations that leave the arguments alone *)

Definition slices_of (x : CLI) : slice * slice * slice := (globalArgs x, commandArgs x, finalArgs x).

Definition quiet (w0 w : world) : Prop :=
  arg_arrays w = arg_arrays w0 ∧ ∀ d, slices_of <$> clis w !! d = slices_of <$> clis w0 !! d.

Lemma quiet_refl w : quiet w w.
Proof. done. Qed.

Lemma quiet_view w0 w :
  args_inv w0 → quiet w0 w →
  args_inv w ∧ ∀ d x, clis w0 !! d = Some x →
    ∃ x', clis w !! d = Some x' ∧ view_of w x' = view_of w0 x.
Proof. intros Hinv [Ha Hs]. by apply args_inv_same. Qed.

Lemma keeps_get_cli w0 {A} c (k : CLI → go world A) :
  (∀ x, slices_of <$> clis w0 !! c = Some (slices_of x) → keeps (quiet w0) (k x)) →
  keeps (quiet w0) (gobind (get_cli c) k).
Proof.
  intros Hk w Hw. unfold gobind, get_cli. destruct (clis w !! c) as [x|] eqn:Hx; [|done].
  apply Hk; [|done]. destruct Hw as [_ Hs]. by rewrite <- Hs, Hx.
Qed.

Lemma keeps_put_cli w0 c x :
  slices_of <$> clis w0 !! c = Some (slices_of x) → keeps (quiet w0) (put_cli c x).
Proof.
  intros Hx w [Ha Hs]. split; [done|]. intros d. cbn. rewrite list_lookup_insert.
  case_decide as Hd; [|apply Hs]. destruct Hd as [-> _]. cbn. by rewrite Hx.
Qed.

Lemma keeps_quiet_mod w0 (f : world → world) :
  (∀ w, arg_arrays (f w) = arg_arrays w) → (∀ w, clis (f w) = clis w) →
  keeps (quiet w0) (modw f).
Proof. intros H1 H2 w [Ha Hs]. split; cbn; [by rewrite H1|]. intros d. rewrite H2. apply Hs. Qed.

Lemma keeps_quiet_read w0 s : keeps (quiet w0) (args_read s).
Proof. by intros w Hw. Qed.
Lemma keeps_quiet_framework w0 f : keeps (quiet w0) (get_framework f).
Proof. intros w Hw. unfold get_framework. by destruct (frameworks w !! f). Qed.
Lemma keeps_quiet_server w0 {A} (m : go W A) : keeps (quiet w0) (on_server m).
Proof. intros w Hw. unfold on_server. by destruct (m (server w)). Qed.

Lemma keeps_quiet_panic w0 {A} m : keeps (quiet w0) (gopanic (A := A) m).
Proof. by intros w Hw. Qed.

Hint Resolve keeps_get_cli keeps_put_cli keeps_quiet_mod keeps_quiet_read keeps_quiet_framework
  keeps_quiet_server keeps_quiet_panic : ott.

Ltac quietly :=
  repeat first
    [ progress cbv zeta
    | apply keeps_get_cli; intros ? ?
    | apply keeps_bind; [|intros ?]
    | match goal with
      | |- keeps _ (if ?b then _ else _) => destruct b
      | |- keeps _ (match ?b with _ => _ end) => destruct b
      end
    | by auto with ott ].

Lemma run_process_quiet w0 x : keeps (quiet w0) (run_process x).
Proof. unfold run_process. quietly. Qed.
Lemma debug_quiet w0 c : keeps (quiet w0) (debug c).
Proof. unfold debug, printCmd, final_args. quietly. Qed.
Hint Resolve run_process_quiet debug_quiet : ott.

Lemma Output_quiet w0 c : keeps (quiet w0) (Output c).
Proof. unfold Output, final_args, FatalErr. quietly. Qed.
Lemma Outputs_quiet w0 c : keeps (quiet w0) (Outputs c).
Proof. unfold Outputs, final_args, FatalErr. quietly. Qed.
Hint Resolve Output_quiet Outputs_quiet : ott.

Lemma other_ops_quiet w0 o :
  match o with
  | ORun _ _ | OArgs _ _ | OTemplate _ _ | OAsAdmin _ | OWithoutNamespace _ => True
  | _ => keeps (quiet w0) (run_op o)
  end.
Proof.
  destruct o; try done; cbn; unfold void, InputString, Execute, SetNamespace, NotShowInfo, Verbose; quietly.
Qed.

(** A copy of a client without arguments. *)
Lemma copy_step w x' :
  args_inv w → owned x' = [] →
  let w' := set_clis (clis w ++ [x']) w in
  args_inv w' ∧ ∀ d y, clis w !! d = Some y → clis w' !! d = Some y ∧ view_of w' y = view_of w y.
Proof.
  intros Hinv Ho w'.
  assert (∀ a, ¬ (array_of (globalArgs x') = Some a ∨ array_of (commandArgs x') = Some a ∨
                  array_of (finalArgs x') = Some a)) as Hno.
  { intros a Ha%elem_of_owned. rewrite Ho in Ha. by apply not_elem_of_nil in Ha. }
  assert (∀ s : slice, (∀ a, array_of s ≠ Some a) → s = None) as Hnil.
  { intros [[a n]|] Hs; [by destruct (Hs a)|done]. }
  apply (args_inv_add w w' x'); try done.
  - unfold cli_ok. rewrite (Hnil (globalArgs x')), (Hnil (commandArgs x')), (Hnil (finalArgs x'));
      [done|intros a Ha; apply (Hno a); tauto..].
  - intros a Ha. rewrite Ho in Ha. by apply not_elem_of_nil in Ha.
Qed.

(** ** The arguments as values *)

Lemma void_Ret {A} (m : go world A) w w' :
  void m w = (Ret tt, w') → ∃ a, m w = (Ret a, w').
Proof. intros (a & w1 & H & E)%gobind_Ret_inv. unfold ret in E. simplify_eq. eauto. Qed.

Lemma op_result_view w c x v w' :
  clis w !! c = Some x → op_result w c v w' →
  ∀ d y, clis w !! d = Some y → ∃ y', clis w' !! d = Some y' ∧
    view_of w' y' = if Nat.eqb c d then v else view_of w y.
Proof.
  intros Hc (_ & Hx & Ho) d y Hy. destruct (Nat.eqb_spec c d) as [<-|Hne]; [done|].
  by apply Ho.
Qed.

Lemma run_op_view o w w' :
  args_inv w → op_allowed w o → run_op o w = (Ret tt, w') →
  args_inv w' ∧ ∀ d x, clis w !! d = Some x →
    ∃ x', clis w' !! d = Some x' ∧ view_of w' x' = op_effect d o (view_of w x).
Proof.
  intros Hinv Hall Hrun.
  assert (∀ d v, op_effect d o v = v ∨ (∃ c l, o = OArgs c l) ∨ ∃ c t, o = OTemplate c t) as Hsame.
  { intros d [[g ca] fa]. destruct o; try (by left); right; [left|right]; eauto. }
  assert (keeps (quiet w) (run_op o) → args_inv w' ∧ ∀ d x, clis w !! d = Some x →
    ∃ x', clis w' !! d = Some x' ∧ view_of w' x' = view_of w x) as Hquiet.
  { intros H. specialize (H w (quiet_refl w)). rewrite Hrun in H. by apply quiet_view. }
  assert (∀ (v : arg_view), v = (v.1.1, v.1.2, v.2)) as Heta by (by intros [[] ]).
  pose proof (other_ops_quiet w o) as Hother.
  destruct o as [c l|c l|c t|c i|c|c|c|c|c|c ns|c|c];
    try (destruct (Hquiet Hother) as [Hi Hv]; split; [done|]; intros d x Hx;
         rewrite (Heta (view_of w x)); by apply Hv); cbn [run_op] in Hrun; apply void_Ret in Hrun as [a Hrun].
  - destruct (clis w !! c) as [x|] eqn:Hc.
    + destruct (Run_step _ _ _ _ _ _ Hinv Hc Hrun) as (_ & Hi & _ & Hv). split; [done|].
      intros d y Hy. exists y. by apply Hv.
    + unfold Run, gobind, get_cli in Hrun. by rewrite Hc in Hrun.
  - destruct (clis w !! c) as [x|] eqn:Hc.
    + destruct (Args_step w c x l Hinv Hc) as (w1 & E & Hres). rewrite E in Hrun. injection Hrun as _ <-.
      split; [apply Hres|]. intros d y Hy.
      destruct (op_result_view _ _ _ _ _ Hc Hres d y Hy) as (y' & Hy' & Hv). exists y'.
      split; [done|]. rewrite Hv. cbn. by destruct (Nat.eqb_spec c d) as [<-|]; simplify_eq.
    + unfold Args, Args_slice in Hrun. apply gobind_Ret_inv in Hrun as (s & w1 & Hs & Hrun).
      assert (clis w1 = clis w) as Hcl by (destruct l; injection Hs as _ <-; done).
      unfold gobind at 1, get_cli in Hrun. by rewrite Hcl, Hc in Hrun.
  - destruct (clis w !! c) as [x|] eqn:Hc; [|by unfold Template, gobind, get_cli in Hrun; rewrite Hc in Hrun].
    destruct (String.eqb_spec (verb x) "get") as [Hverb|Hverb].
    + destruct (Template_step w c x t Hinv Hc Hverb) as (w1 & E & Hres). rewrite E in Hrun. injection Hrun as _ <-.
      split; [apply Hres|]. intros d y Hy.
      destruct (op_result_view _ _ _ _ _ Hc Hres d y Hy) as (y' & Hy' & Hv). exists y'.
      split; [done|]. rewrite Hv. cbn. by destruct (Nat.eqb_spec c d) as [<-|]; simplify_eq.
    + unfold Template, gobind at 1 in Hrun. rewrite (get_cli_Some _ _ _ Hc) in Hrun.
      apply String.eqb_neq in Hverb. by rewrite Hverb in Hrun.
  - destruct (clis w !! c) as [x|] eqn:Hc; [|by unfold AsAdmin, gobind, get_cli in Hrun; rewrite Hc in Hrun].
    unfold AsAdmin, gobind in Hrun. rewrite (get_cli_Some _ _ _ Hc) in Hrun.
    unfold new_cli in Hrun. injection Hrun as _ <-.
    destruct (copy_step w (with_configPath (adminConfigPath x) x) Hinv) as [Hi Hv]; [by apply (Hall x)|].
    split; [done|]. intros d y Hy. exists y. by apply Hv.
  - destruct (clis w !! c) as [x|] eqn:Hc; [|by unfold WithoutNamespace, gobind, get_cli in Hrun; rewrite Hc in Hrun].
    unfold WithoutNamespace, gobind in Hrun. rewrite (get_cli_Some _ _ _ Hc) in Hrun.
    unfold new_cli in Hrun. injection Hrun as _ <-.
    destruct (copy_step w (with_flags (verbose x) (showInfo x) true x) Hinv) as [Hi Hv]; [by apply (Hall x)|].
    split; [done|]. intros d y Hy. exists y. by apply Hv.
Qed.

Definition run_ops (l : list cli_op) : go world unit := for_each l run_op.

(** Every operation of the sequence copies base clients only. *)
Fixpoint ops_allowed (l : list cli_op) (w : world) : Prop :=
  match l with
  | [] => True
  | o :: l' => op_allowed w o ∧ ops_allowed l' (snd (run_op o w))
  end.

Lemma run_ops_view l w w' :
  args_inv w → ops_allowed l w → run_ops l w = (Ret tt, w') →
  args_inv w' ∧ ∀ d x, clis w !! d = Some x →
    ∃ x', clis w' !! d = Some x' ∧ view_of w' x' = fold_left (λ v o, op_effect d o v) l (view_of w x).
Proof.
  revert w. induction l as [|o l IH]; intros w Hinv Hall Hrun; cbn in Hrun.
  - injection Hrun as <-. split; [done|]. eauto.
  - apply gobind_Ret_inv in Hrun as ([] & w1 & H1 & Hrun). destruct Hall as [Ho Hl].
    rewrite H1 in Hl. destruct (run_op_view o w w1 Hinv Ho H1) as [Hi Hv].
    destruct (IH w1 Hi Hl Hrun) as [Hi' Hv']. split; [done|]. intros d x Hx.
    destruct (Hv d x Hx) as (x1 & Hx1 & E1), (Hv' d x1) as (x2 & Hx2 & E2); [done|].
    exists x2. split; [done|]. cbn. by rewrite E2, E1.
Qed.

Lemma final_args_view w d x : clis w !! d = Some x → fst (final_args d w) = Ret (view_of w x).2.
Proof. intros Hx. unfold final_args, gobind. by rewrite (get_cli_Some _ _ _ Hx). Qed.

(** The fields of the client that [Run] makes. *)
Lemma Run_fields w c commands w' p :
  Run c commands w = (Ret p, w') →
  ∃ x x', clis w !! c = Some x ∧ clis w' !! p = Some x' ∧
    execPath x' = execPath x ∧ configPath x' = configPath x ∧ kubeFramework x' = kubeFramework x ∧
    verbose x' = false ∧ showInfo x' = false ∧ stdin x' = Some (length (buffers w)) ∧
    stdout x' = stdout x ∧ resourcesToDelete x' = None ∧
    buffers w' = buffers w ++ [""%string] ∧ server w' = server w ∧ frameworks w' = frameworks w.
Proof.
  intros Hrun. unfold Run in Hrun. apply gobind_Ret_inv in Hrun as (x & w1 & Hx & Hrun).
  unfold get_cli in Hx. destruct (clis w !! c) as [y|] eqn:Hc; [|done]. injection Hx as -> <-.
  apply gobind_Ret_inv in Hrun as (b & w1 & Hb & Hrun). injection Hb as <- <-.
  destruct commands as [|v commands]; [done|].
  apply gobind_Ret_inv in Hrun as (g1 & w1 & H1 & Hrun).
  apply gobind_Ret_inv in Hrun as (g2 & w2 & H2 & Hrun).
  apply gobind_Ret_inv in Hrun as (g3 & w3 & H3 & Hrun).
  assert (∀ s l u s' u', args_append s l u = (Ret s', u') →
    clis u' = clis u ∧ buffers u' = buffers u ∧ server u' = server u ∧ frameworks u' = frameworks u) as Happ.
  { intros s l u s' u'. unfold args_append. destruct (append _ _ _ _ _). by intros [= _ <-]. }
  assert (clis w3 = clis w ∧ buffers w3 = buffers w ++ [""%string] ∧ server w3 = server w ∧
          frameworks w3 = frameworks w) as (Hcl & Hbf & Hsv & Hfw).
  { apply Happ in H2 as (E1 & E2 & E3 & E4). injection H1 as _ <-.
    destruct (withoutNamespace x).
    - injection H3 as _ <-. by rewrite E1, E2, E3, E4.
    - apply gobind_Ret_inv in H3 as (ns & w4 & Hns & H3). apply Namespace_Ret in Hns as ->.
      apply gobind_Ret_inv in H3 as (n & w4 & Hn & H3). injection Hn as _ <-.
      apply gobind_Ret_inv in H3 as (l & w4 & Hl & H3). injection Hl as _ <-.
      apply Happ in H3 as (F1 & F2 & F3 & F4). cbn in F1, F2, F3, F4.
      by rewrite F1, F2, F3, F4, E1, E2, E3, E4. }
  injection Hrun as <- <-. eexists x, _. split; [done|]. split; [cbn; rewrite Hcl; apply lookup_snoc_new|].
  by split_and!.
Qed.

Lemma Args_fields w c x l p w' :
  clis w !! c = Some x → Args c l w = (Ret p, w') →
  p = c ∧ (∃ ca fa, clis w' = <[c := with_args ca fa x]> (clis w)) ∧
  buffers w' = buffers w ∧ server w' = server w ∧ frameworks w' = frameworks w.
Proof.
  intros Hc H. unfold Args in H. apply gobind_Ret_inv in H as (s & w1 & H1 & H).
  assert (clis w1 = clis w ∧ buffers w1 = buffers w ∧ server w1 = server w ∧ frameworks w1 = frameworks w)
    as (E1 & E2 & E3 & E4) by (destruct l; injection H1 as _ <-; done).
  unfold Args_slice in H. unfold gobind at 1 in H. rewrite (get_cli_Some w1 c x) in H by by rewrite E1.
  unfold gobind at 1, args_read in H. unfold gobind at 1, args_append in H.
  destruct (append _ _ _ _ _) as [fa h]. injection H as <- <-. cbn. rewrite E1, E2, E3, E4.
  split; [done|]. split; [|done]. by exists s, fa.
Qed.

Lemma Run_succeeds w c x f v cs :
  clis w !! c = Some x → frameworks w !! kubeFramework x = Some f →
  ∃ p w', Run c (v :: cs) w = (Ret p, w') ∧ fst (Namespace c w) = Ret (default ""%string (FNamespace f)).
Proof.
  intros Hc Hf. assert (∀ u, clis u = clis w → frameworks u = frameworks w →
    Namespace c u = (Ret (default ""%string (FNamespace f)), u)) as Hns.
  { intros u H1 H2. unfold Namespace, gobind, get_cli, get_framework, ret. by rewrite H1, Hc, H2, Hf. }
  unfold Run. unfold gobind at 1. rewrite (get_cli_Some _ _ _ Hc). unfold gobind at 1, new_buffer.
  unfold gobind at 1, args_literal, literal. unfold gobind at 1. unfold args_append at 1.
  destruct (append _ _ _ _ _) as [g h]. destruct (withoutNamespace x).
  - unfold gobind at 1, ret at 1, new_cli. eexists _, _. split; [reflexivity|]. by rewrite Hns.
  - unfold gobind at 1. unfold gobind at 1. rewrite Hns by done. unfold gobind at 1.
    unfold gobind at 1. unfold args_read, args_append at 1.
    destruct (append _ _ _ _ _) as [g' h']. unfold new_cli. eexists _, _. split; [reflexivity|].
    by rewrite Hns.
Qed.

(** A command that is ready to run: the line of arguments, the input that is
    waiting in its buffer, the flags that [Run] has cleared. *)
Record ready (w : world) (p : nat) (path : string) (line : list string) (input : string) : Prop := {
  rd_inv : args_inv w;
  rd_cli : ∃ x b, clis w !! p = Some x ∧ execPath x = path ∧ verbose x = false ∧ showInfo x = false ∧
    stdin x = Some b ∧ elems (arg_arrays w) (finalArgs x) = line ∧ buffers w !! b = Some input
}.

(** What the clients, their frameworks and the server are after a command was
    built: the clients there were are untouched. *)
Definition extends (w w' : world) : Prop :=
  frameworks w' = frameworks w ∧ ∀ d y, clis w !! d = Some y → clis w' !! d = Some y.

(** The command line of a client. *)
Definition oc_line (x : CLI) (f : framework) (commands args : list string) : list string :=
  (if withoutNamespace x then [] else ["--namespace=" +:+ default ""%string (FNamespace f)]) ++
  ["--kubeconfig=" +:+ configPath x] ++ commands ++ args.

Lemma Run_Args_ready w c x f v cs args :
  args_inv w → clis w !! c = Some x → frameworks w !! kubeFramework x = Some f →
  ∃ p w1 w2, Run c (v :: cs) w = (Ret p, w1) ∧ Args p args w1 = (Ret p, w2) ∧
    ready w2 p (execPath x) (oc_line x f (v :: cs) args) "" ∧ extends w w2 ∧ server w2 = server w ∧
    clis w !! p = None.
Proof.
  intros Hinv Hc Hf. destruct (Run_succeeds w c x f v cs Hc Hf) as (p & w1 & Hrun & Hns).
  destruct (Run_step _ _ _ _ _ _ Hinv Hc Hrun) as (Hp & Hi1 & (x1 & ns & Hx1 & Hns' & Hv1 & _) & Hold).
  destruct (Run_fields _ _ _ _ _ Hrun)
    as (x0 & x1' & Hx0 & Hx1' & He & _ & _ & Hvb & Hsi & Hst & _ & _ & Hb & Hs & Hfw).
  simplify_eq. destruct (Args_step w1 _ x1 args Hi1 Hx1) as (w2 & Hargs & Hi2 & (x2 & Hx2 & Hv2) & _).
  destruct (Args_fields _ _ _ _ _ _ Hx1 Hargs) as (_ & (ca & fa & Hcl) & Hb2 & Hs2 & Hf2).
  assert (x2 = with_args ca fa x1) as ->.
  { rewrite Hcl, list_lookup_insert_eq in Hx2 by (by eapply lookup_lt_Some). by injection Hx2. }
  eexists _, w1, w2. split; [done|]. split; [done|]. split; [split; [done|]|split; [split|split]].
  - eexists _, (length (buffers w)). split; [done|]. split; [done|]. do 2 (split; [done|]).
    split; [done|]. split; [|by rewrite Hb2, Hb, lookup_snoc_new].
    pose proof (f_equal (λ v : arg_view, v.2) Hv2) as E. cbn [snd view_of] in E. rewrite E.
    pose proof (f_equal (λ v : arg_view, v.1.1) Hv1) as Hg. cbn [fst view_of] in Hg. rewrite Hg.
    unfold oc_line. destruct (withoutNamespace x) eqn:Ens; cbn [app]; [done|].
    rewrite (Hns' eq_refl) in Hns. by injection Hns as ->.
  - by rewrite Hf2, Hfw.
  - intros d y Hd. rewrite Hcl, list_lookup_insert_ne; [by apply Hold|].
    apply lookup_lt_Some in Hd. lia.
  - by rewrite Hs2, Hs.
  - apply lookup_ge_None_2. lia.
Qed.

(** What [Output] makes of the end of the process. *)
Definition output_result (path : string) (line : list string) (r : exec_result)
  : outcome (string * option ExitError) :=
  match x_status r with
  | ExOk => Ret (TrimSpace (x_both r), None)
  | ExExit z => Ret (TrimSpace (x_both r),
                     Some (mkExit (path +:+ " " +:+ Join line " ") (TrimSpace (x_both r)) z))
  | ExOther m => Panic ("unable to execute " +:+ Quote path +:+ ": " +:+ m)
  end.

Lemma Output_ready w p path line input r v :
  ready w p path line input → process path line input (server w) = (Ret r, v) →
  ∃ w', Output p w = (output_result path line r, w') ∧ server w' = v ∧ args_inv w' ∧
    frameworks w' = frameworks w ∧ ∀ d, d ≠ p → clis w' !! d = clis w !! d.
Proof.
  intros [Hinv (x & b & Hx & <- & Hv & Hs & Hb & <- & Hin)] Hp.
  assert (final_args p w = (Ret (elems (arg_arrays w) (finalArgs x)), w)) as Hfin.
  { unfold final_args. erewrite gobind_Ret by exact (get_cli_Some _ _ _ Hx). done. }
  pose proof (Output_quiet w p w (quiet_refl w)) as Hq.
  enough (∃ w', Output p w = (output_result (execPath x) (elems (arg_arrays w) (finalArgs x)) r, w') ∧
    server w' = v ∧ frameworks w' = frameworks w ∧ ∀ d, d ≠ p → clis w' !! d = clis w !! d)
    as (w' & E & ? & ? & ?).
  { exists w'. rewrite E in Hq. split_and!; try done. by apply (quiet_view w w' Hinv Hq). }
  clear Hq. unfold Output, debug. unfold gobind at 1. unfold gobind at 1. rewrite (get_cli_Some _ _ _ Hx), Hv.
  unfold ret at 1. unfold gobind at 1. rewrite (get_cli_Some _ _ _ Hx). unfold gobind at 1. rewrite Hfin.
  unfold gobind at 1. rewrite Hs. unfold ret at 1. unfold gobind at 1, run_process. rewrite Hb.
  unfold gobind at 1, args_read. unfold gobind at 1, getw. unfold gobind at 1, modw. unfold on_server.
  rewrite Hin. cbn [default from_option id set_buffers server]. rewrite Hp. unfold output_result, command_line.
  destruct (x_status r); eexists; split_and!; try done.
  intros d Hd. cbn. by rewrite list_lookup_insert_ne by done.
Qed.

(** [oc.Run(commands...).Args(args...).Output()] *)
Definition oc_run (c : nat) (commands args : list string) : go world (string * option ExitError) :=
  (p <-! Run c commands ;; p <-! Args p args ;; Output p)%go.

Lemma oc_run_spec w c x f v cs args r u :
  args_inv w → clis w !! c = Some x → frameworks w !! kubeFramework x = Some f →
  process (execPath x) (oc_line x f (v :: cs) args) "" (server w) = (Ret r, u) →
  ∃ w', oc_run c (v :: cs) args w = (output_result (execPath x) (oc_line x f (v :: cs) args) r, w') ∧
    server w' = u ∧ args_inv w' ∧ extends w w'.
Proof.
  intros Hinv Hc Hf Hp.
  destruct (Run_Args_ready w c x f v cs args Hinv Hc Hf) as (p & w1 & w2 & Hr & Ha & Hrd & [Hfw Hold] & Hs & Hnew).
  rewrite <- Hs in Hp. destruct (Output_ready _ _ _ _ _ _ _ Hrd Hp) as (w' & Ho & Hu & Hi & Hf' & Hcl).
  exists w'. unfold oc_run. erewrite gobind_Ret by exact Hr. erewrite gobind_Ret by exact Ha.
  split; [done|]. split; [done|]. split; [done|]. split; [by rewrite Hf', Hfw|].
  intros d y Hd. rewrite Hcl by (intros ->; congruence). by apply Hold.
Qed.

(** [oc.Run(commands...).Args(args...).InputString(input).Output()] *)
Definition oc_command (c : nat) (commands args : list string) (input : string)
  : go world (string * option ExitError) :=
  (p <-! Run c commands ;; p <-! Args p args ;; p <-! InputString p input ;; Output p)%go.

(** C32: the command that a test runs: the process is executed once, with the
    namespace of the client (unless it is left out), its kubeconfig, the verb
    and the arguments in this order, and with the input; the result is its
    trimmed output, an exit error that carries the command line, or the end of
    the test when the process cannot be executed. *)
Theorem oc_command_spec w c x f commands args input r v :
  args_inv w → clis w !! c = Some x → frameworks w !! kubeFramework x = Some f → commands ≠ [] →
  let line := oc_line x f commands args in
  process (execPath x) line input (server w) = (Ret r, v) →
  let res := oc_command c commands args input w in
  server (snd res) = v ∧
  fst res = match x_status r with
            | ExOk => Ret (TrimSpace (x_both r), None)
            | ExExit z => Ret (TrimSpace (x_both r),
                Some (mkExit (execPath x +:+ " " +:+ Join line " ") (TrimSpace (x_both r)) z))
            | ExOther m => Panic ("unable to execute " +:+ Quote (execPath x) +:+ ": " +:+ m)
            end.
Proof.
  intros Hinv Hc Hf Hne line Hp res. subst res. destruct commands as [|vb cs]; [done|].
  destruct (Run_Args_ready w c x f vb cs args Hinv Hc Hf) as (p & w1 & w2 & Hr & Ha & Hrd & _ & Hs & _).
  destruct Hrd as [Hi (x2 & b & Hx2 & He & Hv & Hsi & Hst & Hl & Hin)].
  set (w3 := set_buffers (alter (λ s, s +:+ input) b (buffers w2)) w2).
  assert (ready w3 p (execPath x) line input) as Hrd.
  { split; [split; [exact (ai_ok _ Hi)|exact (ai_separate _ Hi)]|]. exists x2, b.
    split_and!; try done. cbn. by rewrite list_lookup_alter_eq, Hin. }
  rewrite <- Hs in Hp. destruct (Output_ready w3 _ _ _ _ _ _ Hrd Hp) as (w' & Ho & Hu & _).
  assert (oc_command c (vb :: cs) args input w = Output p w3) as ->.
  { unfold oc_command. erewrite gobind_Ret by exact Hr. erewrite gobind_Ret by exact Ha.
    unfold InputString. erewrite gobind_Ret; [done|]. erewrite gobind_Ret by exact (get_cli_Some _ _ _ Hx2).
    by rewrite Hst. }
  by rewrite Ho.
Qed.

(** C33: whatever the tests do with other clients, and whatever capacities the
    runtime gives to the slices, the arguments of a command are those of its
    own calls: the globals of [Run], then those of the last [Args], and of a
    [Template] made after it.  The clients that are copied are base clients. *)
Theorem commands_do_not_interfere w c x commands p w1 ops w2 :
  args_inv w → clis w !! c = Some x → Run c commands w = (Ret p, w1) →
  ops_allowed ops w1 → run_ops ops w1 = (Ret tt, w2) →
  ∃ ns, (withoutNamespace x = false → fst (Namespace c w) = Ret ns) ∧
    let globals := (if withoutNamespace x then [] else ["--namespace=" +:+ ns]) ++
                   ["--kubeconfig=" +:+ configPath x] ++ commands in
    fst (final_args p w2) = Ret (fold_left (λ v o, op_effect p o v) ops (globals, [], [])).2.
Proof.
  intros Hinv Hc Hrun Hall Hops.
  destruct (Run_step _ _ _ _ _ _ Hinv Hc Hrun) as (_ & Hi1 & (x1 & ns & Hx1 & Hns & Hv1 & _) & _).
  destruct (run_ops_view ops w1 w2 Hi1 Hall Hops) as [_ Hv].
  destruct (Hv p x1 Hx1) as (x2 & Hx2 & E). exists ns. split; [done|].
  cbn beta zeta. rewrite (final_args_view _ _ _ Hx2), E, Hv1. done.
Qed.

(** The namespace belongs to the framework that the copies of a client
    share: setting it through the admin copy sets it for the client the copy was
    made from, and for every client of that framework. *)
Theorem copies_share_namespace w c x a w1 ns w2 :
  clis w !! c = Some x → AsAdmin c w = (Ret a, w1) → SetNamespace a ns w1 = (Ret a, w2) →
  ∀ d y, clis w !! d = Some y → kubeFramework y = kubeFramework x →
  Namespace d w2 = (Ret ns, w2).
Proof.
  intros Hc Ha Hs d y Hd Hf. unfold AsAdmin, gobind in Ha. rewrite (get_cli_Some _ _ _ Hc) in Ha.
  unfold new_cli in Ha. injection Ha as <- <-.
  unfold SetNamespace, gobind, get_cli, get_framework, modw, ret in Hs.
  cbn [set_clis clis] in Hs. rewrite lookup_snoc_new in Hs.
  cbn [with_configPath kubeFramework set_clis frameworks] in Hs.
  destruct (frameworks w !! kubeFramework x) as [f|] eqn:Ef; [|done]. injection Hs as <-.
  unfold Namespace, gobind, get_cli, get_framework, ret. cbn [set_frameworks set_clis clis frameworks].
  rewrite (lookup_app_l_Some _ _ _ _ Hd). cbn beta match. rewrite Hf.
  cbn [set_frameworks frameworks]. rewrite list_lookup_insert_eq; [done|by eapply lookup_lt_Some].
Qed.

(** A command that [Run] builds prints no debug and no information line,
    whatever flags [Verbose] or the constructors have set on the client. *)
Theorem Run_drops_flags w c commands p w' :
  Run c commands w = (Ret p, w') →
  debug p w' = (Ret tt, w') ∧
  ∃ x', clis w' !! p = Some x' ∧ verbose x' = false ∧ showInfo x' = false.
Proof.
  intros Hrun. destruct (Run_fields _ _ _ _ _ Hrun) as (x & x' & _ & Hx' & _ & _ & _ & Hv & Hs & _).
  split; [|eauto]. unfold debug, gobind. rewrite (get_cli_Some _ _ _ Hx'). by rewrite Hv.
Qed.
End World.
Arguments world W K : clear implicits.

(** ** A client, its admin copy and two commands *)

Definition a_world : world unit unit :=
  mkW [] [] [] [] [] ∅ [] [] tt.
Definition echo : string → list string → string → go unit exec_result := λ path args input v,
  (Ret (mkExecResult "" "" (path +:+ " " +:+ Join args " " +:+ " < " +:+ input +:+ nl) ExOk), v).
Definition no_spare (_ _ : nat) : nat := 0.
Definition doubling (cap need : nat) : nat := 2 * cap - need.

(** A client of the project [p] whose kubeconfig is admin.conf. *)
Definition started_world : world unit unit :=
  snd ((c <-! NewCLI "p" "admin.conf" ;; c <-! SetNamespace c "ns" ;; AsAdmin c)%go a_world).

Lemma started_inv : args_inv started_world.
Proof.
  split.
  - intros [|[|c]] x Hx; cbn in Hx; simplify_eq; by repeat split.
  - intros [|[|c]] [|[|d]] x y a _ Hx Hy; cbn in Hx, Hy; simplify_eq; intros Ha; by apply not_elem_of_nil in Ha.
Qed.

Example oc_command_spec_witness :
  fst (oc_command doubling echo (λ _ _, ""%string) 1 ["get"%string] ["pods"%string] "in" started_world) =
  Ret ("oc --namespace=ns --kubeconfig=admin.conf get pods < in"%string, None).
Proof.
  pose proof (oc_command_spec doubling echo (λ _ _, ""%string) started_world 1
    (with_configPath "admin.conf" (blank_cli 0 "admin.conf")) (mkFramework "p" (Some "ns"%string) true [])
    ["get"%string] ["pods"%string] "in"
    (mkExecResult "" "" ("oc --namespace=ns --kubeconfig=admin.conf get pods < in" +:+ nl) ExOk) tt
    started_inv ltac:(vm_compute; reflexivity) ltac:(vm_compute; reflexivity) ltac:(done)) as H.
  cbv zeta in H. specialize (H ltac:(vm_compute; reflexivity)). destruct H as [_ H].
  etransitivity; [exact H|]. vm_compute. reflexivity.
Defined.

Definition two_commands : list cli_op :=
  [OArgs 2 ["pods"%string]; ORun 0 ["describe"%string]; OTemplate 2 "T"; OArgs 3 ["node"%string];
   OVerbose 2; OAsAdmin 0; OSetNamespace 4 "other"].

Example commands_do_not_interfere_witness :
  let w1 := snd (Run doubling 1 ["get"%string] started_world) in
  let w2 := snd (run_ops doubling echo (λ _ _, ""%string) two_commands w1) in
  fst (final_args 2 w2) = Ret ["--namespace=ns"; "--kubeconfig=admin.conf"; "get"; "pods";
                               "--output=template"; "--template=T"]%string.
Proof.
  intros w1 w2.
  pose proof (commands_do_not_interfere doubling echo (λ _ _, ""%string) started_world 1
    (with_configPath "admin.conf" (blank_cli 0 "admin.conf")) ["get"%string] 2 w1 two_commands w2
    started_inv ltac:(vm_compute; reflexivity) ltac:(vm_compute; reflexivity)) as H.
  assert (ops_allowed doubling echo (λ _ _, ""%string) two_commands w1) as Hall
    by (vm_compute; repeat split; intros x Hx; by simplify_eq).
  specialize (H Hall ltac:(vm_compute; reflexivity)). destruct H as (ns & Hns & H).
  specialize (Hns eq_refl). vm_compute in Hns. injection Hns as <-.
  etransitivity; [exact H|]. vm_compute. reflexivity.
Defined.

Example copies_share_namespace_witness :
  let w1 := snd (AsAdmin 0 started_world) in
  let w2 := snd (SetNamespace 2 "default" w1) in
  Namespace 0 w2 = (Ret "default"%string, w2).
Proof.
  intros w1 w2. eapply (copies_share_namespace started_world 0 _ 2 w1 "default" w2); reflexivity.
Defined.

Example Run_drops_flags_witness :
  let w := snd (Verbose 0 started_world) in
  let w' := snd (Run no_spare 0 ["get"%string] w) in
  debug 2 w' = (Ret tt, w').
Proof. intros w w'. by apply (Run_drops_flags no_spare w 0 ["get"%string] 2 w'). Defined.
