(* ===== verification/GoSha256.v ===== *)
(** * Go's [crypto/sha256] and the URL-safe base64 encoding

    The two functions of the standard library that make an OAuth token name out
    of a token.  A byte slice is a string; words of 32 bits are [Z]. *)

From S2P Require Import Prelude.
From S2P Require Import GoStrings.
From S2P Require Import GoNet.
From Stdlib Require Import Ascii.

Local Open Scope Z_scope.

(** ** Words of 32 bits *)

Definition w32 (x : Z) : Z := x mod 2 ^ 32.
Definition add32 (x y : Z) : Z := w32 (x + y).
Definition rotr (n x : Z) : Z := Z.lor (Z.shiftr x n) (w32 (Z.shiftl x (32 - n))).
Definition not32 (x : Z) : Z := Z.lxor x (2 ^ 32 - 1).

(** The constants are not tables: they are the first 32 bits of the fractional
    parts of the square roots of the first 8 primes and of the cube roots of the
    first 64. *)
Definition is_prime (n : nat) : bool :=
  forallb (λ d, negb (Nat.eqb (n mod d) 0)) (seq 2 (n - 2)).
Definition primes : list Z := map Z.of_nat (bfilter is_prime (seq 2 310)).

(** The largest [r] with the bits below [2 ^ bits] for which [r ^ 3 <= n]. *)
Fixpoint cube_root (bits : nat) (r n : Z) : Z :=
  match bits with
  | O => r
  | S b => let r' := r + 2 ^ Z.of_nat b in cube_root b (if r' ^ 3 <=? n then r' else r) n
  end.

Definition sha_k : list Z := map (λ p, w32 (cube_root 36 0 (p * 2 ^ 96))) primes.
Definition sha_init : list Z := map (λ p, w32 (Z.sqrt (p * 2 ^ 64))) (take 8 primes).

(** ** The message: padded bytes, in words *)

Fixpoint bytes_of (s : string) : list Z :=
  match s with
  | EmptyString => []
  | String c s' => Z.of_nat (nat_of_ascii c) :: bytes_of s'
  end.

(** The bytes of [x], the most significant first. *)
Definition be_bytes (n : nat) (x : Z) : list Z :=
  map (λ i, Z.land (Z.shiftr x (8 * Z.of_nat (n - 1 - i))) 255) (seq 0 n).

Definition sha_pad (m : list Z) : list Z :=
  let l := length m in
  m ++ [128] ++ replicate (Z.to_nat ((55 - Z.of_nat l) mod 64)) 0 ++ be_bytes 8 (8 * Z.of_nat l).

Fixpoint words (l : list Z) : list Z :=
  match l with
  | a :: b :: c :: d :: l' => (((a * 256 + b) * 256 + c) * 256 + d) :: words l'
  | _ => []
  end.

(** ** One block *)

Definition at_ (l : list Z) (i : nat) : Z := nth i l 0.

(** The message schedule; [w] holds the words so far, the last one first. *)
Fixpoint schedule (n : nat) (w : list Z) : list Z :=
  match n with
  | O => w
  | S n' =>
      let v1 := at_ w 1 in let v2 := at_ w 14 in
      let t1 := Z.lxor (Z.lxor (rotr 17 v1) (rotr 19 v1)) (Z.shiftr v1 10) in
      let t2 := Z.lxor (Z.lxor (rotr 7 v2) (rotr 18 v2)) (Z.shiftr v2 3) in
      schedule n' (w32 (t1 + at_ w 6 + t2 + at_ w 15) :: w)
  end.

Definition sha_round (st : list Z) (kw : Z * Z) : list Z :=
  match st with
  | [a; b; c; d; e; f; g; h] =>
      let t1 := w32 (h + Z.lxor (Z.lxor (rotr 6 e) (rotr 11 e)) (rotr 25 e) +
                     Z.lxor (Z.land e f) (Z.land (not32 e) g) + fst kw + snd kw) in
      let t2 := w32 (Z.lxor (Z.lxor (rotr 2 a) (rotr 13 a)) (rotr 22 a) +
                     Z.lxor (Z.lxor (Z.land a b) (Z.land a c)) (Z.land b c)) in
      [add32 t1 t2; a; b; c; add32 d t1; e; f; g]
  | _ => st
  end.

Definition sha_block (h : list Z) (block : list Z) : list Z :=
  let w := reverse (schedule 48 (reverse block)) in
  zip_with add32 h (fold_left sha_round (zip sha_k w) h).

Fixpoint sha_blocks (n : nat) (h : list Z) (ws : list Z) : list Z :=
  match n with
  | O => h
  | S n' => sha_blocks n' (sha_block h (take 16 ws)) (drop 16 ws)
  end.

Definition string_of_bytes (l : list Z) : string :=
  fold_right (λ b s, String (ascii_of_nat (Z.to_nat b)) s) EmptyString l.

(** [sha256.Sum256([]byte(s))] *)
Definition Sum256 (s : string) : string :=
  let ws := words (sha_pad (bytes_of s)) in
  string_of_bytes (concat (map (be_bytes 4) (sha_blocks (length ws / 16) sha_init ws))).

(** ** [base64.RawURLEncoding] *)

Fixpoint url_alphabet (s : string) : string :=
  match s with
  | EmptyString => EmptyString
  | String c s' =>
      if Ascii.eqb c "="%char then url_alphabet s'
      else String (if Ascii.eqb c "+"%char then "-"%char
                   else if Ascii.eqb c "/"%char then "_"%char else c) (url_alphabet s')
  end.

(** [base64.RawURLEncoding.EncodeToString(s)]: no padding, and the two last
    letters of the alphabet replaced. *)
Definition RawURLEncode (s : string) : string := url_alphabet (EncodeToString s).

(** The hashes of [abc] and of the empty message. *)
Example Sum256_abc :
  RawURLEncode (Sum256 "abc") = "ungWv48Bz-pBQUDeXa4iI7ADYaOWF3qctBD_YfIAFa0"%string.
Proof. vm_compute. reflexivity. Qed.
Example Sum256_empty :
  RawURLEncode (Sum256 "") = "47DEQpj8HBSa-_TImW-5JCeuQeRkm5NMpJWZG3hSuFU"%string.
Proof. vm_compute. reflexivity. Qed.
