(* ===== verification/CliUser.v ===== *)
(** * test/extended/util/client.go: users, projects and what a test leaves

    The part of the client that talks to the API: a user with a token and a
    kubeconfig of its own, the project of a test, the objects to delete when it
    ends.  The API is a record of operations, each with the credentials it is
    called with; a clientset is its configuration. *)

From S2P Require Import Prelude.
From S2P Require Import GoStrings.
From S2P Require Import GoLib.
From S2P Require Import GoSlice.
From S2P Require Import GoSha256.
From S2P Require Import Waits.
From S2P Require Import Cli.

(** ** Configurations *)

(** [rest.Config]: the fields the code reads or sets. *)
Record rest_config := mkRest {
  Host : string;
  BearerToken : string;
  RUsername : string;
  RPassword : string;
  CertFile : string; CertData : string;
  KeyFile : string; KeyData : string;
  CAFile : string; CAData : string;
  Insecure : bool;
  QPS : Z; Burst : Z
}.

(** [rest.AnonymousClientConfig]: without credentials. *)
(* src: vendor/k8s.io/client-go/rest/config.go 543-564 AnonymousClientConfig *)
Definition AnonymousClientConfig (c : rest_config) : rest_config :=
  mkRest (Host c) "" "" "" "" "" "" "" (CAFile c) (CAData c) (Insecure c) (QPS c) (Burst c).

(* src: test/extended/util/client.go 739-749 turnOffRateLimiting *)
Definition turnOffRateLimiting (c : rest_config) : rest_config :=
  mkRest (Host c) (BearerToken c) (RUsername c) (RPassword c) (CertFile c) (CertData c) (KeyFile c)
    (KeyData c) (CAFile c) (CAData c) (Insecure c) 10000 10000.

Definition with_token (t : string) (c : rest_config) : rest_config :=
  mkRest (Host c) t (RUsername c) (RPassword c) (CertFile c) (CertData c) (KeyFile c)
    (KeyData c) (CAFile c) (CAData c) (Insecure c) (QPS c) (Burst c).

(** A kubeconfig with one cluster, one user and one context. *)
Record kubeconfig := mkKube {
  cluster_nick : string; Server : string; CertificateAuthority : string;
  CertificateAuthorityData : string; InsecureSkipTLSVerify : bool;
  user_nick : string; Token : string; ClientCertificate : string; ClientCertificateData : string;
  ClientKey : string; ClientKeyData : string;
  context_nick : string; KNamespace : string
}.

(** ** The API *)

Record User := mkUser { UName : string; UID : string }.
Record OAuthAccessToken := mkToken {
  TName : string; ClientName : string; UserName : string; UserUID : string;
  Scopes : list string; RedirectURI : string
}.

Inductive event_type := Added | Modified | Deleted | OtherEvent (t : string).

(** [create_oauthclient] returns whether the object is not nil besides the
    error; [first_rolebinding] is the type of the first event of a list and
    watch with the name selected, or the error the wait ends with. *)
Record oc_api (W : Type) := mkApi {
  get_user : rest_config → string → go W User;
  create_user : rest_config → string → string → go W User;   (* name, generateName *)
  create_oauthclient : rest_config → string → W → (bool * option error) * W;
  create_token : rest_config → OAuthAccessToken → go W OAuthAccessToken;
  create_project : rest_config → string → go W unit;
  get_namespace : rest_config → string → go W string;
  self_sar : rest_config → string → go W bool;                (* may create pods there *)
  account_secrets : rest_config → string → string → go W (list string);
  first_rolebinding : rest_config → string → string → go W event_type;
  delete_resource : rest_config → resourceRef → go W unit;
  whoami : rest_config → go W string
}.
Arguments get_user {W}. Arguments create_user {W}. Arguments create_oauthclient {W}.
Arguments create_token {W}. Arguments create_project {W}. Arguments get_namespace {W}.
Arguments self_sar {W}. Arguments account_secrets {W}. Arguments first_rolebinding {W}.
Arguments delete_resource {W}. Arguments whoami {W}.

Section User.
Context {W : Type} (api : oc_api W).

(** [url.Parse] and [netutil.CanonicalAddr] of a host; the configuration that
    clientcmd loads from a file; random names and bytes; temporary files; the
    spare capacity of a new array of resources. *)
Variable canonical_addr : string → string + error.
Variable client_config : kubeconfig → rest_config + error.
Variable random_name : go W string.
Variable random_uuid : go W string.
Variable temp_file : gmap string kubeconfig → string.
Variable write_error : string → option error.
Variable spare : nat → nat → nat.

Notation world := (Cli.world W kubeconfig).

(** ** createConfig *)

(* src: test/extended/util/oc_copy.go 16-27 getClusterNicknameFromConfig *)
Definition getClusterNicknameFromConfig (c : rest_config) : string + error :=
  match canonical_addr (Host c) with
  | inl addr => inl (Replace addr "." "-")
  | inr e => inr e
  end.

(** The error that [Get] returns leaves an empty user, whose name is then
    guessed. *)
(* src: test/extended/util/oc_copy.go 45-64 getUserPartOfNickname *)
Definition getUserPartOfNickname (c : rest_config) : go W string :=
  (r <-! try (whoami api c) ;;
   match r with
   | inl n => ret n
   | inr e =>
       if is_kind KNotFound e || is_kind KForbidden e then
         ret (if Nat.ltb 0 (String.length (BearerToken c)) then BearerToken c
              else if Nat.ltb 0 (String.length (RUsername c)) then RUsername c else "")
       else fail e
   end)%go.

(* src: test/extended/util/oc_copy.go 29-43 getUserNicknameFromConfig *)
Definition getUserNicknameFromConfig (c : rest_config) : go W string :=
  (u <-! getUserPartOfNickname c ;;
   n <-! of_sum (getClusterNicknameFromConfig c) ;;
   ret (u +:+ "/" +:+ n))%go.

(* src: test/extended/util/oc_copy.go 66-81 getContextNicknameFromConfig *)
Definition getContextNicknameFromConfig (namespace : string) (c : rest_config) : go W string :=
  (u <-! getUserPartOfNickname c ;;
   n <-! of_sum (getClusterNicknameFromConfig c) ;;
   ret (namespace +:+ "/" +:+ n +:+ "/" +:+ u))%go.

(** The data is kept when there is no file. *)
Definition or_data (file data : string) : string :=
  if Nat.eqb (String.length file) 0 then data else "".

(* src: test/extended/util/oc_copy.go 83-131 createConfig *)
Definition createConfig (namespace : string) (c : rest_config) : go W kubeconfig :=
  (cn <-! of_sum (getClusterNicknameFromConfig c) ;;
   un <-! getUserNicknameFromConfig c ;;
   xn <-! getContextNicknameFromConfig namespace c ;;
   ret (mkKube cn (Host c) (CAFile c) (or_data (CAFile c) (CAData c)) (Insecure c)
          un (BearerToken c) (CertFile c) (or_data (CertFile c) (CertData c))
          (KeyFile c) (or_data (KeyFile c) (KeyData c)) xn namespace))%go.

(** ** Configurations of the client *)

Definition fatal_on {A} (r : A + error) : go world A :=
  match r with inl a => ret a | inr e => FatalErr (err_msg e) end.

(* src: test/extended/util/client.go 785-801 getClientConfig *)
Definition getClientConfig (path : string) (fs : gmap string kubeconfig) : rest_config + error :=
  match fs !! path with
  | None => inr (Errorf ("open " +:+ path +:+ ": no such file or directory"))
  | Some k => client_config k
  end.

(* src: test/extended/util/client.go 441-447 CLI.UserConfig *)
Definition UserConfig (c : nat) : go world rest_config :=
  (x <-! get_cli c ;; w <-! getw ;; fatal_on (getClientConfig (configPath x) (files w)))%go.
(* src: test/extended/util/client.go 449-455 CLI.AdminConfig *)
Definition AdminConfig (c : nat) : go world rest_config :=
  (x <-! get_cli c ;; w <-! getw ;; fatal_on (getClientConfig (adminConfigPath x) (files w)))%go.

(** ** Resources to delete *)

Definition no_ref : resourceRef := mkRef "" "" "".

(* src: test/extended/util/client.go 658-664 CLI.AddExplicitResourceToDelete, CLI.AddResourceToDelete *)
Definition AddResource (c : nat) (r : resourceRef) : go world unit :=
  (x <-! get_cli c ;;
   w <-! getw ;;
   let '(s, h) := append no_ref spare (resourcesToDelete x) [r] (ref_arrays w) in
   modw (set_refs h) ;;!
   put_cli c (with_refs s x))%go.

Definition user_ref (n : string) : resourceRef := mkRef "user.openshift.io/v1/users" "" n.
Definition oauthclient_ref (n : string) : resourceRef := mkRef "oauth.openshift.io/v1/oauthclients" "" n.
Definition token_ref (n : string) : resourceRef := mkRef "oauth.openshift.io/v1/oauthaccesstokens" "" n.

(* src: test/extended/util/client.go 666-676 CLI.CreateUser *)
Definition CreateUser (c : nat) (prefix : string) : go world User :=
  (cfg <-! AdminConfig c ;;
   ns <-! Namespace c ;;
   r <-! on_server (try (create_user api cfg "" (prefix +:+ ns))) ;;
   user <-! fatal_on r ;;
   AddResource c (user_ref (UName user)) ;;!
   ret user)%go.

(** ** Tokens *)

Definition sha256Prefix : string := "sha256~".

(* src: test/extended/util/client.go 728-737 GenerateOAuthTokenPair *)
Definition GenerateOAuthTokenPair (uuid : string) : string * string :=
  let randomToken := RawURLEncode uuid in
  (sha256Prefix +:+ randomToken, sha256Prefix +:+ RawURLEncode (Sum256 randomToken)).

(** The user is created if it does not exist. *)
(* src: test/extended/util/client.go 681-692 CLI.GetClientConfigForUser (user) *)
Definition ensure_user (c : nat) (cfg : rest_config) (name : string) : go world User :=
  (r <-! on_server (try (get_user api cfg name)) ;;
   match r with
   | inl user => ret user
   | inr e =>
       if negb (is_kind KNotFound e) then FatalErr (err_msg e)
       else
         r <-! on_server (try (create_user api cfg name "")) ;;
         user <-! fatal_on r ;;
         AddResource c (user_ref (UName user)) ;;!
         ret user
   end)%go.

(* src: test/extended/util/client.go 694-705 CLI.GetClientConfigForUser (OAuth client) *)
Definition ensure_oauthclient (c : nat) (cfg : rest_config) : go world string :=
  (ns <-! Namespace c ;;
   let name := "e2e-client-" +:+ ns in
   r <-! on_server (λ v, let '(r, v') := create_oauthclient api cfg name v in (Ret r, v')) ;;
   let '(obj, err) := r in
   (match err with
    | Some e => if is_kind KAlreadyExists e then ret tt else FatalErr (err_msg e)
    | None => ret tt
    end) ;;!
   (if obj : bool then AddResource c (oauthclient_ref name) else ret tt) ;;!
   ret name)%go.

(* src: test/extended/util/client.go 678-726 CLI.GetClientConfigForUser *)
Definition GetClientConfigForUser (c : nat) (name : string) : go world rest_config :=
  (cfg <-! AdminConfig c ;;
   user <-! ensure_user c cfg name ;;
   cfg <-! AdminConfig c ;;
   oauthClientName <-! ensure_oauthclient c cfg ;;
   uuid <-! on_server random_uuid ;;
   let '(privToken, pubToken) := GenerateOAuthTokenPair uuid in
   r <-! on_server (try (create_token api cfg
          (mkToken pubToken oauthClientName name (UID user) ["user:full"]
             "https://localhost:8443/oauth/token/implicit"))) ;;
   token <-! fatal_on r ;;
   AddResource c (token_ref (TName token)) ;;!
   cfg <-! AdminConfig c ;;
   ret (with_token privToken (AnonymousClientConfig (turnOffRateLimiting cfg))))%go.

(* src: test/extended/util/client.go 153-175 CLI.ChangeUser *)
Definition ChangeUser (c : nat) (name : string) : go world nat :=
  (clientConfig <-! GetClientConfigForUser c name ;;
   ns <-! Namespace c ;;
   r <-! on_server (try (createConfig ns clientConfig)) ;;
   kubeConfig <-! fatal_on r ;;
   w <-! getw ;;
   let path := temp_file (files w) in
   x <-! get_cli c ;;
   put_cli c (with_configPath path x) ;;!
   match write_error path with
   | Some e => FatalErr (err_msg e)
   | None =>
       modw (set_files (<[path := kubeConfig]> (files w))) ;;!
       x <-! get_cli c ;;
       put_cli c (with_username name x) ;;!
       modw (print ("configPath is now " +:+ Quote path)) ;;!
       ret c
   end)%go.

(** ** The project of a test *)

(** [o.Expect(err).NotTo(o.HaveOccurred())] *)
Definition expect {A} (r : A + error) : go world A :=
  match r with inl a => ret a | inr e => gopanic (err_msg e) end.

(* src: test/extended/util/sar.go 13-36 WaitForSelfSAR *)
Definition WaitForSelfSAR (cfg : rest_config) (ns : string) : go W unit :=
  (r <-! try (PollImmediate (ticks_of Second Minute) (self_sar api cfg ns)) ;;
   match r with
   | inl _ => ret tt
   | inr e => fail (Errorf ("failed to wait for SelfSAR, err: " +:+ err_msg e))
   end)%go.

(* src: test/extended/util/client.go 260-271 CLI.SetupProject (role binding event) *)
Definition rolebinding_condition (t : event_type) : unit + error :=
  match t with
  | Added | Modified => inl tt
  | Deleted => inr (Errorf "object has been deleted")
  | OtherEvent _ => inr (Errorf "internal error: unexpected event <nil>")
  end.

(* src: test/extended/util/client.go 225-237 CLI.SetupProject (service accounts) *)
Definition wait_accounts (c : nat) (ns : string) : go world unit :=
  for_each ["default"; "deployer"; "builder"]%string (λ sa,
    cfg <-! UserConfig c ;;
    r <-! on_server (try (WaitForServiceAccount (account_secrets api cfg ns) sa)) ;;
    expect r)%go.

(* src: test/extended/util/client.go 239-273 CLI.SetupProject (role bindings) *)
Definition wait_rolebindings (c : nat) (ns : string) : go world unit :=
  for_each ["system:image-pullers"; "system:image-builders"; "system:deployers"]%string (λ name,
    cfg <-! UserConfig c ;;
    r <-! on_server (try (first_rolebinding api cfg ns name)) ;;
    t <-! expect r ;;
    expect (rolebinding_condition t))%go.

Definition add_namespace_to_delete (c : nat) (ns : string) : go world unit :=
  (x <-! get_cli c ;;
   f <-! get_framework (kubeFramework x) ;;
   modw (λ w, set_frameworks
     (<[kubeFramework x := mkFramework (BaseName f) (FNamespace f) (SkipNamespaceCreation f)
                             (namespacesToDelete f ++ [ns])]> (frameworks w)) w))%go.

Definition generate_namespace (c : nat) : go world string :=
  (x <-! get_cli c ;;
   f <-! get_framework (kubeFramework x) ;;
   suffix <-! on_server random_name ;;
   ret ("e2e-test-" +:+ BaseName f +:+ "-" +:+ suffix))%go.

(* src: test/extended/util/client.go 199-276 CLI.SetupProject *)
Definition SetupProject (c : nat) : go world unit :=
  (newNamespace <-! generate_namespace c ;;
   SetNamespace c newNamespace ;;!
   ChangeUser c (newNamespace +:+ "-user") ;;!
   cfg <-! UserConfig c ;;
   r <-! on_server (try (create_project api cfg newNamespace)) ;;
   expect r ;;!
   add_namespace_to_delete c newNamespace ;;!
   cfg <-! UserConfig c ;;
   r <-! on_server (try (WaitForSelfSAR cfg newNamespace)) ;;
   expect r ;;!
   wait_accounts c newNamespace ;;!
   wait_rolebindings c newNamespace)%go.

(* src: test/extended/util/client.go 278-304 CLI.CreateProject *)
Definition CreateProject (c : nat) : go world string :=
  (newNamespace <-! generate_namespace c ;;
   cfg <-! UserConfig c ;;
   r <-! on_server (try (create_project api cfg newNamespace)) ;;
   expect r ;;!
   admin <-! AdminConfig c ;;
   r <-! on_server (try (get_namespace api admin newNamespace)) ;;
   actualNs <-! expect r ;;
   add_namespace_to_delete c actualNs ;;!
   cfg <-! UserConfig c ;;
   r <-! on_server (try (WaitForSelfSAR cfg newNamespace)) ;;
   expect r ;;!
   ret newNamespace)%go.

(** The dump of the namespace of a failed test only reads; the errors of the
    deletions are logged. *)
(* src: test/extended/util/client.go 306-321 CLI.TeardownProject *)
Definition TeardownProject (c : nat) : go world unit :=
  (x <-! get_cli c ;;
   (if Nat.ltb 0 (String.length (configPath x))
    then modw (λ w, set_files (delete (configPath x) (files w)) w) else ret tt) ;;!
   cfg <-! AdminConfig c ;;
   x <-! get_cli c ;;
   w <-! getw ;;
   for_each (elems (ref_arrays w) (resourcesToDelete x)) (λ r,
     e <-! on_server (try (delete_resource api cfg r)) ;; ret tt))%go.

(** ** Access *)

(* src: test/extended/util/client.go 775-783 waitForAccess *)
Definition waitForAccess (create : go W bool) (allowed : bool) : go W unit :=
  Poll (ticks_of Second Minute) (a <-! create ;; ret (Bool.eqb a allowed))%go.

(** [review] is the review as it is created with a configuration. *)
(* src: test/extended/util/client.go 751-773 CLI.WaitForAccessAllowed, CLI.WaitForAccessDenied *)
Definition WaitForAccess (allowed : bool) (c : nat) (review : rest_config → go W bool) (user : string)
  : go world (unit + error) :=
  if String.eqb user "system:anonymous" then
    (cfg <-! AdminConfig c ;;
     on_server (try (waitForAccess (review (AnonymousClientConfig cfg)) allowed)))%go
  else
    (cfg <-! GetClientConfigForUser c user ;;
     on_server (try (waitForAccess (review cfg) allowed)))%go.

(** ** What a test registers for deletion *)

(** The API, as far as the users, tokens and OAuth clients that exist go: a
    creation that succeeds adds its object, one that fails adds nothing, and
    the other operations add nothing. *)
Class Accounted (created : W → resourceRef → Prop) : Prop := {
  acc_get_user cfg n v r : created (snd (get_user api cfg n v)) r → created v r;
  acc_create_user cfg n g v r : created (snd (create_user api cfg n g v)) r →
    created v r ∨ ∃ u, fst (create_user api cfg n g v) = Ret u ∧ r = user_ref (UName u);
  acc_create_oauthclient cfg n v r : created (snd (create_oauthclient api cfg n v)) r →
    created v r ∨ fst (create_oauthclient api cfg n v) = (true, None) ∧ r = oauthclient_ref n;
  acc_create_token cfg t v r : created (snd (create_token api cfg t v)) r →
    created v r ∨ ∃ t', fst (create_token api cfg t v) = Ret t' ∧ r = token_ref (TName t');
  acc_project cfg n v r : created (snd (create_project api cfg n v)) r → created v r;
  acc_get_namespace cfg n v r : created (snd (get_namespace api cfg n v)) r → created v r;
  acc_sar cfg n v r : created (snd (self_sar api cfg n v)) r → created v r;
  acc_secrets cfg n sa v r : created (snd (account_secrets api cfg n sa v)) r → created v r;
  acc_rolebinding cfg n b v r : created (snd (first_rolebinding api cfg n b v)) r → created v r;
  acc_whoami cfg v r : created (snd (whoami api cfg v)) r → created v r;
  acc_random v r : (created (snd (random_name v)) r → created v r) ∧
                   (created (snd (random_uuid v)) r → created v r);
  acc_delete cfg d v r : created (snd (delete_resource api cfg d v)) r → created v r
}.

Section Tracking.
Context (created : W → resourceRef → Prop) `{!Accounted created} (c : nat).

(** The resources the client will delete. *)
Definition registered (w : world) : list resourceRef :=
  match clis w !! c with
  | Some x => elems (ref_arrays w) (resourcesToDelete x)
  | None => []
  end.

(** Everything that was created is registered. *)
Record tracked (w : world) : Prop := {
  tr_client : is_Some (clis w !! c);
  tr_slice : ∀ x, clis w !! c = Some x → slice_ok (ref_arrays w) (resourcesToDelete x);
  tr_created : ∀ r, created (server w) r → r ∈ registered w
}.

(** A step that leaves the client's list and creates nothing. *)
Lemma tracked_step w w' :
  ref_arrays w' = ref_arrays w → (resourcesToDelete <$> clis w' !! c) = (resourcesToDelete <$> clis w !! c) →
  (∀ r, created (server w') r → created (server w) r) → tracked w → tracked w'.
Proof.
  intros Ha Hc Hs [H0 H1 H2]. assert (registered w' = registered w) as Hr.
  { unfold registered. rewrite Ha. destruct (clis w' !! c), (clis w !! c); simplify_eq/=; congruence. }
  split.
  - destruct H0 as [x H0]. rewrite H0 in Hc. destruct (clis w' !! c); [eauto|done].
  - intros x Hx. rewrite Ha. destruct (clis w !! c) as [y|] eqn:Hy; rewrite Hx in Hc; [|done].
    cbn in Hc. injection Hc as ->. by apply H1.
  - intros r Hr'. rewrite Hr. auto.
Qed.

Lemma keeps_tracked_read {A} (m : go world A) : (∀ w, snd (m w) = w) → keeps tracked m.
Proof. intros H w Hw. by rewrite H. Qed.

Lemma keeps_tracked_mod f :
  (∀ w, ref_arrays (f w) = ref_arrays w) → (∀ w, clis (f w) = clis w) →
  (∀ w, server (f w) = server w) → keeps tracked (modw f).
Proof.
  intros H1 H2 H3 w. apply tracked_step; cbn; [by rewrite H1|by rewrite H2|by rewrite H3].
Qed.

(** A call of the API that creates nothing. *)
Lemma keeps_tracked_server {A} (m : go W A) :
  (∀ v r, created (snd (m v)) r → created v r) → keeps tracked (on_server m).
Proof.
  intros H w Hw. unfold on_server. specialize (H (server w)). destruct (m (server w)) as [a v].
  by apply (tracked_step w).
Qed.

(** The client is written back with the list it had. *)
Lemma keeps_tracked_get {A} d (k : CLI → go world A) :
  (∀ x w, clis w !! d = Some x → tracked w → tracked (snd (k x w))) →
  keeps tracked (gobind (get_cli d) k).
Proof.
  intros Hk w Hw. unfold gobind, get_cli. destruct (clis w !! d) as [x|] eqn:Hx; [|done]. by apply Hk.
Qed.

Lemma tracked_put w x x' :
  clis w !! c = Some x → resourcesToDelete x' = resourcesToDelete x → tracked w →
  tracked (set_clis (<[c := x']> (clis w)) w).
Proof.
  intros Hx Hr. apply tracked_step; [done| |done]. cbn.
  rewrite list_lookup_insert_eq by (by eapply lookup_lt_Some). rewrite Hx. cbn. by rewrite Hr.
Qed.

(** Registering a resource. *)
Lemma AddResource_spec w r x :
  clis w !! c = Some x → slice_ok (ref_arrays w) (resourcesToDelete x) →
  ∃ w', AddResource c r w = (Ret tt, w') ∧ registered w' = registered w ++ [r] ∧
    server w' = server w ∧ ∃ x', clis w' !! c = Some x' ∧
      slice_ok (ref_arrays w') (resourcesToDelete x').
Proof.
  intros Hx Hok. unfold AddResource, gobind, getw. rewrite (get_cli_Some _ _ _ Hx).
  destruct (append no_ref spare (resourcesToDelete x) [r] (ref_arrays w)) as [s h] eqn:Ea.
  destruct (append_spec _ _ _ _ _ _ _ Ea Hok) as (He & Hok' & _).
  eexists. split; [reflexivity|]. unfold registered. cbn.
  assert (<[c:=with_refs s x]> (clis w) !! c = Some (with_refs s x)) as Hl
    by (apply list_lookup_insert_eq; by eapply lookup_lt_Some).
  rewrite Hl, Hx. split; [done|]. split; [done|]. by exists (with_refs s x).
Qed.

(** A creation followed by its registration. *)
Lemma create_and_add {A B} (m : go W A) (ref : A → resourceRef) (k : A → go world B) :
  (∀ v r, created (snd (m v)) r → created v r ∨ ∃ a, fst (m v) = Ret a ∧ r = ref a) →
  (∀ a, keeps tracked (k a)) →
  keeps tracked (r <-! on_server (try m) ;; a <-! fatal_on r ;; AddResource c (ref a) ;;! k a)%go.
Proof.
  intros Hm Hk w Hw. specialize (Hm (server w)). unfold gobind at 1, on_server, try.
  destruct (m (server w)) as [[a|e|p] v] eqn:Em; cbn [fst snd] in Hm.
  - set (w1 := set_server v w). unfold fatal_on. rewrite gobind_ret.
    destruct Hw as [[x Hx] H1 H2].
    destruct (AddResource_spec w1 (ref a) x Hx (H1 x Hx)) as (w2 & E & Hr & Hs & x' & Hx' & Hok).
    unfold gobind at 1. rewrite E. apply Hk. split.
    + eauto.
    + intros y Hy. rewrite Hx' in Hy. by injection Hy as <-.
    + intros r Hcr. rewrite Hs in Hcr. rewrite Hr, elem_of_app, list_elem_of_singleton.
      destruct (Hm r Hcr) as [Hv|(a' & [= <-] & ->)]; [left|by right]. by apply H2.
  - unfold gobind, fatal_on, FatalErr, gopanic. cbn. apply (tracked_step w); try done.
    intros r Hr. cbn in Hr. destruct (Hm r Hr) as [?|(? & ? & _)]; done.
  - cbn. apply (tracked_step w); try done.
    intros r Hr. cbn in Hr. destruct (Hm r Hr) as [?|(? & ? & _)]; done.
Qed.

Lemma keeps_tracked_framework f : keeps tracked (get_framework f).
Proof. apply keeps_tracked_read. intros w. unfold get_framework. by destruct (frameworks w !! f). Qed.
Lemma keeps_tracked_get_cli d : keeps tracked (get_cli d).
Proof. apply keeps_tracked_read. intros w. unfold get_cli. by destruct (clis w !! d). Qed.
Lemma keeps_tracked_panic {A} m : keeps tracked (gopanic (A := A) m).
Proof. by intros w Hw. Qed.
Lemma keeps_tracked_fatal {A} (r : A + error) : keeps tracked (fatal_on r).
Proof. destruct r; by intros w Hw. Qed.
Lemma keeps_tracked_expect {A} (r : A + error) : keeps tracked (expect r).
Proof. destruct r; by intros w Hw. Qed.
Hint Resolve keeps_tracked_framework keeps_tracked_get_cli keeps_tracked_panic
  keeps_tracked_fatal keeps_tracked_expect : ott.

Ltac tracking :=
  repeat first
    [ progress cbv zeta
    | apply create_and_add; [|intros ?]
    | apply keeps_bind; [|intros ?]
    | match goal with
      | |- keeps _ (if ?b then _ else _) => destruct b
      | |- keeps _ (match ?b with _ => _ end) => destruct b
      end
    | by auto with ott ].

Lemma keeps_tracked_Namespace d : keeps tracked (Namespace d).
Proof. unfold Namespace. tracking. Qed.
Lemma keeps_tracked_UserConfig d : keeps tracked (UserConfig d).
Proof. unfold UserConfig. tracking. Qed.
Lemma keeps_tracked_AdminConfig d : keeps tracked (AdminConfig d).
Proof. unfold AdminConfig. tracking. Qed.
Hint Resolve keeps_tracked_Namespace keeps_tracked_UserConfig keeps_tracked_AdminConfig : ott.

Lemma keeps_CreateUser prefix : keeps tracked (CreateUser c prefix).
Proof.
  unfold CreateUser. tracking. intros v r. apply acc_create_user.
Qed.

Lemma snd_try {V A} (m : go V A) v : snd (try m v) = snd (m v).
Proof. unfold try. by destruct (m v) as [[] ?]. Qed.

Lemma keeps_ensure_user cfg name : keeps tracked (ensure_user c cfg name).
Proof.
  unfold ensure_user. apply keeps_bind.
  - apply keeps_tracked_server. intros v r. rewrite snd_try. apply acc_get_user.
  - intros [u|e]; [auto with ott|]. destruct (negb _); [apply keeps_tracked_panic|].
    tracking. intros v r. apply acc_create_user.
Qed.

Lemma keeps_ensure_oauthclient cfg : keeps tracked (ensure_oauthclient c cfg).
Proof.
  unfold ensure_oauthclient. apply keeps_bind; [auto with ott|]. intros ns w Hw. cbv zeta.
  unfold gobind at 1, on_server.
  pose proof (acc_create_oauthclient cfg ("e2e-client-" +:+ ns) (server w)) as Hc.
  destruct (create_oauthclient api cfg ("e2e-client-" +:+ ns) (server w)) as [[obj err] v].
  cbn [fst snd] in Hc. set (w1 := set_server v w).
  assert (obj = false ∨ err ≠ None → tracked w1) as Hsame.
  { intros Ho. apply (tracked_step w); try done. intros r Hr.
    destruct (Hc r Hr) as [?|[[= -> ->] _]]; [done|]. by destruct Ho. }
  assert (∀ a, keeps tracked (ret a : go world string)) as Hret by auto with ott.
  destruct obj.
  2: { unfold gobind. destruct err as [e|]; [destruct (is_kind _ e)|]; cbn; apply Hsame; by left. }
  assert (err = None ∨ tracked w1) as Herr.
  { destruct err; [right; apply Hsame; by right|by left]. }
  assert (is_Some (clis w1 !! c) ∧ ∀ x, clis w1 !! c = Some x → slice_ok (ref_arrays w1) (resourcesToDelete x))
    as [[x Hx] Hok] by (split; apply Hw).
  destruct (AddResource_spec w1 (oauthclient_ref ("e2e-client-" +:+ ns)) x Hx (Hok x Hx))
    as (w2 & E & Hr & Hs & x' & Hx' & Hok').
  assert (tracked w2) as Hw2.
  { split; [eauto|intros y Hy; rewrite Hx' in Hy; by injection Hy as <-|].
    intros r Hcr. rewrite Hs in Hcr. rewrite Hr, elem_of_app, list_elem_of_singleton.
    destruct (Hc r Hcr) as [Hv|[_ ->]]; [left; by apply Hw|by right]. }
  destruct err as [e|]; [destruct (is_kind KAlreadyExists e)|]; unfold gobind, ret; cbn beta match.
  - by rewrite E.
  - destruct Herr; [done|]. done.
  - by rewrite E.
Qed.

Lemma keeps_GetClientConfigForUser name : keeps tracked (GetClientConfigForUser c name).
Proof.
  unfold GetClientConfigForUser.
  apply keeps_bind; [auto with ott|intros cfg].
  apply keeps_bind; [apply keeps_ensure_user|intros user].
  apply keeps_bind; [auto with ott|intros cfg'].
  apply keeps_bind; [apply keeps_ensure_oauthclient|intros client].
  apply keeps_bind; [apply keeps_tracked_server; intros v r; apply acc_random|intros uuid].
  destruct (GenerateOAuthTokenPair uuid) as [priv pub].
  apply create_and_add; [intros v r; apply acc_create_token|intros t].
  apply keeps_bind; [auto with ott|intros cfg2]. auto with ott.
Qed.

Lemma createConfig_quiet ns cfg v r : created (snd (createConfig ns cfg v)) r → created v r.
Proof.
  assert (keeps (λ v', created v' r → created v r) (getUserPartOfNickname cfg)) as Hu.
  { unfold getUserPartOfNickname. apply keeps_bind.
    - apply keeps_try. intros v' Hv' Hr. apply Hv'. by eapply acc_whoami.
    - intros [u|e]; [apply keeps_ret|]. destruct (_ || _); [apply keeps_ret|apply keeps_fail]. }
  assert (keeps (λ v', created v' r → created v r) (createConfig ns cfg)) as H; [|by apply H].
  unfold createConfig, getUserNicknameFromConfig, getContextNicknameFromConfig.
  repeat (apply keeps_bind; [try apply keeps_of_sum; try apply Hu|intros ?]); try apply keeps_ret.
  all: repeat (apply keeps_bind; [try apply keeps_of_sum; try apply Hu|intros ?]); apply keeps_ret.
Qed.

Lemma keeps_get_put {A} (f : CLI → CLI) (k : go world A) :
  (∀ x, resourcesToDelete (f x) = resourcesToDelete x) → keeps tracked k →
  keeps tracked (gobind (get_cli c) (λ x, gobind (put_cli c (f x)) (λ _, k))).
Proof.
  intros Hf Hk. apply keeps_tracked_get. intros x w Hx Hw. unfold gobind, put_cli, modw.
  apply Hk. by apply (tracked_put _ x).
Qed.

Lemma keeps_print m : keeps tracked (modw (print m)).
Proof. by apply keeps_tracked_mod. Qed.
Lemma keeps_set_files f : keeps tracked (modw (λ w, set_files (f w) w)).
Proof. by apply keeps_tracked_mod. Qed.
Lemma keeps_set_frameworks f : keeps tracked (modw (λ w, set_frameworks (f w) w)).
Proof. by apply keeps_tracked_mod. Qed.
Hint Resolve keeps_print keeps_set_files keeps_set_frameworks : ott.

Lemma keeps_ChangeUser name : keeps tracked (ChangeUser c name).
Proof.
  unfold ChangeUser. apply keeps_bind; [apply keeps_GetClientConfigForUser|intros cfg].
  apply keeps_bind; [auto with ott|intros ns].
  apply keeps_bind; [apply keeps_tracked_server; intros v r; rewrite snd_try; apply createConfig_quiet|intros r].
  apply keeps_bind; [auto with ott|intros k]. apply keeps_bind; [auto with ott|intros w0]. cbv zeta.
  apply (keeps_get_put (with_configPath (temp_file (files w0)))); [done|].
  destruct (write_error _); [apply keeps_tracked_panic|].
  apply keeps_bind; [auto with ott|intros _].
  apply (keeps_get_put (with_username name)); [done|]. tracking.
Qed.

Lemma keeps_SetNamespace d ns : keeps tracked (SetNamespace d ns).
Proof. unfold SetNamespace. tracking. Qed.

(** An API call inside a wait. *)
Lemma quiet_wait {A} (m : go W A) (v : W) r :
  (∀ v r, created (snd (m v)) r → created v r) → keeps (λ v', created v' r → created v r) m.
Proof. intros H v' Hv' Hr. apply Hv'. by eapply H. Qed.

(** API calls that create no resource. *)
Lemma keeps_tracked_try {A} (m : go W A) :
  (∀ v r, created (snd (m v)) r → created v r) → keeps tracked (on_server (try m)).
Proof. intros Hm. apply keeps_tracked_server. intros v r. rewrite snd_try. apply Hm. Qed.

Lemma keeps_server_of {A} (m : go W A) :
  (∀ v r, keeps (λ v', created v' r → created v r) m) → keeps tracked (on_server (try m)).
Proof. intros Hm. apply keeps_tracked_try. intros v r. by apply (Hm v r). Qed.

Lemma keeps_random_name : keeps tracked (on_server random_name).
Proof. apply keeps_tracked_server. intros v r. apply acc_random. Qed.
Lemma keeps_create_project cfg n : keeps tracked (on_server (try (create_project api cfg n))).
Proof. apply keeps_tracked_try. intros v r. apply acc_project. Qed.
Lemma keeps_get_namespace cfg n : keeps tracked (on_server (try (get_namespace api cfg n))).
Proof. apply keeps_tracked_try. intros v r. apply acc_get_namespace. Qed.
Lemma keeps_first_rolebinding cfg n b : keeps tracked (on_server (try (first_rolebinding api cfg n b))).
Proof. apply keeps_tracked_try. intros v r. apply acc_rolebinding. Qed.
Lemma keeps_WaitForSelfSAR cfg n : keeps tracked (on_server (try (WaitForSelfSAR cfg n))).
Proof.
  apply keeps_server_of. intros v r. unfold WaitForSelfSAR. apply keeps_bind; [|intros [|]; auto with ott].
  apply keeps_try, keeps_PollImmediate, quiet_wait. intros; by eapply acc_sar.
Qed.
Lemma keeps_wait_account cfg n sa :
  keeps tracked (on_server (try (WaitForServiceAccount (account_secrets api cfg n) sa))).
Proof.
  apply keeps_server_of. intros v r. unfold WaitForServiceAccount. apply keeps_WaitFor, keeps_bind.
  - apply keeps_try, quiet_wait. intros; by eapply acc_secrets.
  - intros [|e]; [auto with ott|]. destruct (_ || _); auto with ott.
Qed.
Hint Resolve keeps_random_name keeps_create_project keeps_get_namespace keeps_first_rolebinding
  keeps_WaitForSelfSAR keeps_wait_account keeps_SetNamespace keeps_ChangeUser
  keeps_GetClientConfigForUser keeps_CreateUser : ott.

#[local] Hint Constants Opaque : ott.

Ltac steps := repeat first
  [ match goal with
    | |- keeps _ (gobind _ _) => apply keeps_bind; [|intros ?]
    | |- keeps _ (for_each _ _) => apply keeps_for_each; intros ?
    end
  | by auto with ott ].

Lemma keeps_SetupProject : keeps tracked (SetupProject c).
Proof. unfold SetupProject, generate_namespace, add_namespace_to_delete, wait_accounts, wait_rolebindings. steps. Qed.

Lemma keeps_CreateProject : keeps tracked (CreateProject c).
Proof. unfold CreateProject, generate_namespace, add_namespace_to_delete. steps. Qed.

Lemma keeps_WaitForAccess b (review : rest_config → go W bool) u :
  (∀ cfg v r, created (snd (review cfg v)) r → created v r) → keeps tracked (WaitForAccess b c review u).
Proof.
  intros Hr. assert (∀ cfg, keeps tracked (on_server (try (waitForAccess (review cfg) b)))) as H.
  { intros cfg. apply keeps_server_of. intros v r. apply keeps_WaitFor, keeps_bind; [|auto with ott].
    apply quiet_wait. intros; by eapply Hr. }
  unfold WaitForAccess. destruct (String.eqb _ _); (apply keeps_bind; [by auto with ott|intros ?; apply H]).
Qed.

Lemma keeps_AddResource r : keeps tracked (AddResource c r).
Proof.
  intros w [[x Hx] H1 H2]. destruct (AddResource_spec w r x Hx (H1 x Hx)) as (w' & -> & Hr & Hs & x' & Hx' & Hok).
  cbn [snd]. split; [eauto|intros y Hy; rewrite Hx' in Hy; by injection Hy as <-|].
  intros r' Hc. rewrite Hs in Hc. rewrite Hr, elem_of_app. left. by apply H2.
Qed.
End Tracking.
End User.
