(* ===== verification/CliCleanup.v ===== *)
(** * test/extended/util/client.go: what is left when a test ends

    The operations of a test on its client, in any order and with a test body
    that may end at any of them, followed by the teardown; the kubeconfig files
    and the lists of resources of copied clients, where the code leaves
    something behind; the project of a test. *)

From stdpp Require Import stringmap.
From S2P Require Import Prelude.
From S2P Require Import GoStrings.
From S2P Require Import GoLib.
From S2P Require Import GoSlice.
From S2P Require Import GoSha256.
From S2P Require Import Waits.
From S2P Require Import Cli.
From S2P Require Import CliUser.

Section Cleanup.
Context {W : Type} (api : oc_api W).
Variable canonical_addr : string → string + error.
Variable client_config : kubeconfig → rest_config + error.
Variable random_name : go W string.
Variable random_uuid : go W string.
Variable temp_file : gmap string kubeconfig → string.
Variable write_error : string → option error.
Variable spare : nat → nat → nat.

Notation world := (Cli.world W kubeconfig).
#[local] Notation ChangeUser :=
  (ChangeUser api canonical_addr client_config random_uuid temp_file write_error spare).
#[local] Notation SetupProject :=
  (SetupProject api canonical_addr client_config random_name random_uuid temp_file write_error spare).
#[local] Notation CreateProject := (CreateProject api client_config random_name).
#[local] Notation GetClientConfigForUser := (GetClientConfigForUser api client_config random_uuid spare).
#[local] Notation TeardownProject := (TeardownProject api client_config).

(** ** The operations of a test *)

(** The calls of a test that create users, tokens, OAuth clients or projects,
    and those that set the client up. *)
Inductive user_op :=
  | UCreateUser (prefix : string)
  | UChangeUser (name : string)
  | UClientConfig (name : string)
  | UAccess (allowed : bool) (review : rest_config → go W bool) (user : string)
  | UAddResource (r : resourceRef)
  | USetNamespace (ns : string)
  | USetupProject
  | UCreateProject.

Definition void {A} (m : go world A) : go world unit := (m ;;! ret tt)%go.

Definition do_op (c : nat) (o : user_op) : go world unit :=
  match o with
  | UCreateUser p => void (CreateUser api client_config spare c p)
  | UChangeUser n => void (ChangeUser c n)
  | UClientConfig n => void (GetClientConfigForUser c n)
  | UAccess b review u => void (WaitForAccess api client_config random_uuid spare b c review u)
  | UAddResource r => AddResource spare c r
  | USetNamespace ns => void (SetNamespace c ns)
  | USetupProject => SetupProject c
  | UCreateProject => void (CreateProject c)
  end.

(** The body of a test ends at the first operation that fails. *)
Definition do_ops (c : nat) (l : list user_op) : go world unit := for_each l (do_op c).

Lemma AdminConfig_Ret c x (w : world) cfg :
  clis w !! c = Some x → getClientConfig client_config (adminConfigPath x) (files w) = inl cfg →
  AdminConfig client_config c w = (Ret cfg, w).
Proof.
  intros Hx Hc. unfold AdminConfig, gobind. rewrite (get_cli_Some _ _ _ Hx). unfold getw. by rewrite Hc.
Qed.

Section Tracking.
Context (created : W → resourceRef → Prop) `{!Accounted api random_name random_uuid created} (c : nat).
Notation tracked := (tracked created c).

(** A review creates a review only. *)
Definition op_quiet (o : user_op) : Prop :=
  match o with
  | UAccess _ review _ => ∀ cfg v r, created (snd (review cfg v)) r → created v r
  | _ => True
  end.

Lemma keeps_void {A} (m : go world A) : keeps tracked m → keeps tracked (void m).
Proof. intros H. apply keeps_bind; [done|]. intros _. apply keeps_ret. Qed.

Lemma keeps_do_op o : op_quiet o → keeps tracked (do_op c o).
Proof.
  destruct o; cbn; intros Hq; try apply keeps_void.
  - by eapply keeps_CreateUser.
  - by eapply keeps_ChangeUser.
  - by eapply keeps_GetClientConfigForUser.
  - by eapply keeps_WaitForAccess.
  - by apply keeps_AddResource.
  - by apply keeps_SetNamespace.
  - by eapply keeps_SetupProject.
  - by eapply keeps_CreateProject.
Qed.

Lemma keeps_do_ops l : Forall op_quiet l → keeps tracked (do_ops c l).
Proof.
  induction 1 as [|o l Ho _ IH]; [apply keeps_ret|].
  apply keeps_bind; [by apply keeps_do_op|by intros _].
Qed.

(** Deleting the resources of a list: the errors do not end the loop. *)
Context (Hdel : ∀ cfg r v,
  (fst (delete_resource api cfg r v) = Ret tt ∧ ¬ created (snd (delete_resource api cfg r v)) r) ∨
  ∃ e, fst (delete_resource api cfg r v) = Fail e).

(** The server after the deletions of a list. *)
Definition after_deletes (cfg : rest_config) (l : list resourceRef) (v : W) : W :=
  fold_left (λ v r, snd (delete_resource api cfg r v)) l v.

Lemma delete_all cfg l (w : world) :
  ∃ w', for_each l (λ r, e <-! on_server (try (delete_resource api cfg r)) ;; ret tt)%go w = (Ret tt, w') ∧
    files w' = files w ∧ clis w' = clis w ∧ server w' = after_deletes cfg l (server w) ∧
    ∀ r, created (server w') r → created (server w) r ∧
      ∀ i, l !! i = Some r →
        ∃ e, fst (delete_resource api cfg r (after_deletes cfg (take i l) (server w))) = Fail e.
Proof.
  revert w. induction l as [|d l IH]; intros w; cbn [for_each].
  { exists w. split_and!; try done. }
  pose proof (Hdel cfg d (server w)) as Hd.
  assert (∀ r, created (snd (delete_resource api cfg d (server w))) r → created (server w) r) as Ha
    by (intros r Hr; eapply @acc_delete; eassumption).
  assert (∃ s v, on_server (try (delete_resource api cfg d)) w = (Ret s, set_server v w) ∧
    v = snd (delete_resource api cfg d (server w))) as (s & v & E & ->).
  { unfold on_server, try. destruct (delete_resource api cfg d (server w)) as [o v]. cbn in Hd.
    destruct Hd as [[-> _]|[e ->]]; by do 2 eexists. }
  destruct (IH (set_server (snd (delete_resource api cfg d (server w))) w)) as (w' & IHe & Hf & Hc & Hs & Hr).
  rewrite (gobind_Ret _ _ w tt (set_server (snd (delete_resource api cfg d (server w))) w))
    by (by rewrite (gobind_Ret _ _ _ _ _ E)).
  rewrite IHe.
  exists w'. split_and!; try done. intros r Hcr. destruct (Hr r Hcr) as [Hv Hl]. cbn in Hv.
  split; [by apply Ha|]. intros [|i] Hi; cbn in Hi; [|by apply Hl].
  injection Hi as ->. cbn. destruct Hd as [[_ Hn]|[e He]]; [done|eauto].
Qed.

(** C30: a test that calls the operations of its client in any order, and that
    may fail at any of them, leaves nothing behind that the teardown could
    delete: every user, OAuth client and token that the test created is in the
    client's list; [TeardownProject] deletes the entries of the list one after
    the other, whether or not the ones before succeeded; and what still exists
    after it was in the list, and the API answered the teardown's own deletion
    of it with an error.  The API is one that deletes what it says it deleted
    and creates only what it answers ([Accounted]).  It is the test's own
    client: an operation on a copy of it registers with the copy, and is not
    covered (see [copies_lose_resources]); nor are the kubeconfig files, of which
    the teardown removes the last only (see [kubeconfigs_left_behind]). *)
Theorem test_leaves_nothing ops w x cfg :
  let w1 := snd (do_ops c ops w) in
  tracked w → Forall op_quiet ops → clis w1 !! c = Some x →
  configPath x ≠ adminConfigPath x →
  getClientConfig client_config (adminConfigPath x) (files w1) = inl cfg →
  let l := elems (ref_arrays w1) (resourcesToDelete x) in
  let deleted k := fold_left (λ v r, snd (delete_resource api cfg r v)) (take k l) (server w1) in
  (∀ r, created (server w1) r → r ∈ l) ∧
  ∃ w2, TeardownProject c w1 = (Ret tt, w2) ∧ server w2 = deleted (length l) ∧
    ∀ r, created (server w2) r →
      r ∈ l ∧ ∀ i, l !! i = Some r → ∃ e, fst (delete_resource api cfg r (deleted i)) = Fail e.
Proof.
  intros w1 Hw Hq Hx Hp Hcfg l deleted. pose proof (keeps_do_ops ops Hq w Hw) as [_ _ Hall].
  fold w1 in Hall. assert (registered c w1 = l) as El by (unfold registered; by rewrite Hx).
  rewrite El in Hall. split; [done|].
  unfold CliUser.TeardownProject. unfold gobind at 1. rewrite (get_cli_Some _ _ _ Hx).
  match goal with |- context [gobind (if ?b then modw ?f else ret tt) _ w1] =>
    assert (∃ fs, (if b then modw f else ret tt) w1 = (Ret tt, set_files fs w1) ∧
              fs !! adminConfigPath x = files w1 !! adminConfigPath x) as (fs & Hrm & Hfs) end.
  { destruct (Nat.ltb _ _).
    - eexists. split; [reflexivity|]. by rewrite lookup_delete_ne.
    - exists (files w1). split; [|done]. by destruct w1. }
  rewrite (gobind_Ret _ _ _ _ _ Hrm).
  assert (getClientConfig client_config (adminConfigPath x) (files (set_files fs w1)) = inl cfg) as Hfs'
    by (unfold getClientConfig in *; cbn [set_files files]; by rewrite Hfs).
  rewrite (gobind_Ret _ _ _ _ _ (AdminConfig_Ret _ _ (set_files fs w1) _ Hx Hfs')).
  unfold gobind at 1. rewrite (get_cli_Some (set_files fs w1) _ _ Hx). unfold gobind at 1, getw.
  change (ref_arrays (set_files fs w1)) with (ref_arrays w1). fold l.
  destruct (delete_all cfg l (set_files fs w1)) as (w2 & -> & _ & _ & Hs & Hr).
  exists w2. split; [done|]. split; [unfold deleted; by rewrite firstn_all|].
  intros r Hc. destruct (Hr r Hc) as [Hv Hl]. split; [by apply Hall|]. apply Hl.
Qed.
End Tracking.

(** ** What the creation of a user leaves as it was *)

(** Two worlds that differ in the server, in the lists of resources and in the
    lines that were printed. *)
Record framed (w w' : world) : Prop := {
  fr_files : files w' = files w;
  fr_frameworks : frameworks w' = frameworks w;
  fr_clis : ∀ d, with_refs None <$> clis w' !! d = with_refs None <$> clis w !! d
}.

Lemma framed_refl w : framed w w.
Proof. done. Qed.

Section Framed.
Context (w0 : world).
Notation kept := (keeps (framed w0)).

Lemma framed_read {A} (m : go world A) : (∀ w, snd (m w) = w) → kept m.
Proof. intros H w Hw. by rewrite H. Qed.
Lemma framed_server {A} (m : go W A) : kept (on_server m).
Proof. intros w [H1 H2 H3]. unfold on_server. by destruct (m (server w)). Qed.
Lemma framed_get c : kept (get_cli c).
Proof. apply framed_read. intros w. unfold get_cli. by destruct (clis w !! c). Qed.
Lemma framed_get_framework f : kept (get_framework f).
Proof. apply framed_read. intros w. unfold get_framework. by destruct (frameworks w !! f). Qed.
Lemma framed_fatal {A} (r : A + error) : kept (fatal_on r).
Proof. destruct r; by intros w Hw. Qed.
Lemma framed_FatalErr {A} m : kept (FatalErr (A := A) m).
Proof. by intros w Hw. Qed.
Lemma framed_AddResource c r : kept (AddResource spare c r).
Proof.
  intros w [H1 H2 H3]. unfold AddResource, gobind, get_cli, getw, modw, put_cli.
  destruct (clis w !! c) as [x|] eqn:Hx; [|done]. destruct (append _ _ _ _ _) as [s h]. cbn.
  split; [done..|]. intros d. cbn. rewrite <- H3. destruct (decide (c = d)) as [<-|Hne].
  - rewrite list_lookup_insert_eq by (by eapply lookup_lt_Some). by rewrite Hx.
  - by rewrite list_lookup_insert_ne.
Qed.

Hint Resolve keeps_ret keeps_getw framed_server framed_get framed_get_framework framed_fatal
  framed_FatalErr framed_AddResource : framed.
#[local] Hint Constants Opaque : framed.

Ltac framing := repeat first
  [ match goal with
    | |- keeps _ (gobind _ _) => apply keeps_bind; [|intros ?]
    | |- keeps _ (let '(_, _) := ?p in _) => destruct p
    | |- keeps _ (match ?b with _ => _ end) => destruct b
    end
  | by auto with framed ].

Lemma framed_Namespace c : kept (Namespace c).
Proof. unfold Namespace. framing. Qed.
Lemma framed_AdminConfig c : kept (AdminConfig client_config c).
Proof. unfold AdminConfig. framing. Qed.
Hint Resolve framed_Namespace framed_AdminConfig : framed.

Lemma framed_ensure_user c cfg name : kept (ensure_user api spare c cfg name).
Proof. unfold ensure_user. framing. Qed.
Lemma framed_ensure_oauthclient c cfg : kept (ensure_oauthclient api spare c cfg).
Proof. unfold ensure_oauthclient. cbv zeta. framing. Qed.
Hint Resolve framed_ensure_user framed_ensure_oauthclient : framed.

Lemma framed_GetClientConfigForUser c name : kept (GetClientConfigForUser c name).
Proof. unfold CliUser.GetClientConfigForUser. cbv zeta. framing. Qed.
End Framed.

Lemma GetClientConfigForUser_framed c name w : framed w (snd (GetClientConfigForUser c name w)).
Proof. apply framed_GetClientConfigForUser, framed_refl. Qed.

Lemma framed_cli w w' c x' :
  framed w w' → clis w' !! c = Some x' →
  ∃ x, clis w !! c = Some x ∧ configPath x' = configPath x ∧ adminConfigPath x' = adminConfigPath x ∧
    kubeFramework x' = kubeFramework x.
Proof.
  intros [_ _ H] Hx'. specialize (H c). rewrite Hx' in H. destruct (clis w !! c) as [x|]; [|done].
  cbn in H. exists x. unfold with_refs in H. by injection H.
Qed.

Lemma AdminConfig_framed c w0 x w cfg w' :
  framed w0 w → clis w0 !! c = Some x → AdminConfig client_config c w = (Ret cfg, w') →
  w' = w ∧ getClientConfig client_config (adminConfigPath x) (files w0) = inl cfg.
Proof.
  intros Hf Hx H. unfold AdminConfig in H. apply gobind_Ret_inv in H as (y & wa & H1 & H).
  unfold get_cli in H1. destruct (clis w !! c) as [y'|] eqn:Hy; [|done]. injection H1 as -> <-.
  destruct (framed_cli _ _ _ _ Hf Hy) as (x' & Hx' & _ & Hp & _). rewrite Hx in Hx'. injection Hx' as <-.
  unfold gobind, getw in H. rewrite Hp, (fr_files _ _ Hf) in H.
  destruct (getClientConfig _ _ _) as [cfg'|e]; [|done]. by injection H as -> ->.
Qed.

Lemma Namespace_framed c w0 x f w ns w' :
  framed w0 w → clis w0 !! c = Some x → frameworks w0 !! kubeFramework x = Some f →
  Namespace c w = (Ret ns, w') → w' = w ∧ ns = default "" (FNamespace f).
Proof.
  intros Hf Hx Hfr H. unfold Namespace in H. apply gobind_Ret_inv in H as (y & wa & H1 & H).
  unfold get_cli in H1. destruct (clis w !! c) as [y'|] eqn:Hy; [|done]. injection H1 as -> <-.
  destruct (framed_cli _ _ _ _ Hf Hy) as (x' & Hx' & _ & _ & Hk). rewrite Hx in Hx'. injection Hx' as <-.
  unfold gobind, get_framework in H. rewrite Hk, (fr_frameworks _ _ Hf), Hfr in H.
  by injection H as <- <-.
Qed.

(** A step of a computation that keeps the frame. *)
Lemma framed_inv {A B} w0 (m : go world A) (k : A → go world B) w b w' :
  gobind m k w = (Ret b, w') → framed w0 w → keeps (framed w0) m →
  ∃ a w1, m w = (Ret a, w1) ∧ framed w0 w1 ∧ k a w1 = (Ret b, w').
Proof.
  intros (a & w1 & H1 & H2)%gobind_Ret_inv Hw Hk. exists a, w1. split; [done|]. split; [|done].
  specialize (Hk w Hw). by rewrite H1 in Hk.
Qed.

Lemma on_server_try_Ret {A} (m : go W A) (w : world) a w' :
  on_server (try m) w = (Ret (inl a), w') → fst (m (server w)) = Ret a.
Proof.
  unfold on_server, try. destruct (m (server w)) as [[b|e|p] v]; intros H; by simplify_eq/=.
Qed.

(** The user exists, or is created. *)
Definition user_found (admin : rest_config) (name : string) (user : User) : Prop :=
  ∃ v, fst (get_user api admin name v) = Ret user ∨ fst (create_user api admin name "" v) = Ret user.

Lemma ensure_user_found c cfg name (w : world) user w' :
  ensure_user api spare c cfg name w = (Ret user, w') → user_found cfg name user.
Proof.
  unfold ensure_user. intros (r & w1 & H1 & H)%gobind_Ret_inv. destruct r as [u|e].
  - injection H as -> _. exists (server w). left. by eapply on_server_try_Ret.
  - destruct (negb _); [done|]. apply gobind_Ret_inv in H as (r & w2 & H2 & H).
    apply gobind_Ret_inv in H as (u & w3 & H3 & H). destruct r as [u'|e']; [|done]. injection H3 as -> <-.
    apply gobind_Ret_inv in H as ([] & w4 & _ & H). injection H as -> _.
    exists (server w1). right. by eapply on_server_try_Ret.
Qed.

Lemma ensure_oauthclient_name c cfg w0 x f (w : world) n w' :
  framed w0 w → clis w0 !! c = Some x → frameworks w0 !! kubeFramework x = Some f →
  ensure_oauthclient api spare c cfg w = (Ret n, w') → n = "e2e-client-" +:+ default "" (FNamespace f).
Proof.
  intros Hw Hx Hf H. unfold ensure_oauthclient in H. apply gobind_Ret_inv in H as (ns & w1 & H1 & H).
  destruct (Namespace_framed _ _ _ _ _ _ _ Hw Hx Hf H1) as [-> ->]. cbv zeta in H.
  apply gobind_Ret_inv in H as ([obj err] & w2 & _ & H).
  apply gobind_Ret_inv in H as ([] & w3 & _ & H). apply gobind_Ret_inv in H as ([] & w4 & _ & H).
  by injection H as <- _.
Qed.

(** The configuration of a user: that of the administrator without its
    credentials, with a token that was created for the user. *)
Lemma GetClientConfigForUser_Ret c name w x f cfg w' :
  clis w !! c = Some x → frameworks w !! kubeFramework x = Some f →
  GetClientConfigForUser c name w = (Ret cfg, w') →
  ∃ admin uuid user, getClientConfig client_config (adminConfigPath x) (files w) = inl admin ∧
    user_found admin name user ∧ (∃ v, fst (random_uuid v) = Ret uuid) ∧
    (∃ v t, fst (create_token api admin
       (mkToken ("sha256~" +:+ RawURLEncode (Sum256 (RawURLEncode uuid)))
          ("e2e-client-" +:+ default "" (FNamespace f)) name (UID user) ["user:full"]
          "https://localhost:8443/oauth/token/implicit") v) = Ret t) ∧
    cfg = mkRest (Host admin) ("sha256~" +:+ RawURLEncode uuid) "" "" "" "" "" "" (CAFile admin)
            (CAData admin) (Insecure admin) 10000 10000.
Proof.
  intros Hx Hf H. unfold CliUser.GetClientConfigForUser in H.
  apply (framed_inv w) in H as (a1 & w1 & H1 & F1 & H); [|apply framed_refl|apply framed_AdminConfig].
  destruct (AdminConfig_framed _ _ _ _ _ _ (framed_refl w) Hx H1) as [-> Ha]. clear H1.
  apply (framed_inv w) in H as (user & w2 & H2 & F2 & H); [|done|apply framed_ensure_user].
  apply ensure_user_found in H2.
  apply (framed_inv w) in H as (a2 & w3 & H3 & F3 & H); [|done|apply framed_AdminConfig].
  destruct (AdminConfig_framed _ _ _ _ _ _ F2 Hx H3) as [-> Ha2].
  rewrite Ha in Ha2. injection Ha2 as <-. clear H3 F3.
  apply (framed_inv w) in H as (n & w4 & H4 & F4 & H); [|done|apply framed_ensure_oauthclient].
  pose proof (ensure_oauthclient_name _ _ _ _ _ _ _ _ F2 Hx Hf H4) as ->. clear H4.
  apply (framed_inv w) in H as (uuid & w5 & H5 & F5 & H); [|done|apply framed_server].
  cbv zeta in H. unfold GenerateOAuthTokenPair in H.
  apply (framed_inv w) in H as (r & w6 & H6 & F6 & H); [|done|apply framed_server].
  apply (framed_inv w) in H as (t & w7 & H7 & F7 & H); [|done|apply framed_fatal].
  destruct r as [t'|e]; [|done]. injection H7 as -> <-. apply on_server_try_Ret in H6.
  apply (framed_inv w) in H as ([] & w8 & H8 & F8 & H); [|done|apply framed_AddResource].
  apply (framed_inv w) in H as (a3 & w9 & H9 & F9 & H); [|done|apply framed_AdminConfig].
  destruct (AdminConfig_framed _ _ _ _ _ _ F8 Hx H9) as [-> Ha3].
  rewrite Ha in Ha3. injection Ha3 as <-. injection H as <- _.
  exists a1, uuid, user. split_and!; [done|done| | |done].
  - exists (server w4). unfold on_server in H5. destruct (random_uuid (server w4)) as [o v].
    by injection H5 as -> _.
  - by exists (server w5), t.
Qed.

(** The kubeconfig of a configuration without certificates. *)
Lemma createConfig_Ret ns cfg v k v' :
  createConfig api canonical_addr ns cfg v = (Ret k, v') →
  Server k = Host cfg ∧ Token k = BearerToken cfg ∧ KNamespace k = ns ∧
  ClientCertificate k = CertFile cfg ∧ ClientCertificateData k = or_data (CertFile cfg) (CertData cfg) ∧
  ClientKey k = KeyFile cfg ∧ ClientKeyData k = or_data (KeyFile cfg) (KeyData cfg).
Proof.
  unfold createConfig. intros (cn & v1 & _ & H)%gobind_Ret_inv.
  apply gobind_Ret_inv in H as (un & v2 & _ & H). apply gobind_Ret_inv in H as (xn & v3 & _ & H).
  by injection H as <- _.
Qed.

(** A user that was changed: the client has a kubeconfig in a new temporary
    file, and the path of the one it had is forgotten. *)
Lemma ChangeUser_Ret c name w d w' :
  ChangeUser c name w = (Ret d, w') →
  ∃ x k x', d = c ∧ clis w !! c = Some x ∧ clis w' !! c = Some x' ∧
    configPath x' = temp_file (files w) ∧ username x' = name ∧
    adminConfigPath x' = adminConfigPath x ∧ kubeFramework x' = kubeFramework x ∧
    files w' = <[temp_file (files w) := k]> (files w) ∧ frameworks w' = frameworks w ∧
    ∃ cfg wa ns v v', GetClientConfigForUser c name w = (Ret cfg, wa) ∧
      createConfig api canonical_addr ns cfg v = (Ret k, v') ∧ Namespace c wa = (Ret ns, wa).
Proof.
  unfold CliUser.ChangeUser. intros H. apply gobind_Ret_inv in H as (cfg & wa & H1 & H).
  pose proof (GetClientConfigForUser_framed c name w) as Hf. rewrite H1 in Hf. cbn [snd] in Hf.
  apply gobind_Ret_inv in H as (ns & wb & H2 & H).
  pose proof (framed_Namespace w c wa Hf) as Hg. rewrite H2 in Hg. cbn [snd] in Hg.
  assert (wb = wa) as ->.
  { pose proof H2 as H2'. unfold Namespace, gobind, get_cli, get_framework, ret, gopanic in H2'.
    destruct (clis wa !! c) as [y|]; [|done]. by destruct (frameworks wa !! kubeFramework y); simplify_eq. }
  apply gobind_Ret_inv in H as (r & wc & H3 & H).
  pose proof (framed_server w (try (createConfig api canonical_addr ns cfg)) wa Hg) as Hh.
  rewrite H3 in Hh. cbn [snd] in Hh. apply gobind_Ret_inv in H as (k & wd & H4 & H).
  assert (∃ v', createConfig api canonical_addr ns cfg (server wa) = (Ret k, v')) as [vk Hk0].
  { destruct r as [k'|e]; [|done]. injection H4 as -> _. apply on_server_try_Ret in H3.
    destruct (createConfig _ _ _ _ _) as [o v0]. cbn in H3. subst o. eauto. }
  pose proof (framed_fatal w r wc Hh) as Hi. rewrite H4 in Hi. cbn [snd] in Hi.
  apply gobind_Ret_inv in H as (w2 & we & [= <- <-] & H). cbv zeta in H.
  rewrite (fr_files _ _ Hi) in H. apply gobind_Ret_inv in H as (x1 & wf & H5 & H).
  unfold get_cli in H5. destruct (clis wd !! c) as [x1'|] eqn:Hx1; [|done]. injection H5 as -> <-.
  destruct (framed_cli _ _ _ _ Hi Hx1) as (x & Hx & _ & Ha & Hk).
  apply gobind_Ret_inv in H as ([] & we & [= <-] & H).
  destruct (write_error _); [done|]. apply gobind_Ret_inv in H as ([] & wg & [= <-] & H).
  apply gobind_Ret_inv in H as (x2 & wh & H6 & H). unfold get_cli in H6. cbn in H6.
  rewrite list_lookup_insert_eq in H6 by (by eapply lookup_lt_Some). injection H6 as <- <-.
  apply gobind_Ret_inv in H as ([] & wi & [= <-] & H).
  apply gobind_Ret_inv in H as ([] & wj & [= <-] & H). injection H as <- <-.
  exists x, k, (with_username name (with_configPath (temp_file (files w)) x1)). cbn.
  rewrite list_insert_insert_eq, list_lookup_insert_eq by (by eapply lookup_lt_Some).
  rewrite (fr_frameworks _ _ Hi). split_and!; try done. by exists cfg, wa, ns, (server wa), vk.
Qed.

Lemma keeps_files_for_each {A} fs (l : list A) (f : A → go world unit) :
  (∀ a, keeps (λ w, files w = fs) (f a)) → keeps (λ w, files w = fs) (for_each l f).
Proof.
  intros Hf. induction l as [|a l IH]; [apply keeps_ret|]. apply keeps_bind; [done|by intros _].
Qed.

Lemma TeardownProject_files c w x w' :
  clis w !! c = Some x → configPath x ≠ ""%string → TeardownProject c w = (Ret tt, w') →
  files w' = delete (configPath x) (files w).
Proof.
  intros Hx Hp. unfold CliUser.TeardownProject. rewrite (gobind_Ret _ _ _ _ _ (get_cli_Some _ _ _ Hx)).
  destruct (configPath x) as [|a p] eqn:E; [done|]. cbn [String.length]. rewrite <- E.
  change (Nat.ltb 0 _) with true. cbn beta match.
  set (w1 := set_files (delete (configPath x) (files w)) w).
  match goal with |- gobind _ ?k w = _ → _ => set (rest := k tt) end.
  change (rest w1 = (Ret tt, w') → files w' = files w1). intros H.
  enough (keeps (λ v, files v = files w1) rest) as Hk by (specialize (Hk w1 eq_refl); by rewrite H in Hk).
  subst rest. cbn beta. unfold AdminConfig. repeat (apply keeps_bind; [|intros ?]).
  - intros v Hv. by rewrite (fr_files _ _ (framed_get v c v (framed_refl v))).
  - by intros v Hv.
  - intros v Hv. by rewrite (fr_files _ _ (framed_fatal v _ v (framed_refl v))).
  - intros v Hv. by rewrite (fr_files _ _ (framed_get v c v (framed_refl v))).
  - by intros v Hv.
  - apply keeps_files_for_each. intros r. apply keeps_bind; [|intros ?; apply keeps_ret].
    intros v Hv. by rewrite (fr_files _ _ (framed_server v _ v (framed_refl v))).
Qed.

(** A test that changes its user twice, as every test that changes the user
    of its project does, leaves the kubeconfig of the first behind, token
    included: the teardown removes the last one only. *)
Theorem kubeconfigs_left_behind c n1 n2 w d1 w1 d2 w2 w3 :
  files w1 !! temp_file (files w1) = None → temp_file (files w1) ≠ ""%string →
  ChangeUser c n1 w = (Ret d1, w1) → ChangeUser c n2 w1 = (Ret d2, w2) →
  TeardownProject c w2 = (Ret tt, w3) →
  is_Some (files w3 !! temp_file (files w)) ∧ files w3 = files w1.
Proof.
  intros Ht Hne H1 H2 H3.
  destruct (ChangeUser_Ret _ _ _ _ _ H1) as (x & k1 & x1 & _ & _ & Hx1 & Hp1 & _ & _ & _ & Hf1 & _ & _).
  destruct (ChangeUser_Ret _ _ _ _ _ H2) as (x1' & k2 & x2 & _ & _ & Hx2 & Hp2 & _ & _ & _ & Hf2 & _ & _).
  assert (files w3 = files w1) as E.
  { rewrite (TeardownProject_files _ _ _ _ Hx2 ltac:(by rewrite Hp2) H3), Hp2, Hf2.
    by apply delete_insert_id. }
  split; [|done]. rewrite E, Hf1, lookup_insert_eq. by eexists.
Qed.

(** ** Lists of resources of copied clients *)

Definition has_room (h : list (list resourceRef)) (s : option (nat * nat)) : bool :=
  match s with None => false | Some (a, n) => Nat.ltb n (length (arr_at h a)) end.

Lemma append_room s (r : resourceRef) h a n :
  s = Some (a, n) → has_room h s = true →
  append no_ref spare s [r] h = (Some (a, n + 1), <[a := take n (arr_at h a) ++ [r] ++ drop (n + 1) (arr_at h a)]> h).
Proof.
  intros -> Hr. cbn in Hr. apply Nat.ltb_lt in Hr. unfold append. cbn [length].
  by destruct (Nat.leb_spec (n + 1) (length (arr_at h a))); [|lia].
Qed.

Lemma append_full s (r : resourceRef) h :
  has_room h s = false → array_of (append no_ref spare s [r] h).1 = Some (length h).
Proof.
  destruct s as [[a n]|]; [|done]. cbn. intros Hr. apply Nat.ltb_ge in Hr.
  by destruct (Nat.leb_spec (n + 1) (length (arr_at h a))); [lia|].
Qed.

(** Two appends to the same slice. *)
Lemma append_twice s (r1 r2 : resourceRef) h s1 h1 s2 h2 :
  slice_ok h s → append no_ref spare s [r1] h = (s1, h1) → append no_ref spare s [r2] h1 = (s2, h2) →
  elems h1 s1 = elems h s ++ [r1] ∧ elems h2 s2 = elems h s ++ [r2] ∧
  elems h2 s1 = elems h s ++ [if has_room h s then r2 else r1].
Proof.
  intros Hok H1 H2. destruct (append_spec _ _ _ _ _ _ _ H1 Hok) as (E1 & Hok1 & Hg1 & _ & Hl1).
  destruct (grows_elems s s h h1 Hg1 Hok (or_intror (le_n _))) as [Es Hoks].
  destruct (append_spec _ _ _ _ _ _ _ H2 Hoks) as (E2 & _ & Hg2 & _ & _). rewrite Es in E2.
  split_and!; [done..|]. destruct (has_room h s) eqn:Hr.
  - destruct s as [[a n]|]; [|done]. pose proof (append_room _ r1 h a n eq_refl Hr) as A1.
    rewrite A1 in H1. injection H1 as <- <-. destruct Hok as (arr & Harr & Hn).
    cbn in Hr. rewrite (arr_at_Some _ _ _ Harr) in Hr, H2, A1. apply Nat.ltb_lt in Hr.
    set (arr1 := take n arr ++ r1 :: drop (n + 1) arr) in *.
    unfold append in H2. cbn [length] in H2.
    assert (length arr1 = length arr) as Hl
      by (unfold arr1; rewrite length_app, length_take; cbn [length]; rewrite length_drop; lia).
    assert (<[a:=arr1]> h !! a = Some arr1) as Hnew by (apply list_lookup_insert_eq; by eapply lookup_lt_Some).
    rewrite (arr_at_Some _ _ _ Hnew), Hl in H2.
    destruct (Nat.leb_spec (n + 1) (length arr)); [|lia]. injection H2 as <- <-.
    rewrite <- E2. done.
  - pose proof (append_full s r1 h Hr) as Ha. rewrite H1 in Ha. cbn [fst] in Ha.
    assert (array_of s1 ≠ array_of s) as Hne.
    { rewrite Ha. destruct s as [[a n]|]; [|done]. cbn. destruct Hok as (arr & Harr & _).
      apply lookup_lt_Some in Harr. intros [= ?]; lia. }
    destruct (grows_elems s s1 h1 h2 Hg2 Hok1 (or_introl Hne)) as [-> _]. done.
Qed.

Lemma AddResource_Ret c r (w : world) x w' :
  clis w !! c = Some x → AddResource spare c r w = (Ret tt, w') →
  ∃ s h, append no_ref spare (resourcesToDelete x) [r] (ref_arrays w) = (s, h) ∧
    w' = set_clis (<[c := with_refs s x]> (clis w)) (set_refs h w).
Proof.
  intros Hx. unfold AddResource. rewrite (gobind_Ret _ _ _ _ _ (get_cli_Some _ _ _ Hx)).
  unfold gobind at 1, getw. destruct (append _ _ _ _ _) as [s h]. intros [= <-]. by exists s, h.
Qed.

(** A resource that is registered through a copy of a client (the admin
    copy, say) and one registered through the client itself do not both reach
    the list of the client, the one that the teardown deletes: the second takes
    the place of the first when the array has room, and is not seen at all when
    it has not. *)
Theorem copies_lose_resources (w : world) c x d w1 r1 w2 r2 w3 :
  clis w !! c = Some x → slice_ok (ref_arrays w) (resourcesToDelete x) →
  AsAdmin c w = (Ret d, w1) → AddResource spare c r1 w1 = (Ret tt, w2) →
  AddResource spare d r2 w2 = (Ret tt, w3) →
  registered c w2 = registered c w ++ [r1] ∧
  registered d w3 = registered c w ++ [r2] ∧
  registered c w3 = registered c w ++
    [if has_room (ref_arrays w) (resourcesToDelete x) then r2 else r1].
Proof.
  intros Hx Hok Ha H1 H2. unfold AsAdmin in Ha. rewrite (gobind_Ret _ _ _ _ _ (get_cli_Some _ _ _ Hx)) in Ha.
  unfold new_cli in Ha. injection Ha as <- <-. pose proof (lookup_lt_Some _ _ _ Hx) as Hlt.
  set (y := with_configPath (adminConfigPath x) x) in *.
  set (d := length (clis w)) in *. set (w1 := set_clis (clis w ++ [y]) w) in *.
  assert (clis w1 !! c = Some x) as Hx1 by (cbn; by apply lookup_app_l_Some).
  assert (clis w1 !! d = Some y) as Hy1 by (apply lookup_snoc_new).
  destruct (AddResource_Ret _ _ _ _ _ Hx1 H1) as (s1 & h1 & A1 & Hw2). set (x1 := with_refs s1 x) in *.
  assert (clis w2 !! c = Some x1 ∧ clis w2 !! d = Some y ∧ ref_arrays w2 = h1) as (Hx2 & Hy2 & Hh2).
  { rewrite Hw2. cbn [clis ref_arrays set_clis set_refs]. split_and!; [|rewrite list_lookup_insert_ne by lia; done|done].
    apply list_lookup_insert_eq. by eapply lookup_lt_Some. }
  destruct (AddResource_Ret _ _ _ _ _ Hy2 H2) as (s2 & h2 & A2 & Hw3). rewrite Hh2 in A2.
  assert (clis w3 !! c = Some x1 ∧ clis w3 !! d = Some (with_refs s2 y) ∧ ref_arrays w3 = h2) as (Hx3 & Hy3 & Hh3).
  { rewrite Hw3. cbn [clis ref_arrays set_clis set_refs]. split_and!; [rewrite list_lookup_insert_ne by lia; done| |done].
    apply list_lookup_insert_eq. by eapply lookup_lt_Some. }
  unfold registered. rewrite Hx, Hx2, Hx3, Hy3, Hh2, Hh3. cbn [resourcesToDelete with_refs].
  exact (append_twice _ _ _ _ _ _ _ _ Hok A1 A2).
Qed.

(** ** The project of a test *)

Lemma framed_trans w1 w2 w3 : framed w1 w2 → framed w2 w3 → framed w1 w3.
Proof. intros [A B C] [A' B' C']. split; [by rewrite A'|by rewrite B'|intros d; by rewrite C']. Qed.

Lemma framed_set_server v w : framed w (set_server v w).
Proof. done. Qed.

(** An API call whose error ends the test. *)
Lemma expect_Ret {A B} (m : go W A) (k : A → go world B) w b w' :
  (r <-! on_server (try m) ;; a <-! expect r ;; k a)%go w = (Ret b, w') →
  ∃ a v, m (server w) = (Ret a, v) ∧ k a (set_server v w) = (Ret b, w').
Proof.
  unfold on_server, try, gobind. destruct (m (server w)) as [[a|e|p] v] eqn:E; cbn; [|done..].
  intros H. by exists a, v.
Qed.

Lemma UserConfig_framed c w0 x w cfg w' :
  framed w0 w → clis w0 !! c = Some x → UserConfig client_config c w = (Ret cfg, w') →
  w' = w ∧ getClientConfig client_config (configPath x) (files w0) = inl cfg.
Proof.
  intros Hf Hx H. unfold UserConfig in H. apply gobind_Ret_inv in H as (y & wa & H1 & H).
  unfold get_cli in H1. destruct (clis w !! c) as [y'|] eqn:Hy; [|done]. injection H1 as -> <-.
  destruct (framed_cli _ _ _ _ Hf Hy) as (x' & Hx' & Hp & _). rewrite Hx in Hx'. injection Hx' as <-.
  unfold gobind, getw in H. rewrite Hp, (fr_files _ _ Hf) in H.
  destruct (getClientConfig _ _ _) as [cfg'|e]; [|done]. by injection H as -> ->.
Qed.

(** A loop whose steps read the configuration of the user and keep the frame. *)
Lemma config_loop {A} (Q : rest_config → A → Prop) c w0 x (l : list A)
    (k : A → rest_config → go world unit) w w' :
  (∀ cfg a w w', k a cfg w = (Ret tt, w') → framed w w' ∧ Q cfg a) →
  framed w0 w → clis w0 !! c = Some x →
  for_each l (λ a, cfg <-! UserConfig client_config c ;; k a cfg)%go w = (Ret tt, w') →
  framed w0 w' ∧ ∀ cfg, getClientConfig client_config (configPath x) (files w0) = inl cfg → Forall (Q cfg) l.
Proof.
  intros Hk Hw Hx. revert w Hw. induction l as [|a l IH]; intros w Hw; cbn [for_each].
  { intros [= <-]. by split; [|constructor]. }
  intros H. apply gobind_Ret_inv in H as ([] & w1 & H1 & H).
  apply gobind_Ret_inv in H1 as (cfg & w2 & Hu & H1).
  destruct (UserConfig_framed _ _ _ _ _ _ Hw Hx Hu) as [-> Hcfg].
  destruct (Hk _ _ _ _ H1) as [Hf Ha].
  destruct (IH w1 (framed_trans _ _ _ Hw Hf) H) as [Hw' HQ]. split; [done|].
  intros cfg' Hc. pose proof Hc as Hc'. rewrite Hcfg in Hc'. injection Hc' as <-. constructor; auto.
Qed.

(** What the API answered during the setup. *)
Definition may_create_pods (cfg : rest_config) (ns : string) : Prop :=
  ∃ v, fst (self_sar api cfg ns v) = Ret true.
Definition account_ready (cfg : rest_config) (ns sa : string) : Prop :=
  ∃ v l, fst (account_secrets api cfg ns sa v) = Ret l ∧ Exists (λ s, Contains s "dockercfg" = true) l.
Definition binding_seen (cfg : rest_config) (ns b : string) : Prop :=
  ∃ v t, fst (first_rolebinding api cfg ns b v) = Ret t ∧ (t = Added ∨ t = Modified).

Lemma WaitForSelfSAR_Ret cfg ns v v' :
  WaitForSelfSAR api cfg ns v = (Ret tt, v') → may_create_pods cfg ns.
Proof.
  unfold WaitForSelfSAR, gobind, try.
  destruct (PollImmediate _ _ v) as [[[]|e|p] v1] eqn:E; cbn; [|done..]. intros _.
  apply (PollImmediate_Ret_inv (λ _, True)) in E as (v0 & _ & E); [|done..].
  exists v0. by rewrite E.
Qed.

Lemma WaitForServiceAccount_Ret cfg ns sa v v' :
  WaitForServiceAccount (account_secrets api cfg ns) sa v = (Ret tt, v') → account_ready cfg ns sa.
Proof.
  unfold WaitForServiceAccount. intros H.
  apply (WaitFor_Ret_inv (λ _, True)) in H as (v0 & _ & H); [|done..].
  unfold gobind, try in H. destruct (account_secrets api cfg ns sa v0) as [[l|e|p] v1] eqn:E; cbn in H.
  - injection H as H _. exists v0, l. rewrite E. split; [done|].
    apply existsb_exists in H as (s & Hs & Hc). apply Exists_exists. exists s. by rewrite list_elem_of_In.
  - by destruct (_ || _).
  - done.
Qed.

Lemma account_step ns cfg sa w w' :
  (r <-! on_server (try (WaitForServiceAccount (account_secrets api cfg ns) sa)) ;; expect r)%go w = (Ret tt, w') →
  framed w w' ∧ account_ready cfg ns sa.
Proof.
  intros H. apply gobind_Ret_inv in H as (r & w1 & Hs & H). destruct r as [[]|e]; [|done]. injection H as <-.
  unfold on_server, try in Hs. destruct (WaitForServiceAccount _ _ _) as [[[]|e|p] v] eqn:E; [|done..].
  injection Hs as <-. split; [done|]. by eapply WaitForServiceAccount_Ret.
Qed.

Lemma binding_step ns cfg b w w' :
  (r <-! on_server (try (first_rolebinding api cfg ns b)) ;; t <-! expect r ;; expect (rolebinding_condition t))%go w =
    (Ret tt, w') →
  framed w w' ∧ binding_seen cfg ns b.
Proof.
  intros H. apply expect_Ret in H as (t & v & Ht & H).
  destruct (rolebinding_condition t) as [[]|e] eqn:Hrc; [|done]. injection H as <-.
  split; [done|]. exists (server w), t. rewrite Ht. split; [done|]. destruct t; try done; auto.
Qed.

Lemma generate_namespace_Ret c w ns w' :
  generate_namespace random_name c w = (Ret ns, w') →
  ∃ x f suffix v, clis w !! c = Some x ∧ frameworks w !! kubeFramework x = Some f ∧
    fst (random_name (server w)) = Ret suffix ∧ ns = "e2e-test-" +:+ BaseName f +:+ "-" +:+ suffix ∧
    w' = set_server v w.
Proof.
  unfold generate_namespace, gobind, get_cli, get_framework, on_server.
  destruct (clis w !! c) as [x|]; [|done]. destruct (frameworks w !! kubeFramework x) as [f|] eqn:Ef; [|done].
  destruct (random_name (server w)) as [[suffix|e|p] v] eqn:Er; [|done..]. intros [= <- <-].
  exists x, f, suffix, v. by split_and!.
Qed.

Lemma SetNamespace_Ret c ns (w : world) d w' x f :
  clis w !! c = Some x → frameworks w !! kubeFramework x = Some f → SetNamespace c ns w = (Ret d, w') →
  w' = set_frameworks (<[kubeFramework x := mkFramework (BaseName f) (Some ns) (SkipNamespaceCreation f)
         (namespacesToDelete f)]> (frameworks w)) w.
Proof.
  intros Hx Hf. unfold SetNamespace, gobind, get_cli, get_framework, modw, ret. rewrite Hx, Hf. by intros [= _ <-].
Qed.

Lemma add_namespace_to_delete_Ret c ns (w : world) w' x f :
  clis w !! c = Some x → frameworks w !! kubeFramework x = Some f →
  add_namespace_to_delete c ns w = (Ret tt, w') →
  w' = set_frameworks (<[kubeFramework x := mkFramework (BaseName f) (FNamespace f) (SkipNamespaceCreation f)
         (namespacesToDelete f ++ [ns])]> (frameworks w)) w.
Proof.
  intros Hx Hf. unfold add_namespace_to_delete, gobind, get_cli, get_framework, modw, ret.
  rewrite Hx, Hf. by intros [= <-].
Qed.

(** The user a client was changed to. *)
Lemma ChangeUser_user c name w d w' x f :
  ChangeUser c name w = (Ret d, w') → clis w !! c = Some x → frameworks w !! kubeFramework x = Some f →
  ∃ x' k, clis w' !! c = Some x' ∧ username x' = name ∧ kubeFramework x' = kubeFramework x ∧
    frameworks w' = frameworks w ∧ files w' !! configPath x' = Some k ∧
    ∃ admin uuid user, getClientConfig client_config (adminConfigPath x) (files w) = inl admin ∧
      user_found admin name user ∧ (∃ v, fst (random_uuid v) = Ret uuid) ∧
      (∃ v t, fst (create_token api admin
         (mkToken ("sha256~" +:+ RawURLEncode (Sum256 (RawURLEncode uuid)))
            ("e2e-client-" +:+ default "" (FNamespace f)) name (UID user) ["user:full"]
            "https://localhost:8443/oauth/token/implicit") v) = Ret t) ∧
      Server k = Host admin ∧ Token k = "sha256~" +:+ RawURLEncode uuid ∧
      KNamespace k = default "" (FNamespace f) ∧
      (ClientCertificate k = "" ∧ ClientCertificateData k = "" ∧ ClientKey k = "" ∧ ClientKeyData k = "")%string.
Proof.
  intros H Hx Hf.
  destruct (ChangeUser_Ret _ _ _ _ _ H) as
    (x0 & k & x' & _ & Hx0 & Hx' & Hp & Hu & _ & Hk & Hfs & Hfr & cfg & wa & ns & v & v' & Hg & Hkube & Hns).
  rewrite Hx in Hx0. injection Hx0 as <-. exists x', k. split_and!; try done.
  { by rewrite Hfs, Hp, lookup_insert_eq. }
  pose proof (GetClientConfigForUser_framed c name w) as Hw. rewrite Hg in Hw. cbn [snd] in Hw.
  destruct (Namespace_framed _ _ _ _ _ _ _ Hw Hx Hf Hns) as [_ ->].
  destruct (GetClientConfigForUser_Ret _ _ _ _ _ _ _ Hx Hf Hg) as (admin & uuid & user & E1 & E2 & E3 & E4 & ->).
  exists admin, uuid, user. by destruct (createConfig_Ret _ _ _ _ _ Hkube) as (-> & -> & -> & -> & -> & -> & ->).
Qed.


(** A project whose creation succeeds and that cannot be read back is not
    among the namespaces to delete: [CreateProject] ends the test before it
    records it. *)
Theorem CreateProject_unregistered c w ns wa cfg wb v admin e v' :
  generate_namespace random_name c w = (Ret ns, wa) →
  UserConfig client_config c wa = (Ret cfg, wb) →
  create_project api cfg ns (server wb) = (Ret tt, v) →
  AdminConfig client_config c (set_server v wb) = (Ret admin, set_server v wb) →
  get_namespace api admin ns v = (Fail e, v') →
  ∃ w', CreateProject c w = (Panic (err_msg e), w') ∧ frameworks w' = frameworks w ∧ server w' = v'.
Proof.
  intros H1 H2 H3 H4 H5. exists (set_server v' (set_server v wb)).
  destruct (generate_namespace_Ret _ _ _ _ H1) as (x & f & suffix & v0 & Hx & _ & _ & _ & ->).
  destruct (UserConfig_framed c (set_server v0 w) x _ _ _ (framed_refl _) Hx H2) as [-> _].
  split; [|done]. unfold CliUser.CreateProject. rewrite (gobind_Ret _ _ _ _ _ H1), (gobind_Ret _ _ _ _ _ H2).
  unfold gobind at 1, on_server at 1, try at 1. rewrite H3. unfold gobind at 1. cbn [expect ret].
  rewrite (gobind_Ret _ _ _ _ _ H4). unfold gobind at 1, on_server at 1, try at 1.
  change (server (set_server v _)) with v. by rewrite H5.
Qed.
End Cleanup.

(** ** A server that keeps the names of its objects *)

Definition names := list resourceRef.

Definition exists_in (v : names) (r : resourceRef) : Prop := r ∈ v.

Definition ref_eqb (a b : resourceRef) : bool :=
  String.eqb (Resource a) (Resource b) && String.eqb (RNamespace a) (RNamespace b)
  && String.eqb (RName a) (RName b).

Definition small_api (bound : string) : oc_api names := {|
  get_user cfg n := λ v,
    if existsb (ref_eqb (user_ref n)) v then (Ret (mkUser n "uid"), v)
    else (Fail (Err KNotFound "not found"), v);
  create_user cfg n g := λ v,
    let name := if String.eqb n "" then g +:+ "x" else n in
    (Ret (mkUser name "uid"), v ++ [user_ref name]);
  create_oauthclient cfg n := λ v,
    if existsb (ref_eqb (oauthclient_ref n)) v then ((true, Some (Err KAlreadyExists "exists")), v)
    else ((true, None), v ++ [oauthclient_ref n]);
  create_token cfg t := λ v, (Ret t, v ++ [token_ref (TName t)]);
  create_project cfg n := ret tt;
  get_namespace cfg n := if String.eqb n bound then fail (Errorf "forbidden") else ret n;
  self_sar cfg n := ret true;
  account_secrets cfg n sa := ret [sa +:+ "-dockercfg-x"];
  first_rolebinding cfg n b := ret Added;
  delete_resource cfg r := λ v,
    if String.eqb (RName r) bound then (Fail (Errorf "forbidden"), v)
    else (Ret tt, filter (λ r', ref_eqb r r' = false) v);
  whoami cfg := ret (RUsername cfg)
|}.

Lemma ref_eqb_refl r : ref_eqb r r = true.
Proof. unfold ref_eqb. by rewrite !String.eqb_refl. Qed.

#[local] Instance small_accounted bound n u :
  Accounted (small_api bound) (ret n) (ret u) exists_in.
Proof.
  split; unfold exists_in; cbn; try done.
  - intros _ n' v r. by destruct (existsb _ _).
  - intros _ n' g v r. rewrite elem_of_app, list_elem_of_singleton. intros [?| ->]; [by left|right; by eexists].
  - intros _ n' v r. destruct (existsb _ _); cbn; [by left|].
    rewrite elem_of_app, list_elem_of_singleton. intros [?| ->]; [by left|by right].
  - intros _ t v r. rewrite elem_of_app, list_elem_of_singleton. intros [?| ->]; [by left|right; by eexists].
  - intros _ n' v r. by destruct (String.eqb _ _).
  - intros _ d v r. destruct (String.eqb _ _); [done|]. cbn. by intros [_ ?]%list_elem_of_filter.
Qed.

Lemma small_deletes bound cfg r v :
  (fst (delete_resource (small_api bound) cfg r v) = Ret tt ∧
   ¬ exists_in (snd (delete_resource (small_api bound) cfg r v)) r) ∨
  ∃ e, fst (delete_resource (small_api bound) cfg r v) = Fail e.
Proof.
  cbn. destruct (String.eqb _ _); [right; by eexists|left]. split; [done|].
  unfold exists_in. cbn. intros [Hf _]%list_elem_of_filter. by rewrite ref_eqb_refl in Hf.
Qed.

Definition rest_of (k : kubeconfig) : rest_config + error :=
  inl (mkRest (Server k) (Token k) (user_nick k) "" "" "" "" "" "" "" false 0 0).
Definition admin_kube : kubeconfig :=
  mkKube "c" "https://api:6443" "" "" false "admin" "" "" "" "" "" "ctx" "default".
Definition sixteen_bytes : string := "0123456789abcdef".

(** A client that was just created, and its server. *)
Definition new_test : Cli.world names kubeconfig :=
  snd (NewCLI "router" "admin.conf" (mkW [] [] [] [] [] {["admin.conf" := admin_kube]} [] [] [])).

Lemma new_test_tracked : tracked exists_in 0 new_test.
Proof.
  split; [by eexists|by intros x [= <-]|]. intros r. unfold exists_in. cbn. by intros []%elem_of_nil.
Qed.

Notation small_ops bound :=
  (do_ops (small_api bound) inl rest_of (ret "abc"%string) (ret sixteen_bytes)
     (fresh_string "configfile") (λ _, None) doubling 0).
Notation small_teardown bound := (TeardownProject (small_api bound) rest_of 0).
Notation small_change bound name :=
  (ChangeUser (small_api bound) inl rest_of (ret sixteen_bytes) (fresh_string "configfile") (λ _, None)
     doubling 0 name).

Definition a_test : list (user_op (W := names)) :=
  [USetupProject; UCreateUser "other-"; UChangeUser "someone"; UAddResource (user_ref "kept");
   UCreateProject; UCreateUser "never-"].

(** The body of the test fails at its last but one operation. *)
Example test_leaves_nothing_witness :
  let w1 := snd (small_ops "e2e-test-router-abc" a_test new_test) in
  fst (small_ops "e2e-test-router-abc" a_test new_test) = Panic "forbidden" ∧
  length (server w1) = 6 ∧
  ∃ w2 (l : list resourceRef), small_teardown "e2e-test-router-abc" w1 = (Ret tt, w2) ∧
    ∀ r, exists_in (server w2) r → r ∈ l.
Proof.
  set (b := "e2e-test-router-abc"%string). intros w1.
  assert (Forall (op_quiet exists_in) a_test) as Hq by (repeat constructor).
  destruct (clis w1 !! 0) as [x|] eqn:Hx; [|vm_compute in Hx; discriminate].
  split; [vm_compute; reflexivity|]. split; [vm_compute; reflexivity|].
  destruct (test_leaves_nothing (small_api b) inl rest_of (ret "abc"%string) (ret sixteen_bytes)
    (fresh_string "configfile") (λ _, None) doubling exists_in 0 (small_deletes b) a_test new_test x
    (mkRest "https://api:6443" "" "admin" "" "" "" "" "" "" "" false 0 0)
    new_test_tracked Hq Hx) as (_ & w2 & Ht & _ & Hr).
  - vm_compute in Hx. injection Hx as <-. vm_compute. discriminate.
  - vm_compute in Hx. injection Hx as <-. vm_compute. reflexivity.
  - exists w2, (elems (ref_arrays w1) (resourcesToDelete x)). split; [exact Ht|].
    intros r H. apply (Hr r H).
Defined.

Example kubeconfigs_left_behind_witness :
  let w1 := snd (small_change "none" "a" new_test) in
  let w3 := snd (small_teardown "none" (snd (small_change "none" "b" w1))) in
  is_Some (files w3 !! "configfile"%string) ∧ files w3 = files w1.
Proof.
  intros w1 w3.
  pose proof (kubeconfigs_left_behind (small_api "none") inl rest_of (ret sixteen_bytes)
    (fresh_string "configfile") (λ _, None) doubling 0 "a" "b" new_test 0 w1 0
    (snd (small_change "none" "b" w1)) w3 ltac:(vm_compute; reflexivity)
    ltac:(vm_compute; discriminate)) as H.
  exact (H ltac:(vm_compute; reflexivity) ltac:(vm_compute; reflexivity) ltac:(vm_compute; reflexivity)).
Defined.

(** After three resources the array has room for a fourth. *)
Definition three_resources : Cli.world names kubeconfig :=
  snd (small_ops "none" [UAddResource (user_ref "a"); UAddResource (user_ref "b"); UAddResource (user_ref "c")]
    new_test).

Example copies_lose_resources_witness :
  let '(o1, w1) := AsAdmin 0 three_resources in
  let '(o2, w2) := AddResource doubling 0 (user_ref "mine") w1 in
  let '(o3, w3) := AddResource doubling 1 (user_ref "admin's") w2 in
  registered 0 w3 = [user_ref "a"; user_ref "b"; user_ref "c"; user_ref "admin's"].
Proof.
  destruct (AsAdmin 0 three_resources) as [o1 w1] eqn:E1.
  destruct (AddResource doubling 0 (user_ref "mine") w1) as [o2 w2] eqn:E2.
  destruct (AddResource doubling 1 (user_ref "admin's") w2) as [o3 w3] eqn:E3.
  assert (o1 = Ret 1 ∧ w1 = snd (AsAdmin 0 three_resources)) as [-> ->]
    by (vm_compute in E1; injection E1 as <- <-; vm_compute; split; reflexivity).
  assert (o2 = Ret tt) as -> by (vm_compute in E2; injection E2 as <- <-; reflexivity).
  assert (o3 = Ret tt) as -> by (vm_compute in E2; injection E2 as <-; vm_compute in E3; injection E3 as <- <-; reflexivity).
  destruct (clis three_resources !! 0) as [x|] eqn:Hx; [|vm_compute in Hx; discriminate].
  assert (slice_ok (ref_arrays three_resources) (resourcesToDelete x)) as Hok.
  { vm_compute in Hx. injection Hx as <-. eexists. split; [vm_compute; reflexivity|]. cbn. lia. }
  destruct (copies_lose_resources doubling three_resources 0 x 1 _ _ _ _ _ Hx Hok E1 E2 E3)
    as (_ & _ & ->).
  vm_compute in Hx. injection Hx as <-. vm_compute. reflexivity.
Defined.


(** The client acts with the kubeconfig of the administrator. *)
Definition as_admin : Cli.world names kubeconfig := snd (AsAdmin 0 new_test).

Example CreateProject_unregistered_witness :
  ∃ w', CreateProject (small_api "e2e-test-router-abc") rest_of (ret "abc"%string) 1 as_admin =
      (Panic "forbidden", w') ∧ frameworks w' = frameworks as_admin.
Proof.
  destruct (CreateProject_unregistered (small_api "e2e-test-router-abc") rest_of (ret "abc"%string) 1 as_admin
    _ _ _ _ _ _ _ _ ltac:(vm_compute; reflexivity) ltac:(vm_compute; reflexivity)
    ltac:(vm_compute; reflexivity) ltac:(vm_compute; reflexivity) ltac:(vm_compute; reflexivity))
    as (w' & H & Hf & _).
  exists w'. split; [exact H|exact Hf].
Defined.
