(* ===== verification/OcHelpers.v ===== *)
(** * test/extended/util/client.go and framework.go: helpers around the client

    The getters of the typed clients, the commands that are only started, the
    logs of a build and of the registry, the executor of commands in a pod, the
    architecture of the cluster.  They are written over the clients of Cli. *)

From S2P Require Import Prelude.
From S2P Require Import GoStrings.
From S2P Require Import GoLib.
From S2P Require Import GoSlice.
From S2P Require Import KubeTypes.
From S2P Require Import Builds.
From S2P Require Import Waits.
From S2P Require Import Cli.
From S2P Require Import CliUser.

(** ** Typed clients *)

(** The getters; a clientset is its package and its configuration. *)
(* src: test/extended/util/client.go 335-439 CLI.AppsClient .. CLI.AdminDynamicClient *)
Inductive getter :=
| AppsClient | AuthorizationClient | BuildClient | ImageClient | ProjectClient | QuotaClient
| RouteClient | TemplateClient
| AdminAppsClient | AdminAuthorizationClient | AdminBuildClient | AdminConfigClient
| AdminImageClient | AdminOauthClient | AdminOperatorClient | AdminProjectClient
| AdminQuotaClient | AdminOAuthClient | AdminRouteClient | AdminUserClient
| AdminSecurityClient | AdminTemplateClient
| KubeClient | DynamicClient | AdminKubeClient | AdminDynamicClient.

Definition clientset (g : getter) : string :=
  match g with
  | AppsClient | AdminAppsClient => "appsv1client"
  | AuthorizationClient | AdminAuthorizationClient => "authorizationv1client"
  | BuildClient | AdminBuildClient => "buildv1client"
  | AdminConfigClient => "configv1client"
  | ImageClient | AdminImageClient => "imagev1client"
  | AdminOauthClient | AdminOAuthClient => "oauthv1client"
  | AdminOperatorClient => "operatorv1client"
  | ProjectClient | AdminProjectClient => "projectv1client"
  | QuotaClient | AdminQuotaClient => "quotav1client"
  | RouteClient | AdminRouteClient => "routev1client"
  | AdminUserClient => "userv1client"
  | AdminSecurityClient => "securityv1client"
  | TemplateClient | AdminTemplateClient => "templatev1client"
  | KubeClient | AdminKubeClient => "kubernetes"
  | DynamicClient | AdminDynamicClient => "dynamic"
  end.

(** Whose configuration a getter takes. *)
Definition of_admin (g : getter) : bool :=
  match g with
  | AppsClient | AuthorizationClient | BuildClient | ImageClient | ProjectClient | QuotaClient
  | RouteClient | TemplateClient | KubeClient | DynamicClient => false
  | _ => true
  end.

(** ** Processes that are started only *)

(** What [Background] hands out: the command with the buffers of its three
    streams. *)
Record process_handle := mkHandle {
  h_path : string;
  h_args : list string;
  h_stdin : option nat;
  h_stdout : nat;
  h_stderr : option nat
}.

Section Helpers.
Context {W : Type}.
Variable spare : nat → nat → nat.
Variable process : string → list string → string → go W exec_result.
Variable cmd_String : string → list string → string.
Variable client_config : kubeconfig → rest_config + error.
(** The error a client constructor returns; the discovery of the API groups. *)
Variable new_client : string → rest_config → option error.
Variable discover : rest_config → go W unit.
(** [cmd.Start]; the error of a pipe; the text of an exit status. *)
Variable start_process : string → list string → go W (option error).
Variable pipe_error : option error.
Variable status_text : Z → string.

Notation world := (Cli.world W kubeconfig).
Notation oc_run := (Cli.oc_run spare process cmd_String).

Definition say (x : string) : go world unit := modw (print x).

(** [NewForConfigOrDie] panics with the error. *)
Definition get_client (g : getter) (c : nat) : go world (string * rest_config) :=
  (conf <-! (if of_admin g then AdminConfig client_config c else UserConfig client_config c) ;;
   match new_client (clientset g) conf with
   | Some e => gopanic (err_msg e)
   | None => ret (clientset g, conf)
   end)%go.

(* src: test/extended/util/client.go 329-333 CLI.RESTMapper *)
Definition RESTMapper (c : nat) : go world rest_config :=
  (k <-! get_client KubeClient c ;; on_server (discover k.2) ;;! ret k.2)%go.

(* src: test/extended/util/client.go 589-607 CLI.Background *)
Definition Background (c : nat) : go world (process_handle * option error) :=
  (debug c ;;!
   x <-! get_cli c ;;
   l <-! final_args c ;;
   out <-! new_buffer ;;
   err <-! new_buffer ;;
   say (running x l) ;;!
   e <-! on_server (start_process (execPath x) l) ;;
   ret (mkHandle (execPath x) l (stdin x) out (Some err), e))%go.

(** The pipe is read through the buffer [out]; stderr is not captured. *)
(* src: test/extended/util/client.go 609-628 CLI.BackgroundRC *)
Definition BackgroundRC (c : nat) : go world (option process_handle * option error) :=
  (debug c ;;!
   x <-! get_cli c ;;
   l <-! final_args c ;;
   match pipe_error with
   | Some e => ret (None, Some e)
   | None =>
       out <-! new_buffer ;;
       say (running x l) ;;!
       e <-! on_server (start_process (execPath x) l) ;;
       ret (Some (mkHandle (execPath x) l (stdin x) out None), e)
   end)%go.

(** ** The logs of a build *)

(** A build result with the fields that its methods use besides: its client,
    the alternate dumper and the creation time of its build, if there is one
    that is not zero. *)
Record build_ref := mkBuildRef {
  Oc : nat;
  result : BuildResult;
  LogDumper : option (nat → BuildResult → go world string);
  created : option time
}.

Section BuildLogs.
(** The text of a result; the creation time of a project; the time. *)
Variable gosyntax : BuildResult → string.
Variable get_project : rest_config → string → go W time.
Variable now : time.

Definition nil_deref : string := "invalid memory address or nil pointer dereference".

Definition oc_logs (t : build_ref) (extra : list string) : go world string :=
  (r <-! oc_run (Oc t) ["logs"%string] (["-f"%string; BuildPath (result t)] ++ extra) ;;
   match r with
   | (out, None) => ret out
   | (_, Some e) => fail (Errorf ("Error retrieving logs for " +:+ gosyntax (result t) +:+ ": "
                                  +:+ status_text (ExitStatus e)))
   end)%go.

(** The message of a nil result dereferences it. *)
Definition build_logs (extra : list string) (t : option build_ref) : go world string :=
  match t with
  | None => gopanic nil_deref
  | Some t =>
      if String.eqb (BuildPath (result t)) "" then
        fail (Errorf ("Not enough information to retrieve logs for " +:+ gosyntax (result t)))
      else match LogDumper t with
      | Some dump => dump (Oc t) (result t)
      | None => oc_logs t extra
      end
  end.

(* src: test/extended/util/framework.go 759-775 BuildResult.Logs *)
Definition Logs : option build_ref → go world string := build_logs ["--timestamps"%string].
(* src: test/extended/util/framework.go 777-793 BuildResult.LogsNoTimestamp *)
Definition LogsNoTimestamp : option build_ref → go world string := build_logs [].

(* src: test/extended/util/framework.go 717-731 BuildResult.dumpRegistryLogs (start) *)
Definition build_started (t : build_ref) : go world (option time) :=
  match created t with
  | Some s => ret (Some s)
  | None =>
      (k <-! get_client ProjectClient (Oc t) ;;
       ns <-! Namespace (Oc t) ;;
       r <-! try (on_server (get_project k.2 ns)) ;;
       match r with
       | inr e => say ("Failed to get project " +:+ ns +:+ ": " +:+ err_msg e +:+ nl) ;;! ret None
       | inl s => ret (Some s)
       end)%go
  end.

(* src: test/extended/util/framework.go 740-754 BuildResult.dumpRegistryLogs (one registry) *)
Definition registry_logs (oc : nat) (ns target since : string) : go world unit :=
  (a <-! AsAdmin oc ;;
   a <-! SetNamespace a ns ;;
   r <-! oc_run a ["logs"%string] [target; "--since=" +:+ since] ;;
   match r with
   | (_, Some e) => say ("Error during log retrieval: " +:+ status_text (ExitStatus e) +:+ nl)
   | (out, None) => say (out +:+ nl)
   end)%go.

(* src: test/extended/util/framework.go 712-758 BuildResult.dumpRegistryLogs *)
Definition dumpRegistryLogs (t : build_ref) : go world unit :=
  (say (nl +:+ "** Registry Logs:" +:+ nl) ;;!
   s <-! build_started t ;;
   match s with
   | None => say ("Could not determine test' start time" +:+ nl +:+ nl +:+ nl)
   | Some s =>
       let since := Duration_String (Sub now s) in
       savedNamespace <-! Namespace (Oc t) ;;
       registry_logs (Oc t) "default" "dc/docker-registry" since ;;!
       registry_logs (Oc t) "openshift-image-registry" "deployment/image-registry" since ;;!
       SetNamespace (Oc t) savedNamespace ;;!
       say (nl +:+ nl)
   end)%go.

(** The result is printed before the check for nil. *)
(* src: test/extended/util/framework.go 671-710 BuildResult.DumpLogs *)
Definition DumpLogs (t : option build_ref) : go world unit :=
  (say (nl +:+ nl +:+ "*****************************************" +:+ nl) ;;!
   match t with
   | None => gopanic nil_deref
   | Some b =>
       say ("Dumping Build Result: " +:+ gosyntax (result b) +:+ nl) ;;!
       desc <-! oc_run (Oc b) ["describe"%string] [BuildPath (result b)] ;;
       say (nl +:+ "** Build Description:" +:+ nl) ;;!
       (match desc with
        | (_, Some e) => say ("Error during description retrieval: " +:+ status_text (ExitStatus e) +:+ nl)
        | (out, None) => say (out +:+ nl)
        end) ;;!
       say (nl +:+ "** Build Logs:" +:+ nl) ;;!
       r <-! try (Logs t) ;;
       (match r with
        | inr e => say ("Error during log retrieval: " +:+ err_msg e +:+ nl)
        | inl out => say (out +:+ nl)
        end) ;;!
       say (nl +:+ nl) ;;!
       dumpRegistryLogs b
   end)%go.

(** The assertions dump the logs of a build that is not as asserted first. *)
Definition assert_build (flag : BuildResult → bool) (t : build_ref) : go world build_ref :=
  if flag (result t) then ret t
  else (DumpLogs (Some t) ;;! gopanic "Expected false to be true")%go.
(* src: test/extended/util/framework.go 795-802 BuildResult.AssertSuccess (logs) *)
Definition AssertSuccess_logs : build_ref → go world build_ref := assert_build BuildSuccess.
(* src: test/extended/util/framework.go 804-811 BuildResult.AssertFailure (logs) *)
Definition AssertFailure_logs : build_ref → go world build_ref := assert_build BuildFailure.
End BuildLogs.

(** ** Commands of the helpers *)

Definition exit_error (e : ExitError) : error := Err (KExit (ExitStatus e)) (status_text (ExitStatus e)).

(* src: test/extended/util/framework.go 619-625 StartBuild *)
Definition StartBuild (oc : nat) (args : list string) : go world (string * string * option Z) :=
  (p <-! Run spare oc ["start-build"%string] ;;
   p <-! Args spare p args ;;
   r <-! Outputs process cmd_String p ;;
   let '(stdout, stderr, err) := r in
   say ("start-build output with args [" +:+ Join args " " +:+ "]:" +:+ nl +:+ "Error>" +:+
        match err with Some z => status_text z | None => "<nil>" end +:+ nl +:+ "StdOut>" +:+ nl +:+
        stdout +:+ nl +:+ "StdErr>" +:+ nl +:+ stderr) ;;!
   ret (stdout, stderr, err))%go.

(* src: test/extended/util/image_helpers.go 21-25 CreateResource *)
Definition CreateResource (jsonFilePath : string) (oc : nat) : go world (option ExitError) :=
  (p <-! Run spare oc ["create"%string] ;;
   p <-! Args spare p ["-f"%string; jsonFilePath] ;;
   Execute process cmd_String p)%go.

Definition architecture_args : list string :=
  ["nodes"; "-o=jsonpath={.items[0].status.nodeInfo.architecture}"]%string.

(* src: test/extended/util/framework.go 1911-1919 GetClusterArchitecture *)
Definition GetClusterArchitecture (oc : nat) : go world string :=
  (a <-! WithoutNamespace oc ;;
   a <-! AsAdmin a ;;
   r <-! oc_run a ["get"%string] architecture_args ;;
   match r with
   | (_, Some e) => say ("Get nodes failed with err " +:+ status_text (ExitStatus e) +:+ " .") ;;! ret ""
   | (output, None) => ret output
   end)%go.

(** [g.Skip] ends the test with a panic that ginkgo recovers. *)
(* src: test/extended/util/framework.go 1921-1928 SkipARM64 *)
Definition SkipARM64 (oc : nat) : go world unit :=
  (arch <-! GetClusterArchitecture oc ;;
   say ("architecture is " +:+ arch) ;;!
   if String.eqb arch "arm64" then gopanic "Skip for arm64" else ret tt)%go.

(** *** The executor of commands in a pod *)

(* src: test/extended/util/framework.go 1600-1603 podExecutor *)
Record podExecutor := mkExecutor { client : nat; podName : string }.

Section Executor.
(** The pods of a namespace, seen with a configuration. *)
Variable pods_of : rest_config → string → pods_api W.

(** A wait on the server whose names are dropped. *)
Definition wait_pods (conf : rest_config) (ns label : string) : go world unit := λ w,
  let '(r, (v, _)) := WaitForPods (pods_of conf ns) label CheckPodIsReady 1 (3 * Minute)%Z (server w) in
  (r, set_server v w).

(* src: test/extended/util/framework.go 1605-1616 NewPodExecutor *)
Definition NewPodExecutor (oc : nat) (name image : string) : go world podExecutor :=
  (r <-! oc_run oc ["run"%string]
           [name; "--labels"; "name=" +:+ name; "--image"; image; "--restart"; "Never"; "--command";
            "--"; "/bin/bash"; "-c"; "sleep infinity"]%string ;;
   match r with
   | (out, Some e) =>
       fail (Errorf ("error: " +:+ status_text (ExitStatus e) +:+ nl +:+ "(" +:+ out +:+ ")"))
   | (_, None) =>
       k <-! get_client KubeClient oc ;;
       ns <-! Namespace oc ;;
       wait_pods k.2 ns ("name=" +:+ name) ;;!
       ret (mkExecutor oc name)
   end)%go.

(** The output is set before the error of the command ends the wait. *)
Definition exec_cond (r : podExecutor) (script : string) : go (world * string) bool := λ s,
  match oc_run (client r) ["exec"%string] [podName r; "--"; "/bin/bash"; "-c"; script]%string s.1 with
  | (Ret (out, None), w') => (Ret true, (w', out))
  | (Ret (out, Some e), w') => (Fail (exit_error e), (w', out))
  | (Fail e, w') => (Fail e, (w', s.2))
  | (Panic m, w') => (Panic m, (w', s.2))
  end.

(* src: test/extended/util/framework.go 1618-1629 podExecutor.Exec *)
Definition Exec (r : podExecutor) (script : string) : go world (string * option error) := λ w,
  match PollImmediate (ticks_of Second (3 * Minute)) (exec_cond r script) (w, ""%string) with
  | (Ret _, (w', out)) => (Ret (out, None), w')
  | (Fail e, (w', out)) => (Ret (out, Some e), w')
  | (Panic m, (w', _)) => (Panic m, w')
  end.

(* src: test/extended/util/framework.go 1631-1634 podExecutor.CopyFromHost *)
Definition CopyFromHost (r : podExecutor) (local remote : string) : go world (option ExitError) :=
  (x <-! oc_run (client r) ["cp"%string] [local; podName r +:+ ":" +:+ remote] ;; ret x.2)%go.
End Executor.

(** ** Properties *)

Definition admin_copy (x : CLI) : CLI := with_configPath (adminConfigPath x) x.
Definition named (ns : string) (f : framework) : framework :=
  mkFramework (BaseName f) (Some ns) (SkipNamespaceCreation f) (namespacesToDelete f).

Lemma get_cli_ret (w : world) c x : clis w !! c = Some x → get_cli c w = (Ret x, w).
Proof. unfold get_cli. by intros ->. Qed.

Lemma SetNamespace_run (w : world) c x f ns :
  clis w !! c = Some x → frameworks w !! kubeFramework x = Some f →
  SetNamespace c ns w = (Ret c, set_frameworks (<[kubeFramework x := named ns f]> (frameworks w)) w).
Proof.
  intros Hc Hf. unfold SetNamespace. erewrite gobind_Ret by by apply get_cli_ret.
  unfold get_framework. by erewrite gobind_Ret by (by rewrite Hf).
Qed.

Lemma Namespace_run (w : world) c x f :
  clis w !! c = Some x → frameworks w !! kubeFramework x = Some f →
  Namespace c w = (Ret (default ""%string (FNamespace f)), w).
Proof.
  intros Hc Hf. unfold Namespace. erewrite gobind_Ret by by apply get_cli_ret.
  unfold get_framework. by erewrite gobind_Ret by (by rewrite Hf).
Qed.

(** Through the admin copy every getter has the configuration of the
    administrator, which the getters for the user do not have before. *)
Theorem AsAdmin_clients (w : world) c x a w1 g :
  clis w !! c = Some x → AsAdmin c w = (Ret a, w1) →
  (get_client g a w1).1 = match (AdminConfig client_config c w).1 with
                          | Ret conf => match new_client (clientset g) conf with
                                        | Some e => Panic (err_msg e)
                                        | None => Ret (clientset g, conf)
                                        end
                          | Fail e => Fail e
                          | Panic m => Panic m
                          end.
Proof.
  intros Hc Ha. unfold AsAdmin in Ha. erewrite gobind_Ret in Ha by by apply get_cli_ret.
  injection Ha as <- <-. set (w1 := set_clis _ w).
  assert (Hx : clis w1 !! length (clis w) = Some (admin_copy x)) by apply lookup_snoc_new.
  unfold get_client, AdminConfig, UserConfig, gobind, get_cli, getw. rewrite Hc.
  destruct (of_admin g); rewrite Hx; cbn [admin_copy with_configPath adminConfigPath configPath];
    change (files w1) with (files w);
    destruct (getClientConfig client_config (adminConfigPath x) (files w)); cbn; try done;
    by destruct (new_client _ _).
Qed.

(** *** The namespace during the dump of the registry logs *)

(** What one command for the logs comes to: the test ends when the process
    cannot be executed. *)
Definition logs_outcome (path : string) (r : exec_result) : outcome unit :=
  match x_status r with
  | ExOther m => Panic ("unable to execute " +:+ Quote path +:+ ": " +:+ m)
  | _ => Ret tt
  end.

(** The command line for the logs of a registry: the administrator's, in the
    namespace of the registry. *)
Definition registry_line (x : CLI) (f : framework) (ns target since : string) : list string :=
  oc_line (admin_copy x) (named ns f) ["logs"%string] [target; "--since=" +:+ since].

Lemma say_run m (w : world) : say m w = (Ret tt, print m w).
Proof. done. Qed.

Lemma print_inv m (w : world) : args_inv w → args_inv (print m w).
Proof. intros [H1 H2]. by split. Qed.
Lemma frameworks_inv fs (w : world) : args_inv w → args_inv (set_frameworks fs w).
Proof. intros [H1 H2]. by split. Qed.

Lemma registry_logs_run (w : world) oc x f ns target since r u :
  args_inv w → clis w !! oc = Some x → owned x = [] → frameworks w !! kubeFramework x = Some f →
  process (execPath x) (registry_line x f ns target since) "" (server w) = (Ret r, u) →
  ∃ w', registry_logs oc ns target since w = (logs_outcome (execPath x) r, w') ∧
    server w' = u ∧ args_inv w' ∧ clis w' !! oc = Some x ∧
    frameworks w' = <[kubeFramework x := named ns f]> (frameworks w).
Proof.
  intros Hinv Hc Ho Hf Hp. unfold registry_logs, AsAdmin.
  set (a := length (clis w)). set (w1 := set_clis (clis w ++ [admin_copy x]) w).
  assert (Ha : clis w1 !! a = Some (admin_copy x)) by apply lookup_snoc_new.
  assert (Hc1 : clis w1 !! oc = Some x) by by apply lookup_app_l_Some.
  erewrite gobind_Ret; [|erewrite gobind_Ret by (by apply get_cli_ret); reflexivity].
  erewrite gobind_Ret by by apply (SetNamespace_run w1 a (admin_copy x) f).
  set (w2 := set_frameworks _ w1).
  assert (args_inv w2) as Hi2.
  { apply frameworks_inv. by destruct (copy_step spare w (admin_copy x) Hinv Ho). }
  assert (Hf2 : frameworks w2 !! kubeFramework (admin_copy x) = Some (named ns f)).
  { apply list_lookup_insert_eq. by eapply lookup_lt_Some. }
  destruct (oc_run_spec spare process cmd_String w2 a (admin_copy x) (named ns f) "logs" [] [target; "--since=" +:+ since]
              r u Hi2 Ha Hf2 Hp) as (w3 & Hrun & Hs & Hi3 & Hfw & Hold).
  specialize (Hold oc x Hc1). unfold output_result in Hrun. unfold logs_outcome.
  change (execPath (admin_copy x)) with (execPath x) in Hrun.
  destruct (x_status r) as [|z|m].
  1,2: erewrite gobind_Ret by exact Hrun; cbn beta match; rewrite say_run;
    eexists; (split; [reflexivity|]); split_and!; try done; by apply print_inv.
  exists w3. unfold gobind. rewrite Hrun. by split_and!.
Qed.

(** The dump of the registry logs runs two commands with the configuration of
    the administrator, in the namespaces "default" and
    "openshift-image-registry".  They set the namespace of every client of the
    framework: it is restored when both processes could be executed, whatever
    they returned; when one could not, the test ends with the namespace of that
    registry in place of its own. *)
Theorem dumpRegistryLogs_namespace get_project now (w : world) (t : build_ref) s x f r1 u1 r2 u2 :
  created t = Some s →
  args_inv w → clis w !! Oc t = Some x → owned x = [] → frameworks w !! kubeFramework x = Some f →
  let since := Duration_String (Sub now s) in
  process (execPath x) (registry_line x f "default" "dc/docker-registry" since) "" (server w) = (Ret r1, u1) →
  process (execPath x) (registry_line x f "openshift-image-registry" "deployment/image-registry" since) "" u1
    = (Ret r2, u2) →
  let res := dumpRegistryLogs get_project now t w in
  let ends o u ns := res.1 = o ∧ server res.2 = u ∧ (Namespace (Oc t) res.2).1 = Ret ns in
  match logs_outcome (execPath x) r1, logs_outcome (execPath x) r2 with
  | Ret _, Ret _ => ends (Ret tt) u2 (default ""%string (FNamespace f))
  | Ret _, o2 => ends o2 u2 "openshift-image-registry"%string
  | o1, _ => ends o1 u1 "default"%string
  end.
Proof.
  intros Hcr Hinv Hc Ho Hf since Hp1 Hp2 res ends.
  set (w1 := print (nl +:+ "** Registry Logs:" +:+ nl) w).
  assert (res = (registry_logs (Oc t) "default" "dc/docker-registry" since ;;!
                 registry_logs (Oc t) "openshift-image-registry" "deployment/image-registry" since ;;!
                 SetNamespace (Oc t) (default ""%string (FNamespace f)) ;;! say (nl +:+ nl))%go w1) as Hres.
  { unfold res, dumpRegistryLogs. erewrite gobind_Ret by apply say_run. fold w1.
    unfold build_started. rewrite Hcr, gobind_ret. cbv beta iota zeta.
    by erewrite gobind_Ret by by apply (Namespace_run w1 (Oc t) x f). }
  clearbody res. subst res.
  destruct (registry_logs_run w1 (Oc t) x f _ _ _ r1 u1 (print_inv _ _ Hinv) Hc Ho Hf Hp1)
    as (w2 & E1 & Hs2 & Hi2 & Hc2 & Hf2).
  assert (Hl : frameworks w2 !! kubeFramework x = Some (named "default" f)).
  { rewrite Hf2. apply list_lookup_insert_eq. by eapply lookup_lt_Some. }
  unfold ends. destruct (logs_outcome (execPath x) r1) as [[]|e|m] eqn:Eo1.
  2,3: unfold gobind; rewrite E1; cbn [fst snd]; split_and!; try done; by rewrite (Namespace_run _ _ _ _ Hc2 Hl).
  erewrite gobind_Ret by exact E1.
  rewrite <- Hs2 in Hp2.
  destruct (registry_logs_run w2 (Oc t) x (named "default" f) _ _ _ r2 u2 Hi2 Hc2 Ho Hl Hp2)
    as (w3 & E2 & Hs3 & Hi3 & Hc3 & Hf3).
  assert (Hl3 : frameworks w3 !! kubeFramework x = Some (named "openshift-image-registry" f)).
  { rewrite Hf3. apply list_lookup_insert_eq. by eapply lookup_lt_Some. }
  destruct (logs_outcome (execPath x) r2) as [[]|e|m] eqn:Eo2.
  2,3: unfold gobind; rewrite E2; cbn [fst snd]; split_and!; try done; by rewrite (Namespace_run _ _ _ _ Hc3 Hl3).
  erewrite gobind_Ret by exact E2.
  erewrite gobind_Ret by by apply (SetNamespace_run w3 _ x (named "openshift-image-registry" f)).
  rewrite say_run. cbn [fst snd]. split_and!; [done..|]. erewrite Namespace_run; [|exact Hc3|].
  2: { apply list_lookup_insert_eq. by eapply lookup_lt_Some. }
  done.
Qed.

(** *** The architecture of the cluster *)

(** The tests for which the architecture is asked are skipped exactly when the
    administrator's listing of the nodes, which is not confined to a namespace,
    answers arm64; a failing listing skips nothing. *)
Theorem SkipARM64_spec (w : world) oc x f r u :
  args_inv w → clis w !! oc = Some x → owned x = [] → frameworks w !! kubeFramework x = Some f →
  process (execPath x) (("--kubeconfig=" +:+ adminConfigPath x) :: "get"%string :: architecture_args) ""
    (server w) = (Ret r, u) →
  (SkipARM64 oc w).1 =
    match x_status r with
    | ExOk => if String.eqb (TrimSpace (x_both r)) "arm64" then Panic "Skip for arm64" else Ret tt
    | ExExit _ => Ret tt
    | ExOther m => Panic ("unable to execute " +:+ Quote (execPath x) +:+ ": " +:+ m)
    end ∧ server (SkipARM64 oc w).2 = u.
Proof.
  intros Hinv Hc Ho Hf Hp.
  set (y := with_flags (verbose x) (showInfo x) true x).
  set (w1 := set_clis (clis w ++ [y]) w).
  set (w2 := set_clis (clis w1 ++ [admin_copy y]) w1).
  assert (Hi1 : args_inv w1) by by destruct (copy_step spare w y Hinv Ho).
  assert (Hi2 : args_inv w2) by by destruct (copy_step spare w1 (admin_copy y) Hi1 Ho).
  assert (Hy : clis w1 !! length (clis w) = Some y) by apply lookup_snoc_new.
  assert (Ha : clis w2 !! length (clis w1) = Some (admin_copy y)) by apply lookup_snoc_new.
  destruct (oc_run_spec spare process cmd_String w2 _ (admin_copy y) f "get" [] architecture_args r u
              Hi2 Ha Hf Hp) as (w3 & Hrun & Hs & _).
  assert (HG : GetClusterArchitecture oc w =
    (r <-! oc_run (length (clis w1)) ["get"%string] architecture_args ;;
     match r with
     | (_, Some e) => say ("Get nodes failed with err " +:+ status_text (ExitStatus e) +:+ " .") ;;! ret ""%string
     | (output, None) => ret output
     end)%go w2).
  { unfold GetClusterArchitecture, WithoutNamespace, AsAdmin.
    erewrite gobind_Ret; [|erewrite gobind_Ret by (by apply get_cli_ret); reflexivity].
    by erewrite gobind_Ret; [|erewrite gobind_Ret by (by apply get_cli_ret); reflexivity]. }
  unfold SkipARM64. unfold gobind. rewrite HG. unfold gobind. rewrite Hrun. unfold output_result.
  destruct (x_status r) as [|z|m]; cbn [ret fst snd]; rewrite ?say_run; try done.
  by destruct (String.eqb _ _).
Qed.

(** *** Commands in a pod *)

(** [Exec] runs the command once and returns its output, with its exit error;
    the poll it is wrapped in neither repeats it nor times out. *)
Theorem Exec_once (r : podExecutor) script (w : world) x f res u :
  args_inv w → clis w !! client r = Some x → frameworks w !! kubeFramework x = Some f →
  process (execPath x) (oc_line x f ["exec"%string] [podName r; "--"; "/bin/bash"; "-c"; script]%string) ""
    (server w) = (Ret res, u) →
  (Exec r script w).1 =
    match x_status res with
    | ExOk => Ret (TrimSpace (x_both res), None)
    | ExExit z => Ret (TrimSpace (x_both res), Some (Err (KExit z) (status_text z)))
    | ExOther m => Panic ("unable to execute " +:+ Quote (execPath x) +:+ ": " +:+ m)
    end ∧ server (Exec r script w).2 = u.
Proof.
  intros Hinv Hc Hf Hp.
  destruct (oc_run_spec spare process cmd_String w _ x f "exec" [] _ res u Hinv Hc Hf Hp) as (w' & Hrun & Hs & _).
  unfold Exec, PollImmediate, gobind, exec_cond. cbn [fst snd]. rewrite Hrun. unfold output_result.
  by destruct (x_status res).
Qed.

(** *** Processes that are started *)

(** The process [Background] starts has the command line that [Output] would
    run, and its output goes to two new buffers. *)
Theorem Background_starts (w : world) p path line input e u :
  ready w p path line input → start_process path line (server w) = (Ret e, u) →
  ∃ x i w', clis w !! p = Some x ∧
    Background p w = (Ret (mkHandle path line (Some i) (length (buffers w)) (Some (S (length (buffers w)))), e), w') ∧
    server w' = u ∧ buffers w !! i = Some input ∧ buffers w' = buffers w ++ [""; ""]%string ∧
    term w' = term w ++ ["Running '" +:+ (path +:+ " " +:+ Join line " ") +:+ "'"].
Proof.
  intros [_ (x & i & Hx & <- & Hv & _ & Hi & <- & Hin)] Hs. exists x, i.
  unfold Background, debug, final_args, get_cli. unfold gobind. rewrite Hx, Hv. cbn [ret].
  rewrite Hx. cbn [ret args_read]. rewrite Hx. unfold new_buffer, say, modw, on_server, running, command_line.
  cbn. rewrite Hs. cbn. rewrite Hi.
  eexists. split; [done|]. rewrite length_app, Nat.add_1_r. split; [reflexivity|].
  split_and!; try done. { cbn. by rewrite <- app_assoc. }
Qed.
End Helpers.

(** ** A client whose namespace is saved *)

Definition helper_world : Cli.world unit kubeconfig :=
  snd ((c <-! NewCLI "p" "admin.conf" ;; SetNamespace c "ns")%go (mkW [] [] [] [] [] ∅ [] [] tt)).
Definition helper_cli : CLI := blank_cli 0 "admin.conf".
Definition helper_build : build_ref (W := unit) :=
  mkBuildRef 0 (mkResult "builds/b" "b" "" "" None None false false false false false) None
    (Some (5 * Second)%Z).

Lemma helper_inv : args_inv helper_world.
Proof.
  split.
  - intros [|c] x Hx; cbn in Hx; simplify_eq; by repeat split.
  - intros [|c] [|d] x y a _ Hx Hy; cbn in Hx, Hy; simplify_eq; intros Ha; by apply not_elem_of_nil in Ha.
Qed.

(** A process that answers, and one that cannot be executed for the old
    registry. *)
Definition answers (st : exec_error) : exec_result := mkExecResult "" "" "log" st.
Definition fine : string → list string → string → go unit exec_result := λ _ _ _ v, (Ret (answers ExOk), v).
Definition no_registry : string → list string → string → go unit exec_result := λ _ args _ v,
  (Ret (answers (if bool_decide ("--namespace=default"%string ∈ args) then ExOther "no oc" else ExOk)), v).

Definition dump_with (process : string → list string → string → go unit exec_result) :=
  dumpRegistryLogs no_spare process (λ _ _, ""%string) (λ _, inr (Errorf "")) (λ _ _, None)
    (λ _, ""%string) (λ _ _, fail (Errorf "")) (65 * Second)%Z helper_build helper_world.

Lemma dumpRegistryLogs_namespace_witness :
  ((dump_with fine).1 = Ret tt ∧ server (dump_with fine).2 = tt ∧
   (Namespace 0 (dump_with fine).2).1 = Ret "ns"%string) ∧
  (Namespace 0 (dump_with no_registry).2).1 = Ret "default"%string.
Proof.
  split.
  - apply (dumpRegistryLogs_namespace no_spare fine (λ _ _, ""%string) (λ _, inr (Errorf "")) (λ _ _, None)
      (λ _, ""%string) (λ _ _, fail (Errorf "")) (65 * Second)%Z helper_world helper_build (5 * Second)%Z
      helper_cli (mkFramework "p" (Some "ns"%string) true []) (answers ExOk) tt (answers ExOk) tt);
      first [exact helper_inv|vm_compute; reflexivity].
  - apply (dumpRegistryLogs_namespace no_spare no_registry (λ _ _, ""%string) (λ _, inr (Errorf "")) (λ _ _, None)
      (λ _, ""%string) (λ _ _, fail (Errorf "")) (65 * Second)%Z helper_world helper_build (5 * Second)%Z
      helper_cli (mkFramework "p" (Some "ns"%string) true []) (answers (ExOther "no oc")) tt (answers ExOk) tt);
      first [exact helper_inv|vm_compute; reflexivity].
Defined.
