(* ===== verification/Csi.v ===== *)
(** * test/extended/csi/install.go: installing a CSI driver

    The installation that the csi suite asks for: the template of the driver is
    unpacked from the data of the binary, filled in, applied with the client of
    oc and removed; the manifest of the tests is unpacked and its path
    returned.  With it the fixtures of test/extended/util/framework.go.  The
    data of the binary is a map from names to contents, text/template and the
    names of temporary files are parameters; modes and times of files are left
    out. *)

From S2P Require Import Prelude.
From S2P Require Import GoStrings.
From S2P Require Import GoLib.
From S2P Require Import GoSlice.
From S2P Require Import Cli.

(** ** Paths *)

Definition slash : Ascii.ascii := Ascii.ascii_of_nat 47.

(** [path.Clean] on the parts of a path: the parts kept so far are reversed. *)
Fixpoint clean_parts (rooted : bool) (acc : list string) (l : list string) : list string :=
  match l with
  | [] => rev acc
  | p :: l' =>
      if String.eqb p "" || String.eqb p "." then clean_parts rooted acc l'
      else if String.eqb p ".." then
        match acc with
        | [] => clean_parts rooted (if rooted then [] else [p]) l'
        | q :: acc' => if String.eqb q ".." then clean_parts rooted (p :: acc) l' else clean_parts rooted acc' l'
        end
      else clean_parts rooted (p :: acc) l'
  end.

(** [path.Join], [filepath.Join] *)
Definition path_Join (elem : list string) : string :=
  match bfilter (λ e, negb (String.eqb e "")) elem with
  | [] => ""
  | es =>
      let s := Join es "/" in
      let rooted := HasPrefix s "/" in
      let c := Join (clean_parts rooted [] (SplitChar slash s)) "/" in
      if rooted then "/" +:+ c else if String.eqb c "" then "." else c
  end.

Section Csi.
Context {W : Type}.
Notation world := (Cli.world W string).

(** The world of the client and the directory of the fixtures, which is made
    once. *)
Record fx := mkFx { fx_world : world; fixtureDir : option string }.

Definition on_world {A} (m : go world A) : go fx A := λ s,
  let '(r, w) := m (fx_world s) in (r, mkFx w (fixtureDir s)).
Definition set_dir (d : string) : go fx unit := modw (λ s, mkFx (fx_world s) (Some d)).

Variable assets : gmap string string.
Variable temp_dir : gmap string string → string.
Variable temp_file : gmap string string → string.
Variable write_error : string → option error.

Definition write_file (path content : string) : go fx unit := λ s,
  match write_error path with
  | Some e => (Fail e, s)
  | None => (Ret tt, mkFx (set_files (<[path := content]> (files (fx_world s))) (fx_world s)) (fixtureDir s))
  end.

(** [testdata.RestoreAsset]; the data of a directory is restored asset by
    asset. *)
Definition RestoreAsset (dir name : string) : go fx unit :=
  match assets !! name with
  | None => fail (Errorf ("Asset " +:+ name +:+ " not found"))
  | Some content => write_file (dir +:+ "/" +:+ name) content
  end.
Definition below (name : string) : list string :=
  bfilter (λ a, HasPrefix a (name +:+ "/")) (map fst (map_to_list assets)).
Definition RestoreAssets (dir name : string) : go fx unit :=
  match below name with
  | [] => RestoreAsset dir name
  | l => for_each l (RestoreAsset dir)
  end.

(** ** Fixtures *)

(** The path below the directory of the fixtures. *)
(* src: test/extended/util/framework.go 1387-1400 FixturePath (relative path) *)
Definition fixture_elems (elem : list string) : outcome (list string) :=
  match elem with
  | [] => Panic "must specify path"
  | ".." :: ".." :: "examples" :: _ :: _ => Ret (drop 2 elem)
  | ".." :: ".." :: "install" :: _ :: _ => Ret (drop 2 elem)
  | ".." :: "integration" :: _ :: _ :: _ => Ret ("test" :: drop 1 elem)
  | "testdata" :: _ => Ret ("test" :: "extended" :: elem)
  | _ => Panic ("Fixtures must be in test/extended/testdata or examples not " +:+ path_Join elem)
  end%string.

Definition panic_on {A} (m : go fx A) : go fx A := λ s,
  match m s with (Fail e, s') => (Panic (err_msg e), s') | x => x end.

(** [fixtureDirLock.Do]: the directory is made by the first call. *)
(* src: test/extended/util/framework.go 1401-1407 FixturePath (directory) *)
Definition fixture_dir : go fx string :=
  (s <-! getw ;;
   match fixtureDir s with
   | Some d => ret d
   | None => let d := temp_dir (files (fx_world s)) in set_dir d ;;! ret d
   end)%go.

(* src: test/extended/util/framework.go 1383-1438 FixturePath *)
Definition FixturePath (elem : list string) : go fx string :=
  match fixture_elems elem with
  | Ret parts =>
      (dir <-! fixture_dir ;;
       let relativePath := path_Join parts in
       let fullPath := path_Join [dir; relativePath] in
       r <-! try (RestoreAsset dir relativePath) ;;
       match r with
       | inl _ => ret fullPath
       | inr _ => panic_on (RestoreAssets dir relativePath) ;;! ret fullPath
       end)%go
  | Fail e => fail e
  | Panic p => gopanic p
  end.

(** ** Templates *)

(** What the template is filled in with; [parse_template] is the text of a
    template file as [text/template] understands it. *)
Variable template : Type.
Variable parse_template : string → template + error.
Variable execute_template : template → list (string * string) → string + error.
Variable image_format_env : string.

Definition csiBasePath : string := "test/extended/testdata/csi".
Definition defaultImageFormat : string := "registry.svc.ci.openshift.org/origin/4.3:${component}".

(* src: test/extended/csi/install.go 81-93 executeTemplate (variables) *)
Definition template_variables : list (string * string) :=
  let imageFormat := if String.eqb image_format_env "" then defaultImageFormat else image_format_env in
  let image c := Replace imageFormat "${component}" c in
  [("AttacherImage", image "csi-external-attacher"); ("ProvisionerImage", image "csi-external-provisioner");
   ("NodeDriverRegistrarImage", image "csi-node-driver-registrar");
   ("LivenessProbeImage", image "csi-livenessprobe"); ("ImageFormat", imageFormat)]%string.

Definition remove_file (path : string) : go fx unit :=
  modw (λ s, mkFx (set_files (delete path (files (fx_world s))) (fx_world s)) (fixtureDir s)).

(** The temporary file is there from its creation on. *)
(* src: test/extended/csi/install.go 69-102 executeTemplate *)
Definition executeTemplate (templatePath : string) : go fx string :=
  (s <-! getw ;;
   match files (fx_world s) !! templatePath with
   | None => fail (Errorf ("open " +:+ templatePath +:+ ": no such file or directory"))
   | Some content =>
       match parse_template content with
       | inr e => fail e
       | inl tmpl =>
           let yamlPath := temp_file (files (fx_world s)) in
           write_file yamlPath "" ;;!
           match execute_template tmpl template_variables with
           | inr e => remove_file yamlPath ;;! fail e
           | inl text => write_file yamlPath text ;;! ret yamlPath
           end
       end
   end)%go.

(** ** The installation *)

Variable spare : nat → nat → nat.
Variable kube_config : string.
Variable process : string → list string → string → go W exec_result.
Variable cmd_String : string → list string → string.

(** A deferred removal runs whatever the outcome. *)
Definition deferred (m : go fx string) (cleanup : go fx unit) : go fx string := λ s,
  let '(r, s') := m s in (r, snd (cleanup s')).

Definition asset_missing (driver path : string) : error :=
  Errorf ("failed to install CSI driver " +:+ Quote driver +:+ ": AssetInfo " +:+ path +:+ " not found").

(* src: test/extended/csi/install.go 51-56 InstallCSIDriver (apply) *)
Definition apply_yaml (yamlPath : string) : go fx unit :=
  (oc <-! on_world (NewCLIWithoutNamespace kube_config "csi-install") ;;
   p <-! on_world (Run spare oc ["apply"%string]) ;;
   on_world (Args spare p ["-f"%string; yamlPath]) ;;!
   e <-! on_world (Execute process cmd_String p) ;;
   match e with
   | Some x => fail (Errorf ("failed to apply " +:+ yamlPath +:+ ": exit status " +:+ itoa (ExitStatus x)))
   | None => ret tt
   end)%go.

Definition fixture_of (path : string) : list string := drop 2 (SplitChar slash path).

(* src: test/extended/csi/install.go 24-63 InstallCSIDriver *)
Definition InstallCSIDriver (driverName : string) (dryRun : bool) : go fx string :=
  let templatePath := path_Join [csiBasePath; driverName; "install-template.yaml"%string] in
  let manifestPath := path_Join [csiBasePath; driverName; "manifest.yaml"%string] in
  let scPath := path_Join [csiBasePath; driverName; "storageclass.yaml"%string] in
  match assets !! templatePath, assets !! manifestPath with
  | None, _ => fail (asset_missing driverName templatePath)
  | Some _, None => fail (asset_missing driverName manifestPath)
  | Some _, Some _ =>
      ((if assets !! scPath then FixturePath (fixture_of scPath) ;;! ret tt else ret tt) ;;!
       tp <-! FixturePath (fixture_of templatePath) ;;
       r <-! try (executeTemplate tp) ;;
       match r with
       | inr e => fail e
       | inl yamlPath =>
           deferred
             ((if dryRun then ret tt else apply_yaml yamlPath) ;;!
              FixturePath (fixture_of manifestPath))%go
             (remove_file yamlPath)
       end)%go
  end.

(** ** What is left on the disk *)

(** A file that was not there is not there: the frame of the commands of oc. *)
Notation no_file y := (λ w : world, files w !! y = None).

Section Frame.
Context (y : string).
Notation kept := (keeps (no_file y)).

Lemma kept_read {A} (m : go world A) : (∀ w, snd (m w) = w) → kept m.
Proof. intros H w Hw. by rewrite H. Qed.
Lemma kept_mod f : (∀ w, files (f w) = files w) → kept (modw f).
Proof. intros H w Hw. cbn. by rewrite H. Qed.
Lemma kept_get c : kept (get_cli c).
Proof. apply kept_read. intros w. unfold get_cli. by destruct (clis w !! c). Qed.
Lemma kept_framework f : kept (get_framework f).
Proof. apply kept_read. intros w. unfold get_framework. by destruct (frameworks w !! f). Qed.
Lemma kept_put c x : kept (put_cli c x).
Proof. by apply kept_mod. Qed.
Lemma kept_new x : kept (new_cli x).
Proof. by intros w Hw. Qed.
Lemma kept_literal l : kept (args_literal l).
Proof. by intros w Hw. Qed.
Lemma kept_append a l : kept (args_append spare a l).
Proof. intros w Hw. unfold args_append. by destruct (append _ _ _ _ _). Qed.
Lemma kept_args_read a : kept (args_read a).
Proof. by intros w Hw. Qed.
Lemma kept_buffer : kept new_buffer.
Proof. by intros w Hw. Qed.
Lemma kept_server {A} (m : go W A) : kept (on_server m).
Proof. intros w Hw. unfold on_server. by destruct (m (server w)). Qed.
Lemma kept_panic {A} p : kept (gopanic (A := A) p).
Proof. by intros w Hw. Qed.
Lemma kept_fatal {A} p : kept (FatalErr (A := A) p).
Proof. by intros w Hw. Qed.
Lemma kept_print x : kept (modw (print x)).
Proof. by apply kept_mod. Qed.
Lemma kept_framework_new p : kept (new_framework p).
Proof. by intros w Hw. Qed.
Lemma kept_register l : kept (modw (register l)).
Proof. by apply kept_mod. Qed.
Lemma kept_buffers f : kept (modw (λ w, set_buffers (f w) w)).
Proof. by apply kept_mod. Qed.

Hint Resolve keeps_ret keeps_getw kept_get kept_framework kept_put kept_new kept_literal kept_append
  kept_args_read kept_buffer kept_server kept_panic kept_fatal kept_print kept_framework_new
  kept_register kept_buffers : frame.
#[local] Hint Constants Opaque : frame.

Ltac framing := repeat first
  [ progress cbv zeta
  | match goal with
    | |- keeps _ (gobind _ _) => apply keeps_bind; [|intros ?]
    | |- keeps _ (let '(_, _) := ?p in _) => destruct p
    | |- keeps _ (match ?b with _ => _ end) => destruct b
    end
  | by auto with frame ].

Lemma kept_NewCLIWithoutNamespace k p : kept (NewCLIWithoutNamespace k p).
Proof. unfold NewCLIWithoutNamespace. framing. Qed.
Lemma kept_Run c l : kept (Run spare c l).
Proof. unfold Run, Namespace. framing. Qed.
Lemma kept_Args c l : kept (Args spare c l).
Proof. unfold Args, Args_slice. framing. Qed.
Lemma kept_Execute c : kept (Execute process cmd_String c).
Proof. unfold Execute, Output, debug, printCmd, final_args, run_process. framing. Qed.
End Frame.

(** The names under which a fixture may be written. *)
Definition is_fixture (y : string) : Prop := ∃ dir name, is_Some (assets !! name) ∧ y = dir +:+ "/" +:+ name.

Notation absent y := (λ s : fx, files (fx_world s) !! y = None).

Lemma absent_on_world {A} y (m : go world A) : keeps (no_file y) m → keeps (absent y) (on_world m).
Proof.
  intros H s Hs. unfold on_world. specialize (H (fx_world s) Hs). by destruct (m (fx_world s)).
Qed.

Lemma absent_write y path content : path ≠ y → keeps (absent y) (write_file path content).
Proof.
  intros Hne s Hs. unfold write_file. destruct (write_error path); [done|]. cbn.
  by rewrite lookup_insert_ne.
Qed.

Lemma absent_RestoreAsset y dir name : ¬ is_fixture y → keeps (absent y) (RestoreAsset dir name).
Proof.
  intros Hy. unfold RestoreAsset. destruct (assets !! name) as [c|] eqn:E; [|apply keeps_fail].
  apply absent_write. intros <-. apply Hy. exists dir, name. by rewrite E.
Qed.

Lemma absent_FixturePath y elem : ¬ is_fixture y → keeps (absent y) (FixturePath elem).
Proof.
  intros Hy. unfold FixturePath. destruct (fixture_elems elem) as [parts|e|p]; [|apply keeps_fail|by intros s Hs].
  apply keeps_bind.
  - apply keeps_bind; [apply keeps_getw|]. intros s. destruct (fixtureDir s); [apply keeps_ret|].
    by apply keeps_bind; [intros s' Hs'|intros; apply keeps_ret].
  - intros dir. cbv zeta. apply keeps_bind; [by apply keeps_try, absent_RestoreAsset|].
    intros [|e]; [apply keeps_ret|]. apply keeps_bind; [|intros; apply keeps_ret].
    assert (keeps (absent y) (RestoreAssets dir (path_Join parts))) as H.
    { unfold RestoreAssets. destruct (below _) as [|a l]; [by apply absent_RestoreAsset|].
      generalize (a :: l). clear a l. intros l. induction l as [|a l IH]; [apply keeps_ret|].
      apply keeps_bind; [by apply absent_RestoreAsset|by intros _]. }
    intros s Hs. specialize (H s Hs). unfold panic_on. by destruct (RestoreAssets _ _ s) as [[] ?].
Qed.

Lemma absent_apply y yaml : keeps (absent y) (apply_yaml yaml).
Proof.
  unfold apply_yaml. repeat (apply keeps_bind; [apply absent_on_world|intros ?]).
  - apply kept_NewCLIWithoutNamespace.
  - apply kept_Run.
  - apply kept_Args.
  - apply kept_Execute.
  - match goal with |- context [match ?e with _ => _ end] => destruct e end; [apply keeps_fail|apply keeps_ret].
Qed.

(** Filling in a template leaves the file it names and no other. *)
Lemma executeTemplate_files y tp s o s' :
  executeTemplate tp s = (o, s') → files (fx_world s) !! y = None →
  match o with Ret yaml => y ≠ yaml → files (fx_world s') !! y = None | _ => files (fx_world s') !! y = None end.
Proof.
  unfold executeTemplate. unfold gobind at 1, getw. destruct (files (fx_world s) !! tp) as [content|].
  2: { intros [= <- <-]. done. }
  destruct (parse_template content) as [tmpl|e]; [|by intros [= <- <-]]. cbv zeta.
  set (yaml := temp_file _). unfold gobind at 1, write_file at 1. destruct (write_error yaml) eqn:Ew; [by intros [= <- <-]|].
  destruct (execute_template tmpl template_variables) as [t|e].
  - unfold gobind, write_file. rewrite Ew. intros [= <- <-] Hy Hne. cbn.
    by rewrite !lookup_insert_ne by done.
  - unfold gobind, remove_file, modw, fail. intros [= <- <-] Hy. cbn.
    destruct (decide (y = yaml)) as [->|Hne]; [by rewrite lookup_delete_eq|].
    by rewrite lookup_delete_ne, lookup_insert_ne.
Qed.

Lemma absent_deferred y yaml m s :
  (y ≠ yaml → files (fx_world s) !! y = None) → keeps (absent y) m →
  files (fx_world (snd (deferred m (remove_file yaml) s))) !! y = None.
Proof.
  intros Hs Hm. unfold deferred. specialize (Hm s). destruct (m s) as [r s1]. cbn in Hm |- *.
  destruct (decide (y = yaml)) as [->|Hne]; [by rewrite lookup_delete_eq|].
  rewrite lookup_delete_ne by done. auto.
Qed.

(** However the installation ends (an error of the template, of oc, a test
    that is ended), the only files it leaves are fixtures: the filled-in
    template is removed. *)
Theorem InstallCSIDriver_leaves_fixtures driverName dryRun s o s' y :
  InstallCSIDriver driverName dryRun s = (o, s') →
  files (fx_world s) !! y = None → ¬ is_fixture y → files (fx_world s') !! y = None.
Proof.
  intros H Hy Hf. enough (keeps (absent y) (InstallCSIDriver driverName dryRun)) as Hk
    by (specialize (Hk s Hy); by rewrite H in Hk).
  clear H. unfold InstallCSIDriver. cbv zeta.
  destruct (assets !! path_Join _); [|apply keeps_fail]. destruct (assets !! path_Join _); [|apply keeps_fail].
  apply keeps_bind.
  { destruct (assets !! path_Join _); [|apply keeps_ret].
    apply keeps_bind; [by apply absent_FixturePath|intros; apply keeps_ret]. }
  intros _. apply keeps_bind; [by apply absent_FixturePath|]. intros tp w Hw.
  unfold gobind, try. destruct (executeTemplate tp w) as [o1 w1] eqn:Et.
  pose proof (executeTemplate_files y tp w o1 w1 Et Hw) as Hfile. destruct o1 as [yaml|e|p]; [|done|done].
  apply absent_deferred; [done|]. apply keeps_bind.
  - destruct dryRun; [apply keeps_ret|apply absent_apply].
  - intros _. by apply absent_FixturePath.
Qed.
End Csi.

(** ** An installation *)

Definition ebs_assets : gmap string string :=
  {["test/extended/testdata/csi/ebs/install-template.yaml" := "image: {{.AttacherImage}}";
    "test/extended/testdata/csi/ebs/manifest.yaml" := "driver: ebs"]}%string.
Definition log_process : string → list string → string → go (list (list string)) exec_result :=
  λ path args _ log, (Ret (mkExecResult "" "" "" ExOk), log ++ [path :: args]).
Definition no_files : fx (W := list (list string)) :=
  mkFx (mkW [] [] [] [] [] ∅ [] [] []) None.

Notation install_ebs driver dry :=
  (InstallCSIDriver ebs_assets (λ _, "/tmp/fixtures"%string) (λ _, "/tmp/openshift-tests-csi-1"%string)
     (λ _, None) string inl (λ t _, inl t) "" doubling "" log_process (λ _ _, ""%string) driver dry no_files).

Example install_applies :
  let '(o, s) := install_ebs "ebs"%string false in
  o = Ret "/tmp/fixtures/test/extended/testdata/csi/ebs/manifest.yaml"%string ∧
  server (fx_world s) =
    [["oc"; "--namespace="; "--kubeconfig="; "apply"; "-f"; "/tmp/openshift-tests-csi-1"]]%string ∧
  files (fx_world s) !! "/tmp/openshift-tests-csi-1"%string = None ∧ size (files (fx_world s)) = 2.
Proof. vm_compute. repeat split; reflexivity. Qed.

Example install_dry_run :
  let '(o, s) := install_ebs "ebs"%string true in
  is_Some (files (fx_world s) !! "/tmp/fixtures/test/extended/testdata/csi/ebs/manifest.yaml"%string) ∧
  server (fx_world s) = [].
Proof. vm_compute. split; [by eexists|reflexivity]. Qed.

Example install_unknown :
  fst (install_ebs "nfs"%string false) =
  Fail (Errorf ("failed to install CSI driver " +:+ Quote "nfs" +:+
    ": AssetInfo test/extended/testdata/csi/nfs/install-template.yaml not found")).
Proof. vm_compute. reflexivity. Qed.
