(* ===== verification/FrameworkHelpers.v ===== *)
(** * test/extended/util/framework.go: files, repositories and pods of a test

    The helpers of the framework that are not waits of their own: templates
    with variables, the paths of artifacts, git repositories, the pods commands
    are run in, URLs fetched from the cluster, events of a build.  The file
    system is a map from paths to contents; pods, events and git are
    operations over a world. *)

From S2P Require Import Prelude.
From S2P Require Import GoStrings.
From S2P Require Import GoLib.
From S2P Require Import KubeTypes.
From S2P Require Import Waits.
From S2P Require Import Csi.
From Stdlib Require Import Ascii.

(** ** Templates *)

Definition dollar : Ascii.ascii := Ascii.ascii_of_nat 36.
Definition lbrace : Ascii.ascii := Ascii.ascii_of_nat 123.
Definition rbrace : Ascii.ascii := Ascii.ascii_of_nat 125.

Definition variable (k : string) : string := "${" +:+ k +:+ "}".

(** The loop over the map, in the order of the iteration. *)
(* src: test/extended/util/framework.go 610-613 VarSubOnFile (loop) *)
Definition substitute (range : list (string * string)) (s : string) : string :=
  fold_left (λ s kv, Replace s (variable kv.1) kv.2) range s.

Notation files := (gmap string string).

Definition no_file (path : string) : error := Errorf ("open " +:+ path +:+ ": no such file or directory").

(** [write_err] is the error of writing to a path. *)
(* src: test/extended/util/framework.go 604-617 VarSubOnFile *)
Definition VarSubOnFile (write_err : string → option error) (srcFile destFile : string)
    (range : list (string * string)) : go files unit := λ fs,
  match fs !! srcFile with
  | None => (Fail (no_file srcFile), fs)
  | Some srcString =>
      match write_err destFile with
      | Some e => (Fail e, fs)
      | None => (Ret tt, <[destFile := substitute range srcString]> fs)
      end
  end.

(** *** What a template means

    A template is made of characters, of dollar signs that start no variable,
    and of variables; its expansion replaces every variable that has a value. *)

Inductive piece := Chr (c : Ascii.ascii) | Dol (c : Ascii.ascii) | Var (k : string).

Definition render_piece (p : piece) : string :=
  match p with
  | Chr c => String c ""
  | Dol c => String dollar (String c "")
  | Var k => variable k
  end.
Definition render (ps : list piece) : string := fold_right (λ p s, render_piece p +:+ s) ""%string ps.

Definition name_ok (k : string) : bool := str_free dollar k && str_free rbrace k.
Definition piece_ok (p : piece) : bool :=
  match p with
  | Chr c => negb (Ascii.eqb c dollar)
  | Dol c => negb (Ascii.eqb c dollar) && negb (Ascii.eqb c lbrace)
  | Var k => name_ok k
  end.

Fixpoint chars (s : string) : list piece :=
  match s with EmptyString => [] | String c s' => Chr c :: chars s' end.

Definition expand (vars : files) (ps : list piece) : list piece :=
  concat (map (λ p, match p with
                    | Var k => match vars !! k with Some v => chars v | None => [p] end
                    | _ => [p]
                    end) ps).

(** *** [strings.Replace] *)

Lemma split_aux_skip sep a s : split_aux sep (String.length a) (a +:+ s) = split_aux sep 0 s.
Proof. induction a as [|c a IH]; [done|]. rewrite str_app_cons. cbn. apply IH. Qed.

Lemma split_aux_ne sep n s : split_aux sep n s ≠ [].
Proof.
  revert n. induction s as [|c s IH]; intros n; cbn; [done|].
  destruct n; [|apply IH]. destr_match; [done|]. by destruct (split_aux sep 0 s).
Qed.

Lemma Join_first x l sep : l ≠ [] → Join (x :: l) sep = x +:+ sep +:+ Join l sep.
Proof. by destruct l. Qed.

Lemma Join_char c w ws sep : Join (String c w :: ws) sep = String c (Join (w :: ws) sep).
Proof. destruct ws; cbn; [done|]. by rewrite str_app_cons. Qed.

Lemma Replace_skip c s old new :
  HasPrefix (String c s) old = false → Replace (String c s) old new = String c (Replace s old new).
Proof.
  intros H. unfold Replace, Split. cbn [split_aux]. rewrite H.
  pose proof (split_aux_ne old 0 s) as Hne. destruct (split_aux old 0 s) as [|w ws]; [done|].
  apply Join_char.
Qed.

Lemma Replace_match a old s new :
  Replace (String a old +:+ s) (String a old) new = new +:+ Replace s (String a old) new.
Proof.
  unfold Replace, Split. rewrite str_app_cons. cbn [split_aux].
  rewrite <- str_app_cons, HasPrefix_app. cbn [String.length]. rewrite Nat.sub_succ, Nat.sub_0_r.
  rewrite split_aux_skip, Join_first by apply split_aux_ne. done.
Qed.

(** The pattern does not start in a text without its first character. *)
Lemma Replace_free_prefix a t old s new :
  str_free a t = true → Replace (t +:+ s) (String a old) new = t +:+ Replace s (String a old) new.
Proof.
  induction t as [|c t IH]; [done|]. cbn [str_free]. intros H. propify.
  rewrite !str_app_cons, Replace_skip; [by rewrite IH|].
  cbn [HasPrefix]. apply andb_false_iff. left. by rewrite Ascii.eqb_sym.
Qed.

Lemma name_prefix k k' r :
  str_free rbrace k = true → str_free rbrace k' = true →
  HasPrefix (k' +:+ String rbrace r) (k +:+ String rbrace "") = true → k = k'.
Proof.
  revert k'. induction k as [|c k IH]; intros [|c' k'] Hk Hk' H; [done|..];
    rewrite ?str_app_cons, ?str_app_nil_l in H; cbn [str_free HasPrefix] in *; propify.
  - rewrite Ascii.eqb_sym in H. congruence.
  - congruence.
  - apply Ascii.eqb_eq in H as ->. f_equal. by apply IH.
Qed.

(** *** Substitution *)

Definition subst_piece (k v : string) (p : piece) : list piece :=
  match p with
  | Var k' => if String.eqb k' k then chars v else [p]
  | _ => [p]
  end.

Lemma render_app ps qs : render (ps ++ qs) = render ps +:+ render qs.
Proof. unfold render. induction ps as [|p ps IH]; cbn [app fold_right]; [done|]. by rewrite IH, str_app_assoc. Qed.

Lemma render_chars v : render (chars v) = v.
Proof. unfold render. induction v as [|c v IH]; cbn [chars fold_right]; [done|]. by rewrite IH. Qed.

Lemma variable_eq k s : variable k +:+ s = String dollar (String lbrace k +:+ String rbrace s).
Proof. unfold variable. rewrite !str_app_cons, !str_app_nil_l, str_app_assoc. done. Qed.

(** One variable is replaced wherever it stands in a template. *)
Lemma Replace_render k v ps :
  name_ok k = true → forallb piece_ok ps = true →
  Replace (render ps) (variable k) v = render (concat (map (subst_piece k v) ps)).
Proof.
  intros Hk. induction ps as [|p ps IH]; [done|]. cbn [forallb map concat]. intros H. propify.
  rewrite render_app, <- IH by done. clear IH. cbn [render fold_right]. fold (render ps).
  assert (Hpat : variable k = String dollar (String lbrace (k +:+ String rbrace ""))) by done.
  destruct p as [c|c|k']; cbn [piece_ok subst_piece] in *; propify.
  - rewrite Hpat. cbn [render fold_right render_piece]. rewrite !str_app_cons, !str_app_nil_l.
    apply (Replace_free_prefix dollar (String c "")). cbn. by rewrite H.
  - cbn [render fold_right render_piece]. rewrite Hpat, !str_app_cons, !str_app_nil_l.
    rewrite Replace_skip.
    + f_equal. apply (Replace_free_prefix dollar (String c "")). cbn. by rewrite H.
    + cbn [HasPrefix]. rewrite Ascii.eqb_refl. cbn. by rewrite Ascii.eqb_sym, H1.
  - unfold name_ok in *. propify. cbn [render_piece].
    assert (Hd : str_free dollar k' = true) by done.
    destruct (String.eqb_spec k' k) as [->|Hne].
    + rewrite render_chars, Hpat. apply Replace_match.
    + cbn [render fold_right render_piece]. rewrite (variable_eq k' ""), variable_eq, Hpat.
      rewrite Replace_skip.
      * change (String rbrace (render ps)) with (String rbrace "" +:+ render ps).
        rewrite <- !str_app_assoc.
        rewrite Replace_free_prefix by (rewrite str_free_app; cbn; by rewrite Hd).
        by rewrite !str_app_cons, !str_app_assoc.
      * cbn [HasPrefix]. rewrite Ascii.eqb_refl. cbn.
        apply not_true_iff_false. intros Hp. apply Hne. symmetry.
        rewrite str_app_cons in Hp. cbn [HasPrefix] in Hp. rewrite Ascii.eqb_refl in Hp.
        by apply (name_prefix k k' (render ps)).
Qed.

Lemma piece_ok_chars v : str_free dollar v = true → forallb piece_ok (chars v) = true.
Proof. induction v as [|c v IH]; cbn; [done|]. intros H. propify. by rewrite H, IH. Qed.

Lemma subst_ok k v ps :
  str_free dollar v = true → forallb piece_ok ps = true →
  forallb piece_ok (concat (map (subst_piece k v) ps)) = true.
Proof.
  intros Hv. induction ps as [|p ps IH]; [done|]. cbn [forallb map concat]. intros H. propify.
  rewrite forallb_app, IH, andb_true_r by done. destruct p; cbn in *; rewrite ?andb_true_r; [done|done|].
  destruct (String.eqb _ _); [by apply piece_ok_chars|]. cbn. by rewrite H.
Qed.

Lemma expand_app vars ps qs : expand vars (ps ++ qs) = expand vars ps ++ expand vars qs.
Proof. unfold expand. by rewrite map_app, concat_app. Qed.

Lemma expand_chars vars v : expand vars (chars v) = chars v.
Proof. unfold expand. induction v as [|c v IH]; cbn; [done|]. by rewrite IH. Qed.

Lemma expand_subst k v (vars : files) ps :
  expand vars (concat (map (subst_piece k v) ps)) = expand (<[k := v]> vars) ps.
Proof.
  induction ps as [|p ps IH]; [done|]. cbn [map concat]. rewrite expand_app, IH.
  change (p :: ps) with ([p] ++ ps). rewrite (expand_app _ [p]). f_equal.
  destruct p as [c|c|k']; [done|done|]. cbn [subst_piece].
  destruct (String.eqb_spec k' k) as [->|Hne].
  - rewrite expand_chars. unfold expand. cbn. by rewrite lookup_insert_eq, app_nil_r.
  - unfold expand. cbn. by rewrite lookup_insert_ne.
Qed.

Definition var_ok (kv : string * string) : bool := name_ok kv.1 && str_free dollar kv.2.

Lemma substitute_render range ps :
  forallb var_ok range = true → forallb piece_ok ps = true →
  substitute range (render ps) = render (expand (list_to_map range) ps).
Proof.
  revert ps. induction range as [|[k v] range IH]; intros ps Hr Hp.
  - cbn. f_equal. unfold expand. induction ps as [|p ps IH]; [done|].
    cbn in Hp. propify. cbn. rewrite <- IH by done. by destruct p.
  - cbn in Hr. unfold var_ok in Hr at 1. propify. unfold substitute. cbn [fold_left fst snd].
    rewrite Replace_render by done. fold (substitute range (render (concat (map (subst_piece k v) ps)))).
    rewrite IH; [by rewrite expand_subst|done|by apply subst_ok].
Qed.

(** On a template whose variables are named without dollar signs and braces
    and values that hold no dollar sign, the file that is written is the
    expansion of the template, whatever the order in which the map is iterated;
    the source file and every other file are left alone. *)
Theorem VarSubOnFile_template write_err src dest (vars : files) range ps fs :
  range ≡ₚ map_to_list vars → forallb var_ok range = true → forallb piece_ok ps = true →
  fs !! src = Some (render ps) → write_err dest = None →
  VarSubOnFile write_err src dest range fs = (Ret tt, <[dest := render (expand vars ps)]> fs).
Proof.
  intros Hr Hv Hp Hs Hw. unfold VarSubOnFile. rewrite Hs, Hw, substitute_render by done.
  do 4 f_equal. rewrite <- (list_to_map_to_list vars). apply list_to_map_proper; [|done].
  rewrite Hr. apply NoDup_fst_map_to_list.
Qed.

(** Outside these templates the order of the iteration, which Go chooses
    anew each time, shows in the file: a value that completes a variable, or a
    variable inside another. *)
Lemma VarSubOnFile_order :
  let vars := [("a", "b"); ("b", "c")]%string in
  substitute vars "${${a}}" = "c"%string ∧ substitute (reverse vars) "${${a}}" = "${b}"%string.
Proof. split; vm_compute; reflexivity. Qed.

Definition greeting : list piece :=
  chars "hi " ++ [Var "who"; Dol (Ascii.ascii_of_nat 40); Var "env.X"; Var "who"].

Lemma VarSubOnFile_template_witness :
  VarSubOnFile (λ _, None) "in" "out" [("who", "you"); ("PROJECT_NAME", "p")]%string {["in"%string := render greeting]} =
  (Ret tt, <["out"%string := "hi you$(${env.X}you"%string]> {["in"%string := render greeting]}).
Proof.
  exact (VarSubOnFile_template (λ _, None) "in" "out" {["who" := "you"; "PROJECT_NAME" := "p"]}%string
    [("who", "you"); ("PROJECT_NAME", "p")]%string greeting {["in"%string := render greeting]}
    ltac:(apply (bool_decide_unpack _); vm_compute; exact I)
    ltac:(vm_compute; reflexivity) ltac:(vm_compute; reflexivity) ltac:(vm_compute; reflexivity) eq_refl).
Defined.

(** ** Artifacts *)

(** The environment variable has to be set. *)
(* src: test/extended/util/framework.go 1366-1372 ArtifactDirPath *)
Definition ArtifactDirPath (Getenv : string → string) : outcome string :=
  let path := Getenv "ARTIFACT_DIR"%string in
  if String.eqb path "" then Panic "Expected <string>:  not to be empty" else Ret path.

(* src: test/extended/util/framework.go 1374-1378 ArtifactPath *)
Definition ArtifactPath (Getenv : string → string) (elem : list string) : outcome string :=
  match ArtifactDirPath Getenv with
  | Ret dir => Ret (path_Join (dir :: elem))
  | Fail e => Fail e
  | Panic m => Panic m
  end.

(** ** Git repositories *)

(** Directories, files and the git commands of library-go; the repositories are
    named by their paths. *)
Record git_api (W : Type) := mkGit {
  TempDir : string → go W string;
  MkdirAll : string → go W unit;
  WriteFile : string → string → go W unit;
  RemoveAll : string → go W unit;
  git_Init : string → bool → go W unit;
  git_Clone : string → string → go W unit;
  git_Add : string → string → go W unit;
  git_Commit : string → string → go W unit
}.
Arguments TempDir {W}. Arguments MkdirAll {W}. Arguments WriteFile {W}. Arguments RemoveAll {W}.
Arguments git_Init {W}. Arguments git_Clone {W}. Arguments git_Add {W}. Arguments git_Commit {W}.

(** The two repositories have no state of their own. *)
(* src: test/extended/util/framework.go 1742-1748 GitRepo *)
Record GitRepo := mkRepo { baseTempDir : string; upstreamPath : string; RepoPath : string }.

(** [filepath.Dir] *)
Definition path_Dir (file : string) : string :=
  match LastIndexChar file slash with
  | None => "."
  | Some i => path_Join [take_str (S i) file]
  end.

Section Git.
Context {W : Type} (api : git_api W).

(* src: test/extended/util/framework.go 1750-1766 GitRepo.AddAndCommit *)
Definition AddAndCommit (r : GitRepo) (file content : string) : go W unit :=
  (MkdirAll api (path_Join [RepoPath r; path_Dir file]) ;;!
   WriteFile api (path_Join [RepoPath r; file]) content ;;!
   git_Add api (RepoPath r) file ;;!
   git_Commit api (RepoPath r) ("added file " +:+ file))%go.

(** The error of the removal is ignored. *)
(* src: test/extended/util/framework.go 1768-1773 GitRepo.Remove *)
Definition Remove (r : GitRepo) : go W unit :=
  if String.eqb (baseTempDir r) "" then ret tt
  else (try (RemoveAll api (baseTempDir r)) ;;! ret tt)%go.

(** The repository is returned with an error too, for [Remove]. *)
(* src: test/extended/util/framework.go 1775-1793 NewGitRepo *)
Definition NewGitRepo (repoName : string) : go W (GitRepo * option error) :=
  (d <-! try (TempDir api repoName) ;;
   match d with
   | inr err => ret (mkRepo "" "" "", Some err)
   | inl testDir =>
       let repoPath := path_Join [testDir; repoName] in
       let upstreamPath := repoPath +:+ ".git" in
       i <-! try (git_Init api upstreamPath true) ;;
       match i with
       | inr err => ret (mkRepo testDir "" "", Some err)
       | inl _ =>
           c <-! try (git_Clone api repoPath upstreamPath) ;;
           match c with
           | inr err => ret (mkRepo testDir "" "", Some err)
           | inl _ => ret (mkRepo testDir upstreamPath repoPath, None)
           end
       end
   end)%go.

(** Whatever fails, the repository that is returned has the temporary directory
    that was made, so that [Remove] removes it. *)
Theorem NewGitRepo_removable repoName w dir w1 r w2 :
  TempDir api repoName w = (Ret dir, w1) → dir ≠ ""%string → NewGitRepo repoName w = (Ret r, w2) →
  Remove r.1 w2 = match RemoveAll api dir w2 with
                  | (Panic m, w3) => (Panic m, w3)
                  | (_, w3) => (Ret tt, w3)
                  end.
Proof.
  intros Ht Hd Hr. unfold NewGitRepo, gobind at 1, try at 1 in Hr. rewrite Ht in Hr.
  apply gobind_Ret_inv in Hr as (i & w3 & _ & Hr).
  assert (baseTempDir r.1 = dir) as Hb.
  { destruct i; [|by injection Hr as <- _]. apply gobind_Ret_inv in Hr as ([|] & w4 & _ & Hr);
      by injection Hr as <- _. }
  unfold Remove. rewrite Hb. apply String.eqb_neq in Hd. rewrite Hd.
  unfold gobind, try. by destruct (RemoveAll api dir w2) as [[|e|m] w4].
Qed.
End Git.

(** ** Pods that run commands *)

(** A deferred call runs whatever the outcome; its error is dropped, its panic
    replaces the outcome. *)
Definition with_defer {W A} (m : go W A) (d : go W unit) : go W A := λ w,
  let '(r, w1) := m w in
  match d w1 with (Panic p, w2) => (Panic p, w2) | (_, w2) => (r, w2) end.

(** [o.Expect(err).NotTo(o.HaveOccurred())] *)
Definition expect_no_error {W A} (r : A + error) : go W A :=
  match r with inl a => ret a | inr e => gopanic ("Unexpected error: " +:+ err_msg e) end.

(** [e2e.Poll] *)
Definition e2e_Poll : duration := (2 * Second)%Z.

Section ExecPods.
Context {W : Type} (c : pods_api W).
(** [pod.NewExecPodSpec]; [e2e.RunHostCmd] in the pod of a name, which returns
    its output with the error too. *)
Variable NewExecPodSpec : string → string → Pod.
Variable RunHostCmd : string → string → W → (string * option error) * W.

(* src: test/extended/util/framework.go 1564-1570 CreateExecPodOrFail (condition) *)
Definition pod_running_cond (name : string) : go W bool :=
  (r <-! try (get_pod c name) ;;
   match r with inr _ => ret false | inl p => ret (String.eqb (Phase p) "Running") end)%go.

(* src: test/extended/util/framework.go 1556-1573 CreateExecPodOrFail *)
Definition CreateExecPodOrFail (ns name : string) : go W string :=
  (r <-! try (create_pod c (NewExecPodSpec ns name)) ;;
   created <-! expect_no_error r ;;
   r <-! try (PollImmediate (ticks_of e2e_Poll (5 * Minute)) (pod_running_cond (pod_name created))) ;;
   expect_no_error r ;;!
   ret (pod_name created))%go.

(** [response] is set by every attempt. *)
(* src: test/extended/util/framework.go 1452-1467 FetchURL (condition) *)
Definition fetch_cond (execPod url : string) : go (W * string) bool := λ s,
  let '((response, err), w') := RunHostCmd execPod ("curl -vvv " +:+ url) s.1 in
  match err with
  | Some _ => (Ret false, (w', response))
  | None => (Ret (negb (String.eqb (TrimSpace response) "")), (w', response))
  end.

(* src: test/extended/util/framework.go 1446-1475 FetchURL (pod) *)
Definition fetch (execPodName url : string) (retryTimeout : duration) : go W string :=
  (execPod <-! get_pod c execPodName ;;
   λ w, match Poll (ticks_of Second retryTimeout) (fetch_cond (pod_name execPod) url) (w, ""%string) with
        | (Ret _, (w', response)) => (Ret response, w')
        | (Fail e, (w', _)) =>
            (Fail (if is_kind KWaitTimeout e then Errorf ("Timed out while fetching url " +:+ Quote url)
                   else e), w')
        | (Panic m, (w', _)) => (Panic m, w')
        end)%go.

(** [uuid] is the name of the pod. *)
(* src: test/extended/util/framework.go 1439-1476 FetchURL *)
Definition FetchURL (ns uuid url : string) (retryTimeout : duration) : go W string :=
  (execPodName <-! CreateExecPodOrFail ns uuid ;;
   with_defer (fetch execPodName url retryTimeout) (delete_pod c execPodName))%go.

Lemma fetch_Ret name url timeout w s w' :
  fetch name url timeout w = (Ret s, w') →
  TrimSpace s ≠ ""%string ∧ ∃ p w0, RunHostCmd p ("curl -vvv " +:+ url) w0 = ((s, None), w').
Proof.
  unfold fetch. intros (p & w1 & _ & H)%gobind_Ret_inv.
  destruct (Poll _ _ _) as [[[]|e|m] [w2 response]] eqn:E; simplify_eq.
  apply WaitFor_Ret in E as [[w0 r0] E]. unfold fetch_cond in E.
  destruct (RunHostCmd _ _ _) as [[response' err] w3] eqn:Er. destruct err; [done|].
  injection E as Hn <- <-. split; [|by eexists _, _].
  intros Hs. by rewrite Hs in Hn.
Qed.

(** What [FetchURL] returns is the output, not blank, of a request that
    succeeded in the pod; and once its pod runs, the pod is deleted last,
    whatever happened in between, a panic included.  When the pod does not come
    up in its five minutes the test fails and the pod stays. *)
Theorem FetchURL_spec ns uuid url timeout w r w' :
  FetchURL ns uuid url timeout w = (r, w') →
  match CreateExecPodOrFail ns uuid w with
  | (Ret name, w1) =>
      (∃ w2, w' = (delete_pod c name w2).2 ∧
        ∀ s, r = Ret s → TrimSpace s ≠ ""%string ∧
          ∃ p w0, RunHostCmd p ("curl -vvv " +:+ url) w0 = ((s, None), w2))
  | (Fail e, w1) => r = Fail e ∧ w' = w1
  | (Panic m, w1) => r = Panic m ∧ w' = w1
  end.
Proof.
  unfold FetchURL, gobind at 1. destruct (CreateExecPodOrFail ns uuid w) as [[name|e|m] w1];
    [|by intros [= <- <-]..].
  unfold with_defer. destruct (fetch name url timeout w1) as [r2 w2] eqn:Ef.
  intros H. exists w2. destruct (delete_pod c name w2) as [[[]|e|m] w3];
    injection H as <- <-; (split; [done|]); try done; intros s ->; by eapply fetch_Ret.
Qed.

(** The pod was running when its name was returned. *)
Lemma CreateExecPodOrFail_running ns name w n w' :
  CreateExecPodOrFail ns name w = (Ret n, w') →
  ∃ w0 p, get_pod c n w0 = (Ret p, w') ∧ Phase p = "Running"%string.
Proof.
  unfold CreateExecPodOrFail. intros (r & w1 & _ & H)%gobind_Ret_inv.
  apply gobind_Ret_inv in H as (created & w2 & _ & H).
  apply gobind_Ret_inv in H as (r2 & w3 & Hp & H).
  apply gobind_Ret_inv in H as ([] & w4 & He & H). injection H as <- <-.
  destruct r2 as [[]|e]; [|done]. injection He as <-.
  unfold try in Hp. destruct (PollImmediate _ _ _) as [[[]|e|m] w5] eqn:E; simplify_eq.
  apply PollImmediate_Ret in E as [w0 E]. apply gobind_Ret_inv in E as (g & w6 & Hg & E).
  unfold try in Hg. destruct (get_pod c (pod_name created) w0) as [[p|e|m] w7] eqn:Eg;
    [injection Hg as <- <-|injection Hg as <- <-; discriminate E|done].
  injection E as Hph <-. exists w0, p. split; [done|]. by apply String.eqb_eq.
Qed.
End ExecPods.

(** *** A pod that serves HTTP *)

Record pod_spec := mkPodSpec {
  ps_name : string; ps_container : string; ps_image : string; ps_args : list string; ps_port : Z;
  ps_node : string; ps_restart : string
}.

(** [net.JoinHostPort] *)
Definition JoinHostPort (host port : string) : string :=
  if Contains host ":" then "[" +:+ host +:+ "]:" +:+ port else host +:+ ":" +:+ port.

(** [running] is [f.WaitForPodRunning]; [get_ip] reads the pod's address;
    [agnhost] is the image. *)
(* src: test/extended/util/framework.go 1490-1523 LaunchWebserverPod *)
Definition LaunchWebserverPod {W} (create : pod_spec → go W unit) (running : string → go W unit)
    (get_ip : string → go W string) (agnhost podName nodeName : string) : go W string :=
  let port := 8080%Z in
  let pod := mkPodSpec podName (podName +:+ "-container") agnhost
               ["netexec"; "--http-port"; itoa port]%string port nodeName "Never" in
  (r <-! try (create pod) ;;
   expect_no_error r ;;!
   r <-! try (running podName) ;;
   expect_no_error r ;;!
   r <-! try (get_ip podName) ;;
   ip <-! expect_no_error r ;;
   ret (JoinHostPort ip (itoa port)))%go.

(** ** Events of a build *)

Record build_event := mkBuildEvent { ev_Reason : string; ev_Message : string }.

(** [fmt.Sprintf] for a format of text and [%s]. *)
Fixpoint Sprintf_s (fmt : string) (args : list string) : string :=
  match fmt with
  | String "%" (String "s" rest) =>
      match args with
      | [] => "%!s(MISSING)" +:+ Sprintf_s rest []
      | a :: args' => a +:+ Sprintf_s rest args'
      end
  | String ch rest => String ch (Sprintf_s rest args)
  | EmptyString => ""
  end.

Section BuildEvents.
Context {W : Type}.
(** [client.Events(ns).Search(scheme, build)] *)
Variable search : go W (list build_event).

(** [expectedEvent] points to the copy of the loop that then ends. *)
(* src: test/extended/util/framework.go 1579-1591 CheckForBuildEvent (condition) *)
Definition event_cond (reason : string) : go (W * option build_event) bool := λ s,
  match search s.1 with
  | (Fail e, w') => (Fail e, (w', s.2))
  | (Panic m, w') => (Panic m, (w', s.2))
  | (Ret events, w') =>
      match find_first (λ e, String.eqb reason (ev_Reason e)) events with
      | Some e => (Ret true, (w', Some e))
      | None => (Ret false, (w', s.2))
      end
  end.

(* src: test/extended/util/framework.go 1576-1597 CheckForBuildEvent *)
Definition CheckForBuildEvent (ns name reason message : string) : go W unit := λ w,
  match PollImmediate (ticks_of e2e_Poll Minute) (event_cond reason) (w, None) with
  | (Fail e, (w', _)) => (Panic ("Should be able to get events from the build: " +:+ err_msg e), w')
  | (Panic m, (w', _)) => (Panic m, w')
  | (Ret _, (w', None)) =>
      (Panic ("Did not find a " +:+ Quote reason +:+ " event on build " +:+ ns +:+ "/" +:+ name), w')
  | (Ret _, (w', Some e)) =>
      if String.eqb (ev_Message e) (Sprintf_s message [ns; name]) then (Ret tt, w')
      else (Panic ("Expected " +:+ Quote (ev_Message e) +:+ " to equal " +:+
                   Quote (Sprintf_s message [ns; name])), w')
  end.

(** The check passes when the first event with the reason, in the listing that
    ends the wait, has the message; events after it are not looked at. *)
Theorem CheckForBuildEvent_spec ns name reason message w w' :
  CheckForBuildEvent ns name reason message w = (Ret tt, w') →
  ∃ w0 l1 e l2, search w0 = (Ret (l1 ++ e :: l2), w') ∧
    Forall (λ e, ev_Reason e ≠ reason) l1 ∧ ev_Reason e = reason ∧
    ev_Message e = Sprintf_s message [ns; name].
Proof.
  unfold CheckForBuildEvent.
  destruct (PollImmediate _ _ _) as [[[]|e|m] [w1 found]] eqn:E; [|done..].
  apply PollImmediate_Ret in E as [[w0 f0] E]. unfold event_cond in E. cbn [fst snd] in E.
  destruct (search w0) as [[events|e|m] w2] eqn:Es; [|done..].
  destruct (find_first _ events) as [e|] eqn:Ef; [|done]. injection E as <- <-.
  destruct (String.eqb_spec (ev_Message e) (Sprintf_s message [ns; name])) as [Hm|]; [|done].
  intros [= <-]. apply find_first_split in Ef as (l1 & l2 & -> & Hr & Hl).
  exists w0, l1, e, l2. split_and!; [done| |by apply String.eqb_eq in Hr|done].
  eapply Forall_impl; [apply Hl|]. intros a Ha%String.eqb_neq. congruence.
Qed.
End BuildEvents.

(** ** The kind of cluster *)

(** [get] reads the image configuration of the cluster: whether the object is
    not nil, and the error. *)
(* src: test/extended/util/framework.go 1901-1909 IsClusterOperated *)
Definition IsClusterOperated (get : bool * option error) : bool :=
  match get with (true, None) => true | _ => false end.

(** [labels.Parse] is a parameter. *)
(* src: test/extended/util/framework.go 1478-1488 ParseLabelsOrDie *)
Definition ParseLabelsOrDie {S} (parse : string → S + error) (str : string) : outcome S :=
  match parse str with
  | inl s => Ret s
  | inr err => Panic ("cannot parse '" +:+ str +:+ "': " +:+ err_msg err)
  end.
