(* ===== verification/TestSetup.v ===== *)
(** * test/extended/util: the set-up of the test binary and its reporter

    test.go sets the environment and the test context up before the specs are
    read, and runs them under ginkgo when the binary is not driven by the
    queue; reporter.go prints their results. *)

From S2P Require Import Prelude.
From S2P Require Import GoStrings.
From S2P Require Import GoLib.
From S2P Require Import TestCase.
From S2P Require Import JunitXml.
From S2P Require Import Csi.
From S2P Require Import FrameworkHelpers.

(** ** The set-up *)

Notation environment := (gmap string string).
Definition Getenv (env : environment) (k : string) : string := default ""%string (env !! k).

(** The fields of the test context that are set, the variables of the package,
    and the number of functions registered with ginkgo and of file sources. *)
Record setup := mkSetup_ {
  env : environment;
  DeleteNamespace : bool;
  VerifyServiceAccount : bool;
  KubectlPath : string;
  KubeConfig : string;
  NodeOSDistro : string;
  MasterOSDistro : string;
  Host : string;
  ReportDir : string;
  own_namespaces : bool;          (* CreateTestingNS *)
  reportFileName : string;
  quiet : bool;
  synthetic_checks : nat;
  file_sources : nat
}.

(* src: test/extended/util/framework.go 1361-1364 KubeConfigPath *)
Definition KubeConfigPath (e : environment) : string := Getenv e "KUBECONFIG".

(** [temp] is [os.TempDir]. *)
(* src: test/extended/util/test.go 266-272 InitDefaultEnvironmentVariables *)
Definition InitDefaultEnvironmentVariables (temp : string) (e : environment) : environment :=
  if Nat.eqb (String.length (TrimSpace (Getenv e "ARTIFACT_DIR"))) 0
  then <["ARTIFACT_DIR" := path_Join [temp; "artifacts"]]> e else e%string.

(** The settings that need no cluster. *)
(* src: test/extended/util/test.go 58-76 InitTest (defaults) *)
Definition init_defaults (temp : string) (s : setup) : setup :=
  let e := InitDefaultEnvironmentVariables temp (env s) in
  let kc := KubeConfigPath e in
  mkSetup_ (<["KUBECONFIG"%string := kc]> e) (negb (String.eqb (Getenv e "DELETE_NAMESPACE") "false")) true
    "kubectl" kc "custom" "custom" (Host s) (ReportDir s) (own_namespaces s) (reportFileName s) (quiet s)
    (S (synthetic_checks s)) (S (file_sources s)).
Definition set_host (h : string) (s : setup) : setup :=
  mkSetup_ (env s) (DeleteNamespace s) (VerifyServiceAccount s) (KubectlPath s) (KubeConfig s) (NodeOSDistro s)
    (MasterOSDistro s) h (ReportDir s) (own_namespaces s) (reportFileName s) (quiet s) (synthetic_checks s)
    (file_sources s).
(* src: test/extended/util/test.go 88-96 InitTest (reports) *)
Definition init_reports (s : setup) : setup :=
  let name := Getenv (env s) "TEST_REPORT_FILE_NAME" in
  mkSetup_ (env s) (DeleteNamespace s) (VerifyServiceAccount s) (KubectlPath s) (KubeConfig s) (NodeOSDistro s)
    (MasterOSDistro s) (Host s) (ReportDir s) true (if String.eqb name "" then "junit" else name)
    (String.eqb (Getenv (env s) "TEST_OUTPUT_QUIET") "true") (synthetic_checks s) (file_sources s).

(** [client_host] is the host of the client configuration of a kubeconfig. *)
(* src: test/extended/util/test.go 57-99 InitTest *)
Definition InitTest (temp : string) (client_host : string → string + error) (dryRun : bool) : go setup unit :=
  (modw (init_defaults temp) ;;!
   (if dryRun then ret tt
    else s <-! getw ;;
         match client_host (KubeConfig s) with
         | inr err => fail err
         | inl h => modw (set_host h)
         end) ;;!
   modw init_reports)%go.

Lemma TrimRight_nonempty s : TrimRight s ≠ ""%string → s ≠ ""%string.
Proof. by destruct s. Qed.

Lemma Getenv_insert_ne e k k' v : k ≠ k' → Getenv (<[k := v]> e) k' = Getenv e k'.
Proof. intros H. unfold Getenv. by rewrite lookup_insert_ne. Qed.

Lemma InitDefaultEnvironmentVariables_artifacts temp e :
  path_Join [temp; "artifacts"%string] ≠ ""%string →
  Getenv (InitDefaultEnvironmentVariables temp e) "ARTIFACT_DIR" ≠ ""%string.
Proof.
  intros Ht. unfold InitDefaultEnvironmentVariables.
  destruct (Nat.eqb_spec (String.length (TrimSpace (Getenv e "ARTIFACT_DIR"))) 0) as [|Hn].
  - unfold Getenv. by rewrite lookup_insert_eq.
  - intros H. rewrite H in Hn. by cbn in Hn.
Qed.

Lemma InitDefaultEnvironmentVariables_other temp e k :
  k ≠ "ARTIFACT_DIR"%string → Getenv (InitDefaultEnvironmentVariables temp e) k = Getenv e k.
Proof.
  intros Hk. unfold InitDefaultEnvironmentVariables. destr_match; [|done]. by apply Getenv_insert_ne.
Qed.

(** A dry run needs no cluster and cannot fail; a run fails only with the error
    of the client configuration, for the file KUBECONFIG names.  Afterwards the
    host is that of the configuration, the directory of the artifacts is set,
    and the reports have a name. *)
Theorem InitTest_spec temp client_host dryRun s r s' :
  path_Join [temp; "artifacts"%string] ≠ ""%string →
  InitTest temp client_host dryRun s = (r, s') →
  KubeConfig s' = Getenv (env s) "KUBECONFIG" ∧
  (∃ dir, ArtifactDirPath (Getenv (env s')) = Ret dir) ∧
  match r with
  | Ret _ => reportFileName s' ≠ ""%string ∧ own_namespaces s' = true ∧
             (if dryRun then Host s' = Host s else client_host (KubeConfig s') = inl (Host s'))
  | Fail e => dryRun = false ∧ client_host (KubeConfig s') = inr e
  | Panic _ => False
  end.
Proof.
  intros Ht. unfold InitTest.
  assert (∀ h, (∃ dir, ArtifactDirPath (Getenv (env (h (init_defaults temp s)))) = Ret dir) ↔
    Getenv (env (h (init_defaults temp s))) "ARTIFACT_DIR" ≠ ""%string) as Hdir.
  { intros h. unfold ArtifactDirPath. destruct (String.eqb_spec (Getenv (env (h (init_defaults temp s))) "ARTIFACT_DIR") "");
      naive_solver. }
  assert (Getenv (env (init_defaults temp s)) "ARTIFACT_DIR" ≠ ""%string) as Ha.
  { cbn. rewrite Getenv_insert_ne by done. by apply InitDefaultEnvironmentVariables_artifacts. }
  assert (KubeConfig (init_defaults temp s) = Getenv (env s) "KUBECONFIG") as Hk.
  { cbn. by apply InitDefaultEnvironmentVariables_other. }
  assert (∀ x, reportFileName (init_reports x) ≠ ""%string) as Hrep.
  { intros x. cbn. by destruct (String.eqb_spec (Getenv (env x) "TEST_REPORT_FILE_NAME") ""). }
  unfold gobind, modw, getw, ret, fail. destruct dryRun.
  - intros [= <- <-]. split_and!; [done|by apply (Hdir init_reports)|apply Hrep|done..].
  - destruct (client_host _) as [h|e] eqn:Eh.
    + intros [= <- <-]. split_and!; [done|by apply (Hdir (λ x, init_reports (set_host h x)))|apply Hrep|done..].
    + intros [= <- <-]. split_and!; [done|by apply (Hdir id)|done..].
Qed.

(** ** Running the specs under ginkgo *)

(** What is read and set of ginkgo's configuration. *)
Record ginkgo_config := mkGinkgo { FocusString : string; SkipString : string; ParallelNode : Z }.
Inductive reporter := JUnitReporter (file : string) | Simple.
(** A run of the specs; whether the log of the cluster is dumped at its end. *)
Record specs_run := mkRun {
  r_suite : string;
  r_default : bool;
  r_reporters : list reporter;
  r_coredump : option string
}.

(** A directory that cannot be made is only logged. *)
(* src: test/extended/util/test.go 101-133 ExecuteTest *)
Definition ExecuteTest (suite : string) (s : setup) (c : ginkgo_config) : specs_run * string * ginkgo_config :=
  let dir := if Nat.ltb 0 (String.length (Getenv (env s) "TEST_REPORT_DIR")) then Getenv (env s) "TEST_REPORT_DIR"
             else ReportDir s in
  let reports := negb (String.eqb dir "") in
  let c := if String.eqb (FocusString c) "" && String.eqb (SkipString c) ""
           then mkGinkgo (FocusString c) "Skipped" (ParallelNode c) else c in
  let r := if reports
           then [JUnitReporter (path_Join [dir; reportFileName s +:+ "_" +:+ zero_pad 2 (ParallelNode c) +:+ ".xml"])]
           else [] in
  (mkRun suite (negb (quiet s)) (if quiet s then r ++ [Simple] else r) (if reports then Some dir else None), dir, c).

(** ** The reporter *)

(** Runes of a string; a byte that begins none becomes U+FFFD.  [left] bytes
    belong to the rune before. *)
Fixpoint rune_chunks (left : nat) (s : string) : string * list string :=
  match s with
  | EmptyString => (""%string, [])
  | String c s' =>
      match left with
      | S n => let '(r, l) := rune_chunks n s' in (String c r, l)
      | O =>
          let w := (rune c s').2 in
          let '(r, l) := rune_chunks (w - 1) s' in
          (""%string, (if Nat.eqb w 1 && negb (byte_of c <? 128)%N then replacement else String c r) :: l)
      end
  end.
Definition to_runes (s : string) : list string := (rune_chunks 0 s).2.

(* src: test/extended/util/reporter.go 16-16 maxDescriptionLength *)
Definition maxDescriptionLength : nat := 100.

(* src: test/extended/util/reporter.go 86-92 short *)
Definition short (s : string) : string :=
  let runes := to_runes s in
  if Nat.ltb maxDescriptionLength (length runes) then cat (take maxDescriptionLength runes) +:+ " ..." else s.

Definition escape_char : Ascii.ascii := Ascii.ascii_of_nat 27.
Definition coloured (code v : string) : string :=
  String escape_char ("[" +:+ code +:+ "m") +:+ v +:+ String escape_char "[0m".
(* src: test/extended/util/reporter.go 94-104 bold, red, magenta *)
Definition bold (v : string) : string := coloured "1" v.
Definition red (v : string) : string := coloured "31" v.
Definition magenta (v : string) : string := coloured "35" v.

(* src: test/extended/util/reporter.go 106-123 stateToString *)
Definition stateToString (s : SpecState) : string :=
  match s with
  | SPassed => bold "ok"
  | SSkipped => magenta "skip"
  | SFailed => red "fail"
  | STimedOut => red "timed"
  | SPanicked => red "panic"
  | SPending => magenta "pending"
  | SInvalid => bold "0"
  end.

(** [strings.LastIndex] *)
Fixpoint LastIndex (s sub : string) : option nat :=
  match s with
  | EmptyString => if HasPrefix s sub then Some 0 else None
  | String _ s' =>
      match LastIndex s' sub with
      | Some i => Some (S i)
      | None => if HasPrefix s sub then Some 0 else None
      end
  end.

(** A file elsewhere is cut at the length of the delimiter less one. *)
(* src: test/extended/util/reporter.go 125-128 trimLocation *)
Definition trimLocation (l : CodeLocation) : outcome string :=
  let delimiter := "/openshift/origin/"%string in
  let from := match LastIndex (FileName l) delimiter with
              | Some i => i + String.length delimiter
              | None => String.length delimiter - 1
              end in
  if Nat.ltb (String.length (FileName l)) from then Panic "slice bounds out of range"
  else Ret (Quote (drop_str from (FileName l))).

(* src: test/extended/util/reporter.go 75-84 specDescription *)
Definition specDescription (texts : list string) : outcome string :=
  match texts with
  | [] => Panic "slice bounds out of range"
  | _ :: rest =>
      let name := cat (map (λ t, TrimSpace t +:+ " ") rest) in
      let name := if Nat.eqb (String.length name) 0
                  then "FIXME: Spec without valid name ([" +:+ Join texts " " +:+ "])" else name in
      Ret (short (TrimSpace name))
  end.

(** A line, or an announcement of the stenographer. *)
Inductive report_line := Line (s : string) | Announce (s : SpecState).
Notation reported := (list report_line).
Definition emit (l : report_line) : go reported unit := modw (λ out, out ++ [l]).
Definition reporter_of {A} (o : outcome A) : go reported A := λ s, (o, s).

(* src: test/extended/util/reporter.go 71-73 SimpleReporter.printRunLine *)
Definition printRunLine (locations : list CodeLocation) : go reported unit :=
  match locations !! 1 with
  | None => gopanic "index out of range"
  | Some l => (t <-! reporter_of (trimLocation l) ;; emit (Line ("=== RUN " +:+ t +:+ ":" +:+ nl)))%go
  end.

(** The time of a spec is never left out: no duration is printed as 0. *)
(* src: test/extended/util/reporter.go 63-69 SimpleReporter.printStatusLine *)
Definition printStatusLine (spec : SpecSummary) (RunTime : duration) : go reported unit :=
  let runTime := " (" +:+ Duration_String RunTime +:+ ")" in
  let runTime := if String.eqb runTime " (0)" then ""%string else runTime in
  (d <-! reporter_of (specDescription (ComponentTexts spec)) ;;
   emit (Line ("    " +:+ pad_right 16 (stateToString (State spec)) +:+ " " +:+ d +:+ runTime +:+ nl)))%go.

(* src: test/extended/util/reporter.go 52-61 SimpleReporter.handleSpecFailure *)
Definition handleSpecFailure (spec : SpecSummary) : go reported unit :=
  match State spec with
  | SFailed | SPanicked | STimedOut => emit (Announce (State spec))
  | _ => ret tt
  end.

(* src: test/extended/util/reporter.go 30-32 SimpleReporter.SpecSuiteWillBegin *)
Definition SpecSuiteWillBegin (description : string) (total will_run : Z) : go reported unit :=
  emit (Line ("=== SUITE " +:+ description +:+ " (" +:+ itoa total +:+ " total specs, " +:+ itoa will_run +:+
              " will run):" +:+ nl)).
(* src: test/extended/util/reporter.go 37-39 SimpleReporter.SpecWillRun *)
Definition SpecWillRun (spec : SpecSummary) : go reported unit := printRunLine (ComponentCodeLocations spec).
(* src: test/extended/util/reporter.go 41-44 SimpleReporter.SpecDidComplete *)
Definition SpecDidComplete (spec : SpecSummary) (RunTime : duration) : go reported unit :=
  (handleSpecFailure spec ;;! printStatusLine spec RunTime)%go.

(** The reporter was written for another repository: a file of this one loses
    its first 17 bytes, and a short path ends the run. *)
Example trimLocation_ex :
  map (λ f, trimLocation (mkLoc f 1 ""))
    ["/go/src/github.com/openshift/origin/test/a.go"; "/go/src/github.com/openshift/openshift-tests/test/a.go"; "test/a.go"]%string =
  [Ret (Quote "test/a.go"); Ret (Quote "m/openshift/openshift-tests/test/a.go"); Panic "slice bounds out of range"]%string.
Proof. vm_compute. reflexivity. Qed.

Example printStatusLine_zero :
  (printStatusLine (mkSummary ["top"; " a "; "b"] [] SPassed (mkFailure "" (mkLoc "" 0 "") "")) 0%Z []).2 =
  [Line ("    " +:+ bold "ok" +:+ "       a b (0s)" +:+ nl)]%string.
Proof. vm_compute. reflexivity. Qed.

(** Descriptions of bytes below 128 are cut after the hundredth one. *)
Definition ascii_only (s : string) : Prop := Forall (λ c, (byte_of c < 128)%N) (String.list_ascii_of_string s).

Lemma rune_ascii c s : (byte_of c < 128)%N → (rune c s).2 = 1.
Proof. intros H. unfold rune. by apply N.ltb_lt in H as ->. Qed.

Lemma to_runes_ascii s : ascii_only s → to_runes s = map one (String.list_ascii_of_string s).
Proof.
  unfold to_runes. enough (ascii_only s → rune_chunks 0 s = (""%string, map one (String.list_ascii_of_string s))) as H.
  { intros Hs. by rewrite H. }
  induction s as [|c s IH]; [done|]. intros [Hc Hs]%Forall_cons.
  cbn [rune_chunks]. rewrite rune_ascii by done. cbn [Nat.sub Nat.eqb andb]. rewrite IH by done.
  by apply N.ltb_lt in Hc as ->.
Qed.

Lemma cat_take_ones n s : cat (take n (map one (String.list_ascii_of_string s))) = take_str n s.
Proof.
  revert n. induction s as [|c s IH]; intros [|n]; [done..|]. cbn. f_equal. apply IH.
Qed.

Lemma length_chars s : length (String.list_ascii_of_string s) = String.length s.
Proof. induction s as [|c s IH]; cbn; [done|by rewrite IH]. Qed.

Theorem short_ascii s :
  ascii_only s →
  short s = if Nat.leb (String.length s) maxDescriptionLength then s
            else take_str maxDescriptionLength s +:+ " ...".
Proof.
  intros Hs. unfold short. rewrite to_runes_ascii, length_map, length_chars, cat_take_ones by done.
  destruct (Nat.ltb_spec maxDescriptionLength (String.length s)), (Nat.leb_spec (String.length s) maxDescriptionLength);
    done || lia.
Qed.
