(* ===== verification/UrlTester.v ===== *)
(** * test/extended/util/url/url.go: HTTP requests made from inside the cluster

    The tests of the routers describe requests and what they want of the
    responses; the tester runs them with curl in a pod, all in one script, and
    reads the responses back from its output.  Pods, the shell, the decoder of
    JSON and the parser of HTTP responses are parameters. *)

From S2P Require Import Prelude.
From S2P Require Import GoStrings.
From S2P Require Import GoLib.
From S2P Require Import GoNet.
From S2P Require Import Cli.
From S2P Require Import Csi.
From S2P Require Import FrameworkHelpers.

(** ** Data *)

(** [http.Response]: what the tests look at. *)
Record http_response := mkHttp { StatusCode : Z; RHeader : Header }.

(** An object of the script's output. *)
(* src: test/extended/util/url/url.go 236-238 CURL *)
Record CURL := mkCurl { Code : Z }.
Record raw_response := mkRaw {
  RTest : Z;
  RReturnCode : Z;
  RError : string;
  RCURL : CURL;
  RBody : string;
  RHeaders : string
}.

(** [Body] and [Headers] are those of the object. *)
(* src: test/extended/util/url/url.go 224-234 Response *)
Record Response := mkResponse { raw : raw_response; http : option http_response }.

(** [url.URL]: the host can be replaced. *)
Record URL := mkURL { Scheme : string; UHost : string; URest : string }.
Definition URL_String (u : URL) : string := Scheme u +:+ "://" +:+ UHost u +:+ URest u.

(** [Oc] is the client that uploads the body. *)
(* src: test/extended/util/url/url.go 240-251 Test *)
Record Test := mkTest {
  TName : string;
  Method : string;
  ReqURL : URL;
  ReqHeader : Header;
  SkipVerify : bool;
  PostBodyFile : string;
  TPodName : string;
  TOc : nat;
  Wants : list (http_response → option error)
}.

(* src: test/extended/util/url/url.go 26-31 Tester *)
Record Tester := mkTester { namespace : string; u_podName : string; errorPassThrough : bool }.

(* src: test/extended/util/url/url.go 33-35 NewTester *)
Definition NewTester (ns : string) : Tester := mkTester ns "" false.
(* src: test/extended/util/url/url.go 100-103 Tester.WithErrorPassthrough *)
Definition WithErrorPassthrough (pt : bool) (ut : Tester) : Tester :=
  mkTester (namespace ut) (u_podName ut) pt.
(* src: test/extended/util/url/url.go 105-107 Tester.Podname *)
Definition Podname (ut : Tester) : string := u_podName ut.
Definition with_podName (n : string) (ut : Tester) : Tester :=
  mkTester (namespace ut) n (errorPassThrough ut).

(** ** What a test wants *)

(** [parse] is the parser of URLs of [http.NewRequest]. *)
(* src: test/extended/util/url/url.go 253-261 Expect *)
Definition Expect (parse : string → URL + error) (method url : string) : outcome Test :=
  match parse url with
  | inl u => Ret (mkTest "" (if String.eqb method "" then "GET" else method) u ∅ false "" "" 0 [])
  | inr e => Panic (err_msg e)
  end.

Definition set_header (h : Header) (t : Test) : Test :=
  mkTest (TName t) (Method t) (ReqURL t) h (SkipVerify t) (PostBodyFile t) (TPodName t) (TOc t) (Wants t).
Definition add_want (f : http_response → option error) (t : Test) : Test :=
  mkTest (TName t) (Method t) (ReqURL t) (ReqHeader t) (SkipVerify t) (PostBodyFile t) (TPodName t)
    (TOc t) (Wants t ++ [f]).

(* src: test/extended/util/url/url.go 263-268 Test.WithBodyToUpload *)
Definition WithBodyToUpload (filename podname : string) (oc : nat) (t : Test) : Test :=
  mkTest (TName t) (Method t) (ReqURL t) (ReqHeader t) (SkipVerify t) filename podname oc (Wants t).
(* src: test/extended/util/url/url.go 274-277 Test.WithHeader *)
Definition WithHeader (hdr value : string) (t : Test) : Test :=
  set_header (header_Set (ReqHeader t) hdr value) t.
(* src: test/extended/util/url/url.go 270-272 Test.WithToken *)
Definition WithToken (token : string) (t : Test) : Test := WithHeader "Authorization" ("Bearer " +:+ token) t.
(* src: test/extended/util/url/url.go 279-283 Test.Through *)
Definition Through (addr : string) (t : Test) : Test :=
  let u := ReqURL t in
  mkTest (TName t) (Method t) (mkURL (Scheme u) addr (URest u))
    (header_Set (ReqHeader t) "Host" (UHost u)) (SkipVerify t) (PostBodyFile t) (TPodName t) (TOc t) (Wants t).
(* src: test/extended/util/url/url.go 312-315 Test.SkipTLSVerification *)
Definition SkipTLSVerification (t : Test) : Test :=
  mkTest (TName t) (Method t) (ReqURL t) (ReqHeader t) true (PostBodyFile t) (TPodName t) (TOc t) (Wants t).

Definition list_text (codes : list Z) : string := "[" +:+ Join (map itoa codes) " " +:+ "]".

(* src: test/extended/util/url/url.go 285-295 Test.HasStatusCode *)
Definition HasStatusCode (codes : list Z) (t : Test) : Test :=
  add_want (λ res, match find_first (Z.eqb (StatusCode res)) codes with
                   | Some _ => None
                   | None => Some (Errorf ("status code " +:+ itoa (StatusCode res) +:+ " not in " +:+
                                           list_text codes))
                   end) t.

(* src: test/extended/util/url/url.go 297-310 Test.RedirectsTo *)
Definition RedirectsTo (url : string) (codes : list Z) (t : Test) : Test :=
  let codes := match codes with [] => [302; 308; 307]%Z | _ => codes end in
  add_want (λ res, let location := header_Get (RHeader res) "Location" in
                   if String.eqb location url then None
                   else Some (Errorf ("Location header was " +:+ Quote location +:+ ", not " +:+ Quote url)))
    (HasStatusCode codes t).

(** The first want that is not met. *)
Fixpoint first_error (l : list (http_response → option error)) (res : http_response) : option error :=
  match l with
  | [] => None
  | f :: l' => match f res with Some e => Some e | None => first_error l' res end
  end.

Definition unsuccessful (i : nat) (what : string) : error :=
  Errorf ("test " +:+ itoa (Z.of_nat i) +:+ " was not successful: " +:+ what).

(** [None]: the test passed.  The response of an error has no HTTP response to
    look at. *)
(* src: test/extended/util/url/url.go 317-332 Test.Test *)
Definition Test_ (t : Test) (i : nat) (res : Response) : outcome (option error) :=
  if Nat.ltb 0 (String.length (RError (raw res))) || negb (RReturnCode (raw res) =? 0)%Z then
    Ret (Some (unsuccessful i (itoa (RReturnCode (raw res)) +:+ " " +:+ RError (raw res))))
  else match http res with
  | None => Panic "invalid memory address or nil pointer dereference"
  | Some r =>
      match first_error (Wants t) r with
      | Some e => Ret (Some (unsuccessful i (err_msg e)))
      | None =>
          if Nat.eqb (length (Wants t)) 0 && ((StatusCode r <? 200) || (300 <=? StatusCode r))%Z then
            Ret (Some (Errorf ("test " +:+ itoa (Z.of_nat i) +:+ " did not return a 2xx status code: " +:+
                               itoa (StatusCode r))))
          else Ret None
      end
  end.

(** A test passes on a response that was received without an error of curl and
    that everything it wants accepts; one that wants nothing wants a 2xx
    status. *)
Definition passes (t : Test) (res : Response) : Prop :=
  RError (raw res) = ""%string ∧ RReturnCode (raw res) = 0%Z ∧
  ∃ h, http res = Some h ∧ (∀ f, f ∈ Wants t → f h = None) ∧
    (Wants t = [] → 200 ≤ StatusCode h < 300)%Z.

Lemma first_error_None l h : first_error l h = None ↔ ∀ f, f ∈ l → f h = None.
Proof.
  induction l as [|f l IH]; cbn; [by split; [intros _ f ?%elem_of_nil|]|].
  setoid_rewrite elem_of_cons. destruct (f h) eqn:E; naive_solver congruence.
Qed.

Lemma Test_passes t i res : Test_ t i res = Ret None ↔ passes t res.
Proof.
  unfold Test_, passes.
  destruct (RError (raw res)) as [|c s]; cbn [String.length Nat.ltb Nat.leb orb]; [|naive_solver].
  destruct (Z.eqb_spec (RReturnCode (raw res)) 0) as [->|]; cbn [negb]; [|naive_solver].
  destruct (http res) as [h|]; [|naive_solver].
  destruct (first_error (Wants t) h) as [e|] eqn:Ef.
  { split; [done|]. intros (_ & _ & h' & [= <-] & Hw & _). apply first_error_None in Hw. congruence. }
  rewrite first_error_None in Ef.
  destruct (Wants t) as [|f l]; cbn [length Nat.eqb andb]; [|naive_solver].
  destruct (Z.ltb_spec (StatusCode h) 200), (Z.leb_spec 300 (StatusCode h)); cbn [orb];
    (split; [try done; naive_solver lia|intros (_ & _ & h' & [= <-] & _ & Hs); specialize (Hs eq_refl)]);
    done || lia.
Qed.

(** ** The script *)

(** [filepath.Base] *)
Definition path_Base (p : string) : string :=
  if String.eqb p "" then "."
  else match bfilter (λ x, negb (String.eqb x "")) (SplitChar slash p) with
       | [] => "/"
       | l => default ""%string (last l)
       end.

Definition space : Ascii.ascii := Ascii.ascii_of_nat 32.

Section Tester.
Context {W K : Type}.
Notation world := (Cli.world W K).
Notation state := (world * Tester)%type.

(** The slices of the client; the processes it runs; the iteration over a map
    of headers. *)
Variable spare : nat → nat → nat.
Variable process : string → list string → string → go W exec_result.
Variable cmd_String : string → list string → string.
Variable status_text : Z → string.
Variable range_header : Header → list (string * list string).
(** Creating the pod of a name and reading the phase of a pod in a namespace;
    deleting a pod; a script run in a pod. *)
Variable create_pod : string → string → go W string.
Variable pod_phase : string → string → go W string.
Variable delete_pod : string → string → go W unit.
Variable RunHostCmd : string → string → string → W → (string * option error) * W.
(** The objects of an output and the error that ends them; an HTTP response;
    the text of an error in Go's syntax. *)
Variable decode : string → list raw_response * option error.
Variable ReadResponse : string → http_response + error.
Variable gosyntax : error → string.

Definition on_world {A} (m : go world A) : go state A := λ s,
  let '(r, w) := m s.1 in (r, (w, s.2)).
Definition get_tester : go state Tester := λ s, (Ret s.2, s).
Definition set_tester (f : Tester → Tester) : go state unit := λ s, (Ret tt, (s.1, f s.2)).
Definition api {A} (m : go W A) : go state A := on_world (on_server m).

(** The directory of the body is uploaded by the administrator. *)
(* src: test/extended/util/url/url.go 348-363 Test.ToShell (body) *)
Definition post_args (t : Test) : go world string :=
  if String.eqb (ToLower (TrimChar space (Method t))) "post" then
    if Nat.ltb 0 (String.length (PostBodyFile t)) then
      let basename := path_Base (PostBodyFile t) in
      let dirname := path_Dir (PostBodyFile t) in
      let lastsubdir := path_Base dirname in
      (a <-! AsAdmin (TOc t) ;;
       p <-! Run spare a ["rsync"%string] ;;
       p <-! Args spare p [dirname; TPodName t +:+ ":/tmp"; "--strategy=tar"]%string ;;
       e <-! Execute process cmd_String p ;;
       match e with
       | Some e => gopanic ("Unexpected error: " +:+ status_text (ExitStatus e))
       | None => ret (" -H 'Expect:' " +:+ " -d @/tmp/" +:+ lastsubdir +:+ "/" +:+ basename)
       end)%go
    else ret (" -H 'Expect:' " +:+ " -d '' ")
  else ret "".

Definition header_args (h : Header) : list string :=
  flat_map (λ kv, map (λ v, "-H " +:+ Quote (kv.1 +:+ ":" +:+ v)) kv.2) (range_header h).

(** The line that prints the object of a response; apostrophes stand for
    quotation marks, tildes for escaped ones. *)
Definition echo_line (i : nat) : string :=
  Replace (Replace ("echo '{~test~:" +:+ itoa (Z.of_nat i) +:+
    ",~rc~:$(echo $rc),~curl~:$(cat /tmp/output),~error~:$(cat /tmp/error | json_escape),~body~:~$(cat /tmp/body | base64 -w 0 -)~,~headers~:$(cat /tmp/headers | json_escape)}'")
    "~" (backslash +:+ dquote)) "'" dquote.

(* src: test/extended/util/url/url.go 334-372 Test.ToShell *)
Definition ToShell (t : Test) (i : nat) : go world string :=
  (post <-! post_args t ;;
   let title := if Nat.ltb 0 (String.length (TName t))
                then "# Test: " +:+ TName t +:+ " (" +:+ itoa (Z.of_nat i) +:+ ")"
                else "# Test: " +:+ itoa (Z.of_nat i) in
   let cmd := "curl -X " +:+ Method t +:+ " " +:+ Join (header_args (ReqHeader t)) " " +:+ " " +:+ post +:+
              " -s -S -o /tmp/body -D /tmp/headers " +:+ Quote (URL_String (ReqURL t)) +:+
              Replace " -w '{~code~:%{http_code}}'" "~" dquote +:+
              (if SkipVerify t then " -k" else "") +:+ " 2>/tmp/error 1>/tmp/output || rc=$?" in
   ret (Join [title; "rc=0"; ": > /tmp/body /tmp/headers"; cmd; echo_line i] nl))%go.

Fixpoint scripts_from (i : nat) (tests : list Test) : go world (list string) :=
  match tests with
  | [] => ret []
  | t :: tests' => (x <-! ToShell t i ;; l <-! scripts_from (S i) tests' ;; ret (x :: l))%go
  end.

(* src: test/extended/util/url/url.go 179-191 testsToScript *)
Definition testsToScript (tests : list Test) : go world string :=
  (l <-! scripts_from 0 tests ;;
   ret (Join (["set -euo pipefail"; "function json_escape() {";
               "  python -c 'import json,sys; print json.dumps(sys.stdin.read())'"; "}"] ++ l) nl))%go.

(** ** The responses *)

Definition response_error (i : nat) (what : string) : error :=
  Errorf ("response " +:+ itoa (Z.of_nat i) +:+ " " +:+ what).

(** The loop over the objects of the decoder, from the [i]-th on. *)
Fixpoint parse_from (i : nat) (objects : list raw_response) (end_ : option error)
  : list Response + error :=
  match objects with
  | [] =>
      match end_ with
      | None => inl []
      | Some err => inr (response_error i ("could not be decoded: " +:+ err_msg err))
      end
  | r :: objects' =>
      if negb (Z.of_nat i =? RTest r)%Z then
        inr (response_error i ("does not match test body " +:+ itoa (RTest r)))
      else match ReadResponse (RHeaders r) with
      | inr err => inr (response_error i ("was unparseable: " +:+ err_msg err +:+ nl +:+ RHeaders r))
      | inl res =>
          if negb (StatusCode res =? Code (RCURL r))%Z then
            inr (response_error i ("returned a different status code than was encoded in the headers:" +:+
                                   nl +:+ RHeaders r))
          else match parse_from (S i) objects' end_ with
               | inl l => inl (mkResponse r (Some res) :: l)
               | inr e => inr e
               end
      end
  end.

(* src: test/extended/util/url/url.go 193-222 parseResponses *)
Definition parseResponses (out : string) : list Response + error :=
  let '(objects, end_) := decode out in parse_from 0 objects end_.

(** ** The tester *)

Definition error_response (e : error) (body : string) : Response :=
  mkResponse (mkRaw 0 0 (gosyntax e) (mkCurl 0) body "") None.

(* src: test/extended/util/url/url.go 140-177 createExecPod *)
Definition createExecPod (ns name : string) : go W string :=
  (created <-! create_pod ns name ;;
   PollImmediate (ticks_of e2e_Poll (5 * Minute))
     (r <-! try (pod_phase ns created) ;;
      match r with inr _ => ret false | inl phase => ret (String.eqb phase "Running") end) ;;!
   ret created)%go.

(** A pod that exists already is used, whoever made it. *)
(* src: test/extended/util/url/url.go 56-64 Tester.Responses (pod) *)
Definition ensure_pod : go state unit :=
  (ut <-! get_tester ;;
   if Nat.eqb (String.length (u_podName ut)) 0 then
     r <-! try (api (createExecPod (namespace ut) "execpod")) ;;
     (match r with
      | inr err => if is_kind KAlreadyExists err then ret tt
                   else gopanic ("Unexpected error: " +:+ err_msg err)
      | inl _ => ret tt
      end) ;;!
     set_tester (with_podName "execpod")
   else ret tt)%go.

(** [errorPassThrough] turns the errors of the run and of the parser into a
    response; a number of responses that is not that of the tests ends the
    test. *)
(* src: test/extended/util/url/url.go 55-98 Tester.Responses *)
Definition Responses (tests : list Test) : go state (list Response) :=
  (ensure_pod ;;!
   script <-! on_world (testsToScript tests) ;;
   ut <-! get_tester ;;
   r <-! api (λ v, let '(r, v') := RunHostCmd (namespace ut) (u_podName ut) script v in (Ret r, v')) ;;
   match r with
   | (_, Some err) =>
       if errorPassThrough ut then ret [error_response err ""]
       else gopanic ("Unexpected error: " +:+ err_msg err)
   | (output, None) =>
       match parseResponses output with
       | inr err =>
           if errorPassThrough ut then ret [error_response err output]
           else gopanic ("Unexpected error: " +:+ err_msg err)
       | inl responses =>
           if Nat.eqb (length responses) (length tests) then ret responses
           else gopanic "number of tests did not match number of responses"
       end
   end)%go.

(* src: test/extended/util/url/url.go 44-53 Tester.Response *)
Definition Response_ (test : Test) : go state (option Response) :=
  (l <-! Responses [test] ;; ret (head l))%go.

(** The pod is deleted by its name, and forgotten whatever the answer. *)
(* src: test/extended/util/url/url.go 37-42 Tester.Close *)
Definition Close : go state unit :=
  (ut <-! get_tester ;;
   try (api (delete_pod (namespace ut) (u_podName ut))) ;;!
   set_tester (with_podName ""))%go.

(** The loop over the responses: the tests that failed and their errors. *)
Fixpoint check_from (i : nat) (failing : list Test) (responses : list Response)
  : outcome (list (Test * error)) :=
  match responses with
  | [] => Ret []
  | res :: responses' =>
      match failing !! i with
      | None => Panic "index out of range"
      | Some t =>
          match Test_ t i res with
          | Panic m => Panic m
          | Fail e => Fail e
          | Ret r =>
              match check_from (S i) failing responses' with
              | Ret l => Ret (match r with Some e => (t, e) :: l | None => l end)
              | o => o
              end
          end
      end
  end.

(** The tests that failed so far are part of the state of the wait. *)
(* src: test/extended/util/url/url.go 112-130 Tester.Within (condition) *)
Definition within_cond (tests : list Test) : go (state * list Test) bool := λ s,
  match Responses s.2 s.1 with
  | (Panic m, u) => (Panic m, (u, s.2))
  | (Fail e, u) => (Fail e, (u, s.2))
  | (Ret responses, u) =>
      match check_from 0 s.2 responses with
      | Panic m => (Panic m, (u, s.2))
      | Fail e => (Fail e, (u, s.2))
      | Ret failed =>
          if Nat.eqb (length failed) 0 && negb (Nat.eqb (length s.2) (length tests))
          then (Ret false, (u, tests))
          else (Ret (Nat.eqb (length failed) 0), (u, map fst failed))
      end
  end.

(** The assertion on the collected errors has no matcher: only the error of the
    wait fails the test. *)
(* src: test/extended/util/url/url.go 109-135 Tester.Within *)
Definition Within (t : duration) (tests : list Test) : go state unit := λ s,
  match PollImmediate (ticks_of Second t) (within_cond tests) (s, tests) with
  | (Ret _, (u, _)) => (Ret tt, u)
  | (Fail e, (u, _)) => (Panic ("Unexpected error: " +:+ err_msg e), u)
  | (Panic m, (u, _)) => (Panic m, u)
  end.

(** ** Properties *)

(** The responses that are read are numbered from [i] on, and their status is
    the one curl printed. *)
Lemma parse_from_spec i objects end_ l :
  parse_from i objects end_ = inl l →
  length l = length objects ∧ end_ = None ∧
  ∀ j res, l !! j = Some res → RTest (raw res) = Z.of_nat (i + j) ∧
    ∃ h, http res = Some h ∧ ReadResponse (RHeaders (raw res)) = inl h ∧ StatusCode h = Code (RCURL (raw res)).
Proof.
  revert i l. induction objects as [|r objects IH]; intros i l; cbn [parse_from].
  { destruct end_; [done|]. intros [= <-]. split_and!; try done. }
  destruct (Z.eqb_spec (Z.of_nat i) (RTest r)) as [Ht|]; cbn [negb]; [|done].
  destruct (ReadResponse (RHeaders r)) as [h|] eqn:Hr; [|done].
  destruct (Z.eqb_spec (StatusCode h) (Code (RCURL r))) as [Hs|]; cbn [negb]; [|done].
  destruct (parse_from (S i) objects end_) as [l'|] eqn:E; [|done]. intros [= <-].
  destruct (IH _ _ E) as (Hl & He & Hj). split_and!; [cbn; by rewrite Hl|done|].
  intros [|j] res Hres; cbn in Hres.
  - injection Hres as <-. cbn. rewrite Nat.add_0_r. split; [done|]. by exists h.
  - replace (i + S j) with (S i + j) by lia. by apply Hj.
Qed.

(** The parts of the script of a list of tests, numbered from [i] on: each is
    what its test writes for its number. *)
Definition parts_of (i : nat) (tests : list Test) (parts : list string) : Prop :=
  length parts = length tests ∧
  ∀ j t x, tests !! j = Some t → parts !! j = Some x → ∃ w w', ToShell t (i + j) w = (Ret x, w').

Lemma scripts_from_Ret i tests w l w' :
  scripts_from i tests w = (Ret l, w') → parts_of i tests l.
Proof.
  clear delete_pod. revert i w l w'.
  induction tests as [|t tests IH]; intros i w l w'; cbn [scripts_from].
  { intros [= <- _]. by split. }
  intros (x & w1 & Hx & (l' & w2 & Hl & H)%gobind_Ret_inv)%gobind_Ret_inv. injection H as <- _.
  destruct (IH _ _ _ _ Hl) as [Hlen Hp]. split; [cbn; by rewrite Hlen|].
  intros [|j] u y Hu Hy; cbn in Hu, Hy.
  - injection Hu as <-. injection Hy as <-. rewrite Nat.add_0_r. eauto.
  - replace (i + S j) with (S i + j) by lia. eauto.
Qed.

Definition script_of (parts : list string) : string :=
  Join (["set -euo pipefail"; "function json_escape() {";
         "  python -c 'import json,sys; print json.dumps(sys.stdin.read())'"; "}"]%string ++ parts) nl.

Lemma testsToScript_Ret tests w script w' :
  testsToScript tests w = (Ret script, w') → ∃ parts, script = script_of parts ∧ parts_of 0 tests parts.
Proof.
  unfold testsToScript. intros (l & w1 & Hl & H)%gobind_Ret_inv. injection H as <- _.
  exists l. split; [done|]. by eapply scripts_from_Ret.
Qed.

Lemma Responses_Ret tests s l s' :
  Responses tests s = (Ret l, s') →
  (∃ e b, l = [error_response e b]) ∨
  length l = length tests ∧ ∃ parts output v v', parseResponses output = inl l ∧ parts_of 0 tests parts ∧
    RunHostCmd (namespace s'.2) (u_podName s'.2) (script_of parts) v = ((output, None), v').
Proof.
  unfold Responses. intros ([] & s1 & _ & H)%gobind_Ret_inv.
  apply gobind_Ret_inv in H as (script & s2 & Hscript & H). unfold on_world in Hscript.
  destruct (testsToScript tests s1.1) as [r2 w2] eqn:Ets. injection Hscript as -> <-.
  apply testsToScript_Ret in Ets as (parts & -> & Hparts).
  apply gobind_Ret_inv in H as (ut & s3 & Hut & H). injection Hut as <- <-.
  apply gobind_Ret_inv in H as (r & s4 & Hr & H). unfold api, on_world, on_server in Hr. cbn [fst snd] in *.
  destruct (RunHostCmd (namespace s1.2) (u_podName s1.2) (script_of parts) (server w2)) as [r' v'] eqn:Er.
  injection Hr as -> <-. destruct r as [output [err|]].
  { destruct (errorPassThrough s1.2); [|done]. injection H as <- _. eauto. }
  destruct (parseResponses output) as [responses|err] eqn:Ep.
  2: { destruct (errorPassThrough s1.2); [|done]. injection H as <- _. eauto. }
  destruct (Nat.eqb_spec (length responses) (length tests)) as [Hl|]; [|done].
  injection H as <- <-. right. split; [done|]. by exists parts, output, (server w2), v'.
Qed.

(** The response of an error passes no test. *)
Lemma error_response_fails t i e b : Test_ t i (error_response e b) ≠ Ret None.
Proof. unfold Test_, error_response. cbn. by destruct (_ || _). Qed.

Lemma check_from_nil i failing responses :
  check_from i failing responses = Ret [] →
  ∀ j res, responses !! j = Some res →
    ∃ t, failing !! (i + j) = Some t ∧ Test_ t (i + j) res = Ret None.
Proof.
  revert i. induction responses as [|r responses IH]; intros i; cbn [check_from]; [by intros _ [|j]|].
  destruct (failing !! i) as [t|] eqn:Ht; [|done].
  destruct (Test_ t i r) as [[e|]|e|m] eqn:Er; try done;
    destruct (check_from (S i) failing responses) as [l|e'|m] eqn:E; try done.
  intros [= ->] [|j] res Hj; cbn in Hj.
  - injection Hj as <-. rewrite Nat.add_0_r. eauto.
  - replace (i + S j) with (S i + j) by lia. by apply IH.
Qed.

Lemma check_from_sublist i failing responses l :
  check_from i failing responses = Ret l → map fst l `sublist_of` drop i failing.
Proof.
  revert i l. induction responses as [|r responses IH]; intros i l; cbn [check_from].
  { intros [= <-]. apply sublist_nil_l. }
  destruct (failing !! i) as [t|] eqn:Ht; [|done].
  rewrite (drop_S _ _ _ Ht).
  destruct (Test_ t i r) as [[e|]|e|m]; try done;
    destruct (check_from (S i) failing responses) as [l'|e'|m] eqn:E; try done; intros [= <-].
  - cbn. apply sublist_skip. by apply IH.
  - apply sublist_cons. by apply IH.
Qed.

Lemma sublist_full {A} (l k : list A) : l `sublist_of` k → length l = length k → l = k.
Proof.
  induction 1 as [|x l k Hs IH|x l k Hs IH]; cbn; intros H; [done|f_equal; auto|].
  apply sublist_length in Hs. lia.
Qed.

Lemma within_cond_sublist tests :
  keeps (λ s, s.2 `sublist_of` tests) (within_cond tests).
Proof.
  intros [s failing] Hf. unfold within_cond. cbn [fst snd] in *.
  destruct (Responses failing s) as [[responses|e|m] u]; [|done..].
  destruct (check_from 0 failing responses) as [failed|e|m] eqn:E; [|done..].
  destruct (_ && _); cbn; [done|]. etransitivity; [|exact Hf].
  by apply (check_from_sublist 0 failing responses).
Qed.

(** C34: When [Within] does not fail the test, its last round ran every test, in
    one script of the parts of the tests in the order given (part [i] is what
    the [i]-th test writes for the number [i]), and every test passed on its own
    response: the object with its number, whose headers gave the HTTP response
    that everything the test wants accepts (a 2xx status if it wants nothing).
    Tests that passed in different rounds are not enough, and neither is an
    error that was passed through. *)
Theorem Within_passed t tests s s' :
  Within t tests s = (Ret tt, s') →
  ∃ s0 parts output v v' responses,
    Responses tests s0 = (Ret responses, s') ∧
    length parts = length tests ∧
    (∀ i t x, tests !! i = Some t → parts !! i = Some x → ∃ w w', ToShell t i w = (Ret x, w')) ∧
    RunHostCmd (namespace s'.2) (u_podName s'.2)
      (Join (["set -euo pipefail"; "function json_escape() {";
              "  python -c 'import json,sys; print json.dumps(sys.stdin.read())'"; "}"]%string ++ parts) nl)
      v = ((output, None), v') ∧
    parseResponses output = inl responses ∧ length responses = length tests ∧
    ∀ i t res, tests !! i = Some t → responses !! i = Some res →
      RTest (raw res) = Z.of_nat i ∧
      RError (raw res) = ""%string ∧ RReturnCode (raw res) = 0%Z ∧
      ∃ h, ReadResponse (RHeaders (raw res)) = inl h ∧ StatusCode h = Code (RCURL (raw res)) ∧
        (∀ f, f ∈ Wants t → f h = None) ∧ (Wants t = [] → 200 ≤ StatusCode h < 300)%Z.
Proof.
  unfold Within.
  destruct (PollImmediate _ _ _) as [[[]|e|m] [u failing]] eqn:E; [|done..].
  intros [= <-].
  apply (PollImmediate_Ret_inv _ _ _ _ _ (within_cond_sublist tests)) in E as ([s0 f0] & Hsub & E); [|done].
  cbn [snd] in Hsub. unfold within_cond in E. cbn [fst snd] in E.
  destruct (Responses f0 s0) as [[responses|e|m] s1] eqn:Er; [|done..].
  destruct (check_from 0 f0 responses) as [failed|e|m] eqn:Ec; [|done..].
  destruct failed as [|x failed]; [|done]. cbn [length Nat.eqb andb] in E.
  destruct (Nat.eqb_spec (length f0) (length tests)) as [Hlen|]; cbn [negb] in E; [|done].
  injection E as <- _. assert (f0 = tests) as -> by by apply sublist_full.
  pose proof (check_from_nil 0 tests responses Ec) as Hp. cbn [Nat.add] in Hp.
  destruct (Responses_Ret _ _ _ _ Er) as [(e & b & ->)|(Hl & parts & output & v & v' & Hpa & [Hlp Hparts] & Hrun)].
  { destruct (Hp 0 _ eq_refl) as (t0 & _ & Ht0). by apply error_response_fails in Ht0. }
  exists s0, parts, output, v, v', responses. split_and!; [done..|].
  unfold parseResponses in Hpa. destruct (decode output) as [objects end_].
  apply parse_from_spec in Hpa as (_ & _ & Hobj).
  intros i t0 res Ht Hr. destruct (Hobj i res Hr) as (Hi & h & Hh & Hread & Hcode).
  destruct (Hp i res Hr) as (t1 & Ht1 & (He & Hc & h' & Hh' & Hw & Hs)%Test_passes).
  assert (t1 = t0) as -> by congruence. assert (h' = h) as -> by congruence.
  split_and!; [done..|]. by exists h.
Qed.

(** A test made by [Expect] and [RedirectsTo] passes on the responses with one
    of the codes and the location, received without an error of curl. *)
Theorem redirect_passes url codes t i res :
  Wants t = [] →
  Test_ (RedirectsTo url codes t) i res = Ret None ↔
  RError (raw res) = ""%string ∧ RReturnCode (raw res) = 0%Z ∧
  ∃ h, http res = Some h ∧
    StatusCode h ∈ match codes with [] => [302; 308; 307]%Z | _ => codes end ∧
    header_Get (RHeader h) "Location" = url.
Proof.
  intros Hw. unfold Test_, RedirectsTo, HasStatusCode, add_want. cbn [Wants]. rewrite Hw. cbn [app first_error].
  set (cs := match codes with [] => _ | _ => _ end).
  destruct (RError (raw res)) as [|c s] eqn:He; cbn [String.length Nat.ltb Nat.leb orb]; [|naive_solver].
  destruct (Z.eqb_spec (RReturnCode (raw res)) 0) as [->|]; cbn [negb]; [|naive_solver].
  destruct (http res) as [h|]; [|naive_solver].
  destruct (find_first (Z.eqb (StatusCode h)) cs) as [x|] eqn:Ef.
  - apply find_first_Some in Ef as [Hin Hx%Z.eqb_eq]. subst x.
    destruct (String.eqb_spec (header_Get (RHeader h) "Location") url) as [Hloc|Hloc];
      cbn [length app Nat.eqb andb]; naive_solver.
  - rewrite find_first_None in Ef. split; [done|]. intros (_ & _ & h' & [= <-] & Hin & _).
    specialize (Ef _ Hin). by rewrite Z.eqb_refl in Ef.
Qed.
End Tester.

(** ** Two tests, an error that is passed through, and a third round *)

Definition a_raw (i : Z) : raw_response := mkRaw i 0 "" (mkCurl 503) "" "HTTP/1.1 503".
Definition two_outputs (ns pod script : string) (n : nat) : (string * option error) * nat :=
  match n with
  | 0 => (("", Some (Errorf "exit")), 1)
  | 1 => (("one", None), 2)
  | _ => (("two", None), S n)
  end%string.
Definition two_decode (s : string) : list raw_response * option error :=
  (if String.eqb s "one" then [a_raw 0] else [a_raw 0; a_raw 1]%Z, None).
Definition a_test (host : string) : Test :=
  HasStatusCode [503%Z] (Through "10.0.0.1" (mkTest "" "GET" (mkURL "http" host "") ∅ false "" "" 0 [])).
Definition url_world : Cli.world nat unit := mkW [] [] [] [] [] ∅ [] [] 0.

Definition url_Within :=
  Within (W := nat) (K := unit) no_spare (λ _ _ _ v, (Ret (mkExecResult "" "" "" ExOk), v)) (λ _ _, ""%string)
    (λ _, ""%string) map_to_list (λ _ n, ret n) (λ _ _, ret "Running"%string) two_outputs two_decode
    (λ _, inl (mkHttp 503 ∅)) err_msg.

Definition url_tests : list Test := [a_test "a"; a_test "b"].
Definition url_start : Cli.world nat unit * Tester := (url_world, WithErrorPassthrough true (NewTester "ns")).

Lemma Within_passed_witness :
  (url_Within 0%Z url_tests url_start).1 = Panic "Unexpected error: timed out waiting for the condition" ∧
  server (url_Within (3 * Second)%Z url_tests url_start).2.1 = 3 ∧
  ∃ responses : list Response, length responses = 2 ∧
    ∀ i res, i < 2 → responses !! i = Some res → RTest (raw res) = Z.of_nat i.
Proof.
  split; [vm_compute; reflexivity|]. split; [vm_compute; reflexivity|].
  edestruct (Within_passed no_spare (λ _ _ _ v, (Ret (mkExecResult "" "" "" ExOk), v)) (λ _ _, ""%string)
    (λ _, ""%string) map_to_list (λ _ n, ret n) (λ _ _, ret "Running"%string) two_outputs two_decode
    (λ _, inl (mkHttp 503 ∅)) err_msg (3 * Second)%Z url_tests url_start
    (url_Within (3 * Second)%Z url_tests url_start).2)
    as (s0 & parts & out & v & v' & rs & _ & _ & _ & _ & _ & Hl & H).
  { vm_compute. reflexivity. }
  exists rs. split; [exact Hl|]. intros i res Hi Hr.
  destruct (lookup_lt_is_Some_2 url_tests i Hi) as [t Ht]. apply (H i t res Ht Hr).
Defined.
