(* ===== verification/Jenkins.v ===== *)
(** * test/extended/util/jenkins: the client of a Jenkins server

    The tests of pipelines talk to a Jenkins server in the cluster: requests go
    through the tester of UrlTester, which the client keeps for its lifetime;
    waits for pages, jobs and builds are polls over these requests.  Memory
    and GC tracking only print and are left out. *)

From S2P Require Import Prelude.
From S2P Require Import GoStrings.
From S2P Require Import GoLib.
From S2P Require Import JunitXml.
From S2P Require Import GoNet.
From S2P Require Import Cli.
From S2P Require Import Csi.
From S2P Require Import FrameworkHelpers.
From S2P Require Import UrlTester.

(** ** Job definitions *)

(* src: test/extended/util/jenkins/ref.go 52-58 Definition *)
Record Definition_ := mkDefinition { Class_ : string; Plugin_ : string; Script : string }.
(* src: test/extended/util/jenkins/ref.go 44-50 FlowDefinition *)
Record FlowDefinition := mkFlow { Plugin : string; KeepDependencies : bool; Definition__ : Definition_ }.

Definition xml_of_flow (fd : FlowDefinition) : xml :=
  Elem "flow-definition" [("plugin", Plugin fd)]
    [Elem "keepDependencies" [] [Text (btoa (KeepDependencies fd))];
     Elem "definition" [("class", Class_ (Definition__ fd)); ("plugin", Plugin_ (Definition__ fd))]
       [Elem "script" [] (text (Script (Definition__ fd)))]]%string.

(** [xml.MarshalIndent(v, prefix, indent)]: an element without child elements
    is on one line.  [margin] is the prefix with the indentation so far. *)
Fixpoint render_indent (indent margin : string) (t : xml) : string :=
  match t with
  | Text s => escape s
  | Elem n a cs =>
      let nested := existsb is_elem cs in
      "<" +:+ n +:+ cat (map render_attr a) +:+ ">" +:+
      cat (map (λ c, (if is_elem c then nl +:+ margin +:+ indent else "") +:+
                     render_indent indent (margin +:+ indent) c) cs) +:+
      (if nested then nl +:+ margin else "") +:+ "</" +:+ n +:+ ">"
  end.
Definition MarshalIndent (t : xml) (prefix indent : string) : string :=
  prefix +:+ render_indent indent prefix t.

(* src: test/extended/util/jenkins/ref.go 288-304 JenkinsRef.BuildDSLJob *)
Definition BuildDSLJob (namespace : string) (scriptLines : list string) : string :=
  let script := Replace (Join scriptLines nl) "PROJECT_NAME" namespace in
  let fd := mkFlow "workflow-job@2.7" false
              (mkDefinition "org.jenkinsci.plugins.workflow.cps.CpsFlowDefinition" "workflow-cps@2.18" script) in
  MarshalIndent (xml_of_flow fd) "  " "    ".

Example BuildDSLJob_ex :
  Split (BuildDSLJob "ns" ["node {"; "  echo 'PROJECT_NAME'"; "}"]) nl =
  [Replace "  <flow-definition plugin='workflow-job@2.7'>" "'" dquote;
   "      <keepDependencies>false</keepDependencies>";
   Replace "      <definition class='org.jenkinsci.plugins.workflow.cps.CpsFlowDefinition' plugin='workflow-cps@2.18'>"
     "'" dquote;
   "          <script>node {&#xA;  echo &#39;ns&#39;&#xA;}</script>";
   "      </definition>";
   "  </flow-definition>"]%string.
Proof. vm_compute. reflexivity. Qed.

(** ** The arguments of new-app *)

(** [getenv] is the environment. *)
(* src: test/extended/util/jenkins/ref.go 358-370 OverridePodTemplateImages *)
Definition OverridePodTemplateImages (getenv : string → string) (newAppArgs : list string) : list string :=
  let override env var args :=
    if Nat.ltb 0 (String.length (TrimSpace (getenv env))) then args ++ ["-e"; var +:+ "=" +:+ getenv env]
    else args in
  override "IMAGE_MAVEN_AGENT" "MAVEN_SLAVE_IMAGE"
    (override "IMAGE_NODEJS_AGENT" "NODEJS_SLAVE_IMAGE" newAppArgs)%string.

(** ** The annotations of a pipeline build *)

Definition BuildJenkinsLogURLAnnotation : string := "openshift.io/jenkins-log-url".
Definition BuildJenkinsConsoleLogURLAnnotation : string := "openshift.io/jenkins-console-log-url".
Definition BuildJenkinsBlueOceanLogURLAnnotation : string := "openshift.io/jenkins-blueocean-log-url".

(** What is read of a build result: the annotations of its build, if it was
    read, its client and its name. *)
Record pipeline_build := mkPipeline {
  p_Build : option (gmap string string);
  p_Oc : option nat;
  p_BuildName : string
}.
Definition annotation (k : string) (a : gmap string string) : string := default ""%string (a !! k).

(** [url_Path] is [url.Parse]: the path of the URL. *)
Section Annotations.
Variable url_Path : string → string + error.

Definition checked_url (kind which name : string) (a : gmap string string) (key : string) : string + error :=
  if Nat.eqb (String.length (annotation key a)) 0 then
    inr (Errorf ("build " +:+ name +:+ " does not contain a Jenkins " +:+ kind +:+ " annotation"))
  else match url_Path (annotation key a) with
  | inl p => inl p
  | inr err => inr (Errorf ("cannot parse jenkins " +:+ which +:+ " (" +:+ annotation key a +:+ "): " +:+ err_msg err))
  end.

(* src: test/extended/util/jenkins/ref.go 440-463 ProcessLogURLAnnotations *)
Definition ProcessLogURLAnnotations (name : string) (a : gmap string string) : string + error :=
  match checked_url "URL" "log URL" name a BuildJenkinsLogURLAnnotation with
  | inr e => inr e
  | inl jenkinsLogURL =>
      match checked_url "Console URL" "console log URL" name a BuildJenkinsConsoleLogURLAnnotation with
      | inr e => inr e
      | inl _ =>
          match checked_url "BlueOcean URL" "log blueocean URL" name a BuildJenkinsBlueOceanLogURLAnnotation with
          | inr e => inr e
          | inl _ => inl jenkinsLogURL
          end
      end
  end.

(** It succeeds exactly when the three annotations are URLs. *)
Lemma ProcessLogURLAnnotations_spec name a p :
  ProcessLogURLAnnotations name a = inl p ↔
  url_Path (annotation BuildJenkinsLogURLAnnotation a) = inl p ∧
  Forall (λ k, annotation k a ≠ ""%string ∧ ∃ q, url_Path (annotation k a) = inl q)
    [BuildJenkinsLogURLAnnotation; BuildJenkinsConsoleLogURLAnnotation; BuildJenkinsBlueOceanLogURLAnnotation].
Proof.
  assert (∀ kind which k q, checked_url kind which name a k = inl q ↔
            annotation k a ≠ ""%string ∧ url_Path (annotation k a) = inl q) as Hc.
  { intros kind which k q. unfold checked_url.
    destruct (annotation k a) as [|c s] eqn:E; cbn [String.length Nat.eqb]; [naive_solver|].
    destruct (url_Path _); naive_solver. }
  rewrite !Forall_cons, Forall_nil. unfold ProcessLogURLAnnotations. split.
  - destruct (checked_url _ _ _ _ BuildJenkinsLogURLAnnotation) as [q1|] eqn:E1; [|done].
    destruct (checked_url _ _ _ _ BuildJenkinsConsoleLogURLAnnotation) as [q2|] eqn:E2; [|done].
    destruct (checked_url _ _ _ _ BuildJenkinsBlueOceanLogURLAnnotation) as [q3|] eqn:E3; [|done].
    intros [= ->]. apply Hc in E1, E2, E3. naive_solver.
  - intros (Hp & [H1 _] & [H2 [q2 Hq2]] & [H3 [q3 Hq3]] & _).
    by rewrite (proj2 (Hc _ _ _ _) (conj H1 Hp)), (proj2 (Hc _ _ _ _) (conj H2 Hq2)),
      (proj2 (Hc _ _ _ _) (conj H3 Hq3)).
Qed.
End Annotations.

(** ** The client *)

(* src: test/extended/util/jenkins/ref.go 33-42 JenkinsRef *)
Record JenkinsRef := mkRef {
  j_oc : nat;
  host : string;
  port : string;
  j_namespace : string;
  token : string
}.

(* src: test/extended/util/jenkins/ref.go 83-86 JenkinsRef.Namespace *)
Definition Namespace (j : JenkinsRef) : string := j_namespace j.

(** Formats have [%s] verbs only. *)
(* src: test/extended/util/jenkins/ref.go 88-92 JenkinsRef.BuildURI *)
Definition BuildURI (j : JenkinsRef) (resourcePathFormat : string) (a : list string) : string :=
  "http://" +:+ host j +:+ ":" +:+ port j +:+ "/" +:+ Sprintf_s resourcePathFormat a.

(** The number of the build that is followed is part of the state of a wait. *)
(* src: test/extended/util/jenkins/monitor.go 18-24 JobMon *)
Record JobMon := mkJobMon { lastBuildNumber : string; buildNumber : string; jobName : string }.
Definition follow (n : string) (jm : JobMon) : JobMon := mkJobMon (lastBuildNumber jm) n (jobName jm).

Definition dquoted (s : string) : string := Replace s "'" dquote.

Section Client.
Context {W K : Type}.
Notation world := (Cli.world W K).
Notation state := (world * Tester)%type.

(** Those of UrlTester. *)
Variable spare : nat → nat → nat.
Variable process : string → list string → string → go W exec_result.
Variable cmd_String : string → list string → string.
Variable status_text : Z → string.
Variable range_header : Header → list (string * list string).
Variable create_pod : string → string → go W string.
Variable pod_phase : string → string → go W string.
Variable RunHostCmd : string → string → string → W → (string * option error) * W.
Variable decode : string → list raw_response * option error.
Variable ReadResponse : string → http_response + error.
Variable gosyntax : error → string.
Variable parse_url : string → URL + error.
(** The path of a URL; regular expressions, which panic when they are not
    well formed; the build of a name, read with a client. *)
Variable url_Path : string → string + error.
Variable MatchString : string → string → outcome bool.
Variable get_build : nat → string → go world (gmap string string).

Notation request := (UrlTester.Response_ spare process cmd_String status_text range_header create_pod
                       pod_phase RunHostCmd decode ReadResponse gosyntax).

Definition of_outcome {S A} (o : outcome A) : go S A := λ s, (o, s).

(** The body, the status or -1, and the error of a response. *)
Definition read_response (r : option Response) : go state (string * Z * option error) :=
  match r with
  | None => gopanic "invalid memory address or nil pointer dereference"
  | Some r =>
      ret (RBody (raw r),
           match http r with Some h => StatusCode h | None => -1 end%Z,
           if Nat.ltb 0 (String.length (RError (raw r))) then Some (Errorf (RError (raw r))) else None)
  end.

(** The tester passes its errors through from the first request on. *)
(* src: test/extended/util/jenkins/ref.go 94-111 JenkinsRef.GetResource *)
Definition GetResource (j : JenkinsRef) (fmt : string) (a : list string)
  : go state (string * Z * option error) :=
  (set_tester (WithErrorPassthrough true) ;;!
   t <-! of_outcome (Expect parse_url "GET" (BuildURI j fmt a)) ;;
   r <-! request (WithToken (token j) t) ;;
   read_response r)%go.

(** The name of the pod is the one the tester has before the request. *)
(* src: test/extended/util/jenkins/ref.go 113-128 JenkinsRef.Post *)
Definition Post (j : JenkinsRef) (reqBodyFile fmt contentType : string) (a : list string)
  : go state (string * Z * option error) :=
  (set_tester (WithErrorPassthrough true) ;;!
   t <-! of_outcome (Expect parse_url "POST" (BuildURI j fmt a)) ;;
   ut <-! get_tester ;;
   r <-! request (WithHeader "Content-Type" contentType
                    (WithToken (token j) (WithBodyToUpload reqBodyFile (Podname ut) (j_oc j) t))) ;;
   read_response r)%go.

(* src: test/extended/util/jenkins/ref.go 130-134 JenkinsRef.PostXML *)
Definition PostXML (j : JenkinsRef) (reqBodyFile fmt : string) (a : list string)
  : go state (string * Z * option error) :=
  Post j reqBodyFile fmt "application/xml" a.

(* src: test/extended/util/jenkins/ref.go 141-161 JenkinsRef.GetResourceWithStatus (condition) *)
Definition status_cond (j : JenkinsRef) (validStatusList : list Z) (fmt : string) (a : list string)
  : go (state * (string * Z)) bool := λ s,
  match GetResource j fmt a s.1 with
  | (Fail e, u) => (Fail e, (u, s.2))
  | (Panic m, u) => (Panic m, (u, s.2))
  | (Ret (_, _, Some _), u) => (Ret false, (u, s.2))
  | (Ret (body, status, None), u) =>
      match find_first (Z.eqb status) validStatusList with
      | Some _ => (Ret true, (u, (body, status)))
      | None => (Ret false, (u, s.2))
      end
  end.

(* src: test/extended/util/jenkins/ref.go 136-167 JenkinsRef.GetResourceWithStatus *)
Definition GetResourceWithStatus (j : JenkinsRef) (validStatusList : list Z) (timeout : duration)
    (fmt : string) (a : list string) : go state (string * Z) := λ s,
  match Poll (ticks_of (10 * Second) timeout) (status_cond j validStatusList fmt a) (s, (""%string, 0%Z)) with
  | (Ret _, (u, r)) => (Ret r, u)
  | (Fail e, (u, _)) =>
      (Fail (Errorf ("Error waiting for status " +:+ list_text validStatusList +:+ " from resource path " +:+
                     BuildURI j fmt a +:+ ": " +:+ err_msg e)), u)
  | (Panic m, (u, _)) => (Panic m, u)
  end.

(* src: test/extended/util/jenkins/ref.go 174-194 JenkinsRef.WaitForContent (condition) *)
Definition content_cond (j : JenkinsRef) (verificationRegEx : string) (verificationStatus : Z)
    (timeout : duration) (fmt : string) (a : list string) : go (state * string) bool := λ s,
  match GetResourceWithStatus j [verificationStatus] timeout fmt a s.1 with
  | (Panic m, u) => (Panic m, (u, s.2))
  | (Fail _, u) => (Ret false, (u, s.2))
  | (Ret (content, _), u) =>
      if Nat.ltb 0 (String.length verificationRegEx) then
        match MatchString verificationRegEx content with
        | Ret true => (Ret true, (u, content))
        | Ret false => (Ret false, (u, s.2))
        | Fail e => (Fail e, (u, s.2))
        | Panic m => (Panic m, (u, s.2))
        end
      else (Ret true, (u, content))
  end.

(* src: test/extended/util/jenkins/ref.go 169-202 JenkinsRef.WaitForContent *)
Definition WaitForContent (j : JenkinsRef) (verificationRegEx : string) (verificationStatus : Z)
    (timeout : duration) (fmt : string) (a : list string) : go state string := λ s,
  match Poll (ticks_of (10 * Second) timeout)
          (content_cond j verificationRegEx verificationStatus timeout fmt a) (s, ""%string) with
  | (Ret _, (u, r)) => (Ret r, u)
  | (Fail e, (u, _)) =>
      (Fail (Errorf ("Error waiting for status " +:+ itoa verificationStatus +:+ " and verification regex " +:+
                     Quote verificationRegEx +:+ " from resource path " +:+ BuildURI j fmt a +:+ ": " +:+
                     err_msg e)), u)
  | (Panic m, (u, _)) => (Panic m, u)
  end.

(** [o.Expect(err).NotTo(o.HaveOccurred())], [o.Expect(status).To(o.Equal(n))] *)
Definition expect_ok {S} (err : option error) : go S unit :=
  match err with Some e => gopanic ("Unexpected error: " +:+ err_msg e) | None => ret tt end.
Definition expect_status {S} (status n : Z) : go S unit :=
  if (status =? n)%Z then ret tt else gopanic ("Expected " +:+ itoa status +:+ " to equal " +:+ itoa n).

(* src: test/extended/util/jenkins/ref.go 204-210 JenkinsRef.CreateItem *)
Definition CreateItem (j : JenkinsRef) (name itemDefXML : string) : go state unit :=
  (r <-! PostXML j itemDefXML "createItem?name=%s" [name] ;;
   expect_ok r.2 ;;! expect_status r.1.2 200)%go.

(* src: test/extended/util/jenkins/ref.go 212-223 JenkinsRef.GetJobBuildNumber *)
Definition GetJobBuildNumber (j : JenkinsRef) (name : string) (timeout : duration) : go state string :=
  (r <-! GetResourceWithStatus j [200; 404]%Z timeout "job/%s/lastBuild/buildNumber" [name] ;;
   ret (if (r.2 =? 200)%Z then r.1 else "new"%string))%go.

Definition or_panic {S A} (m : go S A) : go S A :=
  (r <-! try m ;;
   match r with inl x => ret x | inr e => gopanic ("Unexpected error: " +:+ err_msg e) end)%go.

(* src: test/extended/util/jenkins/ref.go 225-245 JenkinsRef.StartJob *)
Definition StartJob (j : JenkinsRef) (jobName : string) : go state JobMon :=
  (last <-! or_panic (GetJobBuildNumber j jobName Minute) ;;
   r <-! PostXML j "" "job/%s/build?delay=0sec" [jobName] ;;
   expect_ok r.2 ;;!
   expect_status r.1.2 201 ;;!
   ret (mkJobMon last "" jobName))%go.

(** The pages of a build as Jenkins prints them, in lower case. *)
(* src: test/extended/util/jenkins/monitor.go 56-65 JobMon.Await (finished) *)
Definition finished (body : string) : bool :=
  let body := ToLower body in
  negb (Contains body (dquoted "'building':true")) && negb (Contains body (dquoted "'result':null")).

(** The log is only printed. *)
(* src: test/extended/util/jenkins/monitor.go 37-74 JobMon.Await (condition) *)
Definition await_cond (j : JenkinsRef) : go (state * JobMon) bool := λ s,
  let jmon := s.2 in
  match or_panic (GetJobBuildNumber j (jobName jmon) Minute) s.1 with
  | (Fail e, u) => (Fail e, (u, jmon))
  | (Panic m, u) => (Panic m, (u, jmon))
  | (Ret n, u) =>
      if String.eqb n (lastBuildNumber jmon) then (Ret false, (u, jmon))
      else
        let jmon := if String.eqb (buildNumber jmon) "" then follow n jmon else jmon in
        let get fmt := GetResource j fmt [jobName jmon; buildNumber jmon] in
        match (r <-! get "job/%s/%s/api/json?depth=1" ;;
               expect_ok r.2 ;;!
               expect_status r.1.2 200 ;;!
               if finished r.1.1 then get "job/%s/%s/consoleText" ;;! ret true else ret false)%go u with
        | (o, u) => (o, (u, jmon))
        end
  end.

(* src: test/extended/util/jenkins/monitor.go 34-76 JobMon.Await *)
Definition Await (j : JenkinsRef) (timeout : duration) : go (state * JobMon) unit :=
  Poll (ticks_of (10 * Second) timeout) (await_cond j).

(* src: test/extended/util/jenkins/ref.go 306-309 JenkinsRef.GetJobConsoleLogs *)
Definition GetJobConsoleLogs (j : JenkinsRef) (jobName buildNumber : string) : go state string :=
  WaitForContent j "" 200 (10 * Minute)%Z "job/%s/%s/consoleText" [jobName; buildNumber].
(* src: test/extended/util/jenkins/ref.go 340-343 JenkinsRef.GetLastJobConsoleLogs *)
Definition GetLastJobConsoleLogs (j : JenkinsRef) (jobName : string) : go state string :=
  GetJobConsoleLogs j jobName "lastBuild".

(* src: test/extended/util/jenkins/ref.go 311-338 JenkinsRef.GetJobConsoleLogsAndMatchViaBuildResult *)
Definition GetJobConsoleLogsAndMatchViaBuildResult (j : JenkinsRef) (match_ : string)
  : go (state * option pipeline_build) string := λ s,
  match s.2 with
  | None => (Fail (Errorf "passed in nil BuildResult"), s)
  | Some br =>
      let build : go state (gmap string string) :=
        match p_Build br, p_Oc br with
        | Some a, _ => ret a
        | None, None => fail (Errorf "BuildResult oc should have been set up during BuildResult construction")
        | None, Some oc => UrlTester.on_world (get_build oc (p_BuildName br))
        end in
      match build s.1 with
      | (Fail e, u) => (Fail e, (u, s.2))
      | (Panic m, u) => (Panic m, (u, s.2))
      | (Ret a, u) =>
          let '(r, u') :=
            (let bldURI := annotation BuildJenkinsLogURLAnnotation a in
             if Nat.ltb 0 (String.length bldURI) then
               match url_Path bldURI with
               | inr err => fail err
               | inl path => WaitForContent j match_ 200 (10 * Minute)%Z (TrimChar slash path) []
               end
             else fail (Errorf "build is missing the build uri annontation")) u in
          (r, (u', Some (mkPipeline (Some a) (p_Oc br) (p_BuildName br))))
      end
  end.

(** [oc.Run(...).Args(...).Template(t).Output()]; the tester of the state
    becomes that of the new client. *)
Definition oc_line (oc : nat) (commands args : list string) (template : option string) : go world string :=
  (p <-! Run spare oc commands ;;
   p <-! Args spare p args ;;
   p <-! (match template with Some t => Template spare p t | None => ret p end) ;;
   r <-! Output process cmd_String p ;;
   match r.2 with
   | Some e => gopanic ("Unexpected error: " +:+ status_text (ExitStatus e))
   | None => ret r.1
   end)%go.

(* src: test/extended/util/jenkins/ref.go 60-81 NewRef *)
Definition NewRef (kubeConfigPath : string) (oc : nat) : go state JenkinsRef :=
  (serviceIP <-! UrlTester.on_world (oc_line oc ["get"] ["svc"; "jenkins"; "--config"; kubeConfigPath]
                             (Some "{{.spec.clusterIP}}")) ;;
   port <-! UrlTester.on_world (oc_line oc ["get"] ["svc"; "jenkins"; "--config"; kubeConfigPath]
                        (Some "{{ $x := index .spec.ports 0}}{{$x.port}}")) ;;
   token <-! UrlTester.on_world (oc_line oc ["whoami"] ["-t"] None) ;;
   ns <-! UrlTester.on_world (Cli.Namespace oc) ;;
   set_tester (λ _, NewTester ns) ;;!
   ret (mkRef oc serviceIP port ns token))%go%string.

(** The path of the log is used as a format. *)
(* src: test/extended/util/jenkins/ref.go 465-483 DumpLogs *)
Definition DumpLogs (kubeConfigPath : string) (oc : nat) : go (world * pipeline_build) string := λ s,
  let t := s.2 in
  match (match p_Build t with
         | Some a => (Ret a, s.1)
         | None =>
             match get_build oc (p_BuildName t) s.1 with
             | (Fail err, w) =>
                 (Fail (Errorf ("cannot retrieve build " +:+ p_BuildName t +:+ ": " +:+ err_msg err)), w)
             | x => x
             end
         end) with
  | (Fail e, w) => (Fail e, (w, t))
  | (Panic m, w) => (Panic m, (w, t))
  | (Ret a, w) =>
      let t := mkPipeline (Some a) (p_Oc t) (p_BuildName t) in
      match ProcessLogURLAnnotations url_Path (p_BuildName t) a with
      | inr err => (Fail err, (w, t))
      | inl path =>
          match (j <-! NewRef kubeConfigPath oc ;; GetResource j path [])%go (w, NewTester "") with
          | (Ret (_, _, Some err), (w', _)) =>
              (Fail (Errorf ("cannot get jenkins log: " +:+ err_msg err)), (w', t))
          | (Ret (log, _, None), (w', _)) => (Ret log, (w', t))
          | (Fail e, (w', _)) => (Fail e, (w', t))
          | (Panic m, (w', _)) => (Panic m, (w', t))
          end
      end
  end.

(** ** What the waits have seen *)

Lemma status_cond_true j valid fmt a s s' :
  status_cond j valid fmt a s = (Ret true, s') →
  GetResource j fmt a s.1 = (Ret (s'.2, None), s'.1) ∧ s'.2.2 ∈ valid.
Proof.
  unfold status_cond. destruct (GetResource j fmt a s.1) as [[[[body status] [e|]]|e|m] u]; [done| |done..].
  destruct (find_first _ valid) as [x|] eqn:E; [|done]. intros [= <-]. split; [done|].
  apply find_first_Some in E as [Hx ->%Z.eqb_eq]. done.
Qed.

(** The body and the status are those of one request, without an error and with
    an acceptable status. *)
Lemma GetResourceWithStatus_Ret j valid timeout fmt a s r u :
  GetResourceWithStatus j valid timeout fmt a s = (Ret r, u) →
  r.2 ∈ valid ∧ ∃ s0, GetResource j fmt a s0 = (Ret (r, None), u).
Proof.
  unfold GetResourceWithStatus, Poll.
  destruct (WaitFor _ _ _) as [[[]|e|m] [u' r']] eqn:E; [|done..]. intros [= -> ->].
  apply WaitFor_Ret in E as [s0 [Hg Hin]%status_cond_true]. eauto.
Qed.

(** The content that is waited for was read in one request with the status, and
    matches the expression. *)
Lemma WaitForContent_Ret j re status timeout fmt a s content u :
  WaitForContent j re status timeout fmt a s = (Ret content, u) →
  (∃ s0, GetResource j fmt a s0 = (Ret (content, status, None), u)) ∧
  (re = ""%string ∨ MatchString re content = Ret true).
Proof.
  unfold WaitForContent, Poll.
  destruct (WaitFor _ _ _) as [[[]|e|m] [u' r']] eqn:E; [|done..]. intros [= -> ->].
  apply WaitFor_Ret in E as [s0 E]. unfold content_cond in E.
  destruct (GetResourceWithStatus _ _ _ _ _ _) as [[[c st]|e|m] u1] eqn:Eg; [|done..].
  apply GetResourceWithStatus_Ret in Eg as [Hin [s1 Hg]]. apply list_elem_of_singleton in Hin as Hst. cbn in Hst. subst st.
  destruct re as [|ch re]; cbn [String.length Nat.ltb Nat.leb] in E.
  - injection E as -> ->. split; [by exists s1|by left].
  - destruct (MatchString _ c) as [[|]|e|m] eqn:Em; simplify_eq. split; [by exists s1|by right].
Qed.

(** *** A job that was started and awaited *)

Lemma or_panic_Ret {S A} (m : go S A) s x s' : or_panic m s = (Ret x, s') → m s = (Ret x, s').
Proof.
  unfold or_panic. intros ([y|e] & s1 & H & Hx)%gobind_Ret_inv; [|done].
  unfold try in H. destruct (m s) as [[y'|e|p] s2]; simplify_eq. by injection Hx as <- <-.
Qed.

Lemma expect_ok_Ret {S} err (s s' : S) u : expect_ok err s = (Ret u, s') → err = None ∧ s' = s.
Proof. destruct err; cbn; [done|]. by intros [= _ <-]. Qed.
Lemma expect_status_Ret {S} x n (s s' : S) u : expect_status x n s = (Ret u, s') → x = n ∧ s' = s.
Proof. unfold expect_status. destruct (Z.eqb_spec x n); [|done]. by intros [= _ <-]. Qed.

(** The two assertions on an answer. *)
Lemma expect_answer {S A} (r : string * Z * option error) n (k : go S A) s x s' :
  (expect_ok r.2 ;;! expect_status r.1.2 n ;;! k)%go s = (Ret x, s') →
  r = (r.1.1, n, None) ∧ k s = (Ret x, s').
Proof.
  intros ([] & s1 & [Hr ->]%expect_ok_Ret & H)%gobind_Ret_inv.
  apply gobind_Ret_inv in H as ([] & s2 & [Hn ->]%expect_status_Ret & H).
  split; [|done]. destruct r as [[body st] err]. cbn in *. by subst.
Qed.

Lemma StartJob_Ret j name s jm s' :
  StartJob j name s = (Ret jm, s') →
  buildNumber jm = ""%string ∧ jobName jm = name ∧
  ∃ s1 body, GetJobBuildNumber j name Minute s = (Ret (lastBuildNumber jm), s1) ∧
    PostXML j "" "job/%s/build?delay=0sec" [name] s1 = (Ret (body, 201%Z, None), s').
Proof.
  unfold StartJob. intros (last & s1 & Hl%or_panic_Ret & H)%gobind_Ret_inv.
  apply gobind_Ret_inv in H as (r & s2 & Hp & [Hr H]%expect_answer).
  injection H as <- <-. split_and!; [done..|]. exists s1, r.1.1. by rewrite <- Hr.
Qed.

(** The build a monitor follows was seen as the last one of the job, and is not
    the one from before the start. *)
Definition followed (j : JenkinsRef) (jm0 : JobMon) (s : state * JobMon) : Prop :=
  lastBuildNumber s.2 = lastBuildNumber jm0 ∧ jobName s.2 = jobName jm0 ∧
  (buildNumber s.2 = ""%string ∨
   buildNumber s.2 ≠ lastBuildNumber jm0 ∧
   ∃ s0 s1, GetJobBuildNumber j (jobName jm0) Minute s0 = (Ret (buildNumber s.2), s1)).

(** A round that sees another number than before the start. *)
Lemma await_round j jm0 s n u :
  followed j jm0 s →
  GetJobBuildNumber j (jobName jm0) Minute s.1 = (Ret n, u) → n ≠ lastBuildNumber jm0 →
  let jm := if String.eqb (buildNumber s.2) "" then follow n s.2 else s.2 in
  followed j jm0 (u, jm) ∧ buildNumber jm ≠ lastBuildNumber jm0 ∧
  ∃ s0 s1, GetJobBuildNumber j (jobName jm0) Minute s0 = (Ret (buildNumber jm), s1).
Proof.
  intros (Hl & Hj & Hb) Hg Hn. destruct (String.eqb_spec (buildNumber s.2) "") as [He|He]; cbn.
  - split_and!; [|done|by eauto]. split_and!; [done..|]. right. split; [done|]. by eauto.
  - destruct Hb as [?|[Hne Hex]]; [done|]. split_and!; [|done..]. split_and!; [done..|]. by right.
Qed.

Lemma keeps_await j jm0 : keeps (followed j jm0) (await_cond j).
Proof.
  intros s Hf. unfold await_cond. pose proof Hf as (Hl & Hj & Hb). rewrite Hj, Hl.
  destruct (or_panic _ s.1) as [[n|e|m] u] eqn:E; [|done..].
  apply or_panic_Ret in E. destruct (String.eqb_spec n (lastBuildNumber jm0)) as [->|Hn]; [done|].
  destruct (await_round j jm0 s n u Hf E Hn) as [Hf' _].
  destruct (gobind _ _ u) as [o u']. exact Hf'.
Qed.

(** When a job was started and awaited without an error, the start was accepted
    and the build that was awaited is one Jenkins reported as the last of the
    job with a number that differs from the last one before the start; its page
    was read with status 200, and it neither was building nor lacked a result. *)
Theorem job_finished j name timeout s jm s1 s2 jm' :
  StartJob j name s = (Ret jm, s1) →
  Await j timeout (s1, jm) = (Ret tt, (s2, jm')) →
  (∃ s0 body, PostXML j "" "job/%s/build?delay=0sec" [name] s0 = (Ret (body, 201%Z, None), s1)) ∧
  (∃ s0, GetJobBuildNumber j name Minute s = (Ret (lastBuildNumber jm), s0)) ∧
  buildNumber jm' ≠ lastBuildNumber jm ∧
  (∃ u0 u1, GetJobBuildNumber j name Minute u0 = (Ret (buildNumber jm'), u1)) ∧
  ∃ u0 u1 page log,
    GetResource j "job/%s/%s/api/json?depth=1" [name; buildNumber jm'] u0 = (Ret (page, 200%Z, None), u1) ∧
    finished page = true ∧
    GetResource j "job/%s/%s/consoleText" [name; buildNumber jm'] u1 = (Ret log, s2).
Proof.
  intros (Hb & Hname & s0 & body & Hl & Hp)%StartJob_Ret Ha.
  split; [eauto|]. split; [eauto|].
  apply (WaitFor_Ret_inv (followed j jm)) in Ha as ([u0 jm0] & Hf & Hc);
    [|apply keeps_await|split_and!; [done..|by left]].
  unfold await_cond in Hc. pose proof Hf as (Hl0 & Hj0 & _). cbn [fst snd] in *. rewrite Hj0, Hl0 in Hc.
  destruct (or_panic _ u0) as [[n|e|m] u] eqn:E; [|done..]. apply or_panic_Ret in E.
  destruct (String.eqb_spec n (lastBuildNumber jm)) as [|Hn]; [done|].
  destruct (await_round j jm (u0, jm0) n u Hf E Hn) as ((_ & Hj' & _) & Hne & Hseen).
  cbn [fst snd] in *. set (jm1 := if String.eqb (buildNumber jm0) "" then _ else _) in *.
  destruct (gobind _ _ u) as [o u'] eqn:Er. injection Hc as -> -> ->.
  rewrite Hname in *. rewrite Hj' in Er. split; [done|]. split; [done|].
  apply gobind_Ret_inv in Er as (r & u1 & Hg & [Hr Hfin]%expect_answer).
  destruct (finished r.1.1) eqn:Ef; [|done].
  apply gobind_Ret_inv in Hfin as (log & u2 & Hlog & [= <-]).
  exists u, u1, r.1.1, log. rewrite <- Hr. done.
Qed.
End Client.

(** ** A job, and a body that is uploaded nowhere

    The server is the number of requests it has answered. *)

Definition answers : list string :=
  map (λ s, Replace s "'" dquote)
  ["2001"; "201"; "2001"; "2002"; "200{'building':true,'result':null}"; "2002";
   "200{'building':false,'result':'SUCCESS'}"; "200done"]%string.
Definition run_answer (ns pod script : string) (n : nat) : (string * option error) * nat :=
  ((default ""%string (answers !! n), None), S n).
Definition decode_answer (s : string) : list raw_response * option error :=
  ([mkRaw 0 0 "" (mkCurl (default 0%Z (Atoi (take_str 3 s)))) (drop_str 3 s) (take_str 3 s)], None).
Definition read_answer (s : string) : http_response + error := inl (mkHttp (default 0%Z (Atoi s)) ∅).
Definition parse_answer (s : string) : URL + error := inl (mkURL "http" "" s).
Definition no_process (path : string) (args : list string) (input : string) (n : nat) : outcome exec_result * nat :=
  (Ret (mkExecResult "" "" "" ExOk), n).

Definition the_jenkins : JenkinsRef := mkRef 0 "10.0.0.1" "80" "ns" "token".
Definition jenkins_state : Cli.world nat unit * Tester := (url_world, NewTester "ns").

Definition run_StartJob :=
  StartJob (W := nat) (K := unit) no_spare no_process (λ _ _, ""%string) (λ _, ""%string) map_to_list
    (λ _ n, ret n) (λ _ _, ret "Running"%string) run_answer decode_answer read_answer err_msg parse_answer.
Definition run_Await :=
  Await (W := nat) (K := unit) no_spare no_process (λ _ _, ""%string) (λ _, ""%string) map_to_list
    (λ _ n, ret n) (λ _ _, ret "Running"%string) run_answer decode_answer read_answer err_msg parse_answer.
Definition the_job : JobMon := mkJobMon "1" "" "job".

Lemma job_finished_witness :
  (run_StartJob the_jenkins "job" jenkins_state).1 = Ret the_job ∧
  ∃ s2, run_Await the_jenkins Minute ((run_StartJob the_jenkins "job" jenkins_state).2, the_job) =
          (Ret tt, (s2, mkJobMon "1" "2" "job")) ∧ server s2.1 = 8 ∧ "2"%string ≠ "1"%string.
Proof.
  split; [vm_compute; reflexivity|].
  eexists. split; [vm_compute; reflexivity|]. split; [vm_compute; reflexivity|].
  edestruct (job_finished no_spare no_process (λ _ _, ""%string) (λ _, ""%string) map_to_list
    (λ _ n, ret n) (λ _ _, ret "Running"%string) run_answer decode_answer read_answer err_msg parse_answer
    the_jenkins "job" Minute jenkins_state the_job
    (run_StartJob the_jenkins "job" jenkins_state).2
    (run_Await the_jenkins Minute ((run_StartJob the_jenkins "job" jenkins_state).2, the_job)).2.1
    (mkJobMon "1" "2" "job")) as (_ & _ & H & _).
  - vm_compute. reflexivity.
  - vm_compute. reflexivity.
  - exact H.
Defined.

(** The directory of the first body that is posted goes to the pod without a
    name: the test asks for the name before the pod is there. *)
Definition recording (path : string) (args : list string) (input : string) (l : list (list string))
  : outcome exec_result * list (list string) :=
  (Ret (mkExecResult "" "" "" ExOk), l ++ [args]).
Definition oc_world : Cli.world (list (list string)) unit :=
  (NewCLI (K := unit) "project" "admin" (mkW [] [] [] [] [] ∅ [] [] [])).2.

Example first_post_without_pod :
  server (Post (W := list (list string)) (K := unit) no_spare recording (λ _ _, ""%string) (λ _, ""%string)
    map_to_list (λ _, ret) (λ _ _, ret "Running"%string) (λ _ _ _ l, (("200"%string, None), l)) decode_answer
    read_answer err_msg parse_answer the_jenkins "/tmp/dir/job.xml" "createItem?name=%s" "application/xml" ["a"]
    (oc_world, NewTester "ns")).2.1 =
  [["--namespace="; "--kubeconfig=admin"; "rsync"; "/tmp/dir"; ":/tmp"; "--strategy=tar"]]%string.
Proof. vm_compute. reflexivity. Qed.

(** ** Job files *)

Section JobFiles.
Context {W : Type}.
(** Those of Csi; the order of a map; the variables of the environment. *)
Variable assets : gmap string string.
Variable temp_dir : gmap string string → string.
Variable temp_file : gmap string string → string → string.
Variable write_error : string → option error.
Variable range_vars : gmap string string → list (string * string).
Variable Getenv : string → string.

Notation fx := (@Csi.fx W).

Definition on_files {A} (m : go (gmap string string) A) : go fx A := λ s,
  let w := fx_world s in
  let '(r, fs) := m (Cli.files w) in (r, mkFx (set_files fs w) (fixtureDir s)).

Definition read_file (path : string) : go (gmap string string) string := λ fs,
  match fs !! path with Some d => (Ret d, fs) | None => (Fail (no_file path), fs) end.

(** The file of a name not used before, in a directory of its own. *)
(* src: test/extended/util/jenkins/ref.go 485-500 CreateTempFile *)
Definition CreateTempFile (data : string) : go (gmap string string) string := λ fs,
  let testFile := temp_file fs (temp_dir fs) in
  match write_error testFile with
  | Some e => (Fail e, <[testFile := ""%string]> fs)
  | None => (Ret testFile, <[testFile := data]> fs)
  end.

(** The variables of the caller are changed too; without any, [vars] is empty. *)
(* src: test/extended/util/jenkins/ref.go 247-280 JenkinsRef.ProcessJenkinsJobUsingVars *)
Definition ProcessJenkinsJobUsingVars (filename namespace : string) (vars : gmap string string)
  : go fx (string * gmap string string) :=
  (pre <-! FixturePath assets temp_dir write_error ["testdata"; "jenkins-plugin"; filename]%string ;;
   post <-! of_outcome (ArtifactPath Getenv [filename]) ;;
   let vars := <["PROJECT_NAME"%string := namespace]> vars in
   or_panic (on_files (VarSubOnFile write_error pre post (range_vars vars))) ;;!
   data <-! or_panic (on_files (read_file post)) ;;
   newfile <-! or_panic (on_files (CreateTempFile data)) ;;
   ret (newfile, vars))%go.

(* src: test/extended/util/jenkins/ref.go 282-286 JenkinsRef.ProcessJenkinsJob *)
Definition ProcessJenkinsJob (filename namespace : string) : go fx string :=
  (r <-! ProcessJenkinsJobUsingVars filename namespace ∅ ;; ret r.1)%go.

Lemma on_files_Ret {A} (m : go (gmap string string) A) (s s' : fx) a :
  on_files m s = (Ret a, s') → m (Cli.files (fx_world s)) = (Ret a, Cli.files (fx_world s')).
Proof. unfold on_files. destruct (m _) as [r fs]. by intros [= -> <-]. Qed.

Lemma of_outcome_Ret {S A} (o : outcome A) (s s' : S) a : of_outcome o s = (Ret a, s') → o = Ret a ∧ s' = s.
Proof. unfold of_outcome. by intros [= -> ->]. Qed.

(** A job file holds the fixture with its variables replaced, the name of the
    project among them. *)
Theorem ProcessJenkinsJobUsingVars_file filename namespace vars (s s' : fx) newfile vars' :
  ProcessJenkinsJobUsingVars filename namespace vars s = (Ret (newfile, vars'), s') →
  vars' = <["PROJECT_NAME"%string := namespace]> vars ∧
  ∃ pre s1 template,
    FixturePath assets temp_dir write_error ["testdata"; "jenkins-plugin"; filename]%string s = (Ret pre, s1) ∧
    Cli.files (fx_world s1) !! pre = Some template ∧
    Cli.files (fx_world s') !! newfile = Some (substitute (range_vars vars') template).
Proof.
  intros (pre & s1 & Hpre & H)%gobind_Ret_inv. rewrite Hpre.
  apply gobind_Ret_inv in H as (post & s2 & [_ ->]%of_outcome_Ret & H).
  apply gobind_Ret_inv in H as ([] & s3 & Hsub%or_panic_Ret%on_files_Ret & H).
  apply gobind_Ret_inv in H as (data & s4 & Hread%or_panic_Ret%on_files_Ret & H).
  apply gobind_Ret_inv in H as (new & s5 & Htemp%or_panic_Ret%on_files_Ret & H).
  injection H as <- <- <-. split; [done|]. unfold VarSubOnFile in Hsub.
  destruct (Cli.files (fx_world s1) !! pre) as [template|] eqn:Hf; [|done].
  destruct (write_error post); [done|]. injection Hsub as Hs3.
  exists pre, s1, template. split_and!; [done..|].
  unfold read_file in Hread. rewrite <- Hs3, lookup_insert_eq in Hread. injection Hread as <- Hs4.
  unfold CreateTempFile in Htemp. destruct (write_error _); [done|]. injection Htemp as <- <-.
  by rewrite lookup_insert_eq.
Qed.
End JobFiles.
