(* ===== verification/PodMetrics.v ===== *)
(** * test/extended/util/metrics.go: the request rate of the operator pods

    The check reads two metrics of every running operator pod through a forwarded
    port and compares the requests per second with the limit of the namespace.
    A float64 is an IEEE number of 53 bits, computed; its text is a parameter, as
    are the forwarding of ports and the parser of the metrics. *)

From S2P Require Import Prelude.
From S2P Require Import GoStrings.
From S2P Require Import GoLib.
From S2P Require Import Waits.
From Stdlib Require Import Floats.SpecFloat.

(** ** float64 *)

Notation float64 := spec_float.

(** A conversion rounds to the nearest; so does the constant of a decimal,
    which is the quotient of two numbers without error. *)
Definition float_of (z : Z) : float64 := binary_normalize 53 1024 z 0 false.
Definition float_add (a b : float64) : float64 := SFadd 53 1024 a b.
Definition float_div (a b : float64) : float64 := SFdiv 53 1024 a b.
Definition decimal (tenths : Z) : float64 := float_div (float_of tenths) (float_of 10).

(** [int64(f)]: the fraction is dropped; what the conversion gives for a value
    out of range is not specified. *)
Definition int64_min : Z := (- 2 ^ 63)%Z.
Definition wrap64 (z : Z) : Z := ((z + 2 ^ 63) mod 2 ^ 64 - 2 ^ 63)%Z.
Definition float_trunc (f : float64) : option Z :=
  match f with
  | S754_zero _ => Some 0%Z
  | S754_finite s m e =>
      let a := if (0 <=? e)%Z then Z.shiftl (Zpos m) e else Z.shiftr (Zpos m) (- e) in
      let z := if s then (- a)%Z else a in
      if (int64_min <=? z)%Z && (z <? 2 ^ 63)%Z then Some z else None
  | _ => None
  end.

(** ** Data *)

(* src: test/extended/util/metrics.go 29-33 maxQPSAllowed *)
Definition maxQPSAllowed : float64 := decimal 15.

(* src: test/extended/util/metrics.go 35-45 perComponentNamespaceMaxQPSAllowed *)
Definition perComponentNamespaceMaxQPSAllowed : gmap string float64 :=
  {["openshift-apiserver-operator" := decimal 72;
    "openshift-kube-apiserver-operator" := decimal 72;
    "openshift-kube-controller-manager-operator" := decimal 20;
    "openshift-cluster-kube-scheduler-operator" := decimal 18;
    "openshift-cluster-openshift-controller-manager-operator" := decimal 17;
    "openshift-kube-scheduler-operator" := decimal 17]}%string.

(* src: test/extended/util/metrics.go 47-55 podInfo *)
Record podInfo := mkInfo {
  name : string;
  qps : float64;
  status : string;
  namespace : string;
  result : string;
  failed : bool;
  skipped : bool
}.

(** What the check reads of a pod; [PodRunningReady] is that of the test
    utilities of Kubernetes. *)
Record op_pod := mkOpPod { p_name : string; p_namespace : string; p_phase : string; p_containers : nat }.

(** dto.Metric: its counter and its gauge, which may be nil. *)
Record metric := mkMetric { Counter : option float64; Gauge : option float64 }.
Definition MetricFamily : Type := list metric.

(** [GetValue] of a nil counter or gauge is 0. *)
Definition GetValue (v : option float64) : float64 := default (S754_zero false) v.

(** ** The forwarded port *)

(* src: test/extended/util/metrics.go 303-308 portForwardURLGetter *)
Record portForwardURLGetter := mkGetter {
  Protocol : string; Host : string; RemotePort : string; LocalPort : string
}.

(** The fields of a [rest.Config] that get defaults. *)
Record rest_defaults := mkDefaults {
  GroupVersion : option (string * string); NegotiatedSerializer : option string;
  UserAgent : string; APIPath : string
}.

(* src: test/extended/util/metrics.go 274-286 setRESTConfigDefaults *)
Definition setRESTConfigDefaults (codecs agent : string) (c : rest_defaults) : rest_defaults :=
  mkDefaults (Some (default (""%string, "v1"%string) (GroupVersion c)))
    (Some (default codecs (NegotiatedSerializer c)))
    (if Nat.eqb (String.length (UserAgent c)) 0 then agent else UserAgent c) "/api".

(** How [ForwardPorts] ends: before the port is ready; when the function that
    was given to it has run; or on a lost connection, while the function still
    runs, with or without its writes to be seen. *)
Inductive forwarding :=
| NotReady (err : error)
| Stopped (err : option error)
| Lost (seen : bool).

Section Metrics.
Context {W : Type}.
Variable PodRunningReady : op_pod → bool * option error.
Variable list_namespaces : go W (list string).
Variable list_pods : string → go W (list op_pod).
(** The clients and the dialer: their errors; the forwarding; a GET: the data
    that was copied and the error that ended it, or the error of the request. *)
Variable rest_client_err : option error.
Variable dialer_err : option error.
Variable forward : op_pod → list string → go W forwarding.
Variable insecure_client : string → option error.
Variable get_stream : string → string → go W (string * option error).
(** [TextToMetricFamilies]; [time.Now().Unix()]; the text of a float64; the
    value of a conversion out of range; whether an error is a [*url.Error]. *)
Variable TextToMetricFamilies : string → gmap string MetricFamily + error.
Variable now : Z.
Variable ftoa : float64 → string.
Variable out_of_range : float64 → Z.
Variable is_url_error : error → bool.

Definition to_int64 (f : float64) : Z := default (out_of_range f) (float_trunc f).

(** What the function run behind the port writes: the result and the last
    error. *)
(* src: test/extended/util/metrics.go 317-334 portForwardURLGetter.Get (request) *)
Definition request (c : portForwardURLGetter) (urlPath : string) : go W (string * option error) :=
  let host := "https://localhost:" +:+ LocalPort c +:+ "/" in
  match insecure_client host with
  | Some err => ret (""%string, Some err)
  | None =>
      (r <-! try (get_stream host urlPath) ;;
       match r with
       | inr err => ret (""%string, Some err)
       | inl (data, err) => ret (data, err)
       end)%go
  end.

(** The error of the forwarding, and what the function had written when it
    returned. *)
(* src: test/extended/util/metrics.go 231-272 defaultPortForwarder.forwardPortsAndExecute *)
Definition forwardPortsAndExecute (pod : op_pod) (ports : list string)
    (toExecute : go W (string * option error)) : go W (option error * (string * option error)) :=
  let nothing := (""%string, None) in
  match ports with
  | [] => ret (Some (Errorf "at least 1 PORT is required for port-forward"), nothing)
  | _ =>
      match rest_client_err with
      | Some err => ret (Some err, nothing)
      | None =>
          if negb (String.eqb (p_phase pod) "Running") then
            ret (Some (Errorf ("unable to forward port because pod is not running. Current status="
                               +:+ p_phase pod)), nothing)
          else match dialer_err with
          | Some err => ret (Some err, nothing)
          | None =>
              (f <-! forward pod ports ;;
               match f with
               | NotReady err => ret (Some err, nothing)
               | Stopped err => r <-! toExecute ;; ret (err, r)
               | Lost seen => r <-! toExecute ;; ret (None, if seen : bool then r else nothing)
               end)%go
          end
      end
  end.

(* src: test/extended/util/metrics.go 310-338 portForwardURLGetter.Get *)
Definition Get (c : portForwardURLGetter) (urlPath : string) (pod : op_pod) : go W string :=
  (r <-! forwardPortsAndExecute pod [LocalPort c +:+ ":" +:+ RemotePort c] (request c urlPath) ;;
   match r with
   | (Some err, _) => fail err
   | (None, (_, Some lastErr)) => fail lastErr
   | (None, (result, None)) => ret result
   end)%go.

(* src: test/extended/util/metrics.go 202-214 getPodMetrics, parseRawMetrics *)
Definition getPodMetrics (c : portForwardURLGetter) (pod : op_pod) : go W (gmap string MetricFamily) :=
  (r <-! Get c "/metrics" pod ;; of_sum (TextToMetricFamilies r))%go.

(** ** The rate of a pod *)

(* src: test/extended/util/metrics.go 182-184 getPodInfoForNamespace (count) *)
Definition request_count (l : MetricFamily) : float64 :=
  fold_left (λ total m, float_add total (GetValue (Counter m))) l (S754_zero false).

(** Seconds since the start of the process, in int64. *)
Definition process_seconds (start : float64) : Z := wrap64 (now - to_int64 start).

Definition rate (total : float64) (seconds : Z) : float64 := float_div total (float_of seconds).

Definition base_info (pod : op_pod) : podInfo :=
  mkInfo (p_name pod) (S754_zero false) (p_phase pod) (p_namespace pod) "" false false.
Definition skipped_info (pod : op_pod) (result : string) : podInfo :=
  mkInfo (p_name pod) (S754_zero false) (p_phase pod) (p_namespace pod) result false true.
Definition failed_info (pod : op_pod) (result : string) : podInfo :=
  mkInfo (p_name pod) (S754_zero false) (p_phase pod) (p_namespace pod) result true false.

(** The metrics of a pod that were read. *)
(* src: test/extended/util/metrics.go 164-197 getPodInfoForNamespace (rate) *)
Definition measured_info (pod : op_pod) (metrics : gmap string MetricFamily) : podInfo :=
  match metrics !! "rest_client_requests_total"%string with
  | None => failed_info pod ("error: failed to find counter: " +:+ Quote "rest_client_requests_total")
  | Some metricGroup =>
      match metrics !! "process_start_time_seconds"%string with
      | None | Some [] =>
          failed_info pod ("error: failed to find metric: " +:+ Quote "process_start_time_seconds")
      | Some (m :: _) =>
          let totalProcTimeSeconds := process_seconds (GetValue (Gauge m)) in
          let totalRequestCount := request_count metricGroup in
          let q := rate totalRequestCount totalProcTimeSeconds in
          let comment := if SFltb maxQPSAllowed q then "exceeds QPS bounds" else "within QPS bounds" in
          mkInfo (p_name pod) q (p_phase pod +:+ " (" +:+ comment +:+ ")") (p_namespace pod)
            (ftoa totalRequestCount +:+ " requests over a span of " +:+ itoa totalProcTimeSeconds +:+
             " seconds") false false
      end
  end.

(* src: test/extended/util/metrics.go 120-197 getPodInfoForNamespace (pod) *)
Definition pod_info (c : portForwardURLGetter) (pod : op_pod) : go W podInfo :=
  let '(ready, err) := PodRunningReady pod in
  match ready, err with
  | true, None =>
      if Nat.eqb (p_containers pod) 0 then ret (skipped_info pod "skipped, no containers found")
      else
        (r <-! try (getPodMetrics c pod) ;;
         ret (match r with
              | inr e =>
                  if is_url_error e && Contains (err_msg e) "EOF"
                  then skipped_info pod "/metrics endpoint not available"
                  else failed_info pod ("error: " +:+ err_msg e)
              | inl metrics => measured_info pod metrics
              end))%go
  | _, Some e => ret (skipped_info pod ("skipped, pod is not Running: " +:+ err_msg e))
  | _, None => ret (skipped_info pod "skipped, pod is not Running")
  end.

Fixpoint map_go {A B} (f : A → go W B) (l : list A) : go W (list B) :=
  match l with
  | [] => ret []
  | x :: l' => (y <-! f x ;; ys <-! map_go f l' ;; ret (y :: ys))%go
  end.

(* src: test/extended/util/metrics.go 112-200 getPodInfoForNamespace *)
Definition getPodInfoForNamespace (c : portForwardURLGetter) (ns : string) : go W (list podInfo) :=
  (pods <-! list_pods ns ;; map_go (pod_info c) pods)%go.

(** ** The check *)

Definition qps_limit (ns : string) : float64 :=
  default maxQPSAllowed (perComponentNamespaceMaxQPSAllowed !! ns).

(** The failure of a pod. *)
(* src: test/extended/util/metrics.go 85-103 CalculatePodMetrics (pod) *)
Definition info_failure (info : podInfo) : option error :=
  if failed info then
    Some (Errorf ("failed to fetch operator pod metrics for pod " +:+ Quote (name info) +:+ ": " +:+ result info))
  else if skipped info then None
  else
    let qpsLimit := qps_limit (namespace info) in
    if SFltb qpsLimit (qps info) then
      Some (Errorf ("operator pod " +:+ Quote (name info) +:+ " in namespace " +:+ Quote (namespace info) +:+
                    " is making " +:+ ftoa (qps info) +:+ " requests per second. Maximum allowed is " +:+
                    ftoa qpsLimit +:+ " requests per second"))
    else None.

Definition operator_namespace (ns : string) : bool := HasPrefix ns "openshift-" && HasSuffix ns "-operator".

(** The loop over the namespaces, with the failures so far. *)
Fixpoint check_namespaces (c : portForwardURLGetter) (failures : list error) (l : list string)
  : go W (list error) :=
  match l with
  | [] => ret failures
  | ns :: l' =>
      if negb (operator_namespace ns) then check_namespaces c failures l'
      else (infos <-! getPodInfoForNamespace c ns ;;
            check_namespaces c (failures ++ omap info_failure infos) l')%go
  end.

(* src: test/extended/util/metrics.go 57-110 CalculatePodMetrics *)
Definition CalculatePodMetrics : go W unit :=
  let podURLGetter := mkGetter "https" "localhost" "8443" "37587" in
  (namespaces <-! list_namespaces ;;
   failures <-! check_namespaces podURLGetter [] namespaces ;;
   match NewAggregate failures with Some e => fail e | None => ret tt end)%go.

(** ** Properties *)

(** The infos of every operator namespace, in the order of the readings. *)
Definition readings (c : portForwardURLGetter) (l : list string) : go W (list podInfo) :=
  (ll <-! map_go (getPodInfoForNamespace c) (bfilter operator_namespace l) ;; ret (concat ll))%go.

Lemma check_namespaces_readings c failures l w :
  check_namespaces c failures l w =
  (infos <-! readings c l ;; ret (failures ++ omap info_failure infos))%go w.
Proof.
  revert failures w. induction l as [|ns l IH]; intros failures w.
  { cbn. unfold readings, gobind, ret. cbn. by rewrite app_nil_r. }
  cbn [check_namespaces]. unfold readings. cbn [bfilter]. destruct (operator_namespace ns); cbn [negb].
  2: { by rewrite IH. }
  cbn [map_go]. unfold gobind. destruct (getPodInfoForNamespace c ns w) as [[infos|e|m] w1]; [|done..].
  rewrite IH. unfold readings, gobind, ret.
  destruct (map_go _ _ w1) as [[ll|e|m] w2]; [|done..]. cbn [concat].
  by rewrite omap_app, app_assoc.
Qed.

Lemma NewAggregate_None l : NewAggregate l = None ↔ l = [].
Proof. destruct l as [|e l]; [done|]. unfold NewAggregate. split; [|done]. by destruct (distinct_messages _ _) as [|? [|]]. Qed.

(** A pod that does not make the check fail: it was skipped, or its rate is not
    above the limit of its namespace. *)
Definition info_ok (i : podInfo) : Prop :=
  failed i = false ∧ (skipped i = true ∨ SFltb (qps_limit (namespace i)) (qps i) = false).

Lemma info_failure_None i : info_failure i = None ↔ info_ok i.
Proof.
  unfold info_failure, info_ok. destruct (failed i); [naive_solver|].
  destruct (skipped i); [naive_solver|]. destruct (SFltb _ _); naive_solver.
Qed.

Lemma omap_nil {A B} (f : A → option B) l : omap f l = [] ↔ Forall (λ x, f x = None) l.
Proof.
  induction l as [|x l IH]; [by split|]. rewrite Forall_cons. cbn.
  destruct (f x); [naive_solver|]. by rewrite IH; naive_solver.
Qed.

(** The check passes exactly when the pods of every operator namespace were
    read and each of them was skipped or measured at a rate not above its
    limit; the namespaces are all read even after a failure, and pods of other
    namespaces are not asked. *)
Theorem CalculatePodMetrics_passes w w' :
  CalculatePodMetrics w = (Ret tt, w') ↔
  ∃ namespaces w1 infos, list_namespaces w = (Ret namespaces, w1) ∧
    readings (mkGetter "https" "localhost" "8443" "37587") namespaces w1 = (Ret infos, w') ∧
    Forall info_ok infos.
Proof.
  unfold CalculatePodMetrics. set (c := mkGetter _ _ _ _). split.
  - intros (namespaces & w1 & Hn & H)%gobind_Ret_inv. unfold gobind in H.
    rewrite check_namespaces_readings in H. unfold gobind in H.
    destruct (readings c namespaces w1) as [[infos|e|m] w2] eqn:Er; [|done..]. cbn in H.
    destruct (NewAggregate _) as [e|] eqn:Ea; [done|]. injection H as <-.
    exists namespaces, w1, infos. split_and!; [done..|].
    apply NewAggregate_None, omap_nil in Ea. eapply Forall_impl; [exact Ea|]. intros i. apply info_failure_None.
  - intros (namespaces & w1 & infos & Hn & Hr & Hok). erewrite gobind_Ret by exact Hn.
    unfold gobind. rewrite check_namespaces_readings. unfold gobind. rewrite Hr. cbn.
    replace (omap info_failure infos) with (@nil error); [done|]. symmetry. apply omap_nil.
    eapply Forall_impl; [exact Hok|]. intros i. apply info_failure_None.
Qed.

(** *** The limits of the rate *)

Lemma limit_positive ns : ∃ m e, qps_limit ns = S754_finite false m e.
Proof.
  unfold qps_limit, perComponentNamespaceMaxQPSAllowed.
  destruct (_ !! ns) as [f|] eqn:E; [|eexists _, _; vm_compute; reflexivity].
  repeat (apply lookup_insert_Some in E as [[_ <-]|[_ E]]; [eexists _, _; vm_compute; reflexivity|]).
  apply lookup_singleton_Some in E as [_ <-]. eexists _, _; vm_compute; reflexivity.
Qed.

(** The sign of a number that is one. *)
Definition signed (s : bool) (f : float64) : Prop :=
  match f with
  | S754_zero s' | S754_infinity s' | S754_finite s' _ _ => s' = s
  | S754_nan => True
  end.

Lemma round_signed s m e l : signed s (binary_round_aux 53 1024 s m e l).
Proof.
  unfold binary_round_aux. destruct (shr_fexp _ _ m e l) as [r1 e1].
  destruct (shr_fexp _ _ _ e1 loc_Exact) as [r2 e2]. destruct (shr_m r2); [done| |done].
  by destruct (_ <=? _)%Z.
Qed.

Lemma normalize_signed z e sz s : (if s : bool then z < 0 else 0 < z)%Z → signed s (binary_normalize 53 1024 z e sz).
Proof.
  intros Hz. unfold binary_normalize, binary_round. destruct z as [|p|p]; [destruct s; lia|..].
  - destruct s; [lia|]. match goal with |- context [let '(_, _) := ?p in _] => destruct p end. apply round_signed.
  - destruct s; [|lia]. match goal with |- context [let '(_, _) := ?p in _] => destruct p end. apply round_signed.
Qed.

Lemma div_signed s a b : signed false a → signed s b → signed s (float_div a b).
Proof.
  unfold float_div, SFdiv. destruct a as [sa|sa| |sa ma ea], b as [sb|sb| |sb mb eb]; cbn; intros; subst; try done.
  destruct (SFdiv_core_binary _ _ _ _ _ _) as [[q e] l]. apply round_signed.
Qed.

Lemma add_signed a b : signed false a → signed false b → signed false (float_add a b).
Proof.
  unfold float_add, SFadd. destruct a as [sa|sa| |sa ma ea], b as [sb|sb| |sb mb eb]; cbn -[binary_normalize];
    intros; subst; try done.
  apply normalize_signed. destruct (shl_align ma ea (Z.min ea eb)), (shl_align mb eb (Z.min ea eb)). cbn. lia.
Qed.

(** Counters are never negative, so neither is their sum. *)
Lemma request_count_signed l :
  Forall (λ m, signed false (GetValue (Counter m))) l → signed false (request_count l).
Proof.
  unfold request_count. assert (signed false (S754_zero false)) as H by done. revert H.
  generalize (S754_zero false). induction l as [|m l IH]; intros f Hf Hl; cbn; [done|].
  apply Forall_cons in Hl as [Hm Hl]. apply IH; [by apply add_signed|done].
Qed.

Definition over_limit (ns : string) (l : MetricFamily) (start : float64) : bool :=
  SFltb (qps_limit ns) (rate (request_count l) (process_seconds start)).

(** At the edges of the age of a process: in the second in which it started a pod with a
    request is over every limit, since the quotient is infinite, and one without
    is not, since 0/0 is no number; a process that started in the future, by the
    clock of the test, is under every limit whatever it requests. *)
Theorem over_limit_age ns l start :
  Forall (λ m, signed false (GetValue (Counter m))) l →
  (process_seconds start = 0%Z →
     over_limit ns l start = match request_count l with
                             | S754_finite _ _ _ | S754_infinity _ => true
                             | _ => false
                             end) ∧
  ((process_seconds start < 0)%Z → over_limit ns l start = false).
Proof.
  intros Hl%request_count_signed. unfold over_limit, rate.
  destruct (limit_positive ns) as (m & e & ->). split.
  - intros ->. destruct (request_count l) as [s|s| |s p x]; cbn in Hl; subst; reflexivity.
  - intros Hneg. pose proof (normalize_signed (process_seconds start) 0 false true Hneg) as Hs.
    pose proof (div_signed true _ _ Hl Hs) as Hd. unfold float_of.
    destruct (float_div _ _) as [s|s| |s p x]; cbn in Hd; subst; done.
Qed.
End Metrics.

(** ** Limits and ages *)

Definition three_requests : MetricFamily := [mkMetric (Some (float_of 1)) None; mkMetric None None; mkMetric (Some (float_of 2)) None].

Lemma over_limit_age_witness :
  over_limit 1700000000 (λ _, 0%Z) "openshift-dns-operator" three_requests (float_of 1700000000) = true ∧
  over_limit 1700000000 (λ _, 0%Z) "openshift-dns-operator" [] (float_of 1700000000) = false ∧
  over_limit 1700000000 (λ _, 0%Z) "openshift-dns-operator" three_requests (float_of 1700000001) = false.
Proof.
  pose proof (over_limit_age 1700000000 (λ _, 0%Z) "openshift-dns-operator" three_requests (float_of 1700000000)
    ltac:(repeat constructor)) as [H1 _].
  pose proof (over_limit_age 1700000000 (λ _, 0%Z) "openshift-dns-operator" [] (float_of 1700000000)
    ltac:(constructor)) as [H2 _].
  pose proof (over_limit_age 1700000000 (λ _, 0%Z) "openshift-dns-operator" three_requests (float_of 1700000001)
    ltac:(repeat constructor)) as [_ H3].
  split_and!.
  - etransitivity; [apply H1|]; vm_compute; reflexivity.
  - etransitivity; [apply H2|]; vm_compute; reflexivity.
  - apply H3. vm_compute. reflexivity.
Defined.

(** The exceptions are honoured: 7.2 requests per second are allowed to the
    operator of the API server, and the limit itself is. *)
Example limits_ex :
  over_limit 10 (λ _, 0%Z) "openshift-apiserver-operator" [mkMetric (Some (float_of 72)) None] (float_of 0) = false ∧
  over_limit 10 (λ _, 0%Z) "openshift-apiserver-operator" [mkMetric (Some (float_of 73)) None] (float_of 0) = true ∧
  over_limit 10 (λ _, 0%Z) "openshift-dns-operator" [mkMetric (Some (float_of 15)) None] (float_of 0) = false ∧
  over_limit 10 (λ _, 0%Z) "openshift-dns-operator" [mkMetric (Some (float_of 16)) None] (float_of 0) = true.
Proof. vm_compute. done. Qed.

(** A pod whose gauge of the start time is missing its value has run since
    1970: no number of requests a program can have made is too many. *)
Example no_start_time :
  over_limit 1700000000 (λ _, 0%Z) "openshift-dns-operator" [mkMetric (Some (float_of 2000000000)) None]
    (GetValue None) = false.
Proof. vm_compute. done. Qed.
