(* ===== verification/Databases.v ===== *)
(** * test/extended/util/db and db_image_helpers.go: the database helpers

    A database is a record of operations, as the interface of the code; MySQL,
    PostgreSQL and MongoDB implement it with commands that they run in a pod.
    The waits are written against the interface, and what they need of an
    implementation is a class. *)

From S2P Require Import Prelude.
From S2P Require Import GoStrings.
From S2P Require Import GoLib.
From S2P Require Import GoSlice.
From S2P Require Import Cli.
From S2P Require Import CliUser.
From S2P Require Import OcHelpers.

(** ** The interface *)

(** A query returns its output with an exit error, or fails with another. *)
(* src: test/extended/util/db_image_helpers.go 16-32 Database *)
Record Database (S : Type) := mkDatabase {
  PodName : string;
  IsReady : nat → go S bool;
  Query : nat → string → go S (string * option ExitError);
  QueryPrivileged : nat → string → go S (string * option ExitError);
  TestRemoteLogin : nat → string → go S (option ExitError)
}.
Arguments mkDatabase {S}. Arguments PodName {S}. Arguments IsReady {S}. Arguments Query {S}.
Arguments QueryPrivileged {S}. Arguments TestRemoteLogin {S}.

Section Waits.
Context {S : Type} (printq : string → string → go S unit).

(** Exit errors are waited out; [printq] prints a query and its output. *)
(* src: test/extended/util/db_image_helpers.go 43-71 WaitForQueryOutputSatisfies (condition) *)
Definition query_cond (oc : nat) (d : Database S) (admin : bool) (query : string)
    (predicate : string → bool) : go S bool :=
  (r <-! (if admin then QueryPrivileged d oc query else Query d oc query) ;;
   printq query r.1 ;;!
   match r with
   | (_, Some _) => ret false
   | (out, None) => ret (predicate out)
   end)%go.

Definition rename_timeout (what : string) (m : go S unit) : go S unit := λ w,
  match m w with
  | (Fail e, w') => (Fail (if bool_decide (e = ErrWaitTimeout) then Errorf what else e), w')
  | x => x
  end.

(* src: test/extended/util/db_image_helpers.go 40-76 WaitForQueryOutputSatisfies *)
Definition WaitForQueryOutputSatisfies (oc : nat) (d : Database S) (timeout : duration) (admin : bool)
    (query : string) (predicate : string → bool) : go S unit :=
  rename_timeout ("timed out waiting for query: " +:+ Quote query)
    (Poll (ticks_of (5 * Second) timeout) (query_cond oc d admin query predicate)).

(* src: test/extended/util/db_image_helpers.go 78-86 WaitForQueryOutputContains *)
Definition WaitForQueryOutputContains (oc : nat) (d : Database S) (timeout : duration) (admin : bool)
    (query resultSubstr : string) : go S unit :=
  WaitForQueryOutputSatisfies oc d timeout admin query (λ out, Contains out resultSubstr).

(* src: test/extended/util/db_image_helpers.go 88-97 WaitUntilUp *)
Definition WaitUntilUp (oc : nat) (d : Database S) (timeout : duration) : go S unit :=
  rename_timeout ("timed out waiting for pod " +:+ PodName d +:+ " get up")
    (Poll (ticks_of (2 * Second) timeout) (IsReady d oc)).

(* src: test/extended/util/db_image_helpers.go 99-107 WaitUntilAllHelpersAreUp *)
Definition WaitUntilAllHelpersAreUp (oc : nat) (helpers : list (Database S)) : go S unit :=
  for_each helpers (λ m, WaitUntilUp oc m (3 * Minute)%Z).

(** What [WaitUntilUp] needs: a database that is not ready yet says so without
    an error. *)
Class Waitable (d : Database S) : Prop :=
  isready_no_error : ∀ oc w e w', IsReady d oc w ≠ (Fail e, w').

Lemma WaitFor_Fail n (cond : go S bool) w e w' :
  (∀ w e w', cond w ≠ (Fail e, w')) → WaitFor n cond w = (Fail e, w') → e = ErrWaitTimeout.
Proof.
  intros Hc. revert w. induction n as [|n IH]; intros w; cbn [WaitFor]; unfold gobind, ret, fail;
    destruct (cond w) as [[[|]|e'|m] w1] eqn:E; intros H; simplify_eq; try done;
    first [by apply Hc in E|by eapply IH].
Qed.

(** A wait for a database that is waitable ends with the database ready, or
    with the message of the timeout. *)
Lemma WaitUntilUp_waits oc d `{!Waitable d} timeout w r w' :
  WaitUntilUp oc d timeout w = (r, w') →
  match r with
  | Ret _ => ∃ w0, IsReady d oc w0 = (Ret true, w')
  | Fail e => e = Errorf ("timed out waiting for pod " +:+ PodName d +:+ " get up")
  | Panic _ => True
  end.
Proof.
  unfold WaitUntilUp, rename_timeout, Poll.
  destruct (WaitFor _ _ w) as [[[]|e|m] w1] eqn:E; intros [= <- <-]; [|..|done].
  - by eapply WaitFor_Ret.
  - apply WaitFor_Fail in E as ->; [by rewrite bool_decide_eq_true_2|]. apply isready_no_error.
Qed.

(** All of them were ready at the end of their wait. *)
Lemma WaitUntilAllHelpersAreUp_up oc l w w' :
  WaitUntilAllHelpersAreUp oc l w = (Ret tt, w') →
  Forall (λ d, ∃ w0 w1, IsReady d oc w0 = (Ret true, w1)) l.
Proof.
  revert w. induction l as [|d l IH]; intros w; [constructor|].
  unfold WaitUntilAllHelpersAreUp. cbn [for_each]. intros ([] & w1 & H & Hl)%gobind_Ret_inv.
  constructor; [|by eapply IH]. unfold WaitUntilUp, rename_timeout, Poll in H.
  destruct (WaitFor _ _ w) as [[[]|e|m] w2] eqn:E; simplify_eq.
  apply WaitFor_Ret in E as [w0 E]. eauto.
Qed.
End Waits.

(** ** The implementations *)

(** A container of a pod: its name and the variables with values. *)
Record container := mkContainer { c_name : string; c_env : list (string * string) }.

Section Implementations.
Context {W : Type}.
Variable spare : nat → nat → nat.
Variable process : string → list string → string → go W exec_result.
Variable cmd_String : string → list string → string.
Variable client_config : kubeconfig → rest_config + error.
Variable new_client : string → rest_config → option error.
Variable status_text : Z → string.
(** The containers of a pod of a namespace, read with a configuration. *)
Variable get_containers : rest_config → string → string → go W (list container).

Notation world := (Cli.world W kubeconfig).
Notation oc_run := (Cli.oc_run spare process cmd_String).

(* src: test/extended/util/db/common.go 13-17 PodConfig *)
Record PodConfig := mkPodConfig { Container : string; Env : gmap string string }.

(** [oc.KubeClient().CoreV1().Pods(oc.Namespace())] and a Get. *)
Definition containers_of (oc : nat) (podName : string) : go world (list container) :=
  (k <-! get_client client_config new_client KubeClient oc ;;
   ns <-! Namespace oc ;;
   on_server (get_containers k.2 ns podName))%go.

Definition first_container (l : list container) : go world string :=
  match l with [] => gopanic "index out of range" | c :: _ => ret (c_name c) end.

(** Later variables replace earlier ones, of the containers before too. *)
Definition env_of (l : list container) : gmap string string :=
  fold_left (λ env kv, <[kv.1 := kv.2]> env) (flat_map c_env l) ∅.

(* src: test/extended/util/db/common.go 19-31 getPodConfig *)
Definition getPodConfig (oc : nat) (podName : string) : go world PodConfig :=
  (l <-! containers_of oc podName ;;
   n <-! first_container l ;;
   ret (mkPodConfig n (env_of l)))%go.

(* src: test/extended/util/db/common.go 33-40 firstContainerName *)
Definition firstContainerName (oc : nat) (podName : string) : go world string :=
  (l <-! containers_of oc podName ;; first_container l)%go.

(** The output of a command that exits with an error is dropped with it. *)
(* src: test/extended/util/db/common.go 51-63 executeShellCommand *)
Definition executeShellCommand (oc : nat) (podName command : string) : go world string :=
  (r <-! oc_run oc ["exec"%string] [podName; "--"; "bash"; "-c"; command]%string ;;
   ret (match r with (out, None) => out | (_, Some _) => "" end))%go.

(** An output that is not the one expected is an error. *)
(* src: test/extended/util/db/common.go 42-49 isReady *)
Definition isReady (oc : nat) (podName pingCommand expectedOutput : string) : go world bool :=
  (out <-! executeShellCommand oc podName pingCommand ;;
   if Contains out expectedOutput then ret true
   else fail (Errorf ("Expected output: " +:+ Quote expectedOutput +:+ " but actual: " +:+ Quote out)))%go.

Definition env_get (c : PodConfig) (k : string) : string := default ""%string (Env c !! k).

(** A command of a shell in a container of the pod. *)
Definition in_container (oc : nat) (podName container command : string)
  : go world (string * option ExitError) :=
  oc_run oc ["exec"%string] [podName; "-c"; container; "--"; "bash"; "-c"; command]%string.

(** The same, with [Execute] in place of [Output]. *)
Definition execute_in (oc : nat) (podName container command : string) : go world (option ExitError) :=
  (p <-! Run spare oc ["exec"%string] ;;
   p <-! Args spare p [podName; "-c"; container; "--"; "bash"; "-c"; command]%string ;;
   Execute process cmd_String p)%go.

(** A ping that exits with an error is a database that is not ready. *)
Definition ping (expected : string) (m : go world (string * option ExitError)) : go world bool :=
  (r <-! m ;;
   ret (match r with (out, None) => Contains out expected | (_, Some _) => false end))%go.

Definition default_master (podName masterPodName : string) : string :=
  if String.eqb masterPodName "" then podName else masterPodName.

(** *** MySQL *)

Definition in_dquotes (s : string) : string := dquote +:+ s +:+ dquote.

(* src: test/extended/util/db/mysql.go 11-103 MySQL *)
Definition NewMysql (podName masterPodName : string) : Database world :=
  let master := default_master podName masterPodName in
  let with_conf {A} (oc : nat) (k : string → PodConfig → go world A) : go world A :=
    (container <-! firstContainerName oc podName ;;
     masterConf <-! getPodConfig oc master ;;
     k container masterConf)%go in
  mkDatabase podName
    (λ oc,
       conf <-! getPodConfig oc podName ;;
       masterConf <-! getPodConfig oc master ;;
       ping "mysqld is alive"
         (in_container oc podName (Container conf)
            ("mysqladmin -h localhost -u" +:+ env_get masterConf "MYSQL_USER" +:+ " -p" +:+
             env_get masterConf "MYSQL_PASSWORD" +:+ " ping")))%go
    (λ oc query, with_conf oc (λ container masterConf,
       in_container oc podName container
         ("mysql -h 127.0.0.1 -u" +:+ env_get masterConf "MYSQL_USER" +:+ " -p" +:+
          env_get masterConf "MYSQL_PASSWORD" +:+ " -e " +:+ in_dquotes query +:+ " " +:+
          env_get masterConf "MYSQL_DATABASE")))
    (λ oc query, with_conf oc (λ container masterConf,
       in_container oc podName container
         ("mysql -h 127.0.0.1 -uroot -e " +:+ in_dquotes query +:+ " " +:+
          env_get masterConf "MYSQL_DATABASE")))
    (λ oc hostAddress, with_conf oc (λ container masterConf,
       execute_in oc podName container
         ("mysql -h " +:+ hostAddress +:+ " -u" +:+ env_get masterConf "MYSQL_USER" +:+ " -p" +:+
          env_get masterConf "MYSQL_PASSWORD" +:+ " -e " +:+ in_dquotes "SELECT 1;" +:+ " " +:+
          env_get masterConf "MYSQL_DATABASE"))).

(** *** PostgreSQL *)

(* src: test/extended/util/db/postgresql.go 11-99 PostgreSQL *)
Definition NewPostgreSQL (podName masterPodName : string) : Database world :=
  let master := default_master podName masterPodName in
  let with_conf {A} (oc : nat) (k : string → PodConfig → go world A) : go world A :=
    (container <-! firstContainerName oc podName ;;
     masterConf <-! getPodConfig oc master ;;
     k container masterConf)%go in
  mkDatabase podName
    (λ oc,
       conf <-! getPodConfig oc podName ;;
       ping ("-[ RECORD 1 ]" +:+ nl +:+ "?column? | 1")
         (in_container oc podName (Container conf)
            ("psql postgresql://postgres@127.0.0.1 -x -c " +:+ in_dquotes "SELECT 1;")))%go
    (λ oc query, with_conf oc (λ container masterConf,
       in_container oc podName container
         ("psql postgres://" +:+ env_get masterConf "POSTGRESQL_USER" +:+ ":" +:+
          env_get masterConf "POSTGRESQL_PASSWORD" +:+ "@127.0.0.1/" +:+
          env_get masterConf "POSTGRESQL_DATABASE" +:+ " -x -c " +:+ in_dquotes query)))
    (λ oc query, with_conf oc (λ container masterConf,
       in_container oc podName container
         ("psql postgres://postgres:" +:+ env_get masterConf "POSTGRESQL_ADMIN_PASSWORD" +:+
          "@127.0.0.1/" +:+ env_get masterConf "POSTGRESQL_DATABASE" +:+ " -x -c " +:+ in_dquotes query)))
    (λ oc hostAddress, with_conf oc (λ container masterConf,
       execute_in oc podName container
         ("psql postgres://" +:+ env_get masterConf "POSTGRESQL_USER" +:+ ":" +:+
          env_get masterConf "POSTGRESQL_PASSWORD" +:+ "@" +:+ hostAddress +:+ "/" +:+
          env_get masterConf "POSTGRESQL_DATABASE" +:+ " -x -c " +:+ in_dquotes "SELECT 1;"))).

(** *** MongoDB *)

Definition mongo : string :=
  Replace "mongo --quiet '$MONGODB_DATABASE' --username '$MONGODB_USER' --password '$MONGODB_PASSWORD'" "'" dquote.
Definition in_quotes (s : string) : string := "'" +:+ s +:+ "'".

(* src: test/extended/util/db/mongodb.go 10-54 MongoDB *)
Definition NewMongoDB (podName : string) : Database world :=
  mkDatabase podName
    (λ oc, isReady oc podName ("mongo --quiet --eval " +:+ in_quotes (Replace "{~ping~, 1}" "~" dquote)) "1")
    (λ oc query,
       out <-! executeShellCommand oc podName (mongo +:+ " --eval " +:+ in_quotes query) ;;
       ret (out, None))%go
    (λ _ _, fail (Errorf "not implemented"))
    (λ _ _, fail (Errorf "not implemented")).

(* src: test/extended/util/db/mongodb.go 56-66 MongoDB.QueryPrimary *)
Definition QueryPrimary (podName : string) (oc : nat) (query : string) : go world string :=
  executeShellCommand oc podName
    (mongo +:+ " --host " +:+ in_dquotes "$MONGODB_REPLICA_NAME/localhost" +:+ " --eval " +:+ in_quotes query).

(** ** Properties *)

(** Computations that return or panic, but never return an error. *)
Definition never_fails {S A} (m : go S A) : Prop := ∀ w e w', m w ≠ (Fail e, w').

Lemma never_ret {S A} (a : A) : never_fails (S := S) (ret a).
Proof. done. Qed.
Lemma never_panic {S A} m : never_fails (S := S) (A := A) (gopanic m).
Proof. done. Qed.
Lemma never_modw {S} (f : S → S) : never_fails (modw f).
Proof. done. Qed.
Lemma never_getw {S} : never_fails (S := S) getw.
Proof. done. Qed.
Lemma never_bind {S A B} (m : go S A) (k : A → go S B) :
  never_fails m → (∀ a, never_fails (k a)) → never_fails (gobind m k).
Proof.
  intros Hm Hk w e w'. unfold gobind. destruct (m w) as [[a|e'|p] w1] eqn:E; [apply Hk| |done].
  by apply Hm in E.
Qed.
Lemma never_server {A} (m : go W A) : never_fails m → never_fails (S := world) (on_server m).
Proof.
  intros Hm w e w'. unfold on_server. destruct (m (server w)) as [r v] eqn:E. intros [= -> _].
  by apply Hm in E.
Qed.
Lemma never_get_cli c : never_fails (S := world) (get_cli c).
Proof. intros w e w'. unfold get_cli. by destruct (clis w !! c). Qed.
Lemma never_get_framework c : never_fails (S := world) (get_framework c).
Proof. intros w e w'. unfold get_framework. by destruct (frameworks w !! c). Qed.
Lemma never_append s l : never_fails (S := world) (args_append spare s l).
Proof. intros w e w'. unfold args_append. by destruct (append _ _ _ _ _). Qed.
Lemma never_literal l : never_fails (S := world) (args_literal l).
Proof. intros w e w'. unfold args_literal. by destruct (literal _ _). Qed.
Lemma never_read s : never_fails (S := world) (args_read s).
Proof. done. Qed.
Lemma never_new_buffer : never_fails (S := world) new_buffer.
Proof. done. Qed.
Lemma never_new_cli x : never_fails (S := world) (new_cli x).
Proof. done. Qed.

Hint Resolve never_ret never_panic never_modw never_getw never_server never_get_cli never_get_framework
  never_append never_literal never_read never_new_buffer never_new_cli : never.

Ltac never :=
  repeat match goal with
  | |- never_fails (gobind _ _) => apply never_bind; [|intros ?]
  | |- never_fails (if ?b then _ else _) => destruct b
  | |- never_fails (match ?b with _ => _ end) => destruct b
  | |- never_fails _ => solve [eauto with never]
  end.

(** A process ends with a status; the API answers. *)
Hypothesis process_ends : ∀ p l i, never_fails (process p l i).
Hypothesis api_answers : ∀ conf ns p, never_fails (get_containers conf ns p).
Hint Resolve process_ends api_answers : never.

Lemma never_Namespace oc : never_fails (S := world) (Namespace oc).
Proof. unfold Namespace. never. Qed.
Hint Resolve never_Namespace : never.

Lemma never_oc_run oc commands args : never_fails (S := world) (oc_run oc commands args).
Proof.
  unfold Cli.oc_run, Run, Args, Args_slice, Output, debug, printCmd, final_args, put_cli, run_process, FatalErr.
  never.
Qed.
Hint Resolve never_oc_run : never.

Lemma never_containers oc p : never_fails (S := world) (containers_of oc p).
Proof. unfold containers_of, get_client, UserConfig, AdminConfig, fatal_on, FatalErr. never. Qed.
Hint Resolve never_containers : never.

Lemma never_getPodConfig oc p : never_fails (S := world) (getPodConfig oc p).
Proof. unfold getPodConfig, first_container. never. Qed.
Hint Resolve never_getPodConfig : never.

(** The ping of MySQL and of PostgreSQL can be repeated. *)
#[local] Instance MySQL_Waitable p m : Waitable (NewMysql p m).
Proof.
  cut (∀ oc, never_fails (IsReady (NewMysql p m) oc)); [auto|].
  intros oc. cbn. unfold ping, in_container. never.
Qed.
#[local] Instance PostgreSQL_Waitable p m : Waitable (NewPostgreSQL p m).
Proof.
  cut (∀ oc, never_fails (IsReady (NewPostgreSQL p m) oc)); [auto|].
  intros oc. cbn. unfold ping, in_container. never.
Qed.

(** A wait for MySQL or PostgreSQL repeats the ping until the server answers or
    the time is over. *)
Theorem sql_WaitUntilUp (postgres : bool) p m oc timeout w r w' :
  let d := if postgres then NewPostgreSQL p m else NewMysql p m in
  WaitUntilUp oc d timeout w = (r, w') →
  match r with
  | Ret _ => ∃ w0, IsReady d oc w0 = (Ret true, w')
  | Fail e => e = Errorf ("timed out waiting for pod " +:+ p +:+ " get up")
  | Panic _ => True
  end.
Proof.
  intros d H.
  destruct postgres; [apply (WaitUntilUp_waits oc (NewPostgreSQL p m)) in H|
                      apply (WaitUntilUp_waits oc (NewMysql p m)) in H]; apply H || apply _.
Qed.

(** The line of the ping of MongoDB in a pod. *)
Definition mongo_ping (x : CLI) (f : framework) (p : string) : list string :=
  oc_line x f ["exec"%string]
    [p; "--"; "bash"; "-c"; "mongo --quiet --eval " +:+ in_quotes (Replace "{~ping~, 1}" "~" dquote)]%string.

(** What is left of the output of a command. *)
Definition shell_output (r : exec_result) : string :=
  match x_status r with ExOk => TrimSpace (x_both r) | _ => "" end.

(** A wait for MongoDB does not wait: a first ping that does not answer, as
    that of a server that is still starting, is an error of [IsReady], which
    ends the wait at once, whatever time is left. *)
Theorem mongo_WaitUntilUp p oc timeout w x f r u :
  args_inv w → clis w !! oc = Some x → frameworks w !! kubeFramework x = Some f →
  process (execPath x) (mongo_ping x f p) "" (server w) = (Ret r, u) →
  (∀ m, x_status r ≠ ExOther m) →
  ∃ w', server w' = u ∧
    WaitUntilUp oc (NewMongoDB p) timeout w =
      (if Contains (shell_output r) "1" then Ret tt
       else Fail (Errorf ("Expected output: " +:+ Quote "1" +:+ " but actual: " +:+ Quote (shell_output r))), w').
Proof.
  intros Hinv Hc Hf Hp Hst.
  destruct (oc_run_spec spare process cmd_String w oc x f "exec" [] _ r u Hinv Hc Hf Hp)
    as (w' & Hrun & Hs & _). exists w'. split; [done|].
  assert (IsReady (NewMongoDB p) oc w =
    (if Contains (shell_output r) "1" then Ret true
     else Fail (Errorf ("Expected output: " +:+ Quote "1" +:+ " but actual: " +:+ Quote (shell_output r))), w')) as Hr.
  { cbn [IsReady NewMongoDB]. unfold isReady, executeShellCommand, gobind. rewrite Hrun.
    unfold output_result, shell_output. destruct (x_status r) as [|z|m]; [..|by destruct (Hst m)];
      cbn [ret]; by destruct (Contains _ "1"). }
  unfold WaitUntilUp, rename_timeout, Poll. destruct (ticks_of _ _) as [|n]; cbn [WaitFor];
    unfold gobind; rewrite Hr; by destruct (Contains _ _).
Qed.
End Implementations.

(** ** A MongoDB that starts, and a MySQL that does *)

(** The first command of a process fails, the later ones answer. *)
Definition starting (out : string) (path : string) (l : list string) (i : string) : go nat exec_result := λ n,
  (Ret (match n with O => mkExecResult "" "" "" (ExExit 1) | _ => mkExecResult out "" out ExOk end), Datatypes.S n).

Definition a_config : kubeconfig := mkKube "" "" "" "" false "" "" "" "" "" "" "" "".
Definition a_rest : rest_config := mkRest "" "" "" "" "" "" "" "" "" "" false 0 0.
Definition db_world : Cli.world nat kubeconfig :=
  snd ((c <-! NewCLI "p" "admin.conf" ;; c <-! SetNamespace c "ns" ;;
        put_cli 0 (with_configPath "user.conf" (blank_cli 0 "admin.conf")))%go
       (mkW [] [] [] [] [] {["user.conf"%string := a_config]} [] [] 0)).

Lemma db_inv : args_inv db_world.
Proof.
  split.
  - intros [|c] x Hx; cbn in Hx; simplify_eq; by repeat split.
  - intros [|c] [|d] x y a _ Hx Hy; cbn in Hx, Hy; simplify_eq; intros Ha; by apply not_elem_of_nil in Ha.
Qed.

Definition mongo_db : Database (Cli.world nat kubeconfig) :=
  NewMongoDB no_spare (starting "1") (λ _ _, ""%string) "db".
Definition mysql_db : Database (Cli.world nat kubeconfig) :=
  NewMysql no_spare (starting "mysqld is alive") (λ _ _, ""%string) (λ _, inl a_rest) (λ _ _, None)
    (λ _ _ _, ret [mkContainer "c" []]) "db" "".

(** The same start: the wait for MySQL succeeds with its second ping, that for
    MongoDB fails with the first. *)
Lemma mongo_WaitUntilUp_witness :
  (WaitUntilUp 0 mysql_db (3 * Minute)%Z db_world).1 = Ret tt ∧
  ∃ w', server w' = 1 ∧
    WaitUntilUp 0 mongo_db (3 * Minute)%Z db_world =
      (Fail (Errorf ("Expected output: " +:+ Quote "1" +:+ " but actual: " +:+ Quote "")), w').
Proof.
  split; [vm_compute; reflexivity|].
  destruct (mongo_WaitUntilUp no_spare (starting "1") (λ _ _, ""%string) "db" 0 (3 * Minute)%Z db_world
    (with_configPath "user.conf" (blank_cli 0 "admin.conf")) (mkFramework "p" (Some "ns"%string) true [])
    (mkExecResult "" "" "" (ExExit 1)) 1 db_inv ltac:(vm_compute; reflexivity) ltac:(vm_compute; reflexivity)
    ltac:(vm_compute; reflexivity) ltac:(done)) as (w' & Hs & H).
  exists w'. split; [exact Hs|exact H].
Defined.
