(* ===== verification/ServiceHelpers.v ===== *)
(** * test/extended/util: routers, endpoints, images and claims

    router.go, endpoints.go, docker.go, volumes.go and assert.go.  The API of
    the cluster and the docker client are operations over a world. *)

From S2P Require Import Prelude.
From S2P Require Import GoStrings.
From S2P Require Import GoLib.
From S2P Require Import Waits.
From S2P Require Import Streams.
From S2P Require Import FrameworkHelpers.

(** ** The address of the router *)

(** corev1.Service: its type, its cluster IP and the addresses of its load
    balancer (IP, host name). *)
Record service := mkService { svc_Type : string; ClusterIP : string; Ingress : list (string * string) }.

Section Router.
Context {W : Type}.
(** The publishing strategy of the default ingress controller; a service; the
    image and the namespace of the router. *)
Variable get_strategy : go W (option string).
Variable get_service : string → string → go W service.
Variable router_image : string → string → string → go W string.

(** A value that a condition sets; not found is waited for, another error
    fails the test. *)
Definition found_or_wait {A B} (m : go W A) (k : A → option B) : go (W * B) bool := λ s,
  match m s.1 with
  | (Ret a, w') => match k a with Some b => (Ret true, (w', b)) | None => (Ret false, (w', s.2)) end
  | (Fail e, w') =>
      if is_kind KNotFound e then (Ret false, (w', s.2))
      else (Panic ("Unexpected error: " +:+ err_msg e), (w', s.2))
  | (Panic m, w') => (Panic m, (w', s.2))
  end.

Definition poll_value {A B} (ticks : nat) (start : B) (m : go W A) (k : A → option B) : go W B := λ w,
  match PollImmediate ticks (found_or_wait m k) (w, start) with
  | (Ret _, (w', b)) => (Ret b, w')
  | (Fail e, (w', _)) => (Fail e, w')
  | (Panic m, (w', _)) => (Panic m, w')
  end.

(* src: test/extended/util/router.go 22-39 routerShouldHaveExternalService *)
Definition routerShouldHaveExternalService : go W bool :=
  poll_value (ticks_of (2 * Second) (30 * Second)) false get_strategy
    (λ st, (λ t, String.eqb t "LoadBalancerService") <$> st).

(** The address a service is reached at, if it has one. *)
(* src: test/extended/util/router.go 64-78 waitForNamedRouterServiceIP (address) *)
Definition service_address (svc : service) : option string :=
  if String.eqb (svc_Type svc) "LoadBalancer" then
    match Ingress svc with
    | [] => None
    | (ip, host) :: _ =>
        if negb (String.eqb ip "") then Some ip
        else if negb (String.eqb host "") then Some host else None
    end
  else Some (ClusterIP svc).

(* src: test/extended/util/router.go 50-81 waitForNamedRouterServiceIP *)
Definition waitForNamedRouterServiceIP (name : string) : go W string :=
  (t <-! GetRouterPodTemplate router_image ;;
   poll_value (ticks_of (2 * Second) Minute) ""%string (get_service t.2 name) service_address)%go.

(* src: test/extended/util/router.go 14-20 WaitForRouterInternalIP, waitForRouterExternalIP *)
Definition WaitForRouterInternalIP : go W string := waitForNamedRouterServiceIP "router-internal-default".
Definition waitForRouterExternalIP : go W string := waitForNamedRouterServiceIP "router-default".

(* src: test/extended/util/router.go 41-48 WaitForRouterServiceIP *)
Definition WaitForRouterServiceIP : go W string :=
  (useExternal <-! routerShouldHaveExternalService ;;
   if useExternal : bool then waitForRouterExternalIP else WaitForRouterInternalIP)%go.

Lemma poll_value_Ret {A B} n start (m : go W A) (k : A → option B) w b w' :
  poll_value n start m k w = (Ret b, w') → ∃ w0 a, m w0 = (Ret a, w') ∧ k a = Some b.
Proof.
  unfold poll_value. destruct (PollImmediate _ _ _) as [[[]|e|p] [w1 b1]] eqn:E; [|done..].
  intros [= <- <-]. apply PollImmediate_Ret in E as [[w0 b0] E]. unfold found_or_wait in E. cbn [fst snd] in E.
  destruct (m w0) as [[a|e|p] w2] eqn:Em; [|by destruct (is_kind _ _)|done].
  destruct (k a) eqn:Ek; simplify_eq. eauto.
Qed.

(** The address that is returned was read from the service the publishing
    strategy asks for, in the namespace of the router. *)
Theorem WaitForRouterServiceIP_spec w addr w' :
  WaitForRouterServiceIP w = (Ret addr, w') →
  ∃ w0 w1 st image ns w2 w3 svc,
    get_strategy w0 = (Ret (Some st), w1) ∧ GetRouterPodTemplate router_image w1 = (Ret (image, ns), w2) ∧
    get_service ns (if String.eqb st "LoadBalancerService" then "router-default" else "router-internal-default") w3
      = (Ret svc, w') ∧
    service_address svc = Some addr.
Proof.
  unfold WaitForRouterServiceIP, routerShouldHaveExternalService. intros (ext & w1 & He & H)%gobind_Ret_inv.
  apply poll_value_Ret in He as (w0 & st & Hst & Hk). destruct st as [st|]; [|done]. injection Hk as <-.
  assert (waitForNamedRouterServiceIP
            (if String.eqb st "LoadBalancerService" then "router-default" else "router-internal-default")%string w1
          = (Ret addr, w')) as Hw by by destruct (String.eqb _ _).
  unfold waitForNamedRouterServiceIP in Hw. apply gobind_Ret_inv in Hw as ([image ns] & w2 & Ht & Hw).
  apply poll_value_Ret in Hw as (w3 & svc & Hsvc & Ha).
  by exists w0, w1, st, image, ns, w2, w3, svc.
Qed.

(** ** Endpoints *)

(** The number of addresses of each subset. *)
(* src: test/extended/util/endpoints.go 11-20 WaitForEndpointsAvailable *)
Definition WaitForEndpointsAvailable (get_subsets : go W (list nat)) : go W unit :=
  Poll (ticks_of (200 * Millisecond) (3 * Minute))
    (r <-! try get_subsets ;;
     match r with
     | inr e => if is_kind KNotFound e then ret false else fail e
     | inl (n :: _) => ret (Nat.ltb 0 n)
     | inl [] => ret false
     end)%go.

(** ** Claims *)

(** A failed listing is only logged; the list it returns is then empty. *)
(* src: test/extended/util/volumes.go 11-27 DeletePVCsForDeployment *)
Definition DeletePVCsForDeployment (list_pvcs : go W (list string)) (delete_pvc : string → go W unit)
    (deploymentPrefix : string) : go W unit :=
  (r <-! try list_pvcs ;;
   for_each (match r with inl l => l | inr _ => [] end)
     (λ pvc, if HasPrefix pvc deploymentPrefix then try (delete_pvc pvc) ;;! ret tt else ret tt))%go.
End Router.

(** ** Images of docker *)

Record docker_image := mkImage { ID : string; RepoTags : list string }.

(** [list_images] lists them, or fails to make the client or to list. *)
(* src: test/extended/util/docker.go 9-26 ListImages *)
Definition ListImages (list_images : list docker_image + error) : list string + error :=
  match list_images with inl l => inl (flat_map RepoTags l) | inr e => inr e end.

(* src: test/extended/util/docker.go 28-34 MissingTagError *)
Definition MissingTagError (Tags : list string) : error :=
  Errorf ("the tag [" +:+ Join Tags " " +:+
          "] passed in was invalid, and not found in the list of images returned from docker").

Definition image_for (l : list docker_image) (comp : string) : option docker_image :=
  find_first (λ im, existsb (λ t, String.eqb t comp) (RepoTags im)) l.

(** The loop over the tags: the identifiers so far and the missing tags. *)
Fixpoint tag_loop (l : list docker_image) (comps returnTags missingTags : list string)
  : list string * list string :=
  match comps with
  | [] => (returnTags, missingTags)
  | comp :: comps' =>
      match image_for l comp with
      | Some im => tag_loop l comps' (returnTags ++ [ID im]) missingTags
      | None => tag_loop l comps' (returnTags ++ [""%string]) (missingTags ++ [comp])
      end
  end.

(** The identifiers are returned with the error of missing tags too. *)
(* src: test/extended/util/docker.go 36-78 GetImageIDForTags *)
Definition GetImageIDForTags (list_images : list docker_image + error) (comps : list string)
  : list string * option error :=
  match list_images with
  | inr e => ([], Some e)
  | inl l =>
      let '(returnTags, missingTags) := tag_loop l comps [] [] in
      (returnTags, if Nat.eqb (length missingTags) 0 then None else Some (MissingTagError missingTags))
  end.

Lemma tag_loop_spec l comps rt mt :
  tag_loop l comps rt mt =
  (rt ++ map (λ c, default ""%string (ID <$> image_for l c)) comps,
   mt ++ bfilter (λ c, match image_for l c with Some _ => false | None => true end) comps).
Proof.
  revert rt mt. induction comps as [|c comps IH]; intros rt mt; cbn [tag_loop map bfilter].
  { by rewrite !app_nil_r. }
  destruct (image_for l c); rewrite IH, <- ?app_assoc; done.
Qed.

(** One identifier per tag, in order, empty for a tag of no image; the error
    names exactly these. *)
Theorem GetImageIDForTags_spec l comps :
  GetImageIDForTags (inl l) comps =
  (map (λ c, default ""%string (ID <$> image_for l c)) comps,
   match bfilter (λ c, match image_for l c with Some _ => false | None => true end) comps with
   | [] => None
   | missing => Some (MissingTagError missing)
   end).
Proof. unfold GetImageIDForTags. rewrite tag_loop_spec. cbn [app]. by destruct (bfilter _ _). Qed.

(** ** Assertions on the result of a poll *)

(** [test] is the text of the running test; the timeout gets the message. *)
(* src: test/extended/util/assert.go 20-32 AssertWaitPollNoErr *)
Definition AssertWaitPollNoErr (test : string) (e : option error) (msg : string) : outcome unit :=
  match e with
  | None => Ret tt
  | Some e =>
      Panic ("case: " +:+ test +:+ nl +:+ "error: " +:+
             (if String.eqb (err_msg e) "timed out waiting for the condition" then msg else err_msg e))
  end.

(* src: test/extended/util/assert.go 40-49 AssertWaitPollWithErr *)
Definition AssertWaitPollWithErr (test : string) (e : option error) (msg : string) : outcome unit :=
  match e with
  | Some _ => Ret tt
  | None => Panic ("case: " +:+ test +:+ nl +:+ "expected error not got because of " +:+ msg)
  end.
