(* ===== verification/OAuthServer.v ===== *)
(** * test/extended/util/oauthserver: an OAuth server deployed by a test

    The tests of identity providers deploy a server of their own, wait for it,
    and request tokens from it with the client of TokenCmd.  The API of the
    cluster is a record of operations; the constant fields of the objects that
    are created are left to it. *)

From S2P Require Import Prelude.
From S2P Require Import GoStrings.
From S2P Require Import GoLib.
From S2P Require Import KubeTypes.
From S2P Require Import Waits.
From S2P Require Import Streams.
From S2P Require Import GoNet.
From S2P Require Import TokenCmd.
From S2P Require Import GoSha256.
From S2P Require Import GoSlice.
From S2P Require Import Cli.
From S2P Require Import Csi.

(** ** Secrets of the sessions *)

(** [draws] are the results of [rand.Intn(25)]. *)
(* src: test/extended/util/oauthserver/oauthserver.go 464-471 randomString *)
Definition randomString (draws : list Z) : string :=
  RawURLEncode (string_of_bytes (map (Z.add 65) draws)).

Definition eq_sign : Ascii.ascii := Ascii.ascii_of_nat 61.
Lemma b64_char_alphabet n : n < 64 → Ascii.eqb (b64_char n) eq_sign = false.
Proof.
  intros Hn. assert (Forall (λ k, Ascii.eqb (b64_char k) eq_sign = false) (seq 0 64)) as H.
  { apply Forall_forall. intros k Hk. by repeat (apply elem_of_cons in Hk as [->|Hk]; [vm_compute; reflexivity|]);
      apply elem_of_nil in Hk. }
  rewrite Forall_forall in H. apply H, elem_of_seq. lia.
Qed.

Lemma url_alphabet_char n s : n < 64 → String.length (url_alphabet (String (b64_char n) s)) = S (String.length (url_alphabet s)).
Proof. intros Hn. cbn [url_alphabet]. by rewrite b64_char_alphabet. Qed.

(** Four characters for three bytes, without padding. *)
Lemma RawURLEncode_length s : String.length (RawURLEncode s) = (4 * String.length s + 2) / 3.
Proof.
  unfold RawURLEncode. induction s as [|a|a b|a b c s IH] using string_ind3; [done|..].
  all: pose proof (bval_lt a).
  all: try pose proof (bval_lt b).
  all: try pose proof (bval_lt c).
  - cbn [EncodeToString]. by rewrite !url_alphabet_char by div_lia.
  - cbn [EncodeToString]. by rewrite !url_alphabet_char by div_lia.
  - cbn [EncodeToString]. rewrite !url_alphabet_char, IH by div_lia. cbn [String.length].
    replace (4 * S (S (S (String.length s))) + 2) with (4 * String.length s + 2 + 4 * 3) by lia.
    rewrite Nat.div_add by lia. lia.
Qed.

Lemma length_string_of_bytes l : String.length (string_of_bytes l) = length l.
Proof. induction l as [|x l IH]; cbn; [done|]. by f_equal. Qed.

(** A random string is longer than the number of its bytes: the keys of 64 and
    32 bytes have 86 and 43 characters. *)
Theorem randomString_length draws :
  String.length (randomString draws) = (4 * length draws + 2) / 3.
Proof. unfold randomString. by rewrite RawURLEncode_length, length_string_of_bytes, length_map. Qed.

(** ** The pod of the server *)

(* src: test/extended/util/oauthserver/helpers.go 52-54 GetDirPathFromConfigMapSecretName *)
Definition GetDirPathFromConfigMapSecretName (name : string) : string := "/var/oauth/configobjects/" +:+ "/" +:+ name.
(* src: test/extended/util/oauthserver/helpers.go 56-58 GetPathFromConfigMapSecretName *)
Definition GetPathFromConfigMapSecretName (name key : string) : string :=
  "/var/oauth/configobjects/" +:+ "/" +:+ name +:+ "/" +:+ key.

Inductive volume := VolConfigMap (name source : string) | VolSecret (name source : string) | VolOther (name : string).
Record mount := mkMount { m_name : string; m_path : string; m_readonly : bool }.
(** The pod of the fixture: its volumes, the mounts and the image of its first
    container. *)
Record oauth_pod := mkOAuthPod { p_volumes : list volume; p_mounts : list mount; p_image : string }.

(* src: test/extended/util/oauthserver/oauthserver.go 282-300 addCMMount *)
Definition addCMMount (vm : list volume * list mount) (cm : string) : list volume * list mount :=
  (vm.1 ++ [VolConfigMap cm cm], vm.2 ++ [mkMount cm (GetDirPathFromConfigMapSecretName cm) true]).
(* src: test/extended/util/oauthserver/oauthserver.go 302-320 addSecretMount *)
Definition addSecretMount (vm : list volume * list mount) (secret : string) : list volume * list mount :=
  (vm.1 ++ [VolSecret secret secret], vm.2 ++ [mkMount secret (GetDirPathFromConfigMapSecretName secret) true]).

(** [template] is the pod read from the fixture. *)
(* src: test/extended/util/oauthserver/oauthserver.go 251-280 oauthServerPod *)
Definition oauthServerPod (template : oauth_pod + error) (configMaps secrets : list string) (image : string)
  : oauth_pod + error :=
  match template with
  | inr e => inr e
  | inl p =>
      let vm := fold_left addSecretMount secrets (fold_left addCMMount configMaps (p_volumes p, p_mounts p)) in
      inl (mkOAuthPod vm.1 vm.2 image)
  end.

Lemma addCMMounts l vm :
  fold_left addCMMount l vm =
  (vm.1 ++ map (λ n, VolConfigMap n n) l,
   vm.2 ++ map (λ n, mkMount n (GetDirPathFromConfigMapSecretName n) true) l).
Proof.
  revert vm. induction l as [|x l IH]; intros [v m]; cbn; [by rewrite !app_nil_r|].
  rewrite IH. cbn. by rewrite <- !app_assoc.
Qed.
Lemma addSecretMounts l vm :
  fold_left addSecretMount l vm =
  (vm.1 ++ map (λ n, VolSecret n n) l,
   vm.2 ++ map (λ n, mkMount n (GetDirPathFromConfigMapSecretName n) true) l).
Proof.
  revert vm. induction l as [|x l IH]; intros [v m]; cbn; [by rewrite !app_nil_r|].
  rewrite IH. cbn. by rewrite <- !app_assoc.
Qed.

(** Every config map and every secret is a volume of the pod, mounted at its
    directory; what the fixture had is kept. *)
Lemma oauthServerPod_mounts p configMaps secrets image pod :
  oauthServerPod (inl p) configMaps secrets image = inl pod →
  p_image pod = image ∧ p_volumes p `prefix_of` p_volumes pod ∧ p_mounts p `prefix_of` p_mounts pod ∧
  (∀ n, n ∈ configMaps → VolConfigMap n n ∈ p_volumes pod) ∧
  (∀ n, n ∈ secrets → VolSecret n n ∈ p_volumes pod) ∧
  (∀ n, n ∈ configMaps ++ secrets → mkMount n (GetDirPathFromConfigMapSecretName n) true ∈ p_mounts pod).
Proof.
  unfold oauthServerPod. rewrite addCMMounts, addSecretMounts. intros [= <-]. cbn.
  split_and!; [done|by do 2 apply prefix_app_r|by do 2 apply prefix_app_r|..];
    intros n; rewrite !list_elem_of_In, !in_app_iff, ?in_map_iff; naive_solver.
Qed.

(** ** The deployment *)

(** The fields of the configuration that are computed; the fixed ones are the
    encoder's. *)
(* src: test/extended/util/oauthserver/oauthserver.go 341-391 oauthServerConfig (config) *)
Record server_config := mkConfig {
  NamedCertificates : list (list string * string * string);   (* names, certificate, key *)
  MasterURL : string;
  MasterPublicURL : string;
  LoginURL : string;
  AssetPublicURL : string;
  IdentityProviders : list string
}.

(** An object outside the namespace of the test. *)
Inductive cluster_object := ClusterRoleBinding (name : string) | OAuthClient (name : string).
#[export] Instance cluster_object_eq_dec : EqDecision cluster_object.
Proof. solve_decision. Defined.

(** What the administrator's clients do: the creations return the name of the
    object. *)
Record oauth_api (W : Type) := mkApi {
  create_binding : string → go W string;
  create_oauthclient : string → string → go W string;         (* name, redirect *)
  create_configmap : string → string → go W unit;             (* namespace, name *)
  create_secret : string → string → go W unit;
  create_server : string → oauth_pod → go W unit;
  session_secret : go W string;                                (* the random draws and their encoding *)
  route_host : string → go W string;
  api_server_url : go W string;
  console_url : go W string;
  router_certs : go W (list string);                           (* domains, in the order of the map *)
  server_pods : go W (list (list string));                     (* images of the containers *)
  allowed : string → go W bool;
  server_pod : string → go W Pod;
  round_trip : string → go W (option Z)                        (* a HEAD request *)
}.
Arguments mkApi {W}. Arguments create_binding {W}. Arguments create_oauthclient {W}. Arguments create_configmap {W}.
Arguments create_secret {W}. Arguments create_server {W}. Arguments session_secret {W}. Arguments route_host {W}.
Arguments api_server_url {W}. Arguments console_url {W}. Arguments router_certs {W}. Arguments server_pods {W}.
Arguments allowed {W}. Arguments server_pod {W}. Arguments round_trip {W}.

Section Deploy.
Context {W K : Type}.
Notation world := (Cli.world W K).
(** The world, and the functions [cleanupFuncs] would run: each deletes an
    object by its name. *)
Notation state := (world * list cluster_object)%type.
Variable spare : nat → nat → nat.
Variable process : string → list string → string → go W exec_result.
Variable cmd_String : string → list string → string.
Variable status_text : Z → string.
Variable api : oauth_api W.
Variable fixture : string → string.               (* the path of a fixture *)
Variable template : oauth_pod + error.
Variable encode : server_config → option string.
(** The ticks before the process of the test is killed. *)
Variable fuel : nat.

Definition on_world {A} (m : go world A) : go state A := λ s,
  let '(r, w) := m s.1 in (r, (w, s.2)).
Definition call {A} (m : go W A) : go state A := on_world (on_server m).
Definition cleanup_later (o : cluster_object) : go state unit := modw (λ s, (s.1, s.2 ++ [o])).

Definition oc_execute (oc : nat) (commands args : list string) : go world (option ExitError) :=
  (a <-! AsAdmin oc ;; p <-! Run spare a commands ;; p <-! Args spare p args ;; Execute process cmd_String p)%go.
Definition oc_or_fail (oc : nat) (commands args : list string) : go world unit :=
  (e <-! oc_execute oc commands args ;;
   match e with Some e => fail (Errorf (status_text (ExitStatus e))) | None => ret tt end)%go.

(* src: test/extended/util/oauthserver/oauthserver.go 394-417 routerCertsToSNIConfig *)
Definition routerCertsToSNIConfig (ns : string) : go state (list (list string * string * string)) :=
  (domains <-! call (router_certs api) ;;
   call (create_secret api ns "router-certs") ;;!
   ret (map (λ domain, (["*." +:+ domain], "/var/config/system/secrets/router-certs/" +:+ domain,
                        "/var/config/system/secrets/router-certs/" +:+ domain)) domains))%go%string.

(* src: test/extended/util/oauthserver/oauthserver.go 322-392 oauthServerConfig *)
Definition oauthServerConfig (ns routeURL : string) (idps : list string) : go state server_config :=
  (login <-! call (api_server_url api) ;;
   console <-! call (console_url api) ;;
   namedRouterCerts <-! routerCertsToSNIConfig ns ;;
   ret (mkConfig namedRouterCerts ("https://test-oauth-svc." +:+ ns +:+ ".svc") routeURL login console idps))%go.

(** The first container of the first pod, if there are any. *)
(* src: test/extended/util/oauthserver/oauthserver.go 473-481 getImage *)
Definition getImage : go state string :=
  (pods <-! call (server_pods api) ;;
   match pods with
   | (image :: _) :: _ => ret image
   | _ => gopanic "index out of range"
   end)%go.

(** An error ends the wait, which has no timeout of its own. *)
(* src: test/extended/util/oauthserver/oauthserver.go 206-219 waitForOAuthServerPodReady *)
Definition waitForOAuthServerPodReady (ns : string) : go state unit :=
  (r <-! try (PollImmediate fuel (pod <-! call (server_pod api ns) ;; ret (CheckPodIsReady pod))) ;;
   match r with
   | inl _ => ret tt
   | inr e => if bool_decide (e = ErrWaitTimeout) then gopanic "killed" else fail e
   end)%go.

(* src: test/extended/util/oauthserver/oauthserver.go 221-249 waitForOAuthServerRouteReady *)
Definition waitForOAuthServerRouteReady (ns : string) : go state unit :=
  (h <-! call (route_host api ns) ;;
   PollImmediate (ticks_of Second Minute)
     (status <-! call (round_trip api ("https://" +:+ h +:+ "/healthz")) ;;
      ret (bool_decide (status = Some 200%Z))))%go.

(* src: test/extended/util/oauthserver/oauthserver.go 196-204 waitForOAuthServerReady *)
Definition waitForOAuthServerReady (ns : string) : go state unit :=
  (WaitForUserBeAuthorized (call (allowed api ("system:serviceaccount:" +:+ ns +:+ ":e2e-oauth"))) ;;!
   waitForOAuthServerPodReady ns ;;!
   waitForOAuthServerRouteReady ns)%go.

(** The body: its last result is the URL and the namespace the options of a
    request are made from. *)
(* src: test/extended/util/oauthserver/oauthserver.go 80-193 DeployOAuthServer (steps) *)
Definition deploy_steps (oc : nat) (idps configMaps secrets : list string) : go state (string * string) :=
  (for_each ["cabundle-cm.yaml"; "oauth-sa.yaml"; "oauth-network.yaml"]
     (λ res, on_world (oc_or_fail oc ["create"] ["-f"; path_Join [fixture "oauthserver"; res]])) ;;!
   ns <-! on_world (Cli.Namespace oc) ;;
   binding <-! call (create_binding api ns) ;;
   cleanup_later (ClusterRoleBinding binding) ;;!
   for_each configMaps (λ cm, call (create_configmap api ns cm)) ;;!
   for_each secrets (λ s, call (create_secret api ns s)) ;;!
   sessionSecret <-! call (session_secret api) ;;
   call (create_secret api ns sessionSecret) ;;!
   host <-! call (route_host api ns) ;;
   let routeURL := "https://" +:+ host in
   config <-! oauthServerConfig ns routeURL idps ;;
   match encode config with
   | None => fail (Errorf "error encoding the OSIN config")
   | Some _ =>
       call (create_configmap api ns "oauth-config") ;;!
       image <-! getImage ;;
       pod <-! of_sum (oauthServerPod template configMaps secrets image) ;;
       call (create_server api ns pod) ;;!
       waitForOAuthServerReady ns ;;!
       client <-! call (create_oauthclient api ns (routeURL +:+ "/oauth/token/implicit")) ;;
       cleanup_later (OAuthClient client) ;;!
       ret (routeURL, ns)
   end)%go%string.

(** The functions that clean up are returned with an error as well; a panic
    returns nothing. *)
(* src: test/extended/util/oauthserver/oauthserver.go 68-194 DeployOAuthServer *)
Definition DeployOAuthServer (oc : nat) (idps configMaps secrets : list string)
  : go world (list cluster_object * ((string * string) + error)) := λ w,
  match deploy_steps oc idps configMaps secrets (w, []) with
  | (Ret r, (w', cl)) => (Ret (cl, inl r), w')
  | (Fail e, (w', cl)) => (Ret (cl, inr e), w')
  | (Panic m, (w', _)) => (Panic m, w')
  end.

Definition delete_args (o : cluster_object) : list string :=
  match o with
  | ClusterRoleBinding n => ["clusterrolebindings.rbac.authorization.k8s.io"; n]
  | OAuthClient n => ["oauthclients.oauth.openshift.io"; n]
  end%string.

(** Each function ignores the error of its command. *)
(* src: test/extended/util/oauthserver/oauthserver.go 73-78 DeployOAuthServer (cleanup) *)
Definition run_cleanup (oc : nat) (cl : list cluster_object) : go world unit :=
  for_each cl (λ o, oc_execute oc ["delete"%string] (delete_args o) ;;! ret tt)%go.

(** ** What is left to clean up *)

(** The objects outside the namespace that exist: only the two creations add
    one, the one whose name they return, and only if they succeed. *)
Class Tracked (created : W → cluster_object → Prop) : Prop := {
  tr_binding ns v o : created (create_binding api ns v).2 o →
    created v o ∨ ∃ n, (create_binding api ns v).1 = Ret n ∧ o = ClusterRoleBinding n;
  tr_oauthclient n u v o : created (create_oauthclient api n u v).2 o →
    created v o ∨ ∃ n', (create_oauthclient api n u v).1 = Ret n' ∧ o = OAuthClient n';
  tr_process path args input v o : created (process path args input v).2 o → created v o;
  tr_configmap ns n v o : created (create_configmap api ns n v).2 o → created v o;
  tr_secret ns n v o : created (create_secret api ns n v).2 o → created v o;
  tr_server ns p v o : created (create_server api ns p v).2 o → created v o;
  tr_session v o : created (session_secret api v).2 o → created v o;
  tr_route ns v o : created (route_host api ns v).2 o → created v o;
  tr_infra v o : created (api_server_url api v).2 o → created v o;
  tr_console v o : created (console_url api v).2 o → created v o;
  tr_certs v o : created (router_certs api v).2 o → created v o;
  tr_pods v o : created (server_pods api v).2 o → created v o;
  tr_allowed u v o : created (allowed api u v).2 o → created v o;
  tr_pod ns v o : created (server_pod api ns v).2 o → created v o;
  tr_round u v o : created (round_trip api u v).2 o → created v o
}.

Section Accounting.
Context (created : W → cluster_object → Prop) `{!Tracked created} (v0 : W).

(** What exists was there before or is cleaned up. *)
Definition covered (l : list cluster_object) (w : world) : Prop :=
  ∀ o, created (server w) o → created v0 o ∨ o ∈ l.
Definition accounted (s : state) : Prop := covered s.2 s.1.

Lemma keeps_covered_same {A} l (m : go world A) : (∀ w, server (m w).2 = server w) → keeps (covered l) m.
Proof. intros H w Hw o. rewrite H. apply Hw. Qed.
Lemma keeps_covered_server {A} l (m : go W A) :
  (∀ v o, created (m v).2 o → created v o) → keeps (covered l) (on_server m).
Proof.
  intros H w Hw o. unfold on_server. specialize (H (server w) o).
  destruct (m (server w)) as [r v]. cbn in *. intros Ho. by apply Hw, H.
Qed.
Lemma keeps_covered_put l c x : keeps (covered l) (put_cli c x).
Proof. by apply keeps_covered_same. Qed.
Lemma keeps_covered_new l x : keeps (covered l) (new_cli x).
Proof. by apply keeps_covered_same. Qed.
Lemma keeps_covered_get l c : keeps (covered l) (get_cli c).
Proof. apply keeps_covered_same. intros w. unfold get_cli. by destruct (clis w !! c). Qed.
Lemma keeps_covered_framework l f : keeps (covered l) (get_framework f).
Proof. apply keeps_covered_same. intros w. unfold get_framework. by destruct (frameworks w !! f). Qed.
Lemma keeps_covered_literal l xs : keeps (covered l) (args_literal xs).
Proof. by apply keeps_covered_same. Qed.
Lemma keeps_covered_append l s xs : keeps (covered l) (args_append spare s xs).
Proof. apply keeps_covered_same. intros w. unfold args_append. by destruct (GoSlice.append _ _ _ _ _). Qed.
Lemma keeps_covered_read l s : keeps (covered l) (args_read s).
Proof. by apply keeps_covered_same. Qed.
Lemma keeps_covered_buffer l : keeps (covered l) new_buffer.
Proof. by apply keeps_covered_same. Qed.
Lemma keeps_covered_mod l (f : world → world) :
  (∀ w, server (f w) = server w) → keeps (covered l) (modw f).
Proof. intros H. by apply keeps_covered_same. Qed.
Lemma keeps_covered_panic {A} l m : keeps (covered l) (gopanic (A := A) m).
Proof. by apply keeps_covered_same. Qed.
Lemma keeps_covered_process l path args input : keeps (covered l) (on_server (process path args input)).
Proof. apply keeps_covered_server. intros v o. apply tr_process. Qed.
Hint Resolve keeps_covered_put keeps_covered_new keeps_covered_get keeps_covered_framework keeps_covered_literal
  keeps_covered_append keeps_covered_read keeps_covered_buffer keeps_covered_mod keeps_covered_panic
  keeps_covered_process : ott.

Ltac covering :=
  repeat first
    [ progress cbv zeta
    | apply keeps_bind; [|intros ?]
    | match goal with
      | |- keeps _ (if ?b then _ else _) => destruct b
      | |- keeps _ (match ?b with _ => _ end) => destruct b
      end
    | by auto with ott ].

Lemma keeps_oc_execute l oc commands args : keeps (covered l) (oc_execute oc commands args).
Proof.
  unfold oc_execute, AsAdmin, Run, Args, Args_slice, Execute, Output, debug, printCmd, final_args, run_process,
    Cli.Namespace, FatalErr. covering.
Qed.

Lemma keeps_accounted_world {A} (m : go world A) : (∀ l, keeps (covered l) m) → keeps accounted (on_world m).
Proof. intros H s Hs. unfold on_world. specialize (H s.2 s.1 Hs). by destruct (m s.1). Qed.

Lemma keeps_accounted_call {A} (m : go W A) : (∀ v o, created (m v).2 o → created v o) → keeps accounted (call m).
Proof. intros H. apply keeps_accounted_world. intros l. by apply keeps_covered_server. Qed.

(** A creation and the function that cleans it up. *)
Lemma create_then_cleanup {B} (m : go W string) (o : string → cluster_object) (k : string → go state B) :
  (∀ v x, created (m v).2 x → created v x ∨ ∃ n, (m v).1 = Ret n ∧ x = o n) →
  (∀ n, keeps accounted (k n)) →
  keeps accounted (n <-! call m ;; cleanup_later (o n) ;;! k n)%go.
Proof.
  intros Hm Hk [w cl] Hs. unfold gobind at 1, call, on_world, on_server. cbn [fst snd].
  specialize (Hm (server w)). destruct (m (server w)) as [[n|e|p] v] eqn:E; cbn [fst snd] in *.
  - apply Hk. intros x Hx. cbn in Hx. destruct (Hm x Hx) as [Hv|(n' & [= <-] & ->)]; cbn.
    + destruct (Hs x Hv) as [?|Hin]; [by left|]. right. apply elem_of_app. by left.
    + right. apply elem_of_app. right. by left.
  - intros x Hx. cbn in Hx. destruct (Hm x Hx) as [Hv|(? & ? & _)]; [by apply Hs|done].
  - intros x Hx. cbn in Hx. destruct (Hm x Hx) as [Hv|(? & ? & _)]; [by apply Hs|done].
Qed.

Lemma keeps_accounted_panic {A} m : keeps accounted (gopanic (A := A) m).
Proof. by intros s Hs. Qed.
Lemma keeps_accounted_oc oc commands args : keeps accounted (on_world (oc_or_fail oc commands args)).
Proof.
  apply keeps_accounted_world. intros l. unfold oc_or_fail. apply keeps_bind; [apply keeps_oc_execute|].
  intros [e|]; [apply keeps_fail|apply keeps_ret].
Qed.
Lemma keeps_accounted_ns oc : keeps accounted (on_world (Cli.Namespace oc)).
Proof. apply keeps_accounted_world. intros l. unfold Cli.Namespace. covering. Qed.
Hint Resolve keeps_accounted_panic keeps_accounted_oc keeps_accounted_ns : ott.

(** A call of the API that creates nothing outside the namespace. *)
Ltac quiet_call := apply keeps_accounted_call; intros ? ?;
  first [apply tr_configmap|apply tr_secret|apply tr_server|apply tr_session|apply tr_route|apply tr_infra
        |apply tr_console|apply tr_certs|apply tr_pods|apply tr_allowed|apply tr_pod|apply tr_round].
Ltac accounting :=
  repeat first
    [ progress cbv zeta
    | apply create_then_cleanup;
      [intros ? ?; first [apply tr_binding|apply tr_oauthclient]|intros ?]
    | apply keeps_for_each; intros ?
    | apply keeps_PollImmediate
    | apply keeps_try
    | apply keeps_bind; [|intros ?]
    | quiet_call
    | match goal with
      | |- keeps _ (if ?b then _ else _) => destruct b
      | |- keeps _ (match ?b with _ => _ end) => destruct b
      end
    | by auto with ott ].

Lemma keeps_deploy_steps oc idps configMaps secrets :
  keeps accounted (deploy_steps oc idps configMaps secrets).
Proof.
  unfold deploy_steps, oauthServerConfig, routerCertsToSNIConfig, getImage, waitForOAuthServerReady,
    waitForOAuthServerPodReady, waitForOAuthServerRouteReady, WaitForUserBeAuthorized. accounting.
Qed.
End Accounting.

(** However the deployment returns, every object outside the namespace that
    exists afterwards was there before or is deleted by one of the functions it
    returns. *)
Theorem DeployOAuthServer_accounted (created : W → cluster_object → Prop) `{!Tracked created}
    oc idps configMaps secrets w cl r w' :
  DeployOAuthServer oc idps configMaps secrets w = (Ret (cl, r), w') →
  ∀ o, created (server w') o → created (server w) o ∨ o ∈ cl.
Proof.
  unfold DeployOAuthServer.
  pose proof (keeps_deploy_steps created (server w) oc idps configMaps secrets (w, []) (λ o Ho, or_introl Ho)) as H.
  destruct (deploy_steps _ _ _ _ _) as [[x|e|m] [w1 cl1]]; intros [= <- <- <-]; exact H.
Qed.
End Deploy.

(** ** Requesting tokens from the server *)

(** [PopulatePKCE] fills in the challenge, or the test panics. *)
(* src: test/extended/util/oauthserver/oauthserver.go 483-498 newRequestTokenOptions *)
Definition newRequestTokenOptions (PopulatePKCE : OsinConfig → OsinConfig + error) (config : restConfig)
    (oauthServerURL oauthClientName username password : string) : outcome RequestTokenOptions :=
  let '(options, _, _) := NewRequestTokenOptions config false username password false in
  let oauthClientConfig :=
    mkOsin oauthClientName (oauthServerURL +:+ "/oauth/authorize") (oauthServerURL +:+ "/oauth/token")
      (oauthServerURL +:+ "/oauth/token/implicit") "" "" "" in
  match PopulatePKCE oauthClientConfig with
  | inr err => Panic (err_msg err)
  | inl c => Ret (mkOptions (ClientConfig options) (Some c) oauthServerURL (TokenFlow options))
  end.

(** ** A deployment whose pod is refused, and one that panics *)

Section Deployment.
Notation W := (list cluster_object).
Definition oauth_process (path : string) (args : list string) (input : string) (v : W) : outcome exec_result * W :=
  (Ret (mkExecResult "" "" "" ExOk), v).
Definition the_pod : oauth_pod := mkOAuthPod [VolOther "data"] [] "".
(** An API whose pods of the present server are [pods]; the new server's pod is
    refused if [refuse] holds. *)
Definition the_api (pods : list (list string)) (refuse : bool) : oauth_api W :=
  mkApi (λ n v, (Ret n, v ++ [ClusterRoleBinding n])) (λ n _ v, (Ret n, v ++ [OAuthClient n]))
    (λ _ _, ret tt) (λ _ _, ret tt) (λ _ _, if refuse then fail (Errorf "refused") else ret tt)
    (ret "session-secret") (λ _, ret "host") (ret "api") (ret "console") (ret ["apps"]) (ret pods)
    (λ _, ret true)
    (λ _, ret (mkPod (mkMeta "" "" "" "" 0 0 None None ∅ ∅) "" "" "Running" "" "" [("Ready", "True")] [] []))%Z
    (λ _, ret (Some 200%Z))%string.
#[local] Instance the_api_tracked pods refuse : Tracked oauth_process (the_api pods refuse) (λ v o, o ∈ v).
Proof.
  constructor; cbn; try done.
  - intros ns v o [?|Ho%list_elem_of_singleton]%elem_of_app; subst; eauto.
  - intros n u v o [?|Ho%list_elem_of_singleton]%elem_of_app; subst; eauto.
  - intros ns p v o. by destruct refuse.
Qed.

Definition oauth_world : Cli.world W unit :=
  set_frameworks [mkFramework "project" (Some "ns") false []]
    (NewCLI (K := unit) "project" "admin" (mkW [] [] [] [] [] ∅ [] [] [])).2.
Definition deploy pods refuse :=
  DeployOAuthServer no_spare oauth_process (λ _ _, "") (λ _, "") (the_api pods refuse) (λ p, "/fixtures/" +:+ p)
    (inl the_pod) (λ _, Some "config") 3 0 [] ["cm"] ["secret"] oauth_world.

Example deployed :
  (deploy [["image"]] false).1 =
  Ret ([ClusterRoleBinding "ns"; OAuthClient "ns"], inl ("https://host", "ns")).
Proof. vm_compute. reflexivity. Qed.

(** No pod of the present server: nobody can delete the role binding. *)
Example deploy_panics :
  (deploy [] false).1 = Panic "index out of range" ∧
  server (deploy [] false).2 = [ClusterRoleBinding "ns"].
Proof. by vm_compute. Qed.

Lemma DeployOAuthServer_accounted_witness :
  (deploy [["image"]] true).1 = Ret ([ClusterRoleBinding "ns"], inr (Errorf "refused")) ∧
  ∀ o, o ∈ server (deploy [["image"]] true).2 → o ∈ @nil cluster_object ∨ o ∈ [ClusterRoleBinding "ns"].
Proof.
  split; [vm_compute; reflexivity|].
  refine (DeployOAuthServer_accounted no_spare oauth_process (λ _ _, "") (λ _, "") (the_api [["image"]] true)
    (λ p, "/fixtures/" +:+ p) (inl the_pod) (λ _, Some "config") 3 (λ v o, o ∈ v) 0 [] ["cm"] ["secret"] oauth_world
    [ClusterRoleBinding "ns"] (inr (Errorf "refused")) _ _).
  vm_compute. reflexivity.
Defined.
End Deployment.
