(* ===== verification/AzureConfig.v ===== *)
(** * test/extended/util/azure: the cloud configuration of Azure

    The tests run outside the cluster, so the configuration that the cluster
    uses is changed to authenticate with the secret of a file.  YAML, JSON and
    the other fields of the configuration are parameters. *)

From S2P Require Import Prelude.
From S2P Require Import GoStrings.
From S2P Require Import GoLib.
From S2P Require Import Suites.

Section Azure.
(** The fields of a configuration that are not touched. *)
Context {X : Type}.

Record Config := mkAzure {
  AADClientID : string;
  AADClientSecret : string;
  UseManagedIdentityExtension : bool;
  UseInstanceMetadata : bool;
  other_fields : X
}.

(** What is read of the file of the credentials. *)
(* src: test/extended/util/azure/config_file.go 85-97 file *)
Record file := mkFile { ClientID : string; ClientSecret : string }.

(** [yaml_Unmarshal] starts from the empty configuration. *)
Variable yaml_Unmarshal : string → Config + error.
Variable yaml_Marshal : Config → string + error.
Variable json_Unmarshal : string → file + error.
(** The client of the cluster; its config map cloud-provider-config, by its
    keys; the environment and the files. *)
Variable client : option error.
Variable config_map : gmap string string + error.
Variable Getenv : string → string.
Variable read_file : string → string + error.

(* src: test/extended/util/azure/config_file.go 47-60 cloudProviderConfigFromCluster *)
Definition cloudProviderConfigFromCluster : Config + error :=
  match config_map with
  | inr err => inr err
  | inl data =>
      match data !! "config"%string with
      | None => inr (Errorf "No cloud provider config was set in openshift-config/cloud-provider-config")
      | Some data => yaml_Unmarshal data
      end
  end.

(* src: test/extended/util/azure/config_file.go 62-83 getAuthFile *)
Definition getAuthFile : file + error :=
  let fileLocation := Getenv "AZURE_AUTH_LOCATION"%string in
  if String.eqb fileLocation "" then inr (Errorf "environment variable AZURE_AUTH_LOCATION is not set")
  else match read_file fileLocation with
  | inr err => inr err
  | inl contents => json_Unmarshal contents
  end.

Definition with_credentials (settings : file) (config : Config) : Config :=
  mkAzure (ClientID settings) (ClientSecret settings) false false (other_fields config).

(* src: test/extended/util/azure/config_file.go 16-45 LoadConfigFile *)
Definition LoadConfigFile : string + error :=
  match client with
  | Some err => inr err
  | None =>
      match cloudProviderConfigFromCluster with
      | inr err => inr err
      | inl config =>
          match getAuthFile with
          | inr err => inr err
          | inl settings => yaml_Marshal (with_credentials settings config)
          end
      end
  end.

(** [LoadConfig] of the cloud package writes the data to a temporary file. *)
(* src: test/extended/util/cloud/cloud.go 88-102 LoadConfig (azure) *)
Definition azure_file (temp_file : string + error) (write : string → string → option error) : string + error :=
  match LoadConfigFile with
  | inr err => inr err
  | inl data =>
      match temp_file with
      | inr err => inr err
      | inl name => match write name data with Some err => inr err | None => inl name end
      end
  end.

(** The data is written with the credentials of the file and is otherwise the
    cluster's: read back, it authenticates with the secret. *)
Theorem LoadConfigFile_reads data settings :
  (∀ c d, yaml_Marshal c = inl d → yaml_Unmarshal d = inl c) →
  LoadConfigFile = inl data → getAuthFile = inl settings →
  ∃ c, yaml_Unmarshal data = inl c ∧
    AADClientID c = ClientID settings ∧ AADClientSecret c = ClientSecret settings ∧
    UseManagedIdentityExtension c = false ∧ UseInstanceMetadata c = false ∧
    ∃ c0, cloudProviderConfigFromCluster = inl c0 ∧ other_fields c = other_fields c0.
Proof.
  intros Hy. unfold LoadConfigFile. destruct client; [done|].
  destruct cloudProviderConfigFromCluster as [c0|e]; [|done].
  intros Hd Hs. rewrite Hs in Hd. apply Hy in Hd. eexists. split; [exact Hd|]. by eauto 10.
Qed.

(** The provider of a cluster on Azure is that of [LoadConfig] with the file
    this writes. *)
Lemma LoadConfig_azure masters nonMasters temp_file write provider cfg :
  Suites.LoadConfig None (inl (Some PAzure)) masters nonMasters (azure_file temp_file write) = inl (Some (provider, cfg)) →
  provider = "azure"%string ∧ ∃ name data, temp_file = inl name ∧ LoadConfigFile = inl data ∧ write name data = None ∧
    ConfigFile cfg = name.
Proof.
  unfold LoadConfig. destruct masters as [labels|]; [|done]. destruct nonMasters; [|done].
  unfold azure_file. destruct LoadConfigFile as [data|]; [|done]. destruct temp_file as [name|]; [|done].
  destruct (write name data) eqn:Ew; [done|]. intros [= <- <-]. by eauto 10.
Qed.
End Azure.
