(* ===== verification/Commands.v ===== *)
(** * cmd/extended-platform-tests/openshift-tests.go: the commands and their flags

    A flag is bound to a field of the options of its command: its default is
    read from the field ([fGet]) and a value the user gives is written to it
    ([fSet]).  The flag parser (pflag) and the choice of the command (cobra) are
    third-party code: the parser is a parameter that yields the typed values of
    the flags and the arguments that are left. *)

From S2P Require Import Prelude.
From S2P Require Import GoStrings.
From S2P Require Import GoLib.
From S2P Require Import TestCase.
From S2P Require Import Status.
From S2P Require Import RunSuite.
From S2P Require Import Suites.

(** ** Flags *)

Inductive flag_value :=
| VBool (b : bool)
| VString (s : string)
| VInt (z : Z)
| VDuration (d : duration)
| VStringSlice (l : list string).

Inductive flag_kind := KBool | KString | KInt | KDuration | KStringSlice.
Definition kind_of (v : flag_value) : flag_kind :=
  match v with
  | VBool _ => KBool | VString _ => KString | VInt _ => KInt | VDuration _ => KDuration
  | VStringSlice _ => KStringSlice
  end.

Record flag (O : Type) := mkFlag {
  fName : string;
  fShorthand : string;
  fGet : O → flag_value;
  fSet : flag_value → O → O;
  fUsage : string
}.
Arguments mkFlag {O}. Arguments fName {O}. Arguments fShorthand {O}.
Arguments fGet {O}. Arguments fSet {O}. Arguments fUsage {O}.

Section Vars.
Context {O : Type}.
Definition BoolVar (get : O → bool) (set : bool → O → O) (name usage : string) : flag O :=
  mkFlag name "" (λ o, VBool (get o)) (λ v o, match v with VBool b => set b o | _ => o end) usage.
Definition StringVarP (get : O → string) (set : string → O → O) (name shorthand usage : string)
  : flag O :=
  mkFlag name shorthand (λ o, VString (get o))
    (λ v o, match v with VString s => set s o | _ => o end) usage.
Definition StringVar get set name usage : flag O := StringVarP get set name "" usage.
Definition IntVar (get : O → Z) (set : Z → O → O) (name usage : string) : flag O :=
  mkFlag name "" (λ o, VInt (get o)) (λ v o, match v with VInt z => set z o | _ => o end) usage.
Definition DurationVar (get : O → duration) (set : duration → O → O) (name usage : string) : flag O :=
  mkFlag name "" (λ o, VDuration (get o))
    (λ v o, match v with VDuration d => set d o | _ => o end) usage.
Definition StringSliceVar (get : O → list string) (set : list string → O → O) (name usage : string)
  : flag O :=
  mkFlag name "" (λ o, VStringSlice (get o))
    (λ v o, match v with VStringSlice l => set l o | _ => o end) usage.

(** What the parser found is written to the fields, in order. *)
Definition flag_named (name : string) (flags : list (flag O)) : option (flag O) :=
  find_first (λ f, String.eqb (fName f) name) flags.
Definition apply_flag (flags : list (flag O)) (o : O) (nv : string * flag_value) : O :=
  match flag_named nv.1 flags with Some f => fSet f nv.2 o | None => o end.
Definition apply_flags (flags : list (flag O)) (given : list (string * flag_value)) (o : O) : O :=
  fold_left (apply_flag flags) given o.
End Vars.

(** Flags of a part of the options. *)
Definition lift_flag {O P} (get : O → P) (set : P → O → O) (f : flag P) : flag O :=
  mkFlag (fName f) (fShorthand f) (λ o, fGet f (get o)) (λ v o, set (fSet f v (get o)) o) (fUsage f).

Section Options.
Context {G : Type}.
Notation Options := (Options (G := G)).

(** One field of the options replaced. *)
Definition set_DryRun (b : bool) (o : Options) : Options :=
  mkOptions (o_Parallelism o) (o_Count o) (o_Timeout o) (JUnitDir o) (TestFile o) (OutFile o) (Regex o)
    (IncludeSuccessOutput o) (Provider o) (SuiteOptions o) (Suites o) b (PrintCommands o).
Definition set_PrintCommands (b : bool) (o : Options) : Options :=
  mkOptions (o_Parallelism o) (o_Count o) (o_Timeout o) (JUnitDir o) (TestFile o) (OutFile o) (Regex o)
    (IncludeSuccessOutput o) (Provider o) (SuiteOptions o) (Suites o) (DryRun o) b.
Definition set_JUnitDir (s : string) (o : Options) : Options :=
  mkOptions (o_Parallelism o) (o_Count o) (o_Timeout o) s (TestFile o) (OutFile o) (Regex o)
    (IncludeSuccessOutput o) (Provider o) (SuiteOptions o) (Suites o) (DryRun o) (PrintCommands o).
Definition set_Provider (s : string) (o : Options) : Options :=
  mkOptions (o_Parallelism o) (o_Count o) (o_Timeout o) (JUnitDir o) (TestFile o) (OutFile o) (Regex o)
    (IncludeSuccessOutput o) s (SuiteOptions o) (Suites o) (DryRun o) (PrintCommands o).
Definition set_TestFile (s : string) (o : Options) : Options :=
  mkOptions (o_Parallelism o) (o_Count o) (o_Timeout o) (JUnitDir o) s (OutFile o) (Regex o)
    (IncludeSuccessOutput o) (Provider o) (SuiteOptions o) (Suites o) (DryRun o) (PrintCommands o).
Definition set_Regex (s : string) (o : Options) : Options :=
  mkOptions (o_Parallelism o) (o_Count o) (o_Timeout o) (JUnitDir o) (TestFile o) (OutFile o) s
    (IncludeSuccessOutput o) (Provider o) (SuiteOptions o) (Suites o) (DryRun o) (PrintCommands o).
Definition set_OutFile (s : string) (o : Options) : Options :=
  mkOptions (o_Parallelism o) (o_Count o) (o_Timeout o) (JUnitDir o) (TestFile o) s (Regex o)
    (IncludeSuccessOutput o) (Provider o) (SuiteOptions o) (Suites o) (DryRun o) (PrintCommands o).
Definition set_Count (z : Z) (o : Options) : Options :=
  mkOptions (o_Parallelism o) z (o_Timeout o) (JUnitDir o) (TestFile o) (OutFile o) (Regex o)
    (IncludeSuccessOutput o) (Provider o) (SuiteOptions o) (Suites o) (DryRun o) (PrintCommands o).
Definition set_Timeout (d : duration) (o : Options) : Options :=
  mkOptions (o_Parallelism o) (o_Count o) d (JUnitDir o) (TestFile o) (OutFile o) (Regex o)
    (IncludeSuccessOutput o) (Provider o) (SuiteOptions o) (Suites o) (DryRun o) (PrintCommands o).
Definition set_IncludeSuccessOutput (b : bool) (o : Options) : Options :=
  mkOptions (o_Parallelism o) (o_Count o) (o_Timeout o) (JUnitDir o) (TestFile o) (OutFile o) (Regex o)
    b (Provider o) (SuiteOptions o) (Suites o) (DryRun o) (PrintCommands o).
Definition set_Parallelism (z : Z) (o : Options) : Options :=
  mkOptions z (o_Count o) (o_Timeout o) (JUnitDir o) (TestFile o) (OutFile o) (Regex o)
    (IncludeSuccessOutput o) (Provider o) (SuiteOptions o) (Suites o) (DryRun o) (PrintCommands o).

(* src: cmd/extended-platform-tests/openshift-tests.go 265-277 bindOptions *)
Definition bindOptions : list (flag Options) :=
  [BoolVar DryRun set_DryRun "dry-run" "Print the tests to run without executing them.";
   BoolVar PrintCommands set_PrintCommands "print-commands"
     "Print the sub-commands that would be executed instead.";
   StringVar JUnitDir set_JUnitDir "junit-dir" "The directory to write test reports to.";
   StringVar Provider set_Provider "provider"
     "The cluster infrastructure provider. Will automatically default to the correct value.";
   StringVarP TestFile set_TestFile "file" "f"
     "Create a suite from the newline-delimited test names in this file.";
   StringVar Regex set_Regex "run" "Regular expression of tests to run.";
   StringVarP OutFile set_OutFile "output-file" "o" "Write all test output to this file.";
   IntVar o_Count set_Count "count"
     "Run each test a specified number of times. Defaults to 1 or the suite's preferred value.";
   DurationVar o_Timeout set_Timeout "timeout"
     "Set the maximum time a test can run before being aborted. This is read from the suite by default, but will be 10 minutes otherwise.";
   BoolVar IncludeSuccessOutput set_IncludeSuccessOutput "include-success"
     "Print output from successful tests.";
   IntVar o_Parallelism set_Parallelism "max-parallel-tests"
     "Maximum number of tests running in parallel. 0 defaults to test suite recommended value, which is different in each suite."]%string.

(* src: cmd/extended-platform-tests/upgrade.go 124-127 bindUpgradeOptions *)
Definition bindUpgradeOptions : list (flag UpgradeOptions) :=
  [StringVar ToImage (λ s o, mkUpgradeOptions (UOSuite o) s (UOJUnitDir o) (TestOptions o)) "to-image"
     "Specify the image to test an upgrade to.";
   StringSliceVar TestOptions (λ l o, mkUpgradeOptions (UOSuite o) (ToImage o) (UOJUnitDir o) l) "options"
     "A set of KEY=VALUE options to control the test. See the help text."]%string.

(** The flags of run-upgrade, on the pair of the two options. *)
Definition upgrade_flags : list (flag (Options * UpgradeOptions)) :=
  map (lift_flag fst (λ o p, (o, p.2))) bindOptions ++
  map (lift_flag snd (λ u p, (p.1, u))) bindUpgradeOptions.
End Options.

(** ** The commands *)

(** cobra.Command: the options a command allocates, its flags on them, and what
    it runs.  The options of different commands have different types. *)
Record Command (W : Type) := mkCommand {
  Use : string;
  Short : string;
  Long : string;
  SilenceUsage : bool;
  SilenceErrors : bool;
  cOptions : Type;
  cInitial : cOptions;
  cFlags : list (flag cOptions);
  RunE : cOptions → list string → go W unit
}.
Arguments mkCommand {W}. Arguments Use {W}. Arguments Short {W}. Arguments Long {W}.
Arguments SilenceUsage {W}. Arguments SilenceErrors {W}. Arguments cOptions {W}.
Arguments cInitial {W}. Arguments cFlags {W}. Arguments RunE {W}.

(** The options of run-test, and what the process was given around them. *)
Record TestCommandOptions := mkTestOptions { t_DryRun : bool }.

Section Commands.
Context {G S : Type}.
Notation W := (S * outputs)%type.
Variable LongDesc : string → string.      (* kubectl's templates.LongDesc *)
Variables staticSuites_ upgradeSuites_ : list (TestSuite G).
(** The steps of the commands, for the options of the command that runs. *)
Variable env : Options (G := G) → command_env (W := S).
Variables open_err close_err : option error.
Variable to_env : UpgradeOptions → go W string.
Variables TEST_PROVIDER TEST_SUITE_OPTIONS : string.
Variable test_env : TestCommandOptions → command_env (W := S).
Variable monitor_run : go W unit.         (* monitor.Options.Run *)

Definition empty_options (suites : list (TestSuite G)) : Options (G := G) :=
  mkOptions 0 0 0 "" "" "" "" false "" "" suites false false.

(* src: cmd/extended-platform-tests/openshift-tests.go 78-98 newRunMonitorCommand *)
Definition newRunMonitorCommand : Command W :=
  mkCommand "run-monitor" "Continuously verify the cluster is functional"
    (LongDesc "
		Run a continuous verification process

		") true true
    unit tt [] (λ _ _, monitor_run).

(* src: cmd/extended-platform-tests/openshift-tests.go 100-138 newRunCommand *)
Definition newRunCommand : Command W :=
  let opt := empty_options staticSuites_ in
  mkCommand "run SUITE" "Run a test suite"
    (LongDesc ("
		Run a test suite against an OpenShift server

		This command will run one of the following suites against a cluster identified by the current
		KUBECONFIG file. See the suite description for more on what actions the suite will take.

		If you specify the --dry-run argument, the names of each individual test that is part of the
		suite will be printed, one per line. You may filter this list and pass it back to the run
		command with the --file argument. You may also pipe a list of test names, one per line, on
		standard input by passing " +:+ Quote "-f -" +:+ ".

		") +:+ SuitesString (Suites opt) (nl +:+ nl +:+ "Available test suites:" +:+ nl +:+ nl)) true true
    (Options (G := G)) opt bindOptions
    (λ opt args, run_RunE (env opt) (OutFile opt) open_err close_err (Provider opt) (DryRun opt) args).

(* src: cmd/extended-platform-tests/openshift-tests.go 140-203 newRunUpgradeCommand *)
Definition newRunUpgradeCommand : Command W :=
  let opt := empty_options upgradeSuites_ in
  mkCommand "run-upgrade SUITE" "Run an upgrade suite"
    (LongDesc "
		Run an upgrade test suite against an OpenShift server

		This command will run one of the following suites against a cluster identified by the current
		KUBECONFIG file. See the suite description for more on what actions the suite will take.

		If you specify the --dry-run argument, the actions the suite will take will be printed to the
		output.

		Supported options:

		* abort-at=NUMBER - Set to a number between 0 and 100 to control the percent of operators
		at which to stop the current upgrade and roll back to the current version.
		* disrupt-reboot=POLICY - During upgrades, periodically reboot master nodes. If set to 'graceful'
		the reboot will allow the node to shut down services in an orderly fashion. If set to 'force' the
		machine will terminate immediately without clean shutdown.

		" +:+ SuitesString (Suites opt) (nl +:+ nl +:+ "Available upgrade suites:" +:+ nl +:+ nl)) true true
    (Options (G := G) * UpgradeOptions) (opt, mkUpgradeOptions "" "" "" []) upgrade_flags
    (λ '(opt, upgradeOpt) args,
       run_upgrade_RunE (env opt) (OutFile opt) open_err close_err (map SuiteName (Suites opt)) upgradeOpt
         (JUnitDir opt) to_env (Provider opt) (DryRun opt) args).

(* src: cmd/extended-platform-tests/openshift-tests.go 205-238 newRunTestCommand *)
Definition newRunTestCommand : Command W :=
  mkCommand "run-test NAME" "Run a single test by name"
    (LongDesc "
		Execute a single test

		This executes a single test by name. It is used by the run command during suite execution but may also
		be used to test in isolation while developing new tests.
		") true true
    TestCommandOptions (mkTestOptions false)
    [BoolVar t_DryRun (λ b _, mkTestOptions b) "dry-run" "Print the test to run without executing them."]
    (λ testOpt args, run_test_RunE (test_env testOpt) TEST_PROVIDER TEST_SUITE_OPTIONS
                       (t_DryRun testOpt) args).

(** The commands of the root command, in the order they are added. *)
Definition root_commands : list (Command W) :=
  [newRunCommand; newRunUpgradeCommand; newRunTestCommand; newRunMonitorCommand].

(** What cobra makes of the arguments: the help of the root command, or the
    command to run, the values of its flags and its arguments. *)
Inductive invocation :=
| ShowHelp
| Run (command : Command W) (given : list (string * flag_value)) (args : list string).

Definition write_stderr (s : string) (w : W) : W :=
  (w.1, mkOutputs (stdout w.2) (stderr w.2 +:+ s) (outfile w.2)).

Definition execute (i : invocation + error) (help : W → W) : go W unit :=
  match i with
  | inr e => fail e
  | inl ShowHelp => modw help
  | inl (Run c given args) => RunE c (apply_flags (cFlags c) given (cInitial c)) args
  end.

(** The exit status of the process, and its last words. *)
(* src: cmd/extended-platform-tests/openshift-tests.go 36-76 main *)
Definition main (parse : list (Command W) → list string → invocation + error) (help : W → W)
    (os_args : list string) (w : W) : Z * W :=
  let '(r, w') := execute (parse root_commands os_args) help w in
  (exit_status r,
   match r with
   | Fail e =>
       match err_kind_of e with
       | KExit _ => w'
       | _ => write_stderr ("error: " +:+ err_msg e +:+ nl) w'
       end
   | _ => w'
   end).

End Commands.

(** ** Properties *)

(** The laws of a flag against another one of the same options. *)
Definition own_field {O} (f : flag O) : Prop := ∀ v o,
  kind_of v = kind_of (fGet f o) → fGet f (fSet f v o) = v.
Definition independent {O} (f g : flag O) : Prop := ∀ v o, fGet g (fSet f v o) = fGet g o.
Definition flags_ok {O} (flags : list (flag O)) : Prop :=
  NoDup (map fName flags) ∧
  NoDup (bfilter (λ s, negb (String.eqb s "")) (map fShorthand flags)) ∧
  (∀ f, f ∈ flags → own_field f) ∧
  (∀ f g, f ∈ flags → g ∈ flags → fName f ≠ fName g → independent f g).

(** Checks the laws flag by flag. *)
Ltac solve_flags :=
  split_and!;
  [ apply (bool_decide_unpack _); vm_compute; exact I
  | apply (bool_decide_unpack _); vm_compute; exact I
  | intros f Hf v o Hk;
    repeat (apply elem_of_cons in Hf as [->|Hf]; [destruct v; by simplify_eq/=|]);
    by apply elem_of_nil in Hf
  | intros f g Hf Hg Hne v o;
    repeat (apply elem_of_cons in Hf as [->|Hf];
      [repeat (apply elem_of_cons in Hg as [->|Hg]; [by destruct v|]); by apply elem_of_nil in Hg|]);
    by apply elem_of_nil in Hf ].

Lemma bindOptions_ok G : flags_ok (bindOptions (G := G)).
Proof. solve_flags. Qed.

Lemma bindUpgradeOptions_ok : flags_ok bindUpgradeOptions.
Proof. solve_flags. Qed.

Lemma upgrade_flags_ok G : flags_ok (upgrade_flags (G := G)).
Proof. unfold upgrade_flags, bindOptions, bindUpgradeOptions. cbn [map app]. solve_flags. Qed.

Lemma flag_named_eq {O} (flags : list (flag O)) f :
  NoDup (map fName flags) → f ∈ flags → flag_named (fName f) flags = Some f.
Proof.
  intros Hnd Hf. destruct (flag_named (fName f) flags) as [g|] eqn:E.
  - apply find_first_Some in E as [Hg Hn]. apply String.eqb_eq in Hn.
    apply list_elem_of_lookup_1 in Hf as [i Hi], Hg as [j Hj].
    assert (i = j) as ->; [|congruence].
    eapply (NoDup_lookup (map fName flags)); [done|..]; rewrite list_lookup_fmap; [by rewrite Hi|].
    rewrite Hj. cbn. by rewrite Hn.
  - unfold flag_named in E. rewrite find_first_None in E. specialize (E f Hf). cbn in E.
    by rewrite String.eqb_refl in E.
Qed.

(** The value given for a name, if any. *)
Definition given_value (given : list (string * flag_value)) (name : string) : option flag_value :=
  snd <$> find_first (λ nv, String.eqb nv.1 name) given.

(** The values given fit the flags: each name is a flag's and occurs once. *)
Definition fits {O} (flags : list (flag O)) (given : list (string * flag_value)) : Prop :=
  NoDup given.*1 ∧
  Forall (λ nv, ∃ f, f ∈ flags ∧ fName f = nv.1 ∧ ∀ o, kind_of (fGet f o) = kind_of nv.2) given.

Lemma apply_flags_spec {O} (flags : list (flag O)) given o f :
  flags_ok flags → fits flags given → f ∈ flags →
  fGet f (apply_flags flags given o) = default (fGet f o) (given_value given (fName f)).
Proof.
  intros (Hnd & _ & Hown & Hind) [Hg Hfit] Hf. unfold apply_flags. revert o Hg Hfit.
  induction given as [|[n v] given IH]; intros o Hg Hfit; [done|].
  cbn in Hg. apply NoDup_cons in Hg as [Hn Hg]. inversion Hfit as [|? ? [g (Hgf & Hgn & Hk)] Hfit']; subst.
  cbn [fst snd] in *. cbn [fold_left].
  assert (apply_flag flags o (n, v) = fSet g v o) as ->.
  { unfold apply_flag. cbn [fst snd]. by rewrite <- Hgn, flag_named_eq. }
  rewrite IH by done. unfold given_value. cbn [find_first fst].
  destruct (String.eqb_spec n (fName f)) as [->|Hne].
  - assert (g = f) as ->.
    { pose proof (flag_named_eq flags g Hnd Hgf) as H1. rewrite Hgn in H1.
      rewrite flag_named_eq in H1 by done. congruence. }
    assert (find_first (λ nv : string * flag_value, String.eqb nv.1 (fName f)) given = None) as ->.
    { apply find_first_None. intros x Hx. apply String.eqb_neq. intros Hxe. apply Hn.
      rewrite <- Hxe. by apply list_elem_of_fmap_2. }
    cbn. apply (Hown f Hf). by rewrite Hk.
  - assert (fGet f (fSet g v o) = fGet f o) as -> by (apply (Hind g f Hgf Hf); congruence).
    done.
Qed.

Definition given_bool given name (d : bool) : bool :=
  match given_value given name with Some (VBool b) => b | _ => d end.
Definition given_string given name (d : string) : string :=
  match given_value given name with Some (VString s) => s | _ => d end.
Definition given_int given name (d : Z) : Z :=
  match given_value given name with Some (VInt z) => z | _ => d end.
Definition given_duration given name (d : duration) : duration :=
  match given_value given name with Some (VDuration t) => t | _ => d end.
Definition given_slice given name (d : list string) : list string :=
  match given_value given name with Some (VStringSlice l) => l | _ => d end.

Lemma given_bool_eq given name x d :
  VBool x = default (VBool d) (given_value given name) → x = given_bool given name d.
Proof. unfold given_bool. destruct (given_value given name); cbn; intros H; by simplify_eq. Qed.
Lemma given_string_eq given name x d :
  VString x = default (VString d) (given_value given name) → x = given_string given name d.
Proof. unfold given_string. destruct (given_value given name); cbn; intros H; by simplify_eq. Qed.
Lemma given_int_eq given name x d :
  VInt x = default (VInt d) (given_value given name) → x = given_int given name d.
Proof. unfold given_int. destruct (given_value given name); cbn; intros H; by simplify_eq. Qed.
Lemma given_duration_eq given name x d :
  VDuration x = default (VDuration d) (given_value given name) → x = given_duration given name d.
Proof. unfold given_duration. destruct (given_value given name); cbn; intros H; by simplify_eq. Qed.
Lemma given_slice_eq given name x d :
  VStringSlice x = default (VStringSlice d) (given_value given name) → x = given_slice given name d.
Proof. unfold given_slice. destruct (given_value given name); cbn; intros H; by simplify_eq. Qed.

(** No flag of run-upgrade is bound to these fields. *)
Lemma upgrade_flags_frame G given (p : Options (G := G) * UpgradeOptions) :
  let p' := apply_flags upgrade_flags given p in
  SuiteOptions p'.1 = SuiteOptions p.1 ∧ Suites p'.1 = Suites p.1 ∧
  UOSuite p'.2 = UOSuite p.2 ∧ UOJUnitDir p'.2 = UOJUnitDir p.2.
Proof.
  unfold apply_flags. revert p. induction given as [|[n v] given IH]; intros p; [done|].
  cbn [fold_left]. destruct (IH (apply_flag upgrade_flags p (n, v))) as (-> & -> & -> & ->).
  unfold apply_flag. cbn [fst snd]. destruct (flag_named n upgrade_flags) as [f|] eqn:E; [|done].
  apply find_first_Some in E as [Hf _]. unfold upgrade_flags, bindOptions, bindUpgradeOptions in Hf.
  cbn [map app] in Hf.
  repeat (apply elem_of_cons in Hf as [->|Hf]; [by destruct v|]). by apply elem_of_nil in Hf.
Qed.

(** C40: what the flags of run-upgrade (those of run among them) do to the two
    options of the command: when the parser has found each flag at most once,
    with a value of its type, the options end with the value given for
    --max-parallel-tests as the parallelism, for --count as the count, and so
    on, field by field; a field whose flag was not given keeps its default and
    the fields without a flag are not touched.  The names and shorthands of the
    flags are those written here, -f for --file and -o for --output-file, and
    are distinct, as pflag demands. *)
Theorem upgrade_flags_control G given (o : Options (G := G)) (u : UpgradeOptions) :
  fits (upgrade_flags (G := G)) given →
  apply_flags upgrade_flags given (o, u) =
    (mkOptions (given_int given "max-parallel-tests" (o_Parallelism o))
       (given_int given "count" (o_Count o)) (given_duration given "timeout" (o_Timeout o))
       (given_string given "junit-dir" (JUnitDir o)) (given_string given "file" (TestFile o))
       (given_string given "output-file" (OutFile o)) (given_string given "run" (Regex o))
       (given_bool given "include-success" (IncludeSuccessOutput o))
       (given_string given "provider" (Provider o)) (SuiteOptions o) (Suites o)
       (given_bool given "dry-run" (DryRun o)) (given_bool given "print-commands" (PrintCommands o)),
     mkUpgradeOptions (UOSuite u) (given_string given "to-image" (ToImage u)) (UOJUnitDir u)
       (given_slice given "options" (TestOptions u))) ∧
  map (λ f, (fName f, fShorthand f)) (upgrade_flags (G := G)) =
    [("dry-run", ""); ("print-commands", ""); ("junit-dir", ""); ("provider", ""); ("file", "f");
     ("run", ""); ("output-file", "o"); ("count", ""); ("timeout", ""); ("include-success", "");
     ("max-parallel-tests", ""); ("to-image", ""); ("options", "")]%string ∧
  flags_ok (upgrade_flags (G := G)).
Proof.
  intros Hg. split; [|split; [done|apply upgrade_flags_ok]].
  assert (∀ i f, upgrade_flags (G := G) !! i = Some f →
    fGet f (apply_flags upgrade_flags given (o, u)) = default (fGet f (o, u)) (given_value given (fName f)))
    as H by (intros i f Hi; apply apply_flags_spec;
               [apply upgrade_flags_ok|done|by eapply list_elem_of_lookup_2]).
  destruct (upgrade_flags_frame G given (o, u)) as (F1 & F2 & F3 & F4).
  set (p := apply_flags _ _ _) in *. clearbody p. destruct p as [[] []]. cbn in F1, F2, F3, F4. subst.
  f_equal; f_equal.
  - exact (given_int_eq _ _ _ _ (H 10 _ eq_refl)).
  - exact (given_int_eq _ _ _ _ (H 7 _ eq_refl)).
  - exact (given_duration_eq _ _ _ _ (H 8 _ eq_refl)).
  - exact (given_string_eq _ _ _ _ (H 2 _ eq_refl)).
  - exact (given_string_eq _ _ _ _ (H 4 _ eq_refl)).
  - exact (given_string_eq _ _ _ _ (H 6 _ eq_refl)).
  - exact (given_string_eq _ _ _ _ (H 5 _ eq_refl)).
  - exact (given_bool_eq _ _ _ _ (H 9 _ eq_refl)).
  - exact (given_string_eq _ _ _ _ (H 3 _ eq_refl)).
  - exact (given_bool_eq _ _ _ _ (H 0 _ eq_refl)).
  - exact (given_bool_eq _ _ _ _ (H 1 _ eq_refl)).
  - exact (given_string_eq _ _ _ _ (H 11 _ eq_refl)).
  - exact (given_slice_eq _ _ _ _ (H 12 _ eq_refl)).
Qed.

Example upgrade_flags_control_witness :
  let given := [("count", VInt 3); ("to-image", VString "img"); ("dry-run", VBool true)]%string in
  fits (upgrade_flags (G := unit)) given ∧
  apply_flags upgrade_flags given (empty_options (G := unit) [], mkUpgradeOptions "" "" "" []) =
    (mkOptions 0 3 0 "" "" "" "" false "" "" [] true false, mkUpgradeOptions "" "img" "" []).
Proof.
  intros given. assert (fits (upgrade_flags (G := unit)) given) as Hf.
  { split; [apply (bool_decide_unpack _); vm_compute; exact I|].
    assert (∀ i f, upgrade_flags (G := unit) !! i = Some f → f ∈ upgrade_flags) as H
      by (intros i f; apply list_elem_of_lookup_2).
    repeat apply Forall_cons_2; [| | |constructor];
      [eexists; split; [apply (H 7); reflexivity|by split]
      |eexists; split; [apply (H 11); reflexivity|by split]
      |eexists; split; [apply (H 0); reflexivity|by split]]. }
  split; [done|].
  etransitivity; [apply (proj1 (upgrade_flags_control unit given _ _ Hf))|vm_compute; reflexivity].
Defined.

(** *** Mirroring *)

Section Mirror.
Context {S : Type}.
Notation W := (S * outputs)%type.

(** A function that writes a sequence of texts, each to [Out] (true) or to
    [ErrOut], and ends with an outcome. *)
Definition write_one (mirrored : bool) (o : outputs) (x : bool * string) : outputs :=
  if x.1 then write_Out mirrored x.2 o else write_ErrOut mirrored x.2 o.
Definition writes (l : list (bool * string)) (r : outcome unit) (mirrored : bool) : go W unit :=
  λ w, (r, (w.1, fold_left (write_one mirrored) l w.2)).

Definition texts (which : bool → bool) (l : list (bool * string)) : string :=
  String.concat "" (map snd (bfilter (λ x, which x.1) l)).

Lemma concat_cons s l : String.concat "" (s :: l) = s +:+ String.concat "" l.
Proof. destruct l; cbn; [by rewrite str_app_nil_r|done]. Qed.

Lemma fold_writes m l o :
  fold_left (write_one m) l o =
  mkOutputs (stdout o +:+ texts id l) (stderr o +:+ texts negb l)
    (if m then (λ f, f +:+ texts (λ _, true) l) <$> outfile o else outfile o).
Proof.
  revert o. induction l as [|[b s] l IH]; intros [so se f].
  - cbn. unfold texts. cbn. rewrite !str_app_nil_r. destruct m, f; cbn; by rewrite ?str_app_nil_r.
  - cbn [fold_left]. rewrite IH. unfold texts. cbn [bfilter map fst snd].
    destruct b, m, f; cbn -[String.concat String.append]; rewrite ?concat_cons, ?str_app_assoc; done.
Qed.

(** With an output file everything the command writes to either stream goes
    to that stream and, in the order of writing, to the file, which ends with
    the error the command returns; without one the streams alone are written.
    The result is the command's, unless the file cannot be opened. *)
Theorem mirrorToFile_copy file open_err close_err l r (s : S) so se :
  let '(res, (s', o)) := mirrorToFile file open_err close_err (writes l r) (s, mkOutputs so se None) in
  if String.eqb file "" then
    res = r ∧ o = mkOutputs (so +:+ texts id l) (se +:+ texts negb l) None
  else match open_err with
  | Some e => res = Fail e ∧ o = mkOutputs so se None
  | None => res = r ∧ stdout o = so +:+ texts id l ∧
      outfile o = Some (texts (λ _, true) l +:+
        match r with Fail e => "error: " +:+ err_msg e | _ => "" end) ∧
      stderr o = se +:+ texts negb l +:+
        (if match r with Panic _ => false | _ => bool_decide (is_Some close_err) end
         then "error: Unable to close output file" +:+ nl else "")
  end.
Proof.
  unfold mirrorToFile, writes, fail. destruct file as [|c file]; cbn [String.length Nat.eqb String.eqb].
  { cbn [fst snd]. by rewrite fold_writes. }
  destruct open_err as [e|]; [done|]. cbn [fst snd stdout stderr]. rewrite fold_writes. cbn [outfile fmap option_fmap option_map].
  destruct r as [[]|e|m], close_err as [e'|]; cbn -[String.append]; 
    rewrite ?str_app_nil_r, ?str_app_nil_l, ?str_app_assoc; done.
Qed.
End Mirror.
