(* ===== verification/Programs.v ===== *)
(** * examples/hello-openshift, examples/deployment and pkg/version

    The two example servers and the version of a build.  A handler is the text
    it writes to the response and what it prints; the environment and the
    arguments of the process are parameters, and so is the outcome of listening
    on a port. *)

From S2P Require Import Prelude.
From S2P Require Import GoStrings.
From S2P Require Import GoLib.
From Stdlib Require Import Ascii.

(** ** Formats with indexed operands *)

(** [fmt.Sprintf] for a format made of text, [%%] and [%[n]s]. *)
Fixpoint Sprintf_indexed (fmt : string) (args : list string) : string :=
  match fmt with
  | EmptyString => ""
  | String c rest =>
      if negb (Ascii.eqb c "%") then String c (Sprintf_indexed rest args)
      else match rest with
      | String d rest' =>
          if Ascii.eqb d "%" then String "%" (Sprintf_indexed rest' args)
          else match rest' with
          | String n (String "]" (String "s" rest'')) =>
              default "%!s(BADINDEX)" (args !! (nat_of_ascii n - 49)) +:+ Sprintf_indexed rest'' args
          | _ => String c (Sprintf_indexed rest args)
          end
      | EmptyString => "%!(NOVERB)"
      end
  end.

(** Text written with apostrophes for quotation marks. *)
Definition quoted (s : string) : string := Replace s "'" dquote.

(** ** examples/deployment/deployment.go *)

Module Deployment.
(* src: examples/deployment/deployment.go 10-14 version, subtitle, color *)
Record vars := mkVars { version : string; subtitle : string; color : string }.

(* src: examples/deployment/deployment.go 16-33 htmlContent *)
Definition htmlContent : string := quoted "<!DOCTYPE html>
<html lang='en'>
<head>
  <meta charset='utf-8'>
  <title>Deployment Demonstration</title>
  <meta name='viewport' content='width=device-width, initial-scale=1.0'>
  <style>
    HTML{height:100%%;}
    BODY{font-family:Helvetica,Arial;display:flex;display:-webkit-flex;align-items:center;justify-content:center;-webkit-align-items:center;-webkit-box-align:center;-webkit-justify-content:center;height:100%%;}
    .box{background:%[3]s;color:white;text-align:center;border-radius:10px;display:inline-block;}
    H1{font-size:10em;line-height:1.5em;margin:0 0.5em;}
    H2{margin-top:0;}
  </style>
</head>
<body>
<div class='box'><h1>%[1]s</h1><h2>%[2]s</h2></div>
</body>
</html>".

(* src: examples/deployment/deployment.go 35-37 deploymentHandler *)
Definition deploymentHandler (v : vars) : string :=
  Sprintf_indexed htmlContent [version v; subtitle v; color v].

(* src: examples/deployment/deployment.go 39-41 healthHandler *)
Definition healthHandler : string := "ok" +:+ nl.

(** The handler of a clean path: the pattern "/" takes what no other does. *)
Definition serve (v : vars) (path : string) : string :=
  if String.eqb path "/_healthz" then healthHandler else deploymentHandler v.

(** The variables the server runs with, what it logs, and the error that ends
    it. *)
(* src: examples/deployment/deployment.go 43-60 main *)
Definition main (os_args : list string) (Getenv : string → string) (listen : string → error)
  : vars * string * error :=
  let version := match os_args with _ :: v :: _ => v | _ => "v1"%string end in
  let subtitle := Getenv "SUBTITLE" in
  let color := let c := Getenv "COLOR" in if String.eqb c "" then "#303030"%string else c in
  (mkVars version subtitle color, "Listening on :8080 at " +:+ version +:+ " ...", listen ":8080"%string).
End Deployment.

(** ** examples/hello-openshift/hello_openshift.go *)

Module Hello.
(** The response and what is printed. *)
(* src: examples/hello-openshift/hello_openshift.go 9-17 helloHandler *)
Definition helloHandler (Getenv : string → string) : string * string :=
  let response := Getenv "RESPONSE" in
  let response := if String.eqb response "" then "Hello OpenShift!"%string else response in
  (response +:+ nl, "Servicing request." +:+ nl).

(** [None]: the server goes on; the state is the output. *)
(* src: examples/hello-openshift/hello_openshift.go 19-25 listenAndServe *)
Definition listenAndServe (ListenAndServe : string → option error) (port : string) : go string unit :=
  (modw (λ out, out +:+ "serving on " +:+ port +:+ nl) ;;!
   match ListenAndServe (":" +:+ port) with
   | Some err => gopanic ("ListenAndServe: " +:+ err_msg err)
   | None => ret tt
   end)%go.

(** The ports of the two goroutines; the main goroutine blocks for ever. *)
(* src: examples/hello-openshift/hello_openshift.go 27-42 main *)
Definition main (Getenv : string → string) (ListenAndServe : string → option error)
  : list (go string unit) :=
  let port := Getenv "PORT" in
  let port := if String.eqb port "" then "8080"%string else port in
  let second := Getenv "SECOND_PORT" in
  let second := if String.eqb second "" then "8888"%string else second in
  [listenAndServe ListenAndServe port; listenAndServe ListenAndServe second].
End Hello.

(** ** pkg/version/version.go *)

Module Version.
(** The variables the linker sets. *)
(* src: pkg/version/version.go 28-43 commitFromGit *)
Record build := mkBuild {
  commitFromGit : string;
  versionFromGit : string;
  majorFromGit : string;
  minorFromGit : string;
  buildDate : string;
  gitTreeState : string
}.
Definition unset : build := mkBuild "" "unknown" "" "" "" "".

(** version.Info of apimachinery *)
Record Info := mkInfo {
  Major : string; Minor : string; GitVersion : string; GitCommit : string; GitTreeState : string;
  BuildDate : string; GoVersion : string; Compiler : string; Platform : string
}.

(** The Go runtime that built the program. *)
Record runtime := mkRuntime { rVersion : string; rCompiler : string; GOOS : string; GOARCH : string }.

(* src: pkg/version/version.go 47-59 Get *)
Definition Get (b : build) (r : runtime) : Info :=
  mkInfo (majorFromGit b) (minorFromGit b) (versionFromGit b) (commitFromGit b) (gitTreeState b)
    (buildDate b) (rVersion r) (rCompiler r) (GOOS r +:+ "/" +:+ GOARCH r).

(** A gauge with its labels; [WithLabelValues] panics when the numbers of
    labels and values differ. *)
Record gauge := mkGauge { gName : string; gLabels : list (string * string); gValue : Z }.
Definition WithLabelValues (name : string) (labels values : list string) (v : Z) : outcome gauge :=
  if Nat.eqb (length labels) (length values) then Ret (mkGauge name (zip labels values) v)
  else Panic "inconsistent label cardinality".

(** The gauge that is registered; the error of [Register] is ignored. *)
(* src: pkg/version/version.go 61-73 init *)
Definition init (b : build) : outcome gauge :=
  WithLabelValues "openshift_build_info" ["major"; "minor"; "gitCommit"; "gitVersion"]%string
    [majorFromGit b; minorFromGit b; commitFromGit b; versionFromGit b] 1.
End Version.

(** ** Properties *)

Lemma Sprintf_indexed_text s fmt args :
  str_free "%" s = true → Sprintf_indexed (s +:+ fmt) args = s +:+ Sprintf_indexed fmt args.
Proof.
  induction s as [|c s IH]; [done|]. cbn [str_free]. intros H. propify.
  rewrite !str_app_cons. cbn [Sprintf_indexed]. by rewrite H, IH.
Qed.

Definition page_head : string := quoted "<!DOCTYPE html>
<html lang='en'>
<head>
  <meta charset='utf-8'>
  <title>Deployment Demonstration</title>
  <meta name='viewport' content='width=device-width, initial-scale=1.0'>
  <style>
    HTML{height:100%;}
    BODY{font-family:Helvetica,Arial;display:flex;display:-webkit-flex;align-items:center;justify-content:center;-webkit-align-items:center;-webkit-box-align:center;-webkit-justify-content:center;height:100%;}
    .box{background:".
Definition page_style : string := quoted ";color:white;text-align:center;border-radius:10px;display:inline-block;}
    H1{font-size:10em;line-height:1.5em;margin:0 0.5em;}
    H2{margin-top:0;}
  </style>
</head>
<body>
<div class='box'><h1>".
Definition page_tail : string := "</h2></div>
</body>
</html>".

(** The page is the template with the colour, the version and the subtitle in
    their places, each written as it is (a percent sign or a tag in a value is
    neither expanded nor escaped); only the health path is answered otherwise. *)
Theorem deployment_page os_args Getenv listen path :
  let '(v, _, _) := Deployment.main os_args Getenv listen in
  Deployment.serve v path =
  if String.eqb path "/_healthz" then "ok" +:+ nl
  else page_head +:+ Deployment.color v +:+ page_style +:+ Deployment.version v +:+ "</h1><h2>" +:+
       Deployment.subtitle v +:+ page_tail.
Proof.
  cbn [Deployment.main]. set (v := Deployment.mkVars _ _ _). unfold Deployment.serve.
  destruct (String.eqb path "/_healthz"); [done|]. unfold Deployment.deploymentHandler.
  generalize (Deployment.version v), (Deployment.subtitle v), (Deployment.color v). clear.
  intros a b c. vm_compute. done.
Qed.
